(* ===== verification/_CoqProject ===== *)
-Q . S2P
Prelude.v
GoStrings.v
Decimal.v
Fmt.v
Console.v
Utf8.v
Posix.v
Shell.v
ShellLine.v
Paths.v
Opid.v
Rsync.v
Json.v
Rclone.v
Archive.v
Stream.v
ArchiveTarget.v
Workload.v
Interleaving.v
World.v
Link.v
Pvc.v
Migration.v
Mover.v
HelmValues.v
Chart.v
ChartFiles.v
NetAddr.v
Strategy.v
Peek.v
LogReopen.v
Migrator.v
Flush.v
BucketRequest.v
SnapshotSource.v
BucketPlan.v
Bucket.v
JobScript.v
ChartValues.v
Jobs.v
Diagnostics.v
Regex.v
Float64.v
Progress.v
Session.v
Evidence.v
WholeMigration.v
WholeBucket.v
Follower.v
PortForwards.v
Tunnel.v
App.v
SnapshotClient.v
Waits.v
Story.v
FlushSession.v
Narrate.v
Api.v
Lens.v
Flags.v
CommandLine.v
Completions.v
Main.v
KubeClient.v
CliReference.v
Ssh.v
