(* ===== verification/Prelude.v ===== *)
(** * pv-migrate: verification library

    pv-migrate copies the data of one Kubernetes PersistentVolumeClaim to another
    and backs a claim up to, or restores it from, an object store or an archive
    file.  It does so by installing a Helm release whose pods mount the claims and
    run a data mover (rsync, tar or rclone) from a command line built in Go, then
    waiting for the Job and uninstalling the release.  This library is a shallow
    embedding of the Go code under src/internal, src/pvmigrate and src/cmd: each function is a Rocq function
    of the same name, over records of the same fields, with the same guards in the
    same order, and the theorems are about those functions.

    ** The parts of the program and their files

    What the rest builds on:
    - Prelude (this file): errors as unrendered trees ([error_has] is [errors.Is]
      and [errors.As]), [result] for a value-and-error pair, shared tactics.
    - GoStrings, Decimal, Fmt, Utf8: the functions of Go's strings, strconv, fmt
      and unicode/utf8 the source calls, with their laws.
    - Posix, ShellLine: a specification, not code of the repository.  [shell_words]
      is how a POSIX shell cuts a line into words, [run_line] which commands of a
      line are started and what status it exits with, over an arbitrary oracle of
      exit codes.  Both answer [None] on anything they do not cover, so a theorem
      that a line lexes also says that nothing else in it is special.
    - Json: encoding/json's scanner and Compact, which Rclone puts the JSON of a
      service account on one line with; what it returns is one trimmed line, and
      compacting it again changes nothing.
    - Regex, Float64: Go's regexp (leftmost match, captures, as a matcher with a
      declarative specification) and float64 (rounding to 53 bits over the
      rationals), as far as the progress parsers use them.
    - World: calls to the outside (API server, Helm, exec sessions, output) as the
      type [call], programs as trees of calls ([io]), [exec] against a handler that
      answers each call as it likes, and two logics: [wp] for a property of the
      trace, [mwp] for a protocol given as a state machine over calls.  Link puts the
      program of a component in the place of the calls to it, and relates the runs of
      the linked program to those of its client ([Link.link_refines]).

    Pure components:
    - Shell (internal/shell/quote.go), Paths (strategy/paths.go, the path checks of
      bucketstorage), Opid (internal/opid and every name derived from an
      identifier), Rsync (internal/rsync/cmd.go), Rclone (internal/rclone/cmd.go,
      config.go), Archive and Stream (internal/archive/cmd.go, transfer.go),
      ArchiveTarget (internal/archive/target.go), Mover (strategy/mover.go and the
      exit-code tables), HelmValues (internal/helm/values.go and the values
      builders of strategy), NetAddr (the IPv6 test behind strategy/loadbalancer.go),
      Console (internal/console), BucketPlan (archive.go, metadata.go and the
      planning half of bucketstorage.go), Migration and BucketRequest (the request
      records), Workload (fields of Jobs and pods), Diagnostics
      (internal/k8s/diagnostics.go), Progress (internal/progresslog, the three
      parsers of internal/*/progress and internal/jobprogress, with the class
      [LawfulParser] of what a parser promises to the bar), SnapshotClient
      (internal/snapshot) and Waits (internal/k8s/service.go, pod.go), whose waits
      run over the list of what is read or delivered, Narrate
      (internal/narrate/handler.go) and Ssh (internal/ssh).  Story has the lines in
      which strategy.go, migrator.go and bucketstorage.go tell what they did.
    - Chart (values.yaml of internal/helm/pv-migrate) is a type for the values;
      ChartValues shows that those of Strategy and Bucket have it, Strategy's proofs
      being against the class [SafeValues] of what is asked of them.  JobScript
      (templates/rsync/job.yaml, templates/rclone/job.yaml) is what runs in a Job's
      pod around the data mover, rendered with those values; ChartFiles
      (internal/helm/helm.go) is the loading of the chart.

    Components with effects, as programs of [World.io]:
    - Pvc (internal/pvc/info.go) reads a claim into an [Info]; Strategy
      (internal/strategy) runs one strategy and cleans up after it; Migrator
      (internal/migrator) checks a request and climbs the ladder of strategies,
      calling Strategy and Pvc; Flush (internal/flush) and SnapshotSource
      (bucketstorage/snapshotsource.go) quiesce a database, cut a snapshot and clone
      it; Bucket (bucketstorage.go, [Run]) is the backup and restore workflow, over
      BucketPlan, Pvc and SnapshotSource; Jobs (internal/k8s/job.go, exitcode.go)
      waits for a Job and explains its failure; Session (strategy/local.go,
      linetail.go) is the ssh session of the local strategy, which Strategy calls
      as one call; App (internal/app/status.go, cleanup.go) is the status and
      cleanup commands, over Jobs and Progress; Api (pvmigrate/*.go, and what
      internal/app/migrate.go and backup.go do once the flags are read) stands
      in front of Migrator and Bucket.
    - WholeMigration and WholeBucket link them: the programs of Jobs and Session in the
      place of the calls by which Migrator and Bucket wait, so that a run is what the
      program does down to each read of the API server and each call of the ssh
      session.  Evidence has what those programs have seen when they return well.

    The command line, as data:
    - CommandLine (internal/app/migrate.go, backup.go, status.go, cleanup.go): each
      command is the list of calls it makes to the flag library.  Flags has those
      calls, the library as a class [Cobra] with the laws the code relies on
      ([LawfulCobra]), and what a command line assigns; Lens has the variables the
      flags are bound to, as lawful and pairwise independent lenses.  Completions
      (migrate.go, completion.go, internal/k8s/completion.go) is the logger and what
      the completions of a flag ask the cluster.

    Components with threads, as interleavings of atomic steps over Interleaving.v,
    which has what holds of every such model:
    - FlushSession (internal/flush/session.go) is below the level of [io]: the session that
      World's exec calls stand for, as an interleaving of atomic steps of its two
      threads and of the process in the pod.  Follower is below Session: the four
      goroutines [runMoverSession] joins and the two of the log follower
      (internal/progresslog/logger.go), which Session sees as the call that joins
      them.  PortForwards (internal/k8s/portforward.go and the group of
      [runLocalMigration]) is around it: the two forwards whose ports Session awaits.
      Tunnel is one connection of the session's tunnel, of which Follower has the
      number; Peek ([peekAfter] of strategy.go) runs beside an install of Strategy,
      and Main (cmd/pv-migrate/main.go) around every command.  LogReopen
      ([followLogOptions] of internal/k8s/job.go) is what the follower of a Job reads
      when its stream ends and is opened again.

    Around the program:
    - KubeClient (internal/k8s/client.go, helm.go, networkpolicy.go) builds the client
      that a [ClusterClient] of World stands for, and the getter Helm is given, which
      shares the client's configuration by pointer: a store, over client-go as a
      class.  CliReference (hack/gen-cli-reference) renders docs/cli-reference.md.

    ** What the theorems show

    - Command lines: a quoted value is one shell word ([Shell.Quote_is_one_word]);
      the rsync, rclone and tar lines are read by the shell as the intended
      argument vectors and succeed exactly when their commands did
      ([Rsync.rsync_command_line], [Rclone.rclone_command_line],
      [Archive.archive_Build_runs], [Archive.transfer_ssh_runs],
      [Archive.transfer_local_runs], [Stream.stream_restore_runs],
      [Mover.mover_command_runs]); the parts of a streamed upload fit the store's
      limit without overflow ([Stream.stream_parts_fit]).
    - Confinement: [Paths.mountSubPath_contained], [Paths.validateSubpath_confines],
      [Paths.claimFilePath_confined], [BucketPlan.remote_path_managed],
      [Opid.derived_names_fit], [Flush.Check_keeps_lines].
    - Placement: which nodes a pod may land on ([Pvc.newInfo_pinned],
      [Strategy.mount_placement], [BucketPlan.bucket_placement]).
    - The whole: a migration, backup or restore reports success only when the Job of a
      release it installed was seen to succeed, or the mover it was asked for exited
      well ([WholeMigration.migration_succeeds_with_its_mover],
      [WholeBucket.bucket_succeeds_with_its_job]), and the protocols of its parts hold
      of it with everything the waits do in between.
    - Protocols, for every answer of the outside: what a run installs it uninstalls
      ([Migrator.Run_cleans_up]); a strategy stays within its two claims
      ([Strategy.Run_stays_in_bounds]); a snapshot is cut under the lock and the
      lock is released ([SnapshotSource.source_keeps_protocol]); a backup run keeps
      clone and release in order ([Bucket.Run_keeps_protocol]); the follower of a
      log is joined before anything else prints ([Jobs.wait_keeps_protocol]); the
      local session closes what it opened ([Session.session_closes]); cleanup
      deletes what it was asked about and nothing else
      ([App.cleanup_keeps_protocol]); the library refuses a bad request before
      contacting anything, and what it lets through cleans up ([Api.library_Run]).
    - The command line: the commands are built ([CommandLine.commands_build]), each
      flag ends up under its own name in the request the program runs with
      ([CommandLine.migrate_flags_reach_request],
      [CommandLine.bucket_flags_reach_request]), a name is completed from the
      cluster of its side ([Completions.completion_asks_its_side]), and each shell gets
      its script ([Completions.completion_generates]).
    - Clients and documents: the clients of the two sides share nothing, and Helm
      changes no more than the burst of the one it is given
      ([KubeClient.clients_apart]); the CLI reference is complete or not written
      ([CliReference.reference_complete], [CliReference.missing_key_fails]).
    - The chart: every release is given values that the chart declares
      ([ChartValues.values_fit_chart]), from files it was loaded with
      ([ChartFiles.chart_loaded]); the scripts around the data movers succeed when
      the program takes them to have ([JobScript.transfer_job_judged],
      [JobScript.bucket_job_judged]); and what a run tells of a release is what its
      values say ([Story.mounts_told], [Story.load_balancer_told],
      [Story.cleanup_skipped_kept]).
    - Concurrency and waiting: an operation on an exec session always ends once the
      process has ([FlushSession.session_answers]) and tells the truth about it
      ([FlushSession.session_truthful]); the goroutines of a local migration end and
      report the first error ([PortForwards.local_migration_ends]), and those of its
      session do unless the success signal is lost ([Follower.session_joins]), which
      can happen ([Follower.success_signal_lost]); the wait for a cut ends with the cut
      ([SnapshotClient.WaitForCut_waits]); a tunnel connection ends with its peers
      ([Tunnel.connection_ends]) and the program with its command ([Main.run_ends]);
      the peek of a long install is taken back but not joined
      ([Peek.peek_not_joined]); a log that is opened again is never rewound
      ([LogReopen.reopening_never_rewinds]) but skips what it had not delivered
      ([LogReopen.reopening_skips], [LogReopen.failed_opening_counts]); services and pods are waited for
      ([Waits.service_reached], [Waits.waiting_said]).
    - Progress and logs: what is parsed can be drawn ([Progress.parsed_progress_usable],
      [Progress.job_bar_in_range]), the bar is finished once ([Progress.bar_moves]),
      how a log is cut into reads or writes does not matter
      ([Progress.FindLast_any_reads], [Session.tail_keeps_the_end]), records keep
      their shape and their attributes ([Narrate.record_drawn],
      [Narrate.attributes_nested]), sizes get their unit ([App.formatBytes_unit]).
    - Refinement and equivalence: the ladder against its abstract climb
      ([Migrator.ladder_climbs]); the in-place filter against the plain one
      ([Diagnostics.diagnostics_rows]); the tail's collapse
      ([Jobs.renderTail_collapses]); the pod a Job is judged by
      ([Jobs.terminal_pod_judged]); the dry-run test against the flag library
      ([BucketPlan.dry_run_reads_the_flag]).
    - Round trips and parsers: [Rclone.GenerateConfig_roundtrip],
      [ArchiveTarget.ParseTarget_spec], [Opid.Validate_spec],
      [Shell.CheckSingleLine_spec], [Json.Json.Compact_line], [Json.Json.Compact_again],
      [Ssh.private_key_readable], [Api.sliceCompletion_offers],
      [Completions.Level_roundtrip].
    - Errors and what goes wrong: [SnapshotSource.failures_left_behind],
      [Bucket.failed_install_stays], [Jobs.exit_explained],
      [Opid.operationPrefix_overlap], [App.status_verdict], [SnapshotClient.Clone_size].

    ** Bounds and fuel

    Integers are [Z]; where Go's width matters the wrap is written out ([in_int64],
    [wrap_int64], [Stream.wrap64]).  Fuel is always the length of the text being
    consumed, and each round consumes a byte or more, so it never runs out
    ([App.unit_loop]: 64 rounds of a division by 1024 of a 63-bit number); the
    theorems about such a function are about its result and hold at that fuel.  A
    program of [io] is a finite tree, so [exec] is total; waits are one call each,
    and where a wait is modelled itself (SnapshotClient, Waits, the follower of
    Progress) it runs over the finite list of what it was shown.  The loops of
    JobScript run over the attempts that remain.  The interleavings have no fuel:
    their theorems are about every finite run of the interleaving, and give the
    bound on the steps that remain.

    ** Not modelled

    The help texts of the commands, the text of the completion scripts and the
    terminal output; the watches and the streams of client-go (of a port forward,
    what client-go does is a label); log records that are not part of an outcome,
    within the programs of calls (Story has their texts); the templates of the chart
    but for the two scripts.  The Helm library, client-go, cobra, crypto, yaml, the
    decoding of json and the API server are parameters, classes or calls. *)
From stdpp Require Export base list strings gmap pretty.
From Stdlib Require Export Ascii ZArith Lia.
From stdpp Require Import options.

Declare Scope go_scope.
Delimit Scope go_scope with go.
Open Scope go_scope.

(** ** Errors

    A Go [error] is kept unrendered: the format of [fmt.Errorf] with its
    arguments.  A wrapped error ([%w]) is an argument of its own kind, so the
    unwrap tree that [errors.Is] and [errors.As] walk is part of the value. *)
Inductive error : Type :=
  | ErrNew (msg : string)
  | Errorf (format : string) (args : list fmt_arg)
with fmt_arg : Type :=
  | AStr (s : string)
  | AInt (z : Z)
  | ADur (nanoseconds : Z)
  | AErr (e : error)
  | AWrap (e : error)
  | AType (name : string).

(** An error of a struct type carries [AType] with the type's name, which is not
    printed. *)
Definition of_type (name : string) (e : error) : bool :=
  match e with
  | Errorf _ args => existsb (fun a => match a with AType n => String.eqb n name | _ => false end) args
  | ErrNew _ => false
  end.

(** Some error of the unwrap tree satisfies [p]: [errors.Is] for a sentinel, and
    the test behind [errors.As] for an error type.  *)
Fixpoint error_has (p : error -> bool) (e : error) : bool :=
  p e ||
  match e with
  | ErrNew _ => false
  | Errorf _ args =>
      (fix go (args : list fmt_arg) : bool :=
         match args with
         | [] => false
         | AWrap e' :: args => error_has p e' || go args
         | _ :: args => go args
         end) args
  end.

(** The pair [(value, nil)] or [(zero, err)] a fallible Go function returns. *)
Inductive result (A : Type) : Type :=
  | Ok (a : A)
  | Err (e : error).
Arguments Ok {A} a.
Arguments Err {A} e.

#[export] Instance result_ret : MRet result := fun A a => Ok a.
#[export] Instance result_bind : MBind result := fun A B f m =>
  match m with Ok a => f a | Err e => Err e end.
#[export] Instance result_fmap : FMap result := fun A B f m =>
  match m with Ok a => Ok (f a) | Err e => Err e end.

Definition is_Ok {A} (r : result A) : bool :=
  match r with Ok _ => true | Err _ => false end.

(** [if cond { return err }], the shape of every validation in the source. *)
Definition fail_if (cond : bool) (e : error) : result () :=
  if cond then Err e else Ok ().

(** [for _, x := range l { if err := f(x); err != nil { return err } }] *)
Fixpoint for_each {A} (f : A -> result ()) (l : list A) : result () :=
  match l with
  | [] => Ok ()
  | x :: l => _ ← f x; for_each f l
  end.

(** [fmt.Errorf("prefix: %w", err)] around a failing call. *)
Definition wrap_err {A} (format : string) (r : result A) : result A :=
  match r with Ok a => Ok a | Err e => Err (Errorf format [AWrap e]) end.

Section ResultLemmas.
Context {A B : Type}.
Implicit Types (m : result A) (f : A -> result B).

Lemma bind_Ok m f b : (m ≫= f) = Ok b <-> exists a, m = Ok a /\ f a = Ok b.
Proof. destruct m; cbn; naive_solver. Qed.

Lemma bind_Err m f e :
  (m ≫= f) = Err e <-> m = Err e \/ exists a, m = Ok a /\ f a = Err e.
Proof. destruct m; cbn; naive_solver. Qed.

Lemma wrap_err_Ok fmt m a : wrap_err fmt m = Ok a <-> m = Ok a.
Proof. destruct m; cbn; naive_solver. Qed.

Lemma is_Ok_true m : is_Ok m = true <-> exists a, m = Ok a.
Proof. destruct m; cbn; naive_solver. Qed.

Lemma is_Ok_false m : is_Ok m = false <-> exists e, m = Err e.
Proof. destruct m; cbn; naive_solver. Qed.
End ResultLemmas.

Lemma fail_if_Ok b e u : fail_if b e = Ok u <-> b = false.
Proof. destruct b, u; cbn; naive_solver. Qed.

Lemma for_each_Ok {A} (f : A -> result ()) l u :
  for_each f l = Ok u <-> Forall (fun x => f x = Ok ()) l.
Proof.
  destruct u. induction l as [|x l IH]; cbn; [naive_solver|].
  rewrite Forall_cons, <- IH. destruct (f x) as [[]|]; cbn; naive_solver.
Qed.

Lemma Ok_inj {A} (a b : A) : Ok a = Ok b -> a = b.
Proof. by intros [= ->]. Qed.

(** Every one of the 256 bytes, for a [match] against a byte literal. *)
Ltac each_byte b := destruct b as [[] [] [] [] [] [] [] []].

(** Inverts every successful fallible call among the hypotheses. *)
Ltac go_inv :=
  repeat match goal with
  | H : Ok _ = Ok _ |- _ => apply Ok_inj in H; try subst
  | H : Err _ = Ok _ |- _ => discriminate H
  | H : Ok _ = Err _ |- _ => discriminate H
  | H : (_ ≫= _) = Ok _ |- _ =>
      let a := fresh "r" in let E := fresh "E" in
      apply bind_Ok in H as (a & E & H)
  | H : wrap_err _ _ = Ok _ |- _ => apply wrap_err_Ok in H
  | H : fail_if _ _ = Ok _ |- _ => apply fail_if_Ok in H
  | u : () |- _ => destruct u
  end.
