(* ===== verification/GoStrings.v ===== *)
(** * The parts of Go's [strings] and [strconv] packages the program uses

    A Go string is a byte sequence, which is what Rocq's [string] is, so the
    two coincide byte for byte (non-ASCII text is its UTF-8 bytes).  Each
    function keeps Go's argument order; [Cut], [CutPrefix] and [CutSuffix]
    return an option instead of a value with a [found] flag. *)
From S2P Require Import Prelude.
From stdpp Require Import options.

#[global] Arguments String.append : simpl nomatch.

(** ** Definitions *)

(** [strings.CutPrefix] *)
Fixpoint CutPrefix (s p : string) {struct p} : option string :=
  match p, s with
  | EmptyString, _ => Some s
  | String a p', String b s' => if decide (a = b) then CutPrefix s' p' else None
  | String _ _, EmptyString => None
  end.

(** [strings.HasPrefix] *)
Definition HasPrefix (s p : string) : bool :=
  match CutPrefix s p with Some _ => true | None => false end.

(** [strings.CutSuffix] *)
Fixpoint CutSuffix (s x : string) {struct s} : option string :=
  if decide (s = x) then Some EmptyString
  else match s with
       | EmptyString => None
       | String a s' => String a <$> CutSuffix s' x
       end.

Definition cr : ascii := ascii_of_nat 13.
Definition lf : ascii := ascii_of_nat 10.
Definition nl : string := String lf "".

(** [strings.HasSuffix] *)
Definition HasSuffix (s x : string) : bool :=
  match CutSuffix s x with Some _ => true | None => false end.

(** [strings.TrimPrefix], [strings.TrimSuffix] *)
Definition TrimPrefix (s p : string) : string := default s (CutPrefix s p).
Definition TrimSuffix (s x : string) : string := default s (CutSuffix s x).

(** [strings.Cut]: around the first occurrence of [sep]. *)
Fixpoint Cut (s sep : string) {struct s} : option (string * string) :=
  match CutPrefix s sep with
  | Some r => Some (EmptyString, r)
  | None =>
      match s with
      | EmptyString => None
      | String a s' =>
          match Cut s' sep with
          | Some (b, r) => Some (String a b, r)
          | None => None
          end
      end
  end.

(** [strings.Contains] *)
Definition Contains (s sub : string) : bool :=
  match Cut s sub with Some _ => true | None => false end.

(** [strings.Join] *)
Fixpoint Join (l : list string) (sep : string) : string :=
  match l with
  | [] => EmptyString
  | [x] => x
  | x :: l => x +:+ sep +:+ Join l sep
  end.

(** [strings.Split] by a one-byte separator: the pieces between the separators,
    never the empty list. *)
Fixpoint Split (s : string) (c : ascii) : list string :=
  match s with
  | EmptyString => [EmptyString]
  | String a s' =>
      if decide (a = c) then EmptyString :: Split s' c
      else match Split s' c with
           | [] => [String a EmptyString]
           | w :: ws => String a w :: ws
           end
  end.

(** [strings.ReplaceAll] for a one-byte [old]. *)
Fixpoint ReplaceAll (s : string) (old : ascii) (new : string) : string :=
  match s with
  | EmptyString => EmptyString
  | String a s' =>
      if decide (a = old) then new +:+ ReplaceAll s' old new
      else String a (ReplaceAll s' old new)
  end.

(** [strings.TrimRight], its set of ASCII bytes as a predicate. *)
Fixpoint TrimRight (s : string) (p : ascii -> bool) : string :=
  match s with
  | EmptyString => EmptyString
  | String a s' => let t := TrimRight s' p in if decide (t = EmptyString /\ p a = true) then EmptyString else String a t
  end.

(** Some byte satisfies [p]; [strings.ContainsAny] for a set of ASCII bytes. *)
Fixpoint any_byte (p : ascii -> bool) (s : string) : bool :=
  match s with
  | EmptyString => false
  | String a s' => p a || any_byte p s'
  end.

(** Every byte satisfies [p]: a regular expression of the shape [^class*$]. *)
Fixpoint all_bytes (p : ascii -> bool) (s : string) : bool :=
  match s with
  | EmptyString => true
  | String a s' => p a && all_bytes p s'
  end.

(** The last byte of a string. *)
Fixpoint last_byte (s : string) : option ascii :=
  match s with
  | EmptyString => None
  | String c s => Some (default c (last_byte s))
  end.

Definition mem_byte (cs : list ascii) (a : ascii) : bool := bool_decide (a ∈ cs).

Definition byte (a : ascii) : Z := Z.of_N (N_of_ascii a).

(** Go's [len] of a string: its number of bytes. *)
Definition len (s : string) : Z := Z.of_nat (String.length s).

Definition is_digit (a : ascii) : bool := bool_decide (48 <= byte a <= 57)%Z.
Definition is_lower (a : ascii) : bool := bool_decide (97 <= byte a <= 122)%Z.
Definition is_upper (a : ascii) : bool := bool_decide (65 <= byte a <= 90)%Z.

(** [strings.ToLower] on ASCII bytes; the program matches only ASCII needles
    against the result. *)
Definition lower_byte (a : ascii) : ascii :=
  if is_upper a then ascii_of_N (N_of_ascii a + 32) else a.

(** The UTF-8 encodings of the runes [unicode.IsSpace] accepts. *)
Definition space_runes : list string :=
  let b := fun n => ascii_of_nat n in
  let u1 := fun x => String (b x) EmptyString in
  let u2 := fun x y => String (b x) (u1 y) in
  let u3 := fun x y z => String (b x) (u2 y z) in
  [u1 9; u1 10; u1 11; u1 12; u1 13; u1 32; u2 194 133; u2 194 160;
   u3 225 154 128] ++ (u3 226 128 <$> seq 128 11)
  ++ [u3 226 128 168; u3 226 128 169; u3 226 128 175; u3 226 129 159; u3 227 128 128].

Fixpoint first_some {A B} (f : A -> option B) (l : list A) : option B :=
  match l with
  | [] => None
  | x :: l => match f x with Some y => Some y | None => first_some f l end
  end.

(** Each round strips one rune, so the length of the string is enough fuel. *)
Fixpoint trim_with (strip : string -> option string) (fuel : nat) (s : string) : string :=
  match fuel with
  | O => s
  | S fuel => match strip s with Some s' => trim_with strip fuel s' | None => s end
  end.

(** [strings.TrimSpace] *)
Definition TrimSpace (s : string) : string :=
  let s := trim_with (fun s => first_some (CutPrefix s) space_runes) (String.length s) s in
  trim_with (fun s => first_some (CutSuffix s) space_runes) (String.length s) s.

(** [strconv.Itoa] *)
Definition Itoa (z : Z) : string := pretty z.

(** [strconv.ParseInt] in base 10 with 64 bits: an optional sign, then digits
    only, refused when out of the range of an [int64]. *)
Fixpoint digits_value (acc : Z) (s : string) : option Z :=
  match s with
  | EmptyString => Some acc
  | String a s' => if is_digit a then digits_value (10 * acc + (byte a - 48)) s' else None
  end%Z.

Definition max_int64 : Z := 2 ^ 63 - 1.
Definition min_int64 : Z := - 2 ^ 63.

Definition in_int64 (z : Z) : bool := bool_decide (min_int64 <= z <= max_int64)%Z.

(** The conversion to an [int64]: around the 64 bits. *)
Definition wrap_int64 (z : Z) : Z := ((z + 2 ^ 63) mod 2 ^ 64 - 2 ^ 63)%Z.

Definition unsigned_digits (s : string) : option Z :=
  match s with EmptyString => None | _ => digits_value 0 s end.

Definition ParseInt (s : string) : option Z :=
  v ← match CutPrefix s "-", CutPrefix s "+" with
      | Some r, _ => Z.opp <$> unsigned_digits r
      | None, Some r => unsigned_digits r
      | None, None => unsigned_digits s
      end;
  if in_int64 v then Some v else None.

(** ** Lemmas *)

Lemma app_nil_l_str s : EmptyString +:+ s = s.
Proof. done. Qed.

Lemma app_nil_r_str s : s +:+ EmptyString = s.
Proof. induction s; simpl; congruence. Qed.

Lemma app_assoc_str s1 s2 s3 : (s1 +:+ s2) +:+ s3 = s1 +:+ s2 +:+ s3.
Proof. induction s1; simpl; congruence. Qed.

Lemma app_cons_str a s t : String a s +:+ t = String a (s +:+ t).
Proof. done. Qed.

Lemma length_app_str s t : String.length (s +:+ t) = String.length s + String.length t.
Proof. induction s; simpl; lia. Qed.

Lemma len_app s t : (len (s +:+ t) = len s + len t)%Z.
Proof. unfold len. rewrite length_app_str. lia. Qed.

Lemma app_inj_r_str s t1 t2 : t1 +:+ s = t2 +:+ s -> t1 = t2.
Proof.
  revert t2. induction t1 as [|a t1 IH]; intros [|b t2]; simpl; intros H; auto.
  - apply (f_equal String.length) in H. simpl in H. rewrite length_app_str in H. lia.
  - apply (f_equal String.length) in H. simpl in H. rewrite length_app_str in H. lia.
  - injection H as -> H. f_equal. auto.
Qed.

Lemma CutPrefix_Some s p r : CutPrefix s p = Some r <-> s = p +:+ r.
Proof.
  revert s. induction p as [|a p IH]; intros [|b s]; simpl; try naive_solver.
  case_decide; subst; rewrite ?IH; naive_solver.
Qed.

Lemma CutPrefix_app p r : CutPrefix (p +:+ r) p = Some r.
Proof. by apply CutPrefix_Some. Qed.

Lemma HasPrefix_spec s p : HasPrefix s p = true <-> exists r, s = p +:+ r.
Proof.
  unfold HasPrefix. destruct (CutPrefix s p) as [r|] eqn:E.
  - apply CutPrefix_Some in E. naive_solver.
  - split; [done|]. intros [r ->]. by rewrite CutPrefix_app in E.
Qed.

Lemma HasPrefix_app p r : HasPrefix (p +:+ r) p = true.
Proof. apply HasPrefix_spec. eauto. Qed.

Lemma CutSuffix_Some s x r : CutSuffix s x = Some r <-> s = r +:+ x.
Proof.
  revert r. induction s as [|a s IH]; intros r; simpl; case_decide as H.
  - subst. split; [intros [= <-]; done|].
    destruct r; simpl; [done|discriminate].
  - split; [done|]. destruct r; simpl; [intros <-; done|done].
  - subst x. split; [intros [= <-]; done|].
    intros Hr. rewrite <- (app_nil_l_str (String a s)) in Hr at 1.
    apply app_inj_r_str in Hr as <-. done.
  - destruct (CutSuffix s x) as [t|] eqn:E; simpl.
    + pose proof (proj1 (IH t) eq_refl) as ->. split; [intros [= <-]; done|].
      intros Hr. f_equal. apply (app_inj_r_str x). exact Hr.
    + split; [done|]. destruct r as [|b r]; simpl; [intros <-; done|].
      intros [= -> Hr]. apply IH in Hr. done.
Qed.

Lemma HasSuffix_spec s x : HasSuffix s x = true <-> exists r, s = r +:+ x.
Proof.
  unfold HasSuffix. destruct (CutSuffix s x) as [r|] eqn:E.
  - apply CutSuffix_Some in E. naive_solver.
  - split; [done|]. intros [r Hr]. apply CutSuffix_Some in Hr. congruence.
Qed.

Lemma HasSuffix_app r x : HasSuffix (r +:+ x) x = true.
Proof. apply HasSuffix_spec. eauto. Qed.

Lemma Cut_Some s sep b r : Cut s sep = Some (b, r) -> s = b +:+ sep +:+ r.
Proof.
  revert b r. induction s as [|a s IH]; intros b r; simpl.
  - destruct (CutPrefix "" sep) eqn:E; [|done].
    apply CutPrefix_Some in E. intros [= <- <-]. done.
  - destruct (CutPrefix (String a s) sep) eqn:E.
    + apply CutPrefix_Some in E. intros [= <- <-]. done.
    + destruct (Cut s sep) as [[b' r']|]; [|done].
      intros [= <- <-]. simpl. f_equal. auto.
Qed.

Lemma Cut_None s sep b r : Cut s sep = None -> s <> b +:+ sep +:+ r.
Proof.
  revert b. induction s as [|a s IH]; intros b; simpl;
    destruct (CutPrefix _ sep) eqn:E; try done; intros H Hs.
  - destruct b; [|done]. symmetry in Hs. simpl in Hs.
    symmetry in Hs. apply CutPrefix_Some in Hs. congruence.
  - destruct (Cut s sep) as [[]|] eqn:E'; [done|].
    destruct b as [|b0 b]; simpl in Hs.
    + apply CutPrefix_Some in Hs. congruence.
    + injection Hs as -> Hs. eapply IH; eauto.
Qed.

Lemma last_byte_app s x : x <> "" -> last_byte (s +:+ x) = last_byte x.
Proof.
  intros Hx. induction s as [|a s IH]; [done|]. cbn. change (s ++ x)%string with (s +:+ x). rewrite IH.
  by destruct x.
Qed.

Lemma Contains_spec s sub :
  Contains s sub = true <-> exists b r, s = b +:+ sub +:+ r.
Proof.
  unfold Contains. destruct (Cut s sub) as [[b r]|] eqn:E.
  - apply Cut_Some in E. naive_solver.
  - split; [done|]. intros (b & r & H). by eapply Cut_None in E.
Qed.

Lemma any_byte_all p s : any_byte p s = negb (all_bytes (fun a => negb (p a)) s).
Proof.
  induction s as [|a s IH]; simpl; [done|]. rewrite IH.
  rewrite negb_andb, negb_involutive. done.
Qed.

Lemma all_bytes_app p s t : all_bytes p (s +:+ t) = all_bytes p s && all_bytes p t.
Proof. induction s; simpl; [done|]. rewrite <- andb_assoc. congruence. Qed.

Lemma any_byte_app p s t : any_byte p (s +:+ t) = any_byte p s || any_byte p t.
Proof. induction s; simpl; [done|]. rewrite <- orb_assoc. congruence. Qed.

Lemma all_bytes_impl (p q : ascii -> bool) s :
  (forall a, p a = true -> q a = true) -> all_bytes p s = true -> all_bytes q s = true.
Proof.
  intros H. induction s as [|a s IH]; simpl; [done|].
  rewrite !andb_true_iff. naive_solver.
Qed.

Lemma Join_cons x l sep :
  l <> [] -> Join (x :: l) sep = x +:+ sep +:+ Join l sep.
Proof. destruct l; done. Qed.

Lemma Join_app l1 l2 sep :
  l1 <> [] -> l2 <> [] -> Join (l1 ++ l2) sep = Join l1 sep +:+ sep +:+ Join l2 sep.
Proof.
  intros H1 H2. induction l1 as [|x [|y l1] IH]; [done| |].
  - cbn [app]. rewrite Join_cons by done. done.
  - rewrite <- app_comm_cons, Join_cons by done.
    rewrite IH by done. rewrite (Join_cons x) by done.
    rewrite !app_assoc_str. done.
Qed.

Lemma Split_not_nil s c : Split s c <> [].
Proof. destruct s; simpl; [done|]. case_decide; [done|]. by destruct (Split s c). Qed.

(** Splitting at a byte and joining with it again is the identity. *)
Lemma Join_Split s c : Join (Split s c) (String c EmptyString) = s.
Proof.
  induction s as [|a s IH]; [done|]. simpl.
  pose proof (Split_not_nil s c).
  case_decide; subst.
  - rewrite Join_cons by done. rewrite IH. done.
  - destruct (Split s c) as [|w [|w' ws]] eqn:E; [done| |].
    + simpl in *. congruence.
    + rewrite Join_cons in IH |- * by done. simpl in *. congruence.
Qed.

(** [c] does not occur in [s]. *)
Definition free_of (c : ascii) (s : string) : Prop :=
  all_bytes (fun a => negb (bool_decide (a = c))) s = true.

Lemma free_of_cons c a s : free_of c (String a s) <-> a <> c /\ free_of c s.
Proof.
  unfold free_of. simpl. by rewrite andb_true_iff, negb_true_iff, bool_decide_eq_false.
Qed.

Lemma free_of_app c s t : free_of c (s +:+ t) <-> free_of c s /\ free_of c t.
Proof. unfold free_of. by rewrite all_bytes_app, andb_true_iff. Qed.

Lemma Split_free_of s c : Forall (free_of c) (Split s c).
Proof.
  induction s as [|a s IH]; simpl; [by repeat constructor|].
  case_decide; [by constructor|].
  destruct (Split s c) as [|w ws]; inversion IH; subst; constructor; try done;
    by apply free_of_cons.
Qed.

Lemma Split_app c s1 s2 : Split (s1 +:+ String c s2) c = Split s1 c ++ Split s2 c.
Proof.
  induction s1 as [|a s1 IH]; simpl.
  - by rewrite decide_True.
  - rewrite IH. case_decide; [done|].
    pose proof (Split_not_nil s1 c). by destruct (Split s1 c).
Qed.

Lemma Split_one c x : free_of c x -> Split x c = [x].
Proof.
  induction x as [|a x IH]; simpl; [done|].
  intros [Ha Hx]%free_of_cons. rewrite decide_False by done. by rewrite IH.
Qed.

Lemma Split_Join c l : l <> [] -> Forall (free_of c) l -> Split (Join l (String c "")) c = l.
Proof.
  intros Hne Hl. induction Hl as [|x l Hx Hl IH]; [done|].
  destruct l as [|y l]; [by apply Split_one|].
  rewrite Join_cons by done. change (String c "" +:+ ?t) with (String c t).
  by rewrite Split_app, Split_one, IH.
Qed.

Lemma Cut_byte c b r : free_of c b -> Cut (b +:+ String c r) (String c "") = Some (b, r).
Proof.
  induction b as [|a b IH]; simpl; [by rewrite decide_True|].
  intros [Ha Hb]%free_of_cons. rewrite decide_False by done. by rewrite IH.
Qed.

(** The first occurrence of a byte is unique. *)
Lemma Cut_free c s b r :
  Cut s (String c "") = Some (b, r) <-> s = b +:+ String c r /\ free_of c b.
Proof.
  split; [|intros [-> Hb]; by apply Cut_byte].
  intros H. split; [by apply Cut_Some in H|]. revert b H.
  induction s as [|a s IH]; intros b; simpl; [done|].
  case_decide as Ha; [by intros [= <- <-]|].
  destruct (Cut s (String c "")) as [[b' r']|]; [|done].
  intros [= <- <-]. apply free_of_cons. split; [congruence|]. by apply IH.
Qed.

Lemma Contains_free c s : Contains s (String c "") = false <-> free_of c s.
Proof.
  unfold Contains. split.
  - destruct (Cut s (String c "")) as [[]|] eqn:E; [done|]. intros _.
    induction s as [|a s IH]; [done|]. simpl in E. apply free_of_cons.
    case_decide; [done|]. destruct (Cut s (String c "")) as [[]|]; [done|].
    split; [congruence|auto].
  - intros H. destruct (Cut s (String c "")) as [[b r]|] eqn:E; [|done].
    apply Cut_free in E as [-> _]. apply free_of_app in H as [_ H].
    by apply free_of_cons in H as [].
Qed.

Lemma ReplaceAll_absent s old new :
  all_bytes (fun a => negb (bool_decide (a = old))) s = true -> ReplaceAll s old new = s.
Proof.
  induction s as [|a s IH]; simpl; [done|]. rewrite andb_true_iff.
  intros [Ha Hs]. case_decide; [|rewrite IH; done].
  subst. rewrite bool_decide_eq_true_2 in Ha; done.
Qed.

Lemma byte_range a : (0 <= byte a < 256)%Z.
Proof. unfold byte. pose proof (N_ascii_bounded a). lia. Qed.

#[export] Instance byte_inj : Inj (=) (=) byte.
Proof.
  intros a b H. unfold byte in H.
  rewrite <- (ascii_N_embedding a), <- (ascii_N_embedding b). f_equal. lia.
Qed.

Create Rewrite HintDb gostr.
#[export] Hint Rewrite app_assoc_str app_nil_r_str all_bytes_app any_byte_app
  length_app_str : gostr.
