(* ===== verification/Decimal.v ===== *)
(** * Decimal numbers: [strconv.Itoa] and [strconv.ParseInt] are inverse *)
From S2P Require Import Prelude GoStrings.
From stdpp Require Import options.

Lemma digit_char x : (x < 10)%N -> is_digit (pretty_N_char x) = true /\
                                   (byte (pretty_N_char x) - 48 = Z.of_N x)%Z.
Proof.
  intros Hx. assert (x = 0 \/ x = 1 \/ x = 2 \/ x = 3 \/ x = 4 \/ x = 5 \/ x = 6 \/ x = 7 \/ x = 8 \/ x = 9)%N
    as H by lia.
  by repeat destruct H as [->|H]; [..|subst x].
Qed.

Lemma digits_go x s : digits_value 0 (pretty_N_go x s) = digits_value (Z.of_N x) s.
Proof.
  revert s. induction (N.lt_wf_0 x) as [x _ IH]. intros s.
  destruct (decide (x = 0)%N) as [->|Hx]; [by rewrite pretty_N_go_0|].
  rewrite pretty_N_go_step by lia. rewrite IH by (apply N.div_lt; lia).
  destruct (digit_char (x mod 10)) as [Hd Hv]; [apply N.mod_lt; lia|].
  cbn [digits_value]. rewrite Hd, Hv. f_equal.
  pose proof (N.div_mod x 10 ltac:(lia)). lia.
Qed.

Lemma digits_all_go x s : all_bytes is_digit s = true -> all_bytes is_digit (pretty_N_go x s) = true.
Proof.
  revert s. induction (N.lt_wf_0 x) as [x _ IH]. intros s Hs.
  destruct (decide (x = 0)%N) as [->|Hx]; [by rewrite pretty_N_go_0|].
  rewrite pretty_N_go_step by lia. apply IH; [apply N.div_lt; lia|].
  cbn. by rewrite Hs, (proj1 (digit_char (x mod 10) (N.mod_lt x 10 ltac:(lia)))).
Qed.

Lemma digits_go_not_nil x a s : pretty_N_go x (String a s) <> "".
Proof.
  revert a s. induction (N.lt_wf_0 x) as [x _ IH]. intros a s.
  destruct (decide (x = 0)%N) as [->|Hx]; [by rewrite pretty_N_go_0|].
  rewrite pretty_N_go_step by lia. apply IH. apply N.div_lt; lia.
Qed.

(** The decimal text of a number that is not negative. *)
Lemma Itoa_digits z :
  (0 <= z)%Z ->
  all_bytes is_digit (Itoa z) = true /\ Itoa z <> "" /\ digits_value 0 (Itoa z) = Some z.
Proof.
  intros Hz. destruct z as [|p|p]; [done| |lia].
  change (Itoa (Z.pos p)) with (pretty (N.pos p)). unfold pretty, pretty_N.
  rewrite decide_False by done. split; [by apply digits_all_go|].
  split; [rewrite pretty_N_go_step by lia; apply digits_go_not_nil|].
  by rewrite digits_go.
Qed.

Lemma unsigned_digits_Itoa z : (0 <= z)%Z -> unsigned_digits (Itoa z) = Some z.
Proof.
  intros Hz. destruct (Itoa_digits z Hz) as (_ & Hn & Hv). unfold unsigned_digits.
  by destruct (Itoa z).
Qed.

Lemma digit_not_sign a s p : is_digit a = true -> (p = "-" \/ p = "+") -> CutPrefix (String a s) p = None.
Proof.
  intros Ha Hp. destruct (CutPrefix (String a s) p) as [r|] eqn:E; [|done].
  apply CutPrefix_Some in E. destruct Hp as [-> | ->]; injection E as -> ->; discriminate Ha.
Qed.

Lemma ParseInt_Itoa z : (0 <= z <= max_int64)%Z -> ParseInt (Itoa z) = Some z.
Proof.
  intros [Hz Hm]. destruct (Itoa_digits z Hz) as (Hd & Hn & _).
  unfold ParseInt. rewrite unsigned_digits_Itoa by done.
  destruct (Itoa z) as [|a s]; [done|]. cbn in Hd. apply andb_true_iff in Hd as [Ha _].
  rewrite !digit_not_sign by auto. cbn. unfold in_int64. rewrite bool_decide_eq_true_2; [done|].
  unfold min_int64, max_int64 in *. lia.
Qed.

(** ** Digits and separators *)

Lemma digits_free_of c d : all_bytes is_digit d = true -> is_digit c = false -> free_of c d.
Proof.
  intros Hd Hc. induction d as [|a d IH]; [done|]. cbn in Hd. apply andb_true_iff in Hd as [Ha Hd].
  apply free_of_cons. split; [|by apply IH]. intros ->. by rewrite Ha in Hc.
Qed.

Lemma Itoa_free_of c z : (0 <= z)%Z -> is_digit c = false -> free_of c (Itoa z).
Proof. intros Hz Hc. apply digits_free_of; [|done]. by destruct (Itoa_digits z Hz). Qed.

Lemma Itoa_inj x y : (0 <= x)%Z -> (0 <= y)%Z -> Itoa x = Itoa y -> x = y.
Proof. intros Hx Hy E. pose proof (unsigned_digits_Itoa x Hx) as H. rewrite E, unsigned_digits_Itoa in H by done. congruence. Qed.
