(* ===== verification/Fmt.v ===== *)
(** * fmt: how an error reads

    [fmt.Sprintf] over the verbs the source uses, [time.Duration]'s text,
    [strconv.Quote] (every rune beyond ASCII counted as printable), and the
    [Error] method of the errors of the model. *)
From S2P Require Import Prelude GoStrings.
From stdpp Require Import options.

Definition one (c : ascii) : string := String c "".

(** ** Durations *)

Definition pad_left (c : ascii) (width : nat) (s : string) : string :=
  Nat.iter (width - String.length s) (fun s => String c s) s.

(** A fraction of [digits] digits without its trailing zeros, with its point. *)
Definition fraction (digits : nat) (v : Z) : string :=
  let s := pad_left "0" digits (Itoa v) in
  let s := trim_with (fun s => CutSuffix s "0") (String.length s) s in
  if decide (s = "") then "" else "." +:+ s.

(** [Duration.String]: units from hours to nanoseconds, of which a duration
    below a second uses one. *)
Definition Duration_String (d : Z) : string :=
  let u := Z.abs d in
  let sign := if decide (d < 0)%Z then "-" else "" in
  sign +:+
  (if decide (u = 0)%Z then "0s"
   else if decide (u < 1000)%Z then Itoa u +:+ "ns"
   else if decide (u < 1000000)%Z then
     Itoa (u / 1000) +:+ fraction 3 (u mod 1000)
     +:+ String (ascii_of_nat 194) (String (ascii_of_nat 181) "s")
   else if decide (u < 1000000000)%Z then Itoa (u / 1000000) +:+ fraction 6 (u mod 1000000) +:+ "ms"
   else
     let seconds := (u / 1000000000)%Z in
     let minutes := (seconds / 60)%Z in
     let last := Itoa (seconds mod 60) +:+ fraction 9 (u mod 1000000000) +:+ "s" in
     if decide (minutes = 0)%Z then last
     else if decide (minutes < 60)%Z then Itoa minutes +:+ "m" +:+ last
     else Itoa (minutes / 60) +:+ "h" +:+ Itoa (minutes mod 60) +:+ "m" +:+ last).

(** ** Quoting *)

Definition hex_digit (n : Z) : string := String.substring (Z.to_nat n) 1 "0123456789abcdef".

Definition escape_byte (quote : ascii) (a : ascii) : string :=
  let b := byte a in
  if decide (a = quote) then "\" +:+ one a
  else if decide (b = 92)%Z then "\\"
  else if decide (b = 7)%Z then "\a"
  else if decide (b = 8)%Z then "\b"
  else if decide (b = 12)%Z then "\f"
  else if decide (b = 10)%Z then "\n"
  else if decide (b = 13)%Z then "\r"
  else if decide (b = 9)%Z then "\t"
  else if decide (b = 11)%Z then "\v"
  else if decide (b < 32 \/ b = 127)%Z then "\x" +:+ hex_digit (b / 16) +:+ hex_digit (b mod 16)
  else one a.

Fixpoint escape (quote : ascii) (s : string) : string :=
  match s with
  | EmptyString => ""
  | String a s => escape_byte quote a +:+ escape quote s
  end.

Definition double_quote : ascii := ascii_of_nat 34.
Definition quoted (s : string) : string := one double_quote +:+ escape double_quote s +:+ one double_quote.
Definition quoted_rune (c : Z) : string := "'" +:+ escape "'" (one (ascii_of_nat (Z.to_nat c))) +:+ "'".

(** ** Sprintf *)

(** An argument's text under [%s], [%v], [%d] or [%w], and under [%q]. *)
Definition texts : Type := string * string.

Fixpoint sprintf (format : string) (args : list texts) : string :=
  match format with
  | EmptyString => ""
  | String "%" (String verb format) =>
      if decide (verb = "%"%char) then "%" +:+ sprintf format args
      else match args with
           | [] => "%!" +:+ one verb +:+ "(MISSING)" +:+ sprintf format []
           | (plain, quote) :: args =>
               (if decide (verb = "q"%char) then quote else plain) +:+ sprintf format args
           end
  | String a format => one a +:+ sprintf format args
  end.

(** [err.Error()].  What an error wraps without printing it has no verb left. *)
Fixpoint Error (e : error) : string :=
  match e with
  | ErrNew msg => msg
  | Errorf format args =>
      sprintf format
        ((fix go (args : list fmt_arg) : list texts :=
            match args with
            | [] => []
            | AStr s :: args => (s, quoted s) :: go args
            | AInt z :: args => (Itoa z, quoted_rune z) :: go args
            | ADur d :: args => let s := Duration_String d in (s, quoted s) :: go args
            | AErr e :: args => let s := Error e in (s, quoted s) :: go args
            | AWrap e :: args => let s := Error e in (s, quoted s) :: go args
            | AType _ :: args => go args
            end) args)
  end.

Example Error_nested :
  Error (Errorf "failed to open %q: %w" [AStr "a b"; AWrap (Errorf "%s: %w" [AType "*T"; AStr "no"; AWrap (ErrNew "unaccepted")])])
  = "failed to open " +:+ one double_quote +:+ "a b" +:+ one double_quote +:+ ": no: unaccepted".
Proof. reflexivity. Qed.

Example Duration_text :
  Duration_String 90000000000 = "1m30s" /\ Duration_String 1500000000 = "1.5s" /\
  Duration_String 60000000000 = "1m0s" /\ Duration_String 20000000 = "20ms".
Proof. vm_compute. auto. Qed.

(** [errors.As] for a struct type: the first error of that type in the unwrap
    tree, depth first. *)
Fixpoint error_find (p : error -> bool) (e : error) : option error :=
  if p e then Some e
  else match e with
       | ErrNew _ => None
       | Errorf _ args =>
           (fix go (args : list fmt_arg) : option error :=
              match args with
              | [] => None
              | AWrap e' :: args =>
                  match error_find p e' with Some found => Some found | None => go args end
              | _ :: args => go args
              end) args
       end.

Lemma error_has_wrapped p format args e :
  AWrap e ∈ args -> error_has p e = true -> error_has p (Errorf format args) = true.
Proof.
  intros Hin Hp. cbn [error_has]. apply orb_true_iff. right.
  induction args as [|a args IH]; [by apply not_elem_of_nil in Hin|].
  apply elem_of_cons in Hin as [<-|Hin]; [by rewrite Hp|].
  destruct a; cbn; rewrite IH by done; [done..| |done]. by rewrite orb_true_r.
Qed.
