(* ===== verification/Console.v ===== *)
(** * internal/console: colors and the line-erasing writer

    [Palette] of palette.go and [eraseLineWriter.Write] of erase.go.  An
    underlying writer answers with the count it wrote and its error. *)
From S2P Require Import Prelude GoStrings.
From stdpp Require Import options.

Definition esc : string := String (ascii_of_nat 27) "".
Definition reset : string := esc +:+ "[0m".

(** [Palette.Enabled] *)
Definition Palette : Type := bool.

Definition wrap (p : Palette) (code s : string) : string :=
  if negb p || bool_decide (s = "") then s else esc +:+ "[" +:+ code +:+ "m" +:+ s +:+ reset.

Definition Failure (p : Palette) (s : string) : string := wrap p "1;31" s.
Definition Bad (p : Palette) (s : string) : string := wrap p "31" s.
Definition Warn (p : Palette) (s : string) : string := wrap p "33" s.
Definition Good (p : Palette) (s : string) : string := wrap p "32" s.
Definition Dim (p : Palette) (s : string) : string := wrap p "2" s.
Definition Bold (p : Palette) (s : string) : string := wrap p "1" s.

Definition ForTerminal (isTerminal structuredLogs : bool) (NO_COLOR : string) : bool :=
  isTerminal && negb structuredLogs && bool_decide (NO_COLOR = "").

Lemma wrap_plain code s : wrap false code s = s.
Proof. done. Qed.

(** ** EraseLineBefore *)

Definition eraseLine : string := String (ascii_of_nat 13) (esc +:+ "[2K").

(** What a writer answers to one [Write]. *)
Definition written : Type := Z * option error.

Definition ErrShortWrite : error := ErrNew "short write".

Definition eraseLine_Write (underlying : string -> written) (record : string) : written :=
  let '(n, err) := underlying (eraseLine +:+ record) in
  let n := Z.min (Z.max (n - len eraseLine) 0) (len record) in
  match err with
  | None => if decide (n < len record)%Z then (n, Some ErrShortWrite) else (n, None)
  | Some _ => (n, err)
  end.

(** The io.Writer contract: a count inside the slice, and an error with a short one. *)
Definition writer_contract (p : string) (w : written) : Prop :=
  (0 <= w.1 <= len p)%Z /\ ((w.1 < len p)%Z -> w.2 <> None).

Lemma len_nonneg s : (0 <= len s)%Z.
Proof. unfold len. lia. Qed.

(** The line-erasing writer keeps the contract of [io.Writer] toward its own
    caller whatever the writer below it answers, even one that breaks it: the
    count is of the caller's bytes alone and inside the record, and a short count
    comes with an error.  Over a writer that keeps the contract, success means
    that the erase sequence and the whole record went out in one write, and an
    error is the writer's own. *)
Theorem eraseLine_Write_contract (underlying : string -> written) (record : string) :
  let w := eraseLine_Write underlying record in
  writer_contract record w /\
  (writer_contract (eraseLine +:+ record) (underlying (eraseLine +:+ record)) ->
   w.2 = (underlying (eraseLine +:+ record)).2 /\
   (w.2 = None -> (underlying (eraseLine +:+ record)).1 = len (eraseLine +:+ record))).
Proof.
  pose proof (len_nonneg record) as Hr.
  assert (len (eraseLine +:+ record) = len eraseLine + len record)%Z as Hl
    by apply len_app.
  unfold eraseLine_Write, writer_contract. rewrite Hl. clear Hl.
  destruct (underlying (eraseLine +:+ record)) as [n [e|]]; cbn [fst snd].
  - split; [split; [lia|done]|]. done.
  - destruct (decide _) as [Hlt|Hge]; cbn [fst snd].
    + split; [split; [lia|done]|]. intros [Hn Hs].
      destruct (decide (n < len eraseLine + len record)%Z) as [H|H]; [by specialize (Hs H)|lia].
    + split; [split; [lia|lia]|]. intros [Hn Hs]. split; [done|]. intros _.
      destruct (decide (n < len eraseLine + len record)%Z) as [H|H]; [by specialize (Hs H)|lia].
Qed.
