(* ===== verification/Utf8.v ===== *)
(** * UTF-8 as Go's [unicode/utf8] reads it

    [decode_runes] is the rune sequence a range loop or [utf8.ValidString] sees:
    [None] when some byte is not part of a well-formed encoding (overlong forms,
    surrogates and values above U+10FFFF included).  [encode_rune] is
    [utf8.AppendRune] on a scalar value; the two are inverse to each other. *)
From S2P Require Import Prelude GoStrings.
From stdpp Require Import options.
Local Open Scope Z_scope.

(** A continuation byte: [10xxxxxx]. *)
Definition cont (a : ascii) : bool := (128 <=? byte a) && (byte a <? 192).

(** A second byte limited to a range, for the leads that would otherwise allow
    an overlong form, a surrogate or a value out of range. *)
Definition within (lo hi : Z) (a : ascii) : bool := (lo <=? byte a) && (byte a <=? hi).

Definition second_range (b0 : Z) : Z * Z :=
  if b0 =? 0xE0 then (0xA0, 0xBF)
  else if b0 =? 0xED then (0x80, 0x9F)
  else if b0 =? 0xF0 then (0x90, 0xBF)
  else if b0 =? 0xF4 then (0x80, 0x8F)
  else (0x80, 0xBF).

Fixpoint decode_runes (s : string) : option (list Z) :=
  match s with
  | EmptyString => Some []
  | String a s1 =>
      let b0 := byte a in
      if b0 <? 0x80 then cons b0 <$> decode_runes s1
      else if b0 <? 0xC2 then None
      else match s1 with
      | EmptyString => None
      | String b s2 =>
          if negb (within (second_range b0).1 (second_range b0).2 b) then None
          else if b0 <? 0xE0 then
            cons ((b0 - 0xC0) * 64 + (byte b - 0x80)) <$> decode_runes s2
          else match s2 with
          | EmptyString => None
          | String c s3 =>
              if negb (cont c) then None
              else if b0 <? 0xF0 then
                cons ((b0 - 0xE0) * 4096 + (byte b - 0x80) * 64 + (byte c - 0x80))
                  <$> decode_runes s3
              else match s3 with
              | EmptyString => None
              | String d s4 =>
                  if negb (cont d) then None
                  else if b0 <? 0xF5 then
                    cons ((b0 - 0xF0) * 262144 + (byte b - 0x80) * 4096
                          + (byte c - 0x80) * 64 + (byte d - 0x80)) <$> decode_runes s4
                  else None
              end
          end
      end
  end.

(** [utf8.ValidString] *)
Definition ValidString (s : string) : bool :=
  match decode_runes s with Some _ => true | None => false end.

(** A Unicode scalar value: a code point that is not a surrogate. *)
Definition scalar (r : Z) : Prop := 0 <= r < 0xD800 \/ 0xE000 <= r <= 0x10FFFF.

Definition ch (z : Z) : ascii := ascii_of_N (Z.to_N z).

Definition encode_rune (r : Z) : string :=
  if r <? 0x80 then String (ch r) EmptyString
  else if r <? 0x800 then
    String (ch (0xC0 + r / 64)) (String (ch (0x80 + r mod 64)) EmptyString)
  else if r <? 0x10000 then
    String (ch (0xE0 + r / 4096)) (String (ch (0x80 + r / 64 mod 64))
      (String (ch (0x80 + r mod 64)) EmptyString))
  else
    String (ch (0xF0 + r / 262144)) (String (ch (0x80 + r / 4096 mod 64))
      (String (ch (0x80 + r / 64 mod 64)) (String (ch (0x80 + r mod 64)) EmptyString))).

Definition encode_runes (rs : list Z) : string :=
  foldr (fun r s => encode_rune r +:+ s) EmptyString rs.

Lemma byte_ch z : 0 <= z < 256 -> byte (ch z) = z.
Proof.
  intros H. unfold byte, ch. rewrite N_ascii_embedding by lia. lia.
Qed.

Lemma ch_byte a : ch (byte a) = a.
Proof. unfold byte, ch. rewrite N2Z.id. apply ascii_N_embedding. Qed.

Ltac byte_cases :=
  repeat match goal with
  | H : negb _ = false |- _ => apply negb_false_iff in H
  | H : within _ _ _ = true |- _ => unfold within in H
  | H : cont _ = true |- _ => unfold cont in H
  | H : _ && _ = true |- _ => apply andb_true_iff in H as [? ?]
  | H : (_ <? _) = true |- _ => apply Z.ltb_lt in H
  | H : (_ <? _) = false |- _ => apply Z.ltb_ge in H
  | H : (_ <=? _) = true |- _ => apply Z.leb_le in H
  | H : (_ =? _) = true |- _ => apply Z.eqb_eq in H
  | H : (_ =? _) = false |- _ => apply Z.eqb_neq in H
  end.

(** Settles the leading test of a decoder branch by arithmetic. *)
Ltac ltb_step :=
  match goal with
  | |- context [?a <? ?b] =>
      first [ rewrite (proj2 (Z.ltb_lt a b)) by lia
            | rewrite (proj2 (Z.ltb_ge a b)) by lia ]
  end; cbv match.

Ltac Zdiv := Z.div_mod_to_equations; lia.

(** The decoded rune is the one claimed, by arithmetic. *)
Ltac rune_eq tac :=
  match goal with
  | |- context [cons ?a <$> _] =>
      match goal with
      | |- _ = cons ?b <$> _ => replace a with b by tac; reflexivity
      end
  end.

Lemma cont_ch x : 0 <= x < 64 -> cont (ch (0x80 + x)) = true.
Proof.
  intros H. unfold cont. rewrite byte_ch by lia.
  apply andb_true_iff. split; [apply Z.leb_le|apply Z.ltb_lt]; lia.
Qed.

(** The second byte the encoder writes is in the range its lead allows, which
    is where the scalar hypothesis is needed. *)
Lemma second_ok lead x :
  0 <= x < 64 ->
  (lead = 0xE0 -> 32 <= x) -> (lead = 0xED -> x < 32) ->
  (lead = 0xF0 -> 16 <= x) -> (lead = 0xF4 -> x < 16) ->
  within (second_range lead).1 (second_range lead).2 (ch (0x80 + x)) = true.
Proof.
  intros Hx H1 H2 H3 H4. unfold within. rewrite byte_ch by lia.
  unfold second_range.
  apply andb_true_iff; split; apply Z.leb_le; repeat case_match; simpl; byte_cases; lia.
Qed.

(** One decoder step per encoded length. *)
Lemma decode_1 x s :
  0 <= x < 0x80 -> decode_runes (String (ch x) s) = cons x <$> decode_runes s.
Proof. intros H. simpl. rewrite byte_ch by lia. by ltb_step. Qed.

Lemma decode_2 x y s :
  2 <= x < 32 -> 0 <= y < 64 ->
  decode_runes (String (ch (0xC0 + x)) (String (ch (0x80 + y)) s))
  = cons (x * 64 + y) <$> decode_runes s.
Proof.
  intros Hx Hy. cbn -[second_range]. rewrite !byte_ch by lia.
  do 2 ltb_step. rewrite second_ok by lia. simpl negb. ltb_step. rune_eq lia.
Qed.

Lemma decode_3 x y z s :
  0 <= x < 16 -> 0 <= y < 64 -> 0 <= z < 64 ->
  (x = 0 -> 32 <= y) -> (x = 13 -> y < 32) ->
  decode_runes (String (ch (0xE0 + x)) (String (ch (0x80 + y)) (String (ch (0x80 + z)) s)))
  = cons (x * 4096 + y * 64 + z) <$> decode_runes s.
Proof.
  intros Hx Hy Hz H1 H2. cbn -[second_range]. rewrite !byte_ch by lia.
  do 2 ltb_step. rewrite second_ok by lia. simpl negb. ltb_step.
  rewrite cont_ch by lia. simpl negb. ltb_step. rune_eq lia.
Qed.

Lemma decode_4 x y z w s :
  0 <= x <= 4 -> 0 <= y < 64 -> 0 <= z < 64 -> 0 <= w < 64 ->
  (x = 0 -> 16 <= y) -> (x = 4 -> y < 16) ->
  decode_runes (String (ch (0xF0 + x)) (String (ch (0x80 + y))
    (String (ch (0x80 + z)) (String (ch (0x80 + w)) s))))
  = cons (x * 262144 + y * 4096 + z * 64 + w) <$> decode_runes s.
Proof.
  intros Hx Hy Hz Hw H1 H2. cbn -[second_range]. rewrite !byte_ch by lia.
  do 2 ltb_step. rewrite second_ok by lia. simpl negb. ltb_step.
  rewrite cont_ch by lia. simpl negb. ltb_step.
  rewrite cont_ch by lia. simpl negb. ltb_step. rune_eq lia.
Qed.

(** Decoding the encoding of a scalar value reads it back, whatever follows. *)
Lemma decode_encode_rune r s :
  scalar r -> decode_runes (encode_rune r +:+ s) = cons r <$> decode_runes s.
Proof.
  unfold scalar. intros Hr. unfold encode_rune.
  destruct (r <? 0x80) eqn:E1; [|destruct (r <? 0x800) eqn:E2;
    [|destruct (r <? 0x10000) eqn:E3]]; byte_cases; rewrite ?app_cons_str, app_nil_l_str.
  - apply decode_1. lia.
  - rewrite decode_2 by Zdiv. rune_eq Zdiv.
  - rewrite decode_3 by Zdiv. rune_eq Zdiv.
  - rewrite decode_4 by Zdiv. rune_eq Zdiv.
Qed.

Lemma decode_encode rs :
  Forall scalar rs -> decode_runes (encode_runes rs) = Some rs.
Proof.
  induction 1 as [|r rs Hr _ IH]; [done|]. simpl.
  by rewrite decode_encode_rune, IH.
Qed.

Lemma encode_1 x : 0 <= x < 0x80 -> encode_rune x = String (ch x) EmptyString.
Proof. intros H. unfold encode_rune. by ltb_step. Qed.

Lemma encode_2 x y :
  2 <= x < 32 -> 0 <= y < 64 ->
  encode_rune (x * 64 + y) = String (ch (0xC0 + x)) (String (ch (0x80 + y)) EmptyString).
Proof.
  intros Hx Hy. unfold encode_rune. do 2 ltb_step.
  replace ((x * 64 + y) / 64) with x by Zdiv.
  by replace ((x * 64 + y) mod 64) with y by Zdiv.
Qed.

Lemma encode_3 x y z :
  0 <= x < 16 -> 0 <= y < 64 -> 0 <= z < 64 -> (x = 0 -> 32 <= y) ->
  encode_rune (x * 4096 + y * 64 + z)
  = String (ch (0xE0 + x)) (String (ch (0x80 + y)) (String (ch (0x80 + z)) EmptyString)).
Proof.
  intros Hx Hy Hz H1. unfold encode_rune. set (r := x * 4096 + y * 64 + z).
  assert (r / 4096 = x) as -> by (unfold r; Zdiv).
  assert (r / 64 mod 64 = y) as -> by (unfold r; Zdiv).
  assert (r mod 64 = z) as -> by (unfold r; Zdiv).
  unfold r. do 3 ltb_step. done.
Qed.

Lemma encode_4 x y z w :
  0 <= x <= 4 -> 0 <= y < 64 -> 0 <= z < 64 -> 0 <= w < 64 -> (x = 0 -> 16 <= y) ->
  encode_rune (x * 262144 + y * 4096 + z * 64 + w)
  = String (ch (0xF0 + x)) (String (ch (0x80 + y))
      (String (ch (0x80 + z)) (String (ch (0x80 + w)) EmptyString))).
Proof.
  intros Hx Hy Hz Hw H1. unfold encode_rune.
  set (r := x * 262144 + y * 4096 + z * 64 + w).
  assert (r / 262144 = x) as -> by (unfold r; Zdiv).
  assert (r / 4096 mod 64 = y) as -> by (unfold r; Zdiv).
  assert (r / 64 mod 64 = z) as -> by (unfold r; Zdiv).
  assert (r mod 64 = w) as -> by (unfold r; Zdiv).
  unfold r. do 3 ltb_step. done.
Qed.

(** Splits the range test of a second byte into what the four special leads
    say and what every lead says. *)
Lemma second_inv b0 b :
  within (second_range b0).1 (second_range b0).2 b = true ->
  128 <= byte b < 192 /\ (b0 = 0xE0 -> 160 <= byte b) /\ (b0 = 0xED -> byte b < 160)
  /\ (b0 = 0xF0 -> 144 <= byte b) /\ (b0 = 0xF4 -> byte b < 144).
Proof.
  unfold second_range. intros H. unfold within in H.
  repeat case_match; simpl in *; byte_cases; lia.
Qed.

(** A successful decode reads one scalar value and goes on. *)
Lemma decode_step a s rs :
  decode_runes (String a s) = Some rs ->
  exists r t rs', scalar r /\ String a s = encode_rune r +:+ t /\
    decode_runes t = Some rs' /\ rs = r :: rs'.
Proof.
  cbn -[second_range]. pose proof (byte_range a).
  assert (forall x, ch (192 + (x - 192)) = ch x /\ ch (224 + (x - 224)) = ch x
    /\ ch (240 + (x - 240)) = ch x /\ ch (128 + (x - 128)) = ch x) as Hch
    by (intros x; repeat split; f_equal; lia).
  destruct (byte a <? 0x80) eqn:E1; byte_cases.
  { intros (rs' & Hd & ->)%fmap_Some. exists (byte a), s, rs'.
    rewrite encode_1, ch_byte by lia. unfold scalar. repeat split; [lia|done]. }
  destruct (byte a <? 0xC2) eqn:E2; [done|]. byte_cases.
  destruct s as [|b s]; [done|]. destruct (negb _) eqn:Eb; [done|].
  apply negb_false_iff, second_inv in Eb.
  destruct (byte a <? 0xE0) eqn:E3; byte_cases.
  { intros (rs' & Hd & ->)%fmap_Some. exists ((byte a - 192) * 64 + (byte b - 128)), s, rs'.
    rewrite encode_2 by lia. destruct (Hch (byte a)) as (-> & _), (Hch (byte b)) as (_ & _ & _ & ->).
    rewrite !ch_byte. unfold scalar. repeat split; [lia|done]. }
  destruct s as [|c s]; [done|]. destruct (cont c) eqn:Ec; [|done]. simpl negb. cbv match.
  destruct (byte a <? 0xF0) eqn:E4; byte_cases.
  { intros (rs' & Hd & ->)%fmap_Some.
    exists ((byte a - 224) * 4096 + (byte b - 128) * 64 + (byte c - 128)), s, rs'.
    rewrite encode_3 by lia.
    destruct (Hch (byte a)) as (_ & -> & _), (Hch (byte b)) as (_ & _ & _ & ->),
      (Hch (byte c)) as (_ & _ & _ & ->).
    rewrite !ch_byte. unfold scalar. repeat split; [lia|done]. }
  destruct s as [|d s]; [done|]. destruct (cont d) eqn:Ed; [|done]. simpl negb. cbv match.
  destruct (byte a <? 0xF5) eqn:E5; byte_cases; [|done].
  intros (rs' & Hd & ->)%fmap_Some.
  exists ((byte a - 240) * 262144 + (byte b - 128) * 4096
          + (byte c - 128) * 64 + (byte d - 128)), s, rs'.
  rewrite encode_4 by lia.
  destruct (Hch (byte a)) as (_ & _ & -> & _), (Hch (byte b)) as (_ & _ & _ & ->),
    (Hch (byte c)) as (_ & _ & _ & ->), (Hch (byte d)) as (_ & _ & _ & ->).
  rewrite !ch_byte. unfold scalar. repeat split; [lia|done].
Qed.

Lemma encode_rune_length r : (1 <= String.length (encode_rune r))%nat.
Proof. unfold encode_rune. repeat case_match; simpl; lia. Qed.

(** A string that decodes is the encoding of the scalar values read. *)
Lemma encode_decode s rs :
  decode_runes s = Some rs -> Forall scalar rs /\ s = encode_runes rs.
Proof.
  remember (String.length s) as n eqn:Hn. revert s rs Hn.
  induction n as [n IH] using lt_wf_ind. intros [|a s] rs Hn.
  { intros [= <-]. by split. }
  intros (r & t & rs' & Hr & Hs & Ht & ->)%decode_step.
  pose proof (encode_rune_length r).
  apply (f_equal String.length) in Hs as Hl. rewrite length_app_str in Hl.
  apply (IH (String.length t)) in Ht as [? ->]; [|lia|done].
  split; [by constructor|]. done.
Qed.

(** The set of valid strings is exactly the image of the encoder. *)
Lemma ValidString_spec s :
  ValidString s = true <-> exists rs, Forall scalar rs /\ s = encode_runes rs.
Proof.
  unfold ValidString. split.
  - destruct (decode_runes s) as [rs|] eqn:E; [|done]. intros _.
    exists rs. by apply encode_decode.
  - intros (rs & Hrs & ->). by rewrite decode_encode.
Qed.
