(* ===== verification/Posix.v ===== *)
(** * Specification: how a POSIX shell cuts a command line into words

    The commands the program builds run through [sh -c].  This file states the
    quoting rules of POSIX XCU 2.2 and 2.3 for the subset those commands use:
    blank-separated words, single quotes (every byte literal up to the next
    single quote), double quotes (literal except dollar, backquote and
    backslash), adjacent pieces forming one word, a double-quoted command
    substitution standing for a whole word, the operators [&&], [|] and [;] and
    the redirection [>&2].  Everything else that could be special outside quotes (expansions,
    redirections, globs, comments, newlines) makes [lex] answer [None], so a
    theorem that a command lexes to given words also says that nothing else is
    interpreted by the shell. *)
From S2P Require Import Prelude GoStrings Decimal.
From stdpp Require Import options.

Inductive tok : Type :=
  | Word (w : string)
  | Subst (raw : string) (* one word, the output of the command [raw] *)
  | Op (o : string).

#[export] Instance tok_eq_dec : EqDecision tok.
Proof. solve_decision. Defined.

(** Where the reader stands; [SubstSingle] and [SubstDouble] are quoted pieces
    of a substitution's text, which has a quoting context of its own. *)
Inductive mode : Type := Plain | Single | Double | InSubst | SubstSingle | SubstDouble.

Definition squote : ascii := "'"%char.
Definition dquote : ascii := ascii_of_nat 34.

(** Bytes that are literal outside quotes, wherever they stand in a word. *)
Definition plain_byte (a : ascii) : bool :=
  is_digit a || is_lower a || is_upper a
  || mem_byte ["-"; "_"; "."; "/"; ","; ":"; "="; "+"; "@"; "%"]%char a.

(** Bytes that stay special inside double quotes. *)
Definition dquote_special (a : ascii) : bool := mem_byte ["$"; "`"; "\"]%char a.

Definition blank (a : ascii) : bool := mem_byte [" "%char; ascii_of_nat 9] a.

(** Bytes that would nest or expand inside a substitution's text. *)
Definition subst_special (a : ascii) : bool :=
  mem_byte ["$"; "`"; "\"; "("]%char a.

(** Where a word may end. *)
Definition boundary (s : string) : bool :=
  match s with
  | EmptyString => true
  | String a _ => blank a || bool_decide (a = ";"%char)
  end.

Definition flush (cur : option string) (ts : list tok) : list tok :=
  match cur with Some w => Word w :: ts | None => ts end.

Definition push (cur : option string) (a : ascii) : option string :=
  Some (default EmptyString cur +:+ String a EmptyString).

Fixpoint lex (m : mode) (cur : option string) (s : string) {struct s} : option (list tok) :=
  match s with
  | EmptyString => match m with Plain => Some (flush cur []) | _ => None end
  | String a r =>
      match m with
      | Single => if decide (a = squote) then lex Plain cur r else lex Single (push cur a) r
      | Double =>
          if decide (a = dquote) then lex Plain cur r
          else if dquote_special a then None
          else lex Double (push cur a) r
      | SubstSingle =>
          if decide (a = squote) then lex InSubst (push cur a) r
          else lex SubstSingle (push cur a) r
      | SubstDouble =>
          if decide (a = dquote) then lex InSubst (push cur a) r
          else if dquote_special a then None
          else lex SubstDouble (push cur a) r
      | InSubst =>
          if decide (a = squote) then lex SubstSingle (push cur a) r
          else if decide (a = dquote) then lex SubstDouble (push cur a) r
          else if decide (a = ")"%char) then
            match r with
            | String b r' =>
                if bool_decide (b = dquote) && boundary r'
                then app [Subst (default EmptyString cur)] <$> lex Plain None r' else None
            | EmptyString => None
            end
          else if subst_special a then None
          else lex InSubst (push cur a) r
      | Plain =>
          if decide (a = squote) then lex Single (Some (default EmptyString cur)) r
          else if decide (a = dquote) then
            match cur, r with
            | None, String "$"%char (String "("%char r') => lex InSubst (Some EmptyString) r'
            | _, _ => lex Double (Some (default EmptyString cur)) r
            end
          else if blank a then app (flush cur []) <$> lex Plain None r
          else if decide (a = ";"%char) then
            app (flush cur [Op ";"]) <$> lex Plain None r
          else if decide (a = "|"%char) then
            match r with
            | String b _ =>
                if decide (b = "|"%char) then None
                else app (flush cur [Op "|"]) <$> lex Plain None r
            | EmptyString => Some (flush cur [Op "|"])
            end
          else if decide (a = "&"%char) then
            match r with
            | String b r' =>
                if decide (b = "&"%char)
                then app (flush cur [Op "&&"]) <$> lex Plain None r'
                else None
            | EmptyString => None
            end
          else if decide (a = ">"%char) then
            match cur, r with
            | None, String "&"%char (String "2"%char r') =>
                if boundary r' then app [Op ">&2"] <$> lex Plain None r' else None
            | _, _ => None
            end
          else if plain_byte a then lex Plain (push cur a) r
          else None
      end
  end.

(** The words and operators of a complete command line. *)
Definition shell_words (s : string) : option (list tok) := lex Plain None s.

Lemma fmap_app_app {A} (x y : list A) (o : option (list A)) :
  app x <$> (app y <$> o) = app (x ++ y) <$> o.
Proof. destruct o; simpl; [|done]. by rewrite app_assoc. Qed.

Lemma boundary_blank s t : boundary (s +:+ String " " t) = boundary s.
Proof. by destruct s. Qed.

(** The tokens of a line of fewer than [n] bytes do not change when a blank and
    another line follow, and those of the line follow them. *)
Definition followed (s2 : string) (n : nat) : Prop := forall m cur s1 ts1,
  String.length s1 < n -> lex m cur s1 = Some ts1 ->
  lex m cur (s1 +:+ String " "%char s2) = app ts1 <$> shell_words s2.

Lemma followed_app s2 n m cur s1 ts k : followed s2 n -> String.length s1 < n ->
  (app k <$> lex m cur s1) = Some ts ->
  (app k <$> lex m cur (s1 +:+ String " "%char s2)) = app ts <$> lex Plain None s2.
Proof. intros IH Hn (ts' & Hl & ->)%fmap_Some. erewrite IH by eauto. by rewrite fmap_app_app. Qed.

(** Outside of quotes. *)
Lemma lex_blank_plain s2 a s1 cur ts1 : followed s2 (S (String.length s1)) ->
  lex Plain cur (String a s1) = Some ts1 ->
  lex Plain cur (String a s1 +:+ String " "%char s2) = app ts1 <$> shell_words s2.
Proof.
  intros IH. unfold shell_words. rewrite app_cons_str. simpl.
  assert (forall m cur ts, lex m cur s1 = Some ts ->
    lex m cur (s1 +:+ String " "%char s2) = app ts <$> lex Plain None s2) as IH1 by (intros; by apply IH; [lia|]).
  assert (forall m cur r ts k, String.length r < S (String.length s1) -> (app k <$> lex m cur r) = Some ts ->
    (app k <$> lex m cur (r +:+ String " "%char s2)) = app ts <$> lex Plain None s2) as IHk
    by (intros; by eapply followed_app).
  intros Hl. case_decide; [by apply IH1|].
  case_decide.
  { destruct cur; [by apply IH1|].
    destruct s1 as [|b [|c s1]]; [by apply IH1|each_byte b; by apply IH1|].
    destruct (decide (b = "$"%char)) as [->|]; [destruct (decide (c = "("%char)) as [->|]|].
    - by apply IH; [simpl in *; lia|].
    - each_byte c; try done; by apply IH1.
    - each_byte b; try done; by apply IH1. }
  destruct (blank a); [by apply IHk; [lia|]|].
  case_decide; [by apply IHk; [lia|]|].
  case_decide; [subst a; destruct s1 as [|b s1];
    [apply (IHk Plain None EmptyString _ (flush cur [Op "|"])); [simpl; lia|];
     simpl; by rewrite app_nil_r|]; rewrite app_cons_str;
    cbv match in *; case_decide; [done|]; by apply (IHk _ _ (String b s1)); [simpl in *; lia|]|].
  case_decide; [destruct s1 as [|b s1]; [done|]; rewrite app_cons_str;
    cbv match in *; case_decide; [|done]; by apply IHk; [simpl in *; lia|]|].
  case_decide.
  { destruct cur; [done|]. destruct s1 as [|b [|c s1]]; [done|by each_byte b|].
    destruct (decide (b = "&"%char)) as [->|]; [|by each_byte b].
    destruct (decide (c = "2"%char)) as [->|]; [|by each_byte c].
    rewrite !app_cons_str. cbv match in *. rewrite boundary_blank. destruct (boundary s1); [|done].
    by apply (IHk Plain None s1 ts1 [Op ">&2"]); [simpl in *; lia|]. }
  destruct (plain_byte a); [|done]. by apply IH1.
Qed.

(** A line that lexes can be followed by a blank and another line: the tokens
    are concatenated. *)
Lemma lex_blank m cur s1 ts1 s2 :
  lex m cur s1 = Some ts1 ->
  lex m cur (s1 +:+ String " "%char s2) = app ts1 <$> shell_words s2.
Proof.
  remember (String.length s1) as n eqn:Hn. revert m cur s1 ts1 Hn.
  induction n as [n IHn] using lt_wf_ind. intros m cur s1 ts1 Hn.
  assert (followed s2 n) as IH by (intros m' cur' r ts Hr; by eapply IHn).
  destruct s1 as [|a s1]; [destruct m; [intros [= <-]|intros [=]..]; done|]. cbn [String.length] in Hn. subst n.
  destruct m; [by apply lex_blank_plain|unfold shell_words; rewrite app_cons_str; simpl; intros Hl..].
  - case_decide; by apply IH; [lia|].
  - case_decide; [by apply IH; [lia|]|]. destruct (dquote_special a); [done|]. by apply IH; [lia|].
  - case_decide; [by apply IH; [lia|]|]. case_decide; [by apply IH; [lia|]|]. case_decide.
    + destruct s1 as [|b s1]; [done|]. rewrite app_cons_str. cbv match in *.
      rewrite boundary_blank. destruct (_ && _); [|done].
      by apply (followed_app _ _ Plain None s1 ts1 [Subst (default EmptyString cur)] IH); [simpl in *; lia|].
    + destruct (subst_special a); [done|]. by apply IH; [lia|].
  - case_decide; by apply IH; [lia|].
  - case_decide; [by apply IH; [lia|]|]. destruct (dquote_special a); [done|]. by apply IH; [lia|].
Qed.

Lemma shell_words_blank s1 ts1 s2 ts2 :
  shell_words s1 = Some ts1 -> shell_words s2 = Some ts2 ->
  shell_words (s1 +:+ String " "%char s2) = Some (ts1 ++ ts2).
Proof. intros H1 H2. unfold shell_words at 1. erewrite lex_blank by done. by rewrite H2. Qed.

(** A nonempty run of plain bytes is one word. *)
Lemma lex_plain cur w :
  all_bytes plain_byte w = true ->
  lex Plain (Some cur) w = Some [Word (cur +:+ w)].
Proof.
  revert cur. induction w as [|a w IH]; intros cur; simpl.
  - intros _. by rewrite app_nil_r_str.
  - intros [Ha Hw]%andb_true_iff.
    assert (blank a = false /\ a <> squote /\ a <> dquote /\ a <> ";"%char
            /\ a <> "|"%char /\ a <> "&"%char /\ a <> ">"%char) as (Hb & ? & ? & ? & ? & ? & ?).
    { each_byte a; (vm_compute in Ha; try discriminate Ha);
        repeat split; (reflexivity || discriminate). }
    repeat case_decide; try done. rewrite Hb, Ha. unfold push. simpl.
    rewrite IH by done. by rewrite app_assoc_str.
Qed.

Lemma shell_words_plain w :
  all_bytes plain_byte w = true -> w <> EmptyString -> shell_words w = Some [Word w].
Proof.
  intros Hw Hne. destruct w as [|a w]; [done|].
  transitivity (lex Plain (Some EmptyString) (String a w)); [|by apply (lex_plain EmptyString)].
  simpl in Hw. apply andb_true_iff in Hw as [Ha _].
  each_byte a; (vm_compute in Ha; try discriminate Ha); done.
Qed.

(** Pieces joined by single blanks lex to the concatenation of their words. *)
Lemma shell_words_Join ss tss :
  Forall2 (fun s ts => shell_words s = Some ts) ss tss ->
  shell_words (Join ss " ") = Some (concat tss).
Proof.
  induction 1 as [|s ts ss tss H Hs IH]; [done|].
  destruct ss as [|s' ss].
  - inversion Hs. simpl. by rewrite app_nil_r.
  - rewrite Join_cons by done. apply (shell_words_blank s ts _ (concat tss)); done.
Qed.

(** Decimal numbers are words. *)
Lemma digit_plain a : is_digit a = true -> plain_byte a = true.
Proof. each_byte a; vm_compute; done. Qed.

Lemma Itoa_word z : all_bytes plain_byte (Itoa z) = true /\ Itoa z <> "".
Proof.
  assert (forall z, (0 <= z)%Z -> all_bytes plain_byte (Itoa z) = true /\ Itoa z <> "") as H.
  { intros z' Hz. destruct (Itoa_digits z' Hz) as (Hd & Hn & _). split; [|done].
    eapply all_bytes_impl; [|exact Hd]. intros a Ha. by apply digit_plain. }
  destruct z as [|p|p]; [done|by apply H|]. split; [|done].
  change (plain_byte "-" && all_bytes plain_byte (Itoa (Z.pos p)) = true).
  by rewrite (proj1 (H (Z.pos p) ltac:(done))).
Qed.

Lemma shell_words_Itoa z : shell_words (Itoa z) = Some [Word (Itoa z)].
Proof. destruct (Itoa_word z). by apply shell_words_plain. Qed.
