(* ===== verification/Shell.v ===== *)
(** * internal/shell: quoting values into the command of a Job

    [Quote] and [CheckSingleLine] of internal/shell/quote.go, with the contract
    the command builders rely on: a quoted value is exactly one shell word
    whatever its bytes, and a checked value is a single line of printable text. *)
From S2P Require Import Prelude GoStrings Utf8 Posix.
From stdpp Require Import options.

(** The replacement of an embedded single quote: close, a double-quoted single
    quote, reopen. *)
Definition quoted_squote : string :=
  String squote (String dquote (String squote (String dquote (String squote EmptyString)))).

Definition Quote (value : string) : string :=
  if decide (value = EmptyString) then "''"
  else "'" +:+ ReplaceAll value squote quoted_squote +:+ "'".

(** [char] is outside what one line of a block scalar carries. *)
Definition notPlainYAML (char : Z) : bool :=
  if (char =? 9)%Z then false
  else if (char <? 0x20)%Z then true
  else if (0x7f <=? char)%Z && (char <=? 0x9f)%Z then true
  else if (char =? 0x2028)%Z || (char =? 0x2029)%Z then true
  else if (char =? 0xfffe)%Z || (char =? 0xffff)%Z then true
  else false.

(** [strings.IndexFunc] with the rune it stops at decoded, on a string already
    known to be valid. *)
Definition first_rune (f : Z -> bool) (value : string) : option Z :=
  match decode_runes value with
  | Some rs => List.find f rs
  | None => None
  end.

Definition CheckSingleLine (name value : string) : result () :=
  _ ← fail_if (negb (ValidString value)) (Errorf "%s must be valid UTF-8" [AStr name]);
  match first_rune notPlainYAML value with
  | Some found => Err (Errorf "%s must not contain the character %q" [AStr name; AInt found])
  | None => Ok ()
  end.

(** ** Quoting *)

Lemma lex_quoted_body v cur r :
  lex Single (Some cur) (ReplaceAll v squote quoted_squote +:+ String squote r)
  = lex Plain (Some (cur +:+ v)) r.
Proof.
  revert cur. induction v as [|a v IH]; intros cur; simpl.
  - by rewrite app_nil_r_str.
  - destruct (decide (a = squote)) as [->|Ha].
    + unfold quoted_squote, push. simpl. rewrite IH, app_assoc_str. done.
    + rewrite app_cons_str. simpl. rewrite decide_False by done.
      unfold push. simpl. by rewrite IH, app_assoc_str.
Qed.

(** In the middle of a command line, a quoted value adds exactly its own bytes
    to the current word. *)
Lemma lex_Quote v cur r :
  lex Plain cur (Quote v +:+ r) = lex Plain (Some (default EmptyString cur +:+ v)) r.
Proof.
  unfold Quote. case_decide as H.
  - subst. simpl. by rewrite app_nil_r_str.
  - rewrite !app_assoc_str. simpl. apply lex_quoted_body.
Qed.

Lemma shell_words_Quote v : shell_words (Quote v) = Some [Word v].
Proof.
  unfold shell_words. rewrite <- (app_nil_r_str (Quote v)), lex_Quote. done.
Qed.

(** A quoted word, a blank, and the rest of the line. *)
Lemma shell_words_Quote_blank v s ts :
  shell_words s = Some ts ->
  shell_words (Quote v +:+ String " "%char s) = Some (Word v :: ts).
Proof. intros H. by rewrite (shell_words_blank _ _ _ _ (shell_words_Quote v) H). Qed.

(** Inside a command substitution the quoted value is carried as it is. *)
Lemma lex_Quote_subst v cur r :
  lex InSubst (Some cur) (Quote v +:+ r) = lex InSubst (Some (cur +:+ Quote v)) r.
Proof.
  unfold Quote. case_decide as H.
  { transitivity (lex InSubst (push (push (Some cur) squote) squote) r); [reflexivity|].
    unfold push; cbn [default from_option id]. by rewrite app_assoc_str. }
  clear H.
  assert (forall cur, lex SubstSingle (Some cur) (ReplaceAll v squote quoted_squote +:+ "'" +:+ r)
    = lex InSubst (Some (cur +:+ ReplaceAll v squote quoted_squote +:+ "'")) r) as Hb.
  { induction v as [|a v IH]; intros c; [done|]. cbn [ReplaceAll]. case_decide as Ha.
    - rewrite app_assoc_str. transitivity
        (lex SubstSingle (push (push (push (push (push (Some c) squote) dquote) squote) dquote) squote)
           (ReplaceAll v squote quoted_squote +:+ "'" +:+ r)); [reflexivity|].
      unfold push; cbn [default from_option id]. rewrite IH. by rewrite !app_assoc_str.
    - rewrite app_cons_str. cbn [lex]. rewrite decide_False by done. unfold push; cbn [default from_option id].
      rewrite IH. by rewrite !app_assoc_str. }
  rewrite !app_assoc_str. change ("'" +:+ ?t) with (String squote t) at 1.
  cbn [lex]. rewrite decide_True by done. unfold push; cbn [default from_option id]. rewrite Hb.
  by rewrite !app_assoc_str.
Qed.

(** ** Single-line values *)

Definition printable_rune (r : Z) : Prop := scalar r /\ notPlainYAML r = false.

Lemma CheckSingleLine_runes name v :
  CheckSingleLine name v = Ok () <->
  exists rs, v = encode_runes rs /\ Forall printable_rune rs.
Proof.
  unfold CheckSingleLine, first_rune, ValidString. split.
  - destruct (decode_runes v) as [rs|] eqn:E; simpl; [|done].
    destruct (List.find notPlainYAML rs) eqn:F; [done|]. intros _.
    exists rs. apply encode_decode in E as [Hs ->]. split; [done|].
    rewrite Forall_forall in Hs |- *. intros r Hr. split; [by apply Hs|].
    apply (find_none _ _ F). by apply list_elem_of_In.
  - intros (rs & -> & Hp).
    rewrite decode_encode by (eapply Forall_impl; [done|]; by intros ? []). simpl.
    destruct (List.find notPlainYAML rs) as [r|] eqn:F; [|done].
    apply find_some in F as [Hr Hf]. apply list_elem_of_In in Hr.
    rewrite Forall_forall in Hp. apply Hp in Hr as [_ Hr]. congruence.
Qed.

(** Bytes below U+0080 only occur in an encoding as themselves. *)
Lemma encode_rune_ascii r a :
  scalar r -> (byte a < 128)%Z -> any_byte (fun b => bool_decide (b = a)) (encode_rune r) = true ->
  r = byte a.
Proof.
  intros Hr Ha. unfold encode_rune.
  assert (forall z, (128 <= z < 256)%Z -> bool_decide (ch z = a) = false) as Hn.
  { intros z Hz. apply bool_decide_eq_false. intros <-. rewrite byte_ch in Ha; lia. }
  unfold scalar in Hr.
  destruct (Z.ltb_spec r 0x80); [|repeat case_match]; byte_cases; simpl;
    rewrite ?Hn by Zdiv; try done.
  rewrite orb_false_r. intros <-%bool_decide_eq_true. by rewrite byte_ch by lia.
Qed.

Lemma encode_runes_ascii rs a :
  Forall scalar rs -> (byte a < 128)%Z ->
  any_byte (fun b => bool_decide (b = a)) (encode_runes rs) = true -> byte a ∈ rs.
Proof.
  intros Hrs Ha. induction Hrs as [|r rs Hr _ IH]; simpl; [done|].
  rewrite any_byte_app, orb_true_iff. intros [H|H].
  - apply encode_rune_ascii in H; [|done..]. subst. set_solver.
  - set_solver.
Qed.

(** ** Reading a command line that is part literal, part quoted values *)

Lemma shell_words_lit lit body ts s ts' :
  CutSuffix lit " " = Some body -> shell_words body = Some ts ->
  shell_words s = Some ts' -> shell_words (lit +:+ s) = Some (ts ++ ts').
Proof.
  intros ->%CutSuffix_Some Hb Hs. rewrite app_assoc_str. by apply shell_words_blank.
Qed.

Lemma shell_words_Quote_lit v lit lit' s ts :
  CutPrefix lit " " = Some lit' -> shell_words (lit' +:+ s) = Some ts ->
  shell_words (Quote v +:+ lit +:+ s) = Some (Word v :: ts).
Proof.
  intros ->%CutPrefix_Some Hs. rewrite app_assoc_str. by apply shell_words_Quote_blank.
Qed.

Lemma shell_words_Quote_end v lit lit' ts :
  CutPrefix lit " " = Some lit' -> shell_words lit' = Some ts ->
  shell_words (Quote v +:+ lit) = Some (Word v :: ts).
Proof. intros ->%CutPrefix_Some Hs. by apply shell_words_Quote_blank. Qed.

(** The mode reached after reading [w] inside a substitution, without leaving it. *)
Fixpoint subst_run (m : mode) (w : string) : option mode :=
  match w with
  | EmptyString => Some m
  | String a w =>
      match m with
      | InSubst =>
          if decide (a = squote) then subst_run SubstSingle w
          else if decide (a = dquote) then subst_run SubstDouble w
          else if decide (a = ")"%char) then None
          else if subst_special a then None else subst_run InSubst w
      | SubstSingle => if decide (a = squote) then subst_run InSubst w else subst_run SubstSingle w
      | SubstDouble =>
          if decide (a = dquote) then subst_run InSubst w
          else if dquote_special a then None else subst_run SubstDouble w
      | _ => None
      end
  end.

Lemma lex_subst_run w m m' cur r :
  subst_run m w = Some m' -> lex m (Some cur) (w +:+ r) = lex m' (Some (cur +:+ w)) r.
Proof.
  revert m cur. induction w as [|a w IH]; intros m cur; [intros [= ->]; by rewrite app_nil_r_str|].
  assert (cur +:+ String a w = (cur +:+ String a "") +:+ w) as -> by by rewrite app_assoc_str.
  rewrite app_cons_str. cbn [subst_run lex]. intros H.
  destruct m; try done; repeat (case_decide; [by try apply IH|]);
    try (destruct (subst_special a); [done|]); try (destruct (dquote_special a); [done|]);
    by apply IH.
Qed.

(** A double-quoted substitution, as one argument of a command. *)
Lemma shell_words_Subst pre v post s ts :
  subst_run InSubst pre = Some InSubst -> subst_run InSubst post = Some InSubst ->
  boundary s = true -> shell_words s = Some ts ->
  shell_words (String dquote ("$(" +:+ pre +:+ Quote v +:+ post +:+ ")" +:+ String dquote s))
  = Some (Subst (pre +:+ Quote v +:+ post) :: ts).
Proof.
  intros Hpre Hpost Hb Hs. unfold shell_words.
  change (lex InSubst (Some "") (pre +:+ Quote v +:+ post +:+ ")" +:+ String dquote s)
          = Some (Subst (pre +:+ Quote v +:+ post) :: ts)).
  rewrite (lex_subst_run _ _ _ _ _ Hpre), lex_Quote_subst, (lex_subst_run _ _ _ _ _ Hpost).
  change (")" +:+ String dquote s) with (String ")" (String dquote s)). cbn [lex].
  rewrite !decide_False by done. rewrite decide_True by done.
  rewrite bool_decide_eq_true_2, Hb by done. cbn [andb]. unfold shell_words in Hs. rewrite Hs.
  cbn [fmap option_fmap option_map default from_option id]. by rewrite !app_assoc_str.
Qed.

(** Reads a line built from literals, quoted values and strings whose words are
    known by hypothesis: solves [shell_words s = Some ?ts]. *)
Ltac line_words :=
  lazymatch goal with
  | |- shell_words (Quote _) = _ => apply shell_words_Quote
  | |- shell_words (Itoa _) = _ => apply shell_words_Itoa
  | |- shell_words (EmptyString +:+ ?s) = ?t => change (shell_words s = t); line_words
  | |- shell_words (String ?a ?b +:+ String ?c ?d +:+ ?s) = ?t =>
      let l := eval vm_compute in (String a b +:+ String c d) in
      change (shell_words (l +:+ s) = t); line_words
  | |- shell_words (String ?a ?b +:+ String ?c ?d) = ?t => vm_compute; reflexivity
  | |- shell_words (String _ _ +:+ _) = _ =>
      eapply shell_words_lit; [vm_compute; reflexivity|vm_compute; reflexivity|line_words]
  | |- shell_words (Quote _ +:+ String ?a ?b +:+ String ?c ?d +:+ ?s) = ?t =>
      let l := eval vm_compute in (String a b +:+ String c d) in
      change (String a b +:+ String c d +:+ s) with (l +:+ s); line_words
  | |- shell_words (Quote _ +:+ String ?a ?b +:+ String ?c ?d) = ?t =>
      let l := eval vm_compute in (String a b +:+ String c d) in
      change (String a b +:+ String c d) with l; line_words
  | |- shell_words (Quote _ +:+ String _ _ +:+ _) = _ =>
      eapply shell_words_Quote_lit; [vm_compute; reflexivity|line_words]
  | |- shell_words (Quote _ +:+ String _ _) = _ =>
      eapply shell_words_Quote_end; [vm_compute; reflexivity|line_words]
  | |- shell_words (String _ _) = _ => vm_compute; reflexivity
  | |- _ => eassumption
  end.

(** The same against given words. *)
Ltac shell_line := etransitivity; [line_words|reflexivity].

(** C12: a quoted value is exactly one POSIX shell word.  Wherever it is written
    outside quotes, the shell reads back the value's own bytes, glued to the
    word being read, and then goes on with the rest of the line: no byte of the
    value ends the word, opens a substitution or starts another command. *)
Theorem Quote_is_one_word value cur rest :
  lex Plain cur (Quote value +:+ rest)
  = lex Plain (Some (default EmptyString cur +:+ value)) rest
  /\ shell_words (Quote value) = Some [Word value].
Proof. split; [apply lex_Quote|apply shell_words_Quote]. Qed.

(** [CheckSingleLine] on every input.  It accepts exactly the UTF-8
    encodings of printable single-line text; on well-formed UTF-8 with a
    forbidden character the error names the parameter and the first such
    character; anything else is reported as not being UTF-8. *)
Theorem CheckSingleLine_spec name value :
  match decode_runes value with
  | Some rs =>
      value = encode_runes rs /\
      CheckSingleLine name value =
        match List.find notPlainYAML rs with
        | Some r => Err (Errorf "%s must not contain the character %q" [AStr name; AInt r])
        | None => Ok ()
        end
  | None =>
      (~ exists rs, Forall scalar rs /\ value = encode_runes rs) /\
      CheckSingleLine name value = Err (Errorf "%s must be valid UTF-8" [AStr name])
  end.
Proof.
  unfold CheckSingleLine, first_rune.
  destruct (decode_runes value) as [rs|] eqn:E.
  - split; [by apply encode_decode|].
    unfold ValidString. rewrite E. simpl. done.
  - assert (ValidString value = false) as HV by (unfold ValidString; by rewrite E).
    split; [|by rewrite HV]. intros H. apply ValidString_spec in H. congruence.
Qed.

(** An accepted value is one line: it holds no control byte except tab (so
    no newline, carriage return or NUL) and no DEL. *)
Theorem CheckSingleLine_one_line name value a :
  CheckSingleLine name value = Ok () ->
  (byte a < 32 /\ byte a <> 9 \/ byte a = 127)%Z ->
  any_byte (fun b => bool_decide (b = a)) value = false.
Proof.
  intros (rs & -> & Hp)%CheckSingleLine_runes Ha.
  destruct (any_byte _ _) eqn:E; [|done].
  apply encode_runes_ascii in E; [|by eapply Forall_impl; [done|]; intros ? []|lia].
  rewrite Forall_forall in Hp. destruct (Hp _ E) as [_ Hn].
  unfold notPlainYAML in Hn. repeat case_match; byte_cases; try done; lia.
Qed.

Lemma CheckSingleLine_one_line_witness :
  CheckSingleLine "--source-path" "a b" = Ok () /\
  any_byte (fun b => bool_decide (b = ascii_of_nat 10)) "a b" = false.
Proof.
  split; [vm_compute; reflexivity|].
  apply (CheckSingleLine_one_line "--source-path"); vm_compute; [reflexivity|left; split; [reflexivity|discriminate]].
Defined.
