(* ===== verification/ShellLine.v ===== *)
(** * Specification: how the shell runs a command line

    The part of POSIX XCU 2.9 the built commands rely on: a line is a list of
    AND-lists separated by [;], an AND-list is pipelines joined by [&&], a
    pipeline is simple commands joined by [|].  [set -o pipefail] changes the
    status of the pipelines after it.  Which status a command exits with is an
    oracle; what is computed is which pipelines are started, in which order, and
    the status of the line, which is the one the Job records. *)
From S2P Require Import Prelude GoStrings Posix.
From stdpp Require Import options.

(** A simple command: its words, substitutions and redirections. *)
Notation command := (list tok) (only parsing).
Notation pipeline := (list (list tok)) (only parsing).

Fixpoint split_op (o : string) (ts : list tok) : list (list tok) :=
  match ts with
  | [] => [[]]
  | t :: ts =>
      if decide (t = Op o) then [] :: split_op o ts
      else match split_op o ts with
           | [] => [[t]]
           | w :: ws => (t :: w) :: ws
           end
  end.

Definition parse_line (ts : list tok) : list (list pipeline) :=
  (fun l => split_op "|" <$> split_op "&&" l) <$> split_op ";" ts.

(** Tokens joined by an operator, the inverse of [split_op]. *)
Fixpoint join_op (o : string) (l : list (list tok)) : list tok :=
  match l with
  | [] => []
  | [x] => x
  | x :: l => x ++ Op o :: join_op o l
  end.

Definition line_tokens (l : list (list pipeline)) : list tok :=
  join_op ";" ((fun ps => join_op "&&" (join_op "|" <$> ps)) <$> l).

(** A token that is no separator. *)
Definition simple_tok (t : tok) : bool :=
  match t with Op o => bool_decide (o <> ";" /\ o <> "&&" /\ o <> "|") | _ => true end.

(** Every list nonempty and every command free of separators. *)
Definition well_formed (l : list (list pipeline)) : bool :=
  negb (bool_decide (l = [])) && forallb (fun ps => negb (bool_decide (ps = []))
    && forallb (fun p => negb (bool_decide (p = [])) && forallb (forallb simple_tok) p) ps) l.

Definition op_free (o : string) (ts : list tok) : Prop := Forall (fun t => t <> Op o) ts.

Lemma split_op_free o ts : op_free o ts -> split_op o ts = [ts].
Proof.
  induction 1 as [|t ts Ht Hts IH]; [done|]. simpl. by rewrite decide_False, IH.
Qed.

Lemma split_op_app o ts ts' :
  op_free o ts -> split_op o (ts ++ Op o :: ts') = ts :: split_op o ts'.
Proof.
  induction 1 as [|t ts Ht Hts IH]; simpl; [by rewrite decide_True|].
  by rewrite decide_False, IH.
Qed.

Lemma split_join o l : l <> [] -> Forall (op_free o) l -> split_op o (join_op o l) = l.
Proof.
  intros Hne Hl. induction Hl as [|x l Hx Hl IH]; [done|].
  destruct l as [|y l]; [by apply split_op_free|].
  change (join_op o (x :: y :: l)) with (x ++ Op o :: join_op o (y :: l)).
  rewrite split_op_app by done. by rewrite IH.
Qed.

Lemma op_free_join o o' l : o <> o' -> Forall (op_free o) l -> op_free o (join_op o' l).
Proof.
  intros Ho. induction 1 as [|x l Hx Hl IH]; [constructor|].
  destruct l as [|y l]; [done|].
  change (join_op o' (x :: y :: l)) with (x ++ Op o' :: join_op o' (y :: l)).
  apply Forall_app. split; [done|]. constructor; [congruence|done].
Qed.

Lemma simple_op_free o c :
  o = ";" \/ o = "&&" \/ o = "|" -> forallb simple_tok c = true -> op_free o c.
Proof.
  intros Ho Hc. apply Forall_forall. intros t Ht ->.
  rewrite forallb_forall in Hc. apply list_elem_of_In, Hc, bool_decide_eq_true in Ht. naive_solver.
Qed.

Lemma parse_line_tokens l : well_formed l = true -> parse_line (line_tokens l) = l.
Proof.
  unfold well_formed, parse_line, line_tokens.
  rewrite andb_true_iff, negb_true_iff, bool_decide_eq_false, forallb_forall. intros [Hne Hl].
  assert (forall o ps, o = ";" \/ o = "&&" -> forall p, p ∈ ps ->
    forallb (fun p => negb (bool_decide (p = [])) && forallb (forallb simple_tok) p) ps = true ->
    op_free o (join_op "|" p)) as Hf.
  { intros o ps Ho p Hp Hps. apply op_free_join; [naive_solver|].
    rewrite forallb_forall in Hps. apply list_elem_of_In, Hps, andb_true_iff in Hp as [_ Hp].
    rewrite forallb_forall in Hp. apply Forall_forall. intros c Hc%list_elem_of_In.
    apply simple_op_free; [tauto|]. by apply Hp. }
  rewrite split_join.
  - rewrite <- list_fmap_compose. rewrite <- (list_fmap_id l) at 2.
    apply list_fmap_ext. intros i ps Hi. apply list_elem_of_lookup_2, list_elem_of_In, Hl in Hi.
    apply andb_true_iff in Hi as [Hps Hc]. apply negb_true_iff, bool_decide_eq_false in Hps.
    cbn. rewrite split_join.
    + rewrite <- list_fmap_compose. rewrite <- (list_fmap_id ps) at 2.
      apply list_fmap_ext. intros j p Hj. apply list_elem_of_lookup_2, list_elem_of_In in Hj.
      rewrite forallb_forall in Hc. apply Hc, andb_true_iff in Hj as [Hp Hj].
      apply negb_true_iff, bool_decide_eq_false in Hp. cbn. apply split_join; [done|].
      rewrite forallb_forall in Hj. apply Forall_forall. intros c Hcc%list_elem_of_In.
      apply simple_op_free; [tauto|]. by apply Hj.
    + intros H%fmap_nil_inv. done.
    + apply Forall_fmap, Forall_forall. intros p Hp. eapply Hf; eauto.
  - intros H%fmap_nil_inv. done.
  - apply Forall_fmap, Forall_forall. intros ps Hps%list_elem_of_In. apply Hl in Hps.
    apply andb_true_iff in Hps as [_ Hc]. cbn. apply op_free_join; [done|].
    apply Forall_fmap, Forall_forall. intros p Hp. eapply Hf; eauto.
Qed.

Record shell : Type := mkShell {
  pipefail : bool;
  ran : list pipeline; (* the pipelines started, in order *)
  rc : Z
}.

Definition fresh_shell : shell := mkShell false [] 0.

Section Run.
Variable status : list tok -> Z.

(** The status of a pipeline: of its last command, or with [pipefail] of the
    last one that failed. *)
Definition pipe_status (fail : bool) (p : pipeline) : Z :=
  if fail then fold_left (fun acc c => if decide (status c = 0)%Z then acc else status c) p 0%Z
  else match last p with Some c => status c | None => 0 end%Z.

Definition set_pipefail : pipeline := [[Word "set"; Word "-o"; Word "pipefail"]].

Definition run_pipeline (sh : shell) (p : pipeline) : shell :=
  if decide (p = set_pipefail) then mkShell true (ran sh) 0
  else mkShell (pipefail sh) (ran sh ++ [p]) (pipe_status (pipefail sh) p).

Fixpoint run_and (sh : shell) (ps : list pipeline) : shell :=
  match ps with
  | [] => sh
  | p :: ps =>
      let sh := run_pipeline sh p in
      if decide (rc sh = 0)%Z then run_and sh ps else sh
  end.

Definition run_tokens (ts : list tok) : shell := fold_left run_and (parse_line ts) fresh_shell.

(** [sh -c line]: [None] when the line holds something this reading of the
    shell gives no meaning to. *)
Definition run (line : string) : option shell := run_tokens <$> shell_words line.

Lemma run_line line l :
  shell_words line = Some (line_tokens l) -> well_formed l = true ->
  run line = Some (fold_left run_and l fresh_shell).
Proof. intros Hw Hl. unfold run, run_tokens. rewrite Hw. simpl. by rewrite parse_line_tokens. Qed.

(** ** What a chain of commands joined by [&&] does *)

Definition succeeds (p : pipeline) : Prop := Forall (fun c => status c = 0%Z) p.

#[export] Instance succeeds_dec p : Decision (succeeds p).
Proof. apply _. Defined.

Fixpoint started (ps : list pipeline) : list pipeline :=
  match ps with
  | [] => []
  | p :: ps => p :: if decide (succeeds p) then started ps else []
  end.

Lemma pipe_status_0 p : pipe_status true p = 0%Z <-> succeeds p.
Proof.
  unfold pipe_status, succeeds. induction p as [|c p IH] using rev_ind; [by split|].
  rewrite fold_left_app, Forall_app, Forall_singleton. simpl. case_decide; naive_solver.
Qed.

Lemma pipe_status_single fail c : pipe_status fail [c] = status c.
Proof. destruct fail; [|done]. cbn. case_decide; congruence. Qed.

Definition all_succeed (ps : list pipeline) : Prop := Forall succeeds ps.

Lemma all_succeed_pair ps a b :
  all_succeed (ps ++ [[a; b]]) <-> all_succeed ps /\ status a = 0%Z /\ status b = 0%Z.
Proof.
  unfold all_succeed. rewrite Forall_app, Forall_singleton. unfold succeeds at 2.
  by rewrite Forall_cons, Forall_singleton.
Qed.

Lemma all_succeed_single_pair a b :
  all_succeed [[a; b]] <-> status a = 0%Z /\ status b = 0%Z.
Proof.
  change [[a; b]] with ([] ++ [[a; b]]). rewrite all_succeed_pair. unfold all_succeed.
  rewrite Forall_nil. tauto.
Qed.

Lemma started_single p : started [p] = [p].
Proof. simpl. by case_decide. Qed.

(** Under [pipefail] a chain starts its pipelines up to the first one that
    fails, and exits 0 exactly when all of them succeeded. *)
Lemma run_and_chain fail r z ps :
  Forall (fun p => p <> set_pipefail) ps ->
  fail = true \/ Forall (fun p => length p = 1) ps ->
  z = 0%Z \/ ps <> [] ->
  let sh := run_and (mkShell fail r z) ps in
  ran sh = r ++ started ps /\ (rc sh = 0%Z <-> all_succeed ps) /\ pipefail sh = fail.
Proof.
  intros Hs. revert r z. induction Hs as [|p ps Hp Hs IH]; intros r z Hf Hz; simpl.
  { rewrite app_nil_r. destruct Hz as [->|]; [|done]. repeat split. intros _. constructor. }
  clear Hz. unfold run_pipeline. rewrite !(decide_False (P:=p = set_pipefail)) by done.
  cbn [rc pipefail ran].
  assert (pipe_status fail p = 0%Z <-> succeeds p) as Hst.
  { destruct Hf as [->|Hf]; [apply pipe_status_0|].
    apply Forall_cons in Hf as [Hl _]. destruct p as [|c [|]]; [done| |done].
    rewrite pipe_status_single. unfold succeeds. by rewrite Forall_singleton. }
  unfold all_succeed. rewrite Forall_cons. case_decide as H0.
  - rewrite decide_True by tauto.
    destruct (IH (r ++ [p]) (pipe_status fail p)) as (IH1 & IH2 & IH3).
    { destruct Hf as [|Hf]; [by left|right]. by apply Forall_cons in Hf as [_ ?]. }
    { by left. }
    split; [by rewrite IH1, <- (assoc_L (++))|]. split; [|done]. rewrite IH2. tauto.
  - rewrite decide_False by tauto. cbn [ran rc pipefail]. tauto.
Qed.

(** A line starting with [set -o pipefail] and going on with AND-lists: each of
    them is run whatever the ones before did, and the last one decides. *)
Lemma run_pipefail_lines ls l r z :
  Forall (Forall (fun p => p <> set_pipefail)) (ls ++ [l]) -> Forall (fun ps => ps <> []) (ls ++ [l]) ->
  let sh := fold_left run_and (ls ++ [l]) (mkShell true r z) in
  ran sh = r ++ concat (started <$> ls ++ [l]) /\ (rc sh = 0%Z <-> all_succeed l).
Proof.
  revert r z. induction ls as [|k ls IH]; intros r z Hp Hn.
  - cbn [app] in *. rewrite Forall_singleton in Hp, Hn. simpl.
    destruct (run_and_chain true r z l Hp) as (H1 & H2 & _); [by left|by right|].
    by rewrite app_nil_r.
  - rewrite <- app_comm_cons in Hp, Hn |- *. apply Forall_cons in Hp as [Hk Hp], Hn as [Hnk Hn].
    cbn [fold_left].
    destruct (run_and_chain true r z k Hk) as (H1 & _ & H3); [by left|by right|].
    destruct (run_and (mkShell true r z) k) as [f r' z'] eqn:E. cbn in H1, H3. subst.
    destruct (IH (r ++ started k) z' Hp Hn) as [IH1 IH2]. split; [|done].
    rewrite IH1. cbn. by rewrite <- (assoc_L (++)).
Qed.
End Run.
