(* ===== verification/Paths.v ===== *)
(** * Paths inside a mounted volume

    Go's [path] package on byte strings, and the three places that confine a
    user-supplied path to a volume: [mountSubPath] (internal/strategy/paths.go),
    [validateSubpath] (internal/bucketstorage/bucketstorage.go) and
    [archiveFilePath]'s check (internal/bucketstorage/archive.go).

    The specification is [walk]: where a process standing at a node of the tree
    ends up when it follows the segments of a path, [..] at the root staying at
    the root.  It is lexical, as the guarantee in the source is. *)
From S2P Require Import Prelude GoStrings.
From stdpp Require Import options.

Definition slash : ascii := "/"%char.

Section GoPath.

(** One segment of [path.Clean]; [st] is the output so far, innermost first. *)
Definition push_seg (rooted : bool) (st : list string) (seg : string) : list string :=
  if decide (seg = "" \/ seg = ".") then st
  else if decide (seg = "..") then
    match st with
    | [] => if rooted then [] else [".."]
    | top :: st' => if decide (top = "..") then ".." :: st else st'
    end
  else seg :: st.

Definition clean_segs (rooted : bool) (segs : list string) : list string :=
  rev (fold_left (push_seg rooted) segs []).

(** [path.Clean] *)
Definition Clean (p : string) : string :=
  if decide (p = "") then "."
  else
    let rooted := HasPrefix p "/" in
    let s := (if rooted then "/" else "") +:+ Join (clean_segs rooted (Split p slash)) "/" in
    if decide (s = "") then "." else s.

(** [path.Join]: empty elements are dropped. *)
Definition PathJoin (elems : list string) : string :=
  match filter (fun x => x <> "") elems with
  | [] => ""
  | l => Clean (Join l "/")
  end.

(** [path.IsAbs] *)
Definition IsAbs (p : string) : bool := HasPrefix p "/".

(** [path.Dir]: everything up to the last slash, cleaned. *)
Definition Dir (p : string) : string :=
  match removelast (Split p slash) with
  | [] => Clean ""
  | l => Clean (Join l "/" +:+ "/")
  end.

(** [path.Base]: the last segment that is not empty. *)
Definition Base (p : string) : string :=
  if decide (p = "") then "."
  else match last (filter (fun x => x <> "") (Split p slash)) with
       | Some seg => seg
       | None => "/"
       end.
End GoPath.

(** ** internal/strategy/paths.go *)

Definition srcMountPath : string := "/source".
Definition destMountPath : string := "/dest".

Definition wantsContents (subPath : string) : bool :=
  HasSuffix subPath "/" || HasSuffix subPath "/." || bool_decide (subPath = ".").

Definition mountSubPath (mountPath subPath : string) : result string :=
  let resolved := Clean (mountPath +:+ "/" +:+ subPath) in
  _ ← fail_if (negb (bool_decide (resolved = mountPath))
               && negb (HasPrefix resolved (mountPath +:+ "/")))
        (Errorf "path %q escapes the volume mounted at %s" [AStr subPath; AStr mountPath]);
  if bool_decide (resolved = mountPath) || wantsContents subPath
  then Ok (resolved +:+ "/")
  else Ok resolved.

Definition resolveMountPaths (sourcePath destPath : string) : result (string * string) :=
  srcPath ← wrap_err "invalid --source-path: %w" (mountSubPath srcMountPath sourcePath);
  destPath ← wrap_err "invalid --dest-path: %w" (mountSubPath destMountPath destPath);
  Ok (srcPath, destPath).

Definition ValidatePaths (sourcePath destPath : string) : result () :=
  _ ← resolveMountPaths sourcePath destPath; Ok ().

(** ** internal/bucketstorage: --path and the path on an archive claim *)

Definition dataMountPath : string := "/data".
Definition archiveMountPath : string := "/archive".

Definition validateSubpath (p : string) : result () :=
  _ ← fail_if (IsAbs p) (ErrNew "must be a relative path");
  let cleaned := Clean p in
  fail_if (bool_decide (cleaned = "..") || HasPrefix cleaned "../")
    (ErrNew "must not escape the volume root with '..'").

(** [archiveFilePath] for a target on a claim. *)
Definition claimFilePath (targetPath : string) : result string :=
  let cleaned := Clean (TrimPrefix targetPath "/") in
  _ ← fail_if (bool_decide (cleaned = "..") || HasPrefix cleaned "../" || bool_decide (cleaned = "."))
        (Errorf "--archive-file path %q must name a file inside the claim" [AStr targetPath]);
  Ok (PathJoin [archiveMountPath; cleaned]).

(** ** Specification: following a path from a node *)

Definition walk_step (pos : list string) (seg : string) : list string :=
  if decide (seg = "" \/ seg = ".") then pos
  else if decide (seg = "..") then removelast pos
  else pos ++ [seg].

(** The node reached from [pos] (the names from the root down to it). *)
Definition walk (pos : list string) (p : string) : list string :=
  fold_left walk_step (Split p slash) pos.

(** A name a directory entry can have. *)
Definition plain_seg (x : string) : Prop :=
  x <> "" /\ x <> "." /\ x <> ".." /\ all_bytes (fun a => negb (bool_decide (a = slash))) x = true.

(** ** Lemmas *)

Abbreviation slash_free := (free_of slash) (only parsing).

Lemma walk_step_plain pos seg :
  slash_free seg -> Forall plain_seg pos -> Forall plain_seg (walk_step pos seg).
Proof.
  intros Hs Hp. unfold walk_step. repeat case_decide; [done| |].
  - destruct pos as [|x pos] using rev_ind; [done|].
    rewrite removelast_last. by apply Forall_app in Hp as [? _].
  - apply Forall_app. split; [done|]. constructor; [|done]. unfold plain_seg. naive_solver.
Qed.

Lemma walk_plain pos p : Forall plain_seg pos -> Forall plain_seg (walk pos p).
Proof.
  unfold walk. intros Hp. pose proof (Split_free_of p slash) as Hs. revert pos Hp.
  induction Hs as [|seg segs Hseg _ IH]; intros pos Hp; simpl; [done|].
  by apply IH, walk_step_plain.
Qed.

(** Walking along the names of a plain position appends them. *)
Lemma walk_names pos l :
  Forall plain_seg l -> fold_left walk_step l pos = pos ++ l.
Proof.
  intros Hl. revert pos. induction Hl as [|x l (H1 & H2 & H3 & _) Hl IH]; intros pos; simpl.
  - by rewrite app_nil_r.
  - rewrite IH. unfold walk_step. rewrite decide_False, decide_False by naive_solver.
    by rewrite <- app_assoc.
Qed.

(** On a rooted path [Clean]'s loop is [walk_step]; its output never holds a
    [..] segment. *)
Lemma push_seg_walk st seg :
  Forall (fun x => x <> "..") st ->
  rev (push_seg true st seg) = walk_step (rev st) seg /\
  Forall (fun x => x <> "..") (push_seg true st seg).
Proof.
  intros Hst. unfold push_seg, walk_step. case_decide; [done|]. case_decide.
  - destruct st as [|top st]; [done|]. inversion Hst; subst.
    rewrite decide_False by done. simpl. by rewrite removelast_last.
  - simpl. split; [done|]. by constructor.
Qed.

Lemma clean_segs_walk segs st :
  Forall (fun x => x <> "..") st ->
  rev (fold_left (push_seg true) segs st) = fold_left walk_step segs (rev st).
Proof.
  revert st. induction segs as [|seg segs IH]; intros st Hst; simpl; [done|].
  destruct (push_seg_walk st seg Hst) as [Hw Hst']. rewrite IH by done. by rewrite Hw.
Qed.

Lemma Clean_rooted p :
  HasPrefix p "/" = true -> Clean p = "/" +:+ Join (walk [] p) "/".
Proof.
  intros Hp. unfold Clean. rewrite Hp.
  apply HasPrefix_spec in Hp as [r ->]. rewrite decide_False by done.
  unfold clean_segs. rewrite clean_segs_walk by done.
  by rewrite decide_False by done.
Qed.

Lemma walk_app pos s1 s2 : walk pos (s1 +:+ String slash s2) = walk (walk pos s1) s2.
Proof. unfold walk. by rewrite Split_app, fold_left_app. Qed.

Lemma walk_root p : walk [] ("/" +:+ p) = walk [] p.
Proof. done. Qed.

Lemma walk_empty pos : walk pos "" = pos.
Proof. done. Qed.

Lemma plain_slash_free l : Forall plain_seg l -> Forall slash_free l.
Proof. intros H. eapply Forall_impl; [done|]. intros x (_ & _ & _ & ?). done. Qed.

(** The string of a position leads back to the position. *)
Lemma walk_Join pos : Forall plain_seg pos -> walk [] ("/" +:+ Join pos "/") = pos.
Proof.
  intros Hp. rewrite walk_root. destruct pos as [|x pos]; [done|].
  unfold walk. rewrite Split_Join by (done || by apply plain_slash_free).
  by rewrite walk_names.
Qed.

Lemma walk_single pos x : plain_seg x -> walk pos x = pos ++ [x].
Proof.
  intros Hx. unfold walk. rewrite Split_one by apply Hx. apply walk_names. by constructor.
Qed.

(** A mount point directly under the root. *)
Definition mount_at (mount m : string) : Prop := mount = "/" +:+ m /\ plain_seg m.

Lemma source_mount : mount_at srcMountPath "source".
Proof. split; [done|]. repeat split; done. Qed.

Lemma dest_mount : mount_at destMountPath "dest".
Proof. split; [done|]. repeat split; done. Qed.

Lemma archive_mount : mount_at archiveMountPath "archive".
Proof. split; [done|]. repeat split; done. Qed.

Lemma data_mount : mount_at dataMountPath "data".
Proof. split; [done|]. repeat split; done. Qed.

Lemma Clean_under mount m sub :
  mount_at mount m ->
  Clean (mount +:+ "/" +:+ sub) = "/" +:+ Join (walk [m] sub) "/".
Proof.
  intros [-> Hm]. rewrite app_assoc_str, Clean_rooted by apply HasPrefix_app.
  rewrite walk_root.
  change ("/" +:+ sub) with (String slash sub). rewrite walk_app.
  by rewrite (walk_single []).
Qed.

Lemma pos_string_inj l1 l2 :
  l1 <> [] -> l2 <> [] -> Forall slash_free l1 -> Forall slash_free l2 ->
  "/" +:+ Join l1 "/" = "/" +:+ Join l2 "/" -> l1 = l2.
Proof.
  intros H1 H2 F1 F2 [= H]. apply (f_equal (fun s => Split s slash)) in H.
  by rewrite !Split_Join in H.
Qed.

(** The two tests of [mountSubPath], read on positions. *)
Lemma resolved_is_mount m pos :
  plain_seg m -> Forall plain_seg pos ->
  bool_decide ("/" +:+ Join pos "/" = "/" +:+ m) = bool_decide (pos = [m]).
Proof.
  intros Hm Hp. apply bool_decide_ext. split; [|by intros ->].
  intros H. destruct pos as [|x pos].
  - destruct Hm as [Hm _]. simpl in H. congruence.
  - apply (pos_string_inj _ [m]); try done; apply plain_slash_free; auto.
Qed.

Lemma resolved_below_mount m pos :
  plain_seg m -> Forall plain_seg pos ->
  HasPrefix ("/" +:+ Join pos "/") (("/" +:+ m) +:+ "/") = true <->
  exists x rest, pos = m :: x :: rest.
Proof.
  intros Hm Hp. rewrite HasPrefix_spec. split.
  - intros [r H]. rewrite !app_assoc_str in H. simpl in H. injection H as H.
    apply (f_equal (fun s => Split s slash)) in H.
    change (String "/" r) with (String slash r) in H.
    rewrite Split_app, (Split_one _ m) in H by apply Hm.
    pose proof (Split_not_nil r slash) as Hr.
    destruct pos as [|y pos]; [by destruct (Split r slash)|].
    rewrite Split_Join in H by (done || by apply plain_slash_free).
    destruct (Split r slash) as [|x rest]; [done|]. simpl in H. eauto.
  - intros (x & rest & ->). exists (Join (x :: rest) "/").
    rewrite Join_cons by done. by rewrite !app_assoc_str.
Qed.

(** [mountSubPath] as a function of the position the walk ends at. *)
Definition mount_spec (mount m sub : string) : result string :=
  let pos := walk [m] sub in
  if bool_decide (head pos = Some m) then
    Ok ("/" +:+ Join pos "/" +:+
        (if bool_decide (pos = [m]) || wantsContents sub then "/" else ""))
  else Err (Errorf "path %q escapes the volume mounted at %s" [AStr sub; AStr mount]).

Lemma mountSubPath_walk mount m sub :
  mount_at mount m -> mountSubPath mount sub = mount_spec mount m sub.
Proof.
  intros Hm. unfold mountSubPath, mount_spec. rewrite (Clean_under _ _ _ Hm).
  destruct Hm as [-> Hm]. set (pos := walk [m] sub).
  assert (Forall plain_seg pos) as Hp by (apply walk_plain; by constructor).
  rewrite resolved_is_mount by done.
  pose proof (resolved_below_mount m pos Hm Hp) as Hb.
  destruct (HasPrefix _ _) eqn:E.
  - destruct (proj1 Hb eq_refl) as (x & rest & Hpos). rewrite Hpos.
    rewrite !andb_false_r. simpl fail_if. cbn [mbind result_bind].
    rewrite (bool_decide_eq_true_2 (head _ = _)) by done.
    destruct (_ || _); [done|]. by rewrite app_nil_r_str.
  - rewrite andb_true_r. case_bool_decide as Hpos; simpl fail_if; cbn [mbind result_bind].
    + rewrite Hpos. rewrite (bool_decide_eq_true_2 (head _ = _)) by done. done.
    + rewrite bool_decide_eq_false_2; [done|]. intros Hh. destruct pos as [|x [|y rest]]; [done| |].
      * simpl in Hh. congruence.
      * injection Hh as ->. assert (false = true) by (apply Hb; eauto). done.
Qed.

Lemma walk_trailing_slash p b : walk [] (p +:+ (if b : bool then "/" else "")) = walk [] p.
Proof.
  destruct b; [|by rewrite app_nil_r_str]. by rewrite (walk_app [] p).
Qed.

Lemma mountSubPath_inside mount m sub r :
  mount_at mount m -> mountSubPath mount sub = Ok r -> head (walk [] r) = Some m.
Proof.
  intros Hm. rewrite (mountSubPath_walk _ _ _ Hm). unfold mount_spec.
  assert (Forall plain_seg (walk [m] sub)) as Hp by (apply walk_plain; constructor; [apply Hm|done]).
  case_bool_decide as Hh; [|done]. intros H. apply Ok_inj in H as <-.
  rewrite <- app_assoc_str, walk_trailing_slash, walk_Join by done. done.
Qed.

Lemma resolveMountPaths_inside src dst sp dp :
  resolveMountPaths src dst = Ok (sp, dp) ->
  head (walk [] sp) = Some "source" /\ head (walk [] dp) = Some "dest".
Proof.
  unfold resolveMountPaths. intros (s & Hs & H)%bind_Ok. apply bind_Ok in H as (d & Hd & H).
  apply Ok_inj in H. injection H as -> ->. apply wrap_err_Ok in Hs, Hd.
  split; [by eapply mountSubPath_inside; [apply source_mount|]
         |by eapply mountSubPath_inside; [apply dest_mount|]].
Qed.

(** C11: a user path resolved against its mount point stays inside the volume.
    [mountSubPath] accepts a path exactly when walking it from the mount point
    ends at the mount point or below it, the string it returns leads to that
    very node, and it ends in a slash (rsync's "contents of") exactly for the
    volume's root and for the two spellings that ask for contents; a path that
    leaves the volume is refused with the path and the mount in the error. *)
Theorem mountSubPath_contained mount m sub :
  mount_at mount m ->
  let pos := walk [m] sub in
  (head pos = Some m ->
     exists r, mountSubPath mount sub = Ok r /\ walk [] r = pos /\
       HasSuffix r "/" = bool_decide (pos = [m]) || wantsContents sub) /\
  (head pos <> Some m ->
     mountSubPath mount sub =
       Err (Errorf "path %q escapes the volume mounted at %s" [AStr sub; AStr mount])).
Proof.
  intros Hm pos. rewrite (mountSubPath_walk _ _ _ Hm). unfold mount_spec. fold pos.
  assert (Forall plain_seg pos) as Hp by (apply walk_plain; constructor; [apply Hm|done]).
  split; intros Hh; [|by rewrite bool_decide_eq_false_2].
  rewrite bool_decide_eq_true_2 by done. eexists. split; [done|].
  rewrite <- app_assoc_str. rewrite walk_trailing_slash. split; [by apply walk_Join|].
  destruct (_ || wantsContents sub).
  - apply HasSuffix_app.
  - rewrite app_nil_r_str. apply not_true_iff_false. intros [r Hr]%HasSuffix_spec.
    apply (f_equal (fun s => Split s slash)) in Hr.
    change ("/" +:+ Join pos "/") with (EmptyString +:+ String slash (Join pos "/")) in Hr.
    rewrite !Split_app in Hr. rewrite Split_Join in Hr
      by (first [by apply plain_slash_free | by destruct pos]).
    change (Split "" slash) with [""] in Hr. apply (f_equal last) in Hr. rewrite last_snoc in Hr.
    simpl app in Hr. destruct pos as [|x pos] using rev_ind; [done|].
    rewrite app_comm_cons, last_snoc in Hr. injection Hr as ->.
    apply Forall_app in Hp as [_ Hx]. inversion Hx as [|? ? [? _]]. done.
Qed.

Lemma mountSubPath_contained_witness :
  mount_at destMountPath "dest" /\
  exists r, mountSubPath destMountPath "a/../b/" = Ok r /\ walk [] r = ["dest"; "b"] /\
    HasSuffix r "/" = true.
Proof.
  split; [apply dest_mount|].
  apply (mountSubPath_contained destMountPath "dest" "a/../b/" dest_mount). reflexivity.
Defined.

(** ** Relative paths: [Clean] without a root *)

(** Whether following the segments from a node at depth [d] below some root
    never goes above that root. *)
Fixpoint stays (d : nat) (segs : list string) : bool :=
  match segs with
  | [] => true
  | seg :: segs =>
      if decide (seg = "" \/ seg = ".") then stays d segs
      else if decide (seg = "..") then
        match d with O => false | S d => stays d segs end
      else stays (S d) segs
  end.

Definition no_dotdot (st : list string) : Prop := Forall (fun x => x <> "..") st.

Lemma push_seg_keeps st seg : ~ no_dotdot st -> ~ no_dotdot (push_seg false st seg).
Proof.
  unfold no_dotdot, push_seg. intros H. repeat case_decide; [done| |].
  - destruct st as [|top st]; [by inversion 1|]. case_decide; [by inversion 1|].
    intros Hst. apply H. by constructor.
  - inversion 1. done.
Qed.

Lemma push_segs_keep segs st :
  ~ no_dotdot st -> ~ no_dotdot (fold_left (push_seg false) segs st).
Proof. revert st. induction segs; simpl; auto using push_seg_keeps. Qed.

Lemma stays_spec segs st :
  no_dotdot st ->
  stays (length st) segs = true <-> no_dotdot (fold_left (push_seg false) segs st).
Proof.
  revert st. induction segs as [|seg segs IH]; intros st Hst; [done|].
  cbn [stays fold_left]. unfold push_seg at 2. case_decide; [by apply IH|]. case_decide.
  - destruct st as [|top st]; simpl.
    + split; [done|]. intros Hn. exfalso. eapply push_segs_keep, Hn. by inversion 1.
    + inversion Hst; subst. rewrite decide_False by done. by apply IH.
  - apply (IH (seg :: st)). by constructor.
Qed.

Lemma push_segs_walk segs st base :
  no_dotdot st -> no_dotdot (fold_left (push_seg false) segs st) ->
  fold_left walk_step segs (base ++ rev st) = base ++ rev (fold_left (push_seg false) segs st).
Proof.
  revert st. induction segs as [|seg segs IH]; intros st Hst Hn; [done|].
  cbn [fold_left] in *. unfold push_seg at 2 in Hn. unfold push_seg at 2, walk_step at 2.
  case_decide; [by apply IH|]. case_decide.
  - destruct st as [|top st].
    + exfalso. eapply push_segs_keep, Hn. by inversion 1.
    + inversion Hst; subst. destruct (decide (top = "..")); [done|].
      rewrite <- IH by done. f_equal. simpl. by rewrite app_assoc, removelast_last.
  - rewrite <- IH; [simpl; by rewrite app_assoc|by constructor|done].
Qed.

(** The output of the loop: plain names on top of the unresolved [..]s. *)
Definition rel_shape (st : list string) : Prop :=
  exists names k, st = names ++ replicate k ".." /\ Forall plain_seg names.

Lemma push_seg_shape st seg :
  slash_free seg -> rel_shape st -> rel_shape (push_seg false st seg).
Proof.
  intros Hseg (names & k & -> & Hn). unfold push_seg. repeat case_decide.
  - by exists names, k.
  - destruct names as [|x names]; simpl.
    + destruct k; simpl; [by exists [], 1|]. by exists [], (S (S k)).
    + inversion Hn as [|? ? (_ & _ & ? & _)]; subst. rewrite decide_False by done.
      by exists names, k.
  - exists (seg :: names), k. split; [done|]. constructor; [|done]. unfold plain_seg. naive_solver.
Qed.

Lemma push_segs_shape segs st :
  Forall slash_free segs -> rel_shape st -> rel_shape (fold_left (push_seg false) segs st).
Proof. intros Hs. revert st. induction Hs; simpl; auto using push_seg_shape. Qed.

(** [Clean] of a relative path, by whether it leaves its starting point. *)
Lemma Clean_relative p :
  HasPrefix p "/" = false ->
  (stays 0 (Split p slash) = false -> Clean p = ".." \/ HasPrefix (Clean p) "../" = true) /\
  (stays 0 (Split p slash) = true -> exists names, Forall plain_seg names /\
     (forall pos, walk pos p = pos ++ names) /\
     Clean p = match names with [] => "." | _ => Join names "/" end).
Proof.
  intros Hp. unfold Clean. rewrite Hp. unfold clean_segs.
  destruct (push_segs_shape (Split p slash) []) as (names & k & Hst & Hn).
  { apply Split_free_of. } { by exists [], 0. }
  rewrite Hst, rev_app_distr.
  assert (forall n, rev (replicate n "..") = replicate n "..") as Hrev.
  { induction n as [|n IH]; [done|]. simpl. rewrite IH. symmetry. apply replicate_cons_app. }
  rewrite Hrev. split; intros Hs.
  - assert (k <> 0) as Hk.
    { intros ->. apply not_true_iff_false in Hs. apply Hs, (stays_spec _ []); [by constructor|].
      rewrite Hst. simpl. rewrite app_nil_r. eapply Forall_impl; [done|]. by intros ? (_ & _ & ? & _). }
    rewrite decide_False by (intros ->; done). destruct k as [|k]; [done|].
    simpl. destruct (replicate k ".." ++ rev names) eqn:E; [by left|right].
    apply HasPrefix_spec. by eexists.
  - apply (stays_spec _ []) in Hs as Hd; [|by constructor].
    assert (k = 0) as ->.
    { rewrite Hst in Hd. apply Forall_app in Hd as [_ Hd]. destruct k; [done|]. by inversion Hd. }
    exists (rev names). split; [by apply Forall_rev|]. split.
    + intros pos. unfold walk. pose proof (push_segs_walk (Split p slash) [] pos) as H.
      rewrite app_nil_r, Hst in H. simpl in H. rewrite app_nil_r in H. apply H; [by constructor|].
      rewrite Hst in Hd. simpl in Hd. by rewrite app_nil_r in Hd.
    + simpl. case_decide as Hpe; [subst; by destruct names as [|? [|]]; inversion Hst|].
      destruct (rev names) as [|x l] eqn:E; [done|].
      apply Forall_rev in Hn. rewrite E in Hn. inversion Hn as [|? ? [Hx _]]; subst.
      rewrite decide_False; [done|]. destruct x; [done|]. by destruct l.
Qed.

Lemma PathJoin_under mount m sub :
  mount_at mount m -> sub <> "" ->
  PathJoin [mount; sub] = "/" +:+ Join (walk [m] sub) "/".
Proof.
  intros Hm Hs. unfold PathJoin. rewrite !filter_cons, filter_nil.
  rewrite decide_True by (destruct Hm as [-> _]; done). rewrite decide_True by done.
  by apply (Clean_under _ _ sub Hm).
Qed.

Lemma escapes_test s :
  bool_decide (s = "..") || HasPrefix s "../" = true ->
  s = ".." \/ HasPrefix s "../" = true.
Proof. rewrite orb_true_iff, bool_decide_eq_true. done. Qed.

Lemma stays_not_escaping names :
  Forall plain_seg names ->
  let s := match names with [] => "." | _ => Join names "/" end in
  bool_decide (s = "..") || HasPrefix s "../" = false.
Proof.
  intros Hn s. apply not_true_iff_false. intros [Hs|[r Hs]%HasPrefix_spec]%escapes_test.
  - destruct names as [|x names]; [done|]. subst s.
    apply (f_equal (fun s => Split s slash)) in Hs.
    rewrite Split_Join in Hs by (done || by apply plain_slash_free).
    inversion Hs; subst. inversion Hn as [|? ? (_ & _ & ? & _)]. done.
  - destruct names as [|x names]; [done|]. subst s.
    apply (f_equal (fun s => Split s slash)) in Hs.
    rewrite Split_Join in Hs by (done || by apply plain_slash_free).
    change ("../" +:+ r) with (".." +:+ String slash r) in Hs. rewrite Split_app in Hs.
    inversion Hs; subst. inversion Hn as [|? ? (_ & _ & ? & _)]. done.
Qed.

(** [--path] of a backup or restore.  [validateSubpath] accepts exactly the
    relative paths that never climb above their start, segment by segment, and
    for those [path.Join] with the mount gives a path leading to a node of the
    volume: the mount's own name followed by plain names. *)
Theorem validateSubpath_confines p :
  (validateSubpath p = Ok () <-> IsAbs p = false /\ stays 0 (Split p slash) = true) /\
  (validateSubpath p = Ok () -> p <> "" -> exists names, Forall plain_seg names /\
     walk [] (PathJoin [dataMountPath; p]) = "data" :: names).
Proof.
  assert (validateSubpath p = Ok () <-> IsAbs p = false /\ stays 0 (Split p slash) = true) as Hiff.
  { unfold validateSubpath, IsAbs. destruct (HasPrefix p "/") eqn:E; simpl; [naive_solver|].
    destruct (Clean_relative p E) as [Hout Hin].
    destruct (stays 0 (Split p slash)) eqn:S; simpl.
    - destruct Hin as (names & Hn & _ & ->); [done|]. rewrite stays_not_escaping by done. done.
    - split; [|naive_solver]. destruct Hout as [-> | H]; [done|done|]. by rewrite H, orb_true_r. }
  split; [done|]. intros Hok Hne. apply Hiff in Hok as [Ha Hs].
  destruct (Clean_relative p Ha) as [_ Hin]. destruct (Hin Hs) as (names & Hn & Hw & _).
  exists names. split; [done|]. rewrite (PathJoin_under _ _ _ data_mount Hne), Hw.
  apply (walk_Join ("data" :: names)). constructor; [|done]. apply data_mount.
Qed.

Lemma validateSubpath_confines_witness :
  validateSubpath "a/../b" = Ok () /\ exists names, Forall plain_seg names /\
    walk [] (PathJoin [dataMountPath; "a/../b"]) = "data" :: names.
Proof.
  split; [reflexivity|].
  apply (validateSubpath_confines "a/../b"); [reflexivity|discriminate].
Defined.

(** A nonempty last name survives [Clean] of a path that stays below its start. *)
Lemma walk_last_plain pos p x :
  last (Split p slash) = Some x -> plain_seg x -> exists l, walk pos p = l ++ [x].
Proof.
  intros Hl Hx. unfold walk. destruct (Split p slash) as [|y l] using rev_ind; [done|].
  rewrite last_snoc in Hl. injection Hl as ->.
  rewrite fold_left_app. simpl. unfold walk_step. destruct Hx as (? & ? & ? & _).
  rewrite decide_False, decide_False by naive_solver. eauto.
Qed.

(** The path of an archive on a claim.  Whatever [archiveFilePath] returns
    leads to a node of the archive claim; when the given path ends in a name, as
    an accepted archive extension makes it, that node is strictly below the
    claim's root, so tar is never pointed at the mount or at the container. *)
Theorem claimFilePath_confined target r :
  claimFilePath target = Ok r ->
  (exists names, Forall plain_seg names /\ walk [] r = "archive" :: names) /\
  (forall x, last (Split target slash) = Some x -> plain_seg x ->
     exists names, walk [] r = "archive" :: names ++ [x]).
Proof.
  unfold claimFilePath. set (c := TrimPrefix target "/"). intros H. go_inv.
  apply orb_false_iff in E as [E Edot]. apply bool_decide_eq_false in Edot.
  assert (exists names, Forall plain_seg names /\ walk [] c = names /\
    walk ["archive"] (Clean c) = "archive" :: names /\ Clean c <> "") as (names & Hn & Hc & Hw & Hne).
  { destruct (HasPrefix c "/") eqn:Ha.
    - rewrite Clean_rooted by done. exists (walk [] c).
      assert (Forall plain_seg (walk [] c)) by by apply walk_plain. repeat split; try done.
      change ("/" +:+ ?s) with ("" +:+ String slash s). rewrite walk_app, walk_empty.
      destruct (walk [] c) as [|x l] eqn:El; [done|]. unfold walk at 1.
      rewrite Split_Join by (done || by apply plain_slash_free). by rewrite walk_names.
    - destruct (Clean_relative c Ha) as [Hout Hin].
      destruct (stays 0 (Split c slash)) eqn:S.
      + destruct (Hin eq_refl) as (names & Hn & Hw & Hcl). exists names. rewrite Hw.
        repeat split; try done; rewrite Hcl in *; destruct names as [|x l]; try done.
        * unfold walk. rewrite Split_Join by (done || by apply plain_slash_free).
          by rewrite walk_names.
        * inversion Hn as [|? ? [Hx _]]; subst. by destruct x, l.
      + exfalso. destruct Hout as [Ho|Ho]; [done|..]; rewrite Ho in E; [done|].
        by rewrite orb_true_r in E. }
  rewrite (PathJoin_under _ _ _ archive_mount Hne), Hw.
  rewrite (walk_Join ("archive" :: names)) by (constructor; [apply archive_mount|done]).
  split; [by exists names|]. intros x Hl Hx.
  assert (last (Split c slash) = Some x) as Hlc.
  { unfold c, TrimPrefix. destruct (CutPrefix target "/") as [t|] eqn:Et; [|done].
    apply CutPrefix_Some in Et as ->. simpl in Hl |- *.
    pose proof (Split_not_nil t slash). by destruct (Split t slash). }
  destruct (walk_last_plain [] c x Hlc Hx) as [l Hl']. exists l. congruence.
Qed.

Lemma claimFilePath_confined_witness :
  claimFilePath "/db/../nightly.tar" = Ok "/archive/nightly.tar" /\
  exists names, walk [] "/archive/nightly.tar" = "archive" :: names ++ ["nightly.tar"].
Proof.
  split; [reflexivity|].
  apply (claimFilePath_confined "/db/../nightly.tar"); repeat split; (reflexivity || discriminate).
Defined.
