(* ===== verification/Opid.v ===== *)
(** * internal/opid and the names derived from an operation identifier

    [Validate] of internal/opid/opid.go, the release names the migrator
    (internal/migrator/migrator.go), the two-release strategies
    (internal/strategy/topology.go), the local strategy and the bucket workflow
    build around an identifier, and the prefixes [cleanup] and [status] match
    releases with (internal/app).  The theorems say that an accepted identifier
    keeps every derived name within Helm's and Kubernetes' limits. *)
From S2P Require Import Prelude GoStrings Paths.
From stdpp Require Import options.

Definition ReleasePrefix : string := "pv-migrate-".

(** What Helm allows in a release name, and the characters reserved around the
    identifier. *)
Definition MaxLength : Z := 53 - 29.

Definition id_byte (a : ascii) : bool := is_lower a || is_digit a.

Definition dash : ascii := "-"%char.

(** One segment of the expression: [[a-z0-9]+]. *)
Definition id_segment (w : string) : bool := negb (bool_decide (w = "")) && all_bytes id_byte w.

(** [valid.MatchString] for [^[a-z0-9]+(-[a-z0-9]+)*$]: a dash is not in the
    class, so the segments of a match are the pieces between its dashes. *)
Definition MatchString_valid (id : string) : bool := forallb id_segment (Split id dash).

Definition Validate (id : string) : result () :=
  _ ← fail_if (bool_decide (len id = 0)%Z) (ErrNew "operation ID must not be empty");
  _ ← fail_if (bool_decide (MaxLength < len id)%Z)
        (Errorf "operation ID %q is too long (%d chars), maximum is %d"
           [AStr id; AInt (len id); AInt MaxLength]);
  fail_if (negb (MatchString_valid id))
    (Errorf ("operation ID %q is invalid: must be lowercase alphanumeric with optional hyphens, " +:+
             "and must not start or end with a hyphen") [AStr id]).

(** ** Names built around the identifier *)

(** The strategies a migration can be asked for, in the order of
    [AllStrategies] (pvmigrate/pvmigrate.go). *)
Definition AllStrategies : list string := ["mount"; "clusterip"; "loadbalancer"; "nodeport"; "local"].

(** The prefix of an attempt's release names. *)
Definition releasePrefixFor (migrationID name : string) : string :=
  ReleasePrefix +:+ migrationID +:+ "-" +:+ name.

(** [topology.releaseNames]: the sshd release, then the rsync release. *)
Definition releaseNames (push : bool) (prefix : string) : string * string :=
  if push then (prefix +:+ "-dest", prefix +:+ "-src")
  else (prefix +:+ "-src", prefix +:+ "-dest").

(** The release of a backup or restore. *)
Definition bucketReleaseName (operationID direction : string) : string :=
  ReleasePrefix +:+ operationID +:+ "-" +:+ direction.

(** The filter [cleanup] lists releases with, and [status] looks for a job with:
    a prefix of the release name. *)
Definition operationPrefix (id : string) : string := ReleasePrefix +:+ id +:+ "-".

Definition cleanupMatches (id release : string) : bool := HasPrefix release (operationPrefix id).

(** ** Specification *)

(** The language of the expression, by its own structure. *)
Inductive id_lang : string -> Prop :=
  | id_one w : id_segment w = true -> id_lang w
  | id_more w s : id_segment w = true -> id_lang s -> id_lang (w +:+ "-" +:+ s).

(** A DNS-1123 label, without its length: lower-case alphanumerics and dashes,
    with an alphanumeric at both ends. *)
Definition dns_label (s : string) : Prop :=
  all_bytes (fun a => id_byte a || bool_decide (a = dash)) s = true /\
  (exists a r, s = String a r /\ id_byte a = true) /\
  (exists r a, s = r +:+ String a "" /\ id_byte a = true).

(** ** Lemmas *)

Lemma id_segment_dash_free w : id_segment w = true -> Split w dash = [w] /\ w <> "".
Proof.
  unfold id_segment. rewrite andb_true_iff, negb_true_iff, bool_decide_eq_false.
  intros [Hne Hw]. split; [|done]. clear Hne. induction w as [|a w IH]; [done|].
  simpl in *. apply andb_true_iff in Hw as [Ha Hw].
  rewrite decide_False; [by rewrite IH|]. intros ->. by vm_compute in Ha.
Qed.

Lemma MatchString_lang id : MatchString_valid id = true <-> id_lang id.
Proof.
  unfold MatchString_valid. split.
  - rewrite <- (Join_Split id dash) at 2. pose proof (Split_not_nil id dash) as Hne.
    revert Hne. generalize (Split id dash). intros l. induction l as [|w l IH]; [done|].
    cbn [forallb]. rewrite andb_true_iff. intros _ [Hw Hl].
    destruct l as [|w' l]; [by constructor|]. rewrite Join_cons by done.
    apply id_more; [done|]. by apply IH.
  - induction 1 as [w Hw|w s Hw Hs IH].
    + destruct (id_segment_dash_free w Hw) as [-> _]. simpl. rewrite Hw. done.
    + change ("-" +:+ s) with (String dash s). rewrite Split_app.
      destruct (id_segment_dash_free w Hw) as [-> _]. simpl. rewrite Hw. exact IH.
Qed.

Lemma Validate_Ok id :
  Validate id = Ok () <-> (len id <= MaxLength)%Z /\ id_lang id.
Proof.
  rewrite <- MatchString_lang. unfold Validate. split.
  - intros H. go_inv. apply bool_decide_eq_false in E0. apply negb_false_iff in H. split; [lia|done].
  - intros [Hl Hm]. assert (len id <> 0)%Z.
    { intros H0. destruct id; [by vm_compute in Hm|]. unfold len in H0. simpl in H0. lia. }
    rewrite (bool_decide_eq_false_2 (len id = 0)%Z) by done.
    rewrite (bool_decide_eq_false_2 (MaxLength < len id)%Z) by lia.
    by rewrite Hm.
Qed.

Lemma id_lang_bytes s :
  id_lang s -> all_bytes (fun a => id_byte a || bool_decide (a = dash)) s = true.
Proof.
  assert (forall w, id_segment w = true ->
    all_bytes (fun a => id_byte a || bool_decide (a = dash)) w = true) as Hseg.
  { intros w [_ Hw]%andb_true_iff. eapply all_bytes_impl; [|done].
    intros a Ha. simpl. by rewrite Ha. }
  induction 1 as [w Hw|w s Hw _ IH]; [by apply Hseg|].
  rewrite !all_bytes_app, Hseg, IH by done. done.
Qed.

Lemma id_lang_dns s : id_lang s -> dns_label s.
Proof.
  assert (forall w, id_segment w = true ->
    (exists a r, w = String a r /\ id_byte a = true) /\
    (exists r a, w = r +:+ String a "" /\ id_byte a = true)) as Hseg.
  { intros w [Hne Hw]%andb_true_iff. destruct w as [|a w]; [done|]. split.
    - exists a, w. simpl in Hw. apply andb_true_iff in Hw as [Ha _]. done.
    - clear Hne. revert a Hw. induction w as [|b w IH]; intros a Hw.
      + exists "", a. simpl in Hw. by rewrite andb_true_r in Hw.
      + simpl in Hw. apply andb_true_iff in Hw as [_ Hw].
        destruct (IH b Hw) as (r & c & -> & Hc). by exists (String a r), c. }
  intros H. split; [by apply id_lang_bytes|]. induction H as [w Hw|w s Hw _ IH]; [by apply Hseg|].
  destruct (Hseg w Hw) as [(a & r & -> & Ha) _], IH as [_ (r' & b & -> & Hb)]. split.
  - by exists a, (r +:+ "-" +:+ r' +:+ String b "").
  - exists (String a r +:+ "-" +:+ r'), b. by rewrite !app_assoc_str.
Qed.

Lemma id_lang_app s t : id_lang s -> id_lang t -> id_lang (s +:+ "-" +:+ t).
Proof.
  intros Hs Ht. induction Hs as [w Hw|w s Hw _ IH]; [by constructor|].
  rewrite !app_assoc_str. by constructor.
Qed.

(** ** Theorems *)

(** [Validate] accepts exactly the identifiers of at most 24 bytes in the
    language of its expression: nonempty runs of lower-case alphanumerics joined
    by single dashes.  In particular the empty identifier is refused. *)
Theorem Validate_spec id :
  (Validate id = Ok () <-> (len id <= 24)%Z /\ id_lang id) /\
  (len id = 0%Z -> Validate id = Err (ErrNew "operation ID must not be empty")).
Proof.
  split; [apply Validate_Ok|]. intros H. unfold Validate.
  by rewrite (bool_decide_eq_true_2 (len id = 0)%Z).
Qed.

Lemma Validate_spec_witness :
  len "" = 0%Z /\ Validate "" = Err (ErrNew "operation ID must not be empty").
Proof. split; [reflexivity|]. apply (Validate_spec ""). reflexivity. Defined.

(** Every fixed piece of a derived name is a word of the language too. *)
Lemma derived_name id tail :
  id_lang id -> id_lang tail -> id_lang (ReleasePrefix +:+ id +:+ "-" +:+ tail).
Proof.
  intros Hid Ht. change ReleasePrefix with ("pv-migrate" +:+ "-").
  rewrite app_assoc_str. apply id_lang_app; [by apply MatchString_lang|by apply id_lang_app].
Qed.

(** The reserved length is enough.  For an accepted identifier, every release
    name a migration (any strategy, either side) or a backup or restore creates
    is a DNS label within Helm's 53 characters, and every resource the chart
    names after the release is one within Kubernetes' 63. *)
Theorem derived_names_fit id middle side component :
  Validate id = Ok () ->
  middle ∈ AllStrategies ++ ["backup"; "restore"] ->
  side ∈ [""; "-src"; "-dest"] ->
  component ∈ [""; "-rsync"; "-sshd"; "-rclone"; "-tar"; "-snap"; "-clone"] ->
  let release := releasePrefixFor id middle +:+ side in
  dns_label release /\ (len release <= 53)%Z /\
  dns_label (release +:+ component) /\ (len (release +:+ component) <= 63)%Z.
Proof.
  intros [Hlen Hid]%Validate_Ok Hm Hs Hc release.
  assert (id_lang release /\ (len release <= 53)%Z) as [Hr Hl].
  { unfold release, releasePrefixFor. rewrite !app_assoc_str. split.
    - apply derived_name; [done|]. apply MatchString_lang. set_unfold.
      destruct_or!; subst; vm_compute; done.
    - rewrite !len_app. unfold MaxLength in Hlen. change (len ReleasePrefix) with 11%Z.
      change (len "-") with 1%Z.
      assert (len middle <= 12)%Z by (set_unfold; destruct_or!; subst; vm_compute; done).
      assert (len side <= 5)%Z by (set_unfold; destruct_or!; subst; vm_compute; done). lia. }
  clearbody release. clear Hm Hs.
  split_and!; [by apply id_lang_dns|done| |].
  - apply id_lang_dns. set_unfold.
    destruct_or!; subst; [by rewrite app_nil_r_str|..];
      (apply (id_lang_app release); [done|by apply MatchString_lang]).
  - rewrite len_app.
    assert (len component <= 7)%Z by (set_unfold; destruct_or!; subst; vm_compute; done). lia.
Qed.

Lemma derived_names_fit_witness :
  Validate "abcdefghij-abcdefghij-12" = Ok () /\
  let release := releasePrefixFor "abcdefghij-abcdefghij-12" "loadbalancer" +:+ "-dest" in
  dns_label release /\ (len release <= 53)%Z /\
  dns_label (release +:+ "-rsync") /\ (len (release +:+ "-rsync") <= 63)%Z.
Proof.
  split; [vm_compute; reflexivity|].
  apply derived_names_fit; [vm_compute; reflexivity|set_solver..].
Defined.

