(* ===== verification/Rsync.v ===== *)
(** * internal/rsync: the rsync command line

    [Cmd] and its methods from internal/rsync/cmd.go.  The main theorem reads the
    built string back with the shell's rules: the process the Job starts gets
    exactly the arguments listed by [argv], whatever bytes the paths and hosts
    hold. *)
From S2P Require Import Prelude GoStrings Utf8 Posix Shell.
From stdpp Require Import options.

Record Cmd : Type := mkCmd {
  Port : Z;
  NoChown : bool;
  NonRoot : bool;
  Delete : bool;
  SrcUseSSH : bool;
  DestUseSSH : bool;
  SrcSSHUser : string;
  SrcSSHHost : string;
  SrcPath : string;
  DestSSHUser : string;
  DestSSHHost : string;
  DestPath : string;
  Compress : bool;
  ExtraArgs : string
}.

Section Cmd.
Variable c : Cmd.

Definition sshUser (user : string) : string :=
  if decide (user = "") then "root" else user.

Definition sshArgs : list string :=
  ["ssh"; "-o"; "StrictHostKeyChecking=no"; "-o"; "UserKnownHostsFile=/dev/null";
   "-o"; "ConnectTimeout=5"; "-o"; "ServerAliveInterval=10"; "-o"; "ServerAliveCountMax=3"]
  ++ (if decide (Port c = 0)%Z then [] else ["-p"; Itoa (Port c)]).

Definition args : list string :=
  ["-av"; "--info=progress2,misc0,flist0"; "--no-inc-recursive"; "-e"; Quote (Join sshArgs " ");
   "--exclude=/lost+found"]
  ++ (if Compress c then ["--compress"; "--compress-choice=zstd"; "--compress-level=1"] else [])
  ++ (if NoChown c || NonRoot c then ["--no-o"; "--no-g"] else [])
  ++ (if NonRoot c then ["--omit-dir-times"] else [])
  ++ (if Delete c then ["--delete"] else [])
  ++ (if decide (ExtraArgs c = "") then [] else [ExtraArgs c]).

Definition validate : result () :=
  for_each (fun field => CheckSingleLine field.1 field.2)
    [("--source-path", SrcPath c); ("--dest-path", DestPath c);
     ("ssh host", SrcSSHHost c); ("ssh host", DestSSHHost c)].

Definition buildSrc : string :=
  if negb (SrcUseSSH c) then SrcPath c
  else sshUser (SrcSSHUser c) +:+ "@" +:+ SrcSSHHost c +:+ ":" +:+ SrcPath c.

Definition buildDest : string :=
  if negb (DestUseSSH c) then DestPath c
  else sshUser (DestSSHUser c) +:+ "@" +:+ DestSSHHost c +:+ ":" +:+ DestPath c.

Definition Build : result string :=
  _ ← fail_if (SrcUseSSH c && DestUseSSH c)
        (ErrNew "cannot use ssh on both source and destination");
  _ ← validate;
  Ok ("rsync " +:+ Join args " " +:+ " " +:+ Quote buildSrc +:+ " " +:+ Quote buildDest).

(** ** Specification: the options rsync is meant to receive *)

Definition options : list string :=
  ["-av"; "--info=progress2,misc0,flist0"; "--no-inc-recursive"; "-e"; Join sshArgs " ";
   "--exclude=/lost+found"]
  ++ (if Compress c then ["--compress"; "--compress-choice=zstd"; "--compress-level=1"] else [])
  ++ (if NoChown c || NonRoot c then ["--no-o"; "--no-g"] else [])
  ++ (if NonRoot c then ["--omit-dir-times"] else [])
  ++ (if Delete c then ["--delete"] else []).

(** The command line of the process: the options, then what the user's raw flags
    [extra] add, then the two transfer specs. *)
Definition argv (extra : list tok) : list tok :=
  (Word <$> "rsync" :: options) ++ extra ++ [Word buildSrc; Word buildDest].
End Cmd.

(** ** Lemmas *)

(** A fixed flag is a word by computation. *)
Lemma flag_words l :
  forallb (fun w => all_bytes plain_byte w && negb (bool_decide (w = ""))) l = true ->
  Forall2 (fun s ts => shell_words s = Some ts) l ((fun w => [Word w]) <$> l).
Proof.
  induction l as [|w l IH]; simpl; [constructor|].
  rewrite !andb_true_iff, negb_true_iff, bool_decide_eq_false. intros [[Hw Hne] Hl].
  constructor; [by apply shell_words_plain|auto].
Qed.

Lemma concat_words (l : list string) : concat ((fun w => [Word w]) <$> l) = Word <$> l.
Proof. induction l as [|w l IH]; [done|]. cbn. f_equal. exact IH. Qed.

Ltac flags := apply (flag_words); vm_compute; reflexivity.

(** The words of the flags part, raw user flags included. *)
Lemma args_words c ets :
  shell_words (ExtraArgs c) = Some ets ->
  shell_words (Join (args c) " ") = Some ((Word <$> options c) ++ ets).
Proof.
  intros He.
  assert (exists tss, Forall2 (fun s ts => shell_words s = Some ts) (args c) tss /\
            concat tss = (Word <$> options c) ++ ets) as (tss & Hf & <-);
    [|by apply shell_words_Join].
  exists (((fun w => [Word w]) <$> options c) ++ (if decide (ExtraArgs c = "") then [] else [ets])).
  split.
  - unfold args, options. rewrite !fmap_app, <- !(assoc_L (++)).
    repeat apply Forall2_app.
    + constructor; [done|]. constructor; [done|]. constructor; [done|]. constructor; [done|].
      constructor; [apply shell_words_Quote|]. by constructor.
    + destruct (Compress c); [flags|constructor].
    + destruct (_ || _); [flags|constructor].
    + destruct (NonRoot c); [flags|constructor].
    + destruct (Delete c); [flags|constructor].
    + case_decide; [constructor|by constructor].
  - rewrite concat_app, concat_words. f_equal. case_decide as Hx; simpl.
    + rewrite Hx in He. by injection He.
    + by rewrite app_nil_r.
Qed.

Lemma validate_Ok c :
  validate c = Ok () <->
  Forall (fun f => exists rs, f = encode_runes rs /\ Forall printable_rune rs)
    [SrcPath c; DestPath c; SrcSSHHost c; DestSSHHost c].
Proof.
  unfold validate. rewrite for_each_Ok, !Forall_cons, !Forall_nil. simpl.
  rewrite !CheckSingleLine_runes. done.
Qed.

Lemma Build_words c s extra :
  Build c = Ok s -> shell_words (ExtraArgs c) = Some extra -> shell_words s = Some (argv c extra).
Proof.
  unfold Build. intros H He. go_inv. unfold argv.
  pose proof (args_words c extra He) as HA. revert HA.
  generalize (Join (args c) " "). intros A HA.
  rewrite fmap_cons, <- app_comm_cons.
  change ("rsync " +:+ ?t) with ("rsync" +:+ String " " t).
  apply (shell_words_blank _ [Word "rsync"]); [done|].
  rewrite (assoc_L (++)). apply (shell_words_blank A); [done|].
  apply (shell_words_Quote_blank (buildSrc c)), shell_words_Quote.
Qed.

(** ** Theorems *)

(** What the Job's shell runs.  When [Build] succeeds, the shell cuts the
    built string into [rsync], the options for this configuration, the words of
    the user's raw flags, and the two transfer specs, each of which is a single
    word with exactly the bytes of its path and host. *)
Theorem rsync_command_line c s extra :
  Build c = Ok s -> shell_words (ExtraArgs c) = Some extra ->
  shell_words s = Some (argv c extra).
Proof. apply Build_words. Qed.

Lemma rsync_command_line_witness :
  let c := mkCmd 22 false true true true false "" "[::1]" "/source/a b'c/" "" "" "/dest/" true
             "--bwlimit=1m" in
  exists s, Build c = Ok s /\ shell_words s = Some (argv c [Word "--bwlimit=1m"]).
Proof.
  intros c. eexists. split; [vm_compute; reflexivity|].
  apply (rsync_command_line c); vm_compute; reflexivity.
Defined.

(** [Build] fails exactly when both sides ask for ssh, with that error
    first, or when a path or host is not one line of printable text; the error
    then comes from the first offending value and names its flag. *)
Theorem rsync_Build_errors c :
  (SrcUseSSH c && DestUseSSH c = true ->
     Build c = Err (ErrNew "cannot use ssh on both source and destination")) /\
  (SrcUseSSH c && DestUseSSH c = false ->
     match CheckSingleLine "--source-path" (SrcPath c), CheckSingleLine "--dest-path" (DestPath c),
           CheckSingleLine "ssh host" (SrcSSHHost c), CheckSingleLine "ssh host" (DestSSHHost c) with
     | Err e, _, _, _ | Ok _, Err e, _, _ | Ok _, Ok _, Err e, _ | Ok _, Ok _, Ok _, Err e =>
         Build c = Err e
     | Ok _, Ok _, Ok _, Ok _ => is_Ok (Build c) = true
     end).
Proof.
  unfold Build. split; intros ->; [done|]. simpl fail_if. cbn [mbind result_bind].
  unfold validate. cbn [for_each fst snd].
  by repeat (case_match; cbn [mbind result_bind]; [|done]).
Qed.

Lemma rsync_Build_errors_witness :
  let c := mkCmd 0 false false false true true "" "a" "/source" "" "b" "/dest" false "" in
  SrcUseSSH c && DestUseSSH c = true /\
  Build c = Err (ErrNew "cannot use ssh on both source and destination").
Proof. intros c. split; [reflexivity|]. apply (rsync_Build_errors c). reflexivity. Defined.
