(* ===== verification/Json.v ===== *)
(** * encoding/json: Compact

    The service account of a Google Cloud Storage backend is JSON over several
    lines, and compactJSON (internal/rclone/config.go) makes one line of it with
    [json.Compact] before it goes into the configuration of rclone.  Here is the
    scanner of encoding/json, byte by byte as the package has it, and what the
    program relies on: one line comes out, without space around it, and compacting
    it again changes nothing. *)
From S2P Require Import Prelude GoStrings Fmt.
From stdpp Require Import options.
Local Open Scope Z_scope.

Module Json.

(** ** The scanner *)

Inductive parse_state : Type := ParseObjectKey | ParseObjectValue | ParseArrayValue.

(** The step functions.  [Word w rest] is in the literal [w], with the letters that are
    still to come; [InStringEscU n] has seen [n] of the four digits. *)
Inductive scan_step : Type :=
  | BeginValue | BeginValueOrEmpty | BeginStringOrEmpty | BeginString
  | EndValue | EndTop
  | InString | InStringEsc | InStringEscU (n : nat)
  | Neg | State1 | State0 | Dot | Dot0 | StateE | ESign | E0
  | Word (w rest : string)
  | StateError.

Record scanner : Type := mkScanner {
  step : scan_step;
  parseState : list parse_state;     (* the innermost first *)
  endTop : bool;
  err : option error
}.

Definition newScanner : scanner := mkScanner BeginValue [] false None.

(** What the caller is told of a byte, in the order of the package's constants:
    [Keep] stands for those below [scanSkipSpace]. *)
Inductive verdict : Type := Keep | SkipSpace | ScanEnd | ScanError.

Definition dquote : ascii := ascii_of_nat 34.
Definition isSpace (c : ascii) : bool := mem_byte [" "%char; ascii_of_nat 9; cr; lf] c.
Definition is_hex (c : ascii) : bool :=
  is_digit c || bool_decide (97 <= byte c <= 102) || bool_decide (65 <= byte c <= 70).
Definition from_1_to_9 (c : ascii) : bool := bool_decide (49 <= byte c <= 57).
Definition maxNestingDepth : Z := 10000.

Definition goto (s : scanner) (st : scan_step) : scanner := mkScanner st (parseState s) (endTop s) (err s).

(** [s.error] *)
Definition fail (s : scanner) (c : ascii) (context : string) : scanner :=
  mkScanner StateError (parseState s) (endTop s) (Some (Errorf "invalid character %q %s" [AInt (byte c); AStr context])).
Definition error_at (s : scanner) (c : ascii) (context : string) : scanner * verdict := (fail s c context, ScanError).

Definition pushParseState (s : scanner) (c : ascii) (st : scan_step) (p : parse_state) : scanner * verdict :=
  let s := mkScanner st (p :: parseState s) (endTop s) (err s) in
  if decide (Z.of_nat (length (parseState s)) <= maxNestingDepth) then (s, Keep) else error_at s c "exceeded max depth".

Definition popParseState (s : scanner) : scanner :=
  match tail (parseState s) with
  | [] => mkScanner EndTop [] true (err s)
  | rest => mkScanner EndValue rest (endTop s) (err s)
  end.

Definition stateEndTop (s : scanner) (c : ascii) : scanner * verdict :=
  (if isSpace c then s else fail s c "after top-level value", ScanEnd).

Definition same_byte (c d : ascii) : bool := bool_decide (c = d).

Definition stateEndValue (s : scanner) (c : ascii) : scanner * verdict :=
  match parseState s with
  | [] => stateEndTop (mkScanner EndTop [] true (err s)) c
  | p :: rest =>
      if isSpace c then (goto s EndValue, SkipSpace)
      else match p with
           | ParseObjectKey =>
               if same_byte c ":" then (mkScanner BeginValue (ParseObjectValue :: rest) (endTop s) (err s), Keep)
               else error_at s c "after object key"
           | ParseObjectValue =>
               if same_byte c "," then (mkScanner BeginString (ParseObjectKey :: rest) (endTop s) (err s), Keep)
               else if same_byte c "}" then (popParseState s, Keep)
               else error_at s c "after object key:value pair"
           | ParseArrayValue =>
               if same_byte c "," then (goto s BeginValue, Keep)
               else if same_byte c "]" then (popParseState s, Keep)
               else error_at s c "after array element"
           end
  end.

Definition stateBeginValue (s : scanner) (c : ascii) : scanner * verdict :=
  if isSpace c then (s, SkipSpace)
  else if same_byte c "{" then pushParseState s c BeginStringOrEmpty ParseObjectKey
  else if same_byte c "[" then pushParseState s c BeginValueOrEmpty ParseArrayValue
  else if same_byte c dquote then (goto s InString, Keep)
  else if same_byte c "-" then (goto s Neg, Keep)
  else if same_byte c "0" then (goto s State0, Keep)
  else if same_byte c "t" then (goto s (Word "true" "rue"), Keep)
  else if same_byte c "f" then (goto s (Word "false" "alse"), Keep)
  else if same_byte c "n" then (goto s (Word "null" "ull"), Keep)
  else if from_1_to_9 c then (goto s State1, Keep)
  else error_at s c "looking for beginning of value".

Definition stateBeginString (s : scanner) (c : ascii) : scanner * verdict :=
  if isSpace c then (s, SkipSpace)
  else if same_byte c dquote then (goto s InString, Keep)
  else error_at s c "looking for beginning of object key string".

Definition state0 (s : scanner) (c : ascii) : scanner * verdict :=
  if same_byte c "." then (goto s Dot, Keep)
  else if same_byte c "e" || same_byte c "E" then (goto s StateE, Keep)
  else stateEndValue s c.

Definition stateESign (s : scanner) (c : ascii) : scanner * verdict :=
  if is_digit c then (goto s E0, Keep) else error_at s c "in exponent of numeric literal".

(** [s.step(s, c)] *)
Definition scan (s : scanner) (c : ascii) : scanner * verdict :=
  match step s with
  | BeginValue => stateBeginValue s c
  | BeginValueOrEmpty =>
      if isSpace c then (s, SkipSpace) else if same_byte c "]" then stateEndValue s c else stateBeginValue s c
  | BeginStringOrEmpty =>
      if isSpace c then (s, SkipSpace)
      else if same_byte c "}"
      then stateEndValue (mkScanner (step s) (ParseObjectValue :: tail (parseState s)) (endTop s) (err s)) c
      else stateBeginString s c
  | BeginString => stateBeginString s c
  | EndValue => stateEndValue s c
  | EndTop => stateEndTop s c
  | InString =>
      if same_byte c dquote then (goto s EndValue, Keep)
      else if same_byte c "\" then (goto s InStringEsc, Keep)
      else if decide (byte c < 32) then error_at s c "in string literal"
      else (s, Keep)
  | InStringEsc =>
      if mem_byte ["b"%char; "f"%char; "n"%char; "r"%char; "t"%char; "\"%char; "/"%char; dquote] c then (goto s InString, Keep)
      else if same_byte c "u" then (goto s (InStringEscU 0), Keep)
      else error_at s c "in string escape code"
  | InStringEscU n =>
      if is_hex c then (goto s (if decide (n = 3)%nat then InString else InStringEscU (S n)), Keep)
      else error_at s c "in \u hexadecimal character escape"
  | Neg =>
      if same_byte c "0" then (goto s State0, Keep) else if from_1_to_9 c then (goto s State1, Keep)
      else error_at s c "in numeric literal"
  | State1 => if is_digit c then (s, Keep) else state0 s c
  | State0 => state0 s c
  | Dot => if is_digit c then (goto s Dot0, Keep) else error_at s c "after decimal point in numeric literal"
  | Dot0 =>
      if is_digit c then (s, Keep) else if same_byte c "e" || same_byte c "E" then (goto s StateE, Keep) else stateEndValue s c
  | StateE => if same_byte c "+" || same_byte c "-" then (goto s ESign, Keep) else stateESign s c
  | ESign => stateESign s c
  | E0 => if is_digit c then (s, Keep) else stateEndValue s c
  | Word w EmptyString => error_at s c ("in literal " +:+ w)      (* never reached *)
  | Word w (String a rest) =>
      if same_byte c a then (goto s (if decide (rest = "") then EndValue else Word w rest), Keep)
      else error_at s c ("in literal " +:+ w +:+ " (expecting '" +:+ one a +:+ "')")
  | StateError => (s, ScanError)
  end.

(** [s.eof] *)
Definition eof (s : scanner) : result () :=
  match err s with
  | Some e => Err e
  | None =>
      if endTop s then Ok ()
      else let s := (scan s " ").1 in
           if endTop s then Ok ()
           else Err (default (ErrNew "unexpected end of JSON input") (err s))
  end.

(** ** Compact *)

(** The loop over the bytes: the scanner at its end, and what is kept. *)
Fixpoint compact_loop (s : scanner) (src : string) : scanner * string :=
  match src with
  | EmptyString => (s, "")
  | String c src =>
      match scan s c with
      | (s, ScanError) => (s, "")
      | (s, Keep) => let r := compact_loop s src in (r.1, String c r.2)
      | (s, _) => compact_loop s src
      end
  end.

(** [json.Compact] into an empty buffer. *)
Definition Compact (input : string) : result string :=
  let r := compact_loop newScanner input in
  _ ← eof r.1; Ok r.2.

(** JSON with quotes written as grave accents. *)
Fixpoint quoted (s : string) : string :=
  match s with
  | EmptyString => ""
  | String a s => String (if same_byte a "`" then dquote else a) (quoted s)
  end.

Example compact_object :
  Compact (quoted (" { `a b` : [ 1.5e+3 , true ]," +:+ nl +:+ "  `\u00e9`:null }" +:+ nl))
  = Ok (quoted "{`a b`:[1.5e+3,true],`\u00e9`:null}").
Proof. vm_compute. reflexivity. Qed.
Example compact_open : is_Ok (Compact (quoted "{`a`:1")) = false.
Proof. vm_compute. reflexivity. Qed.
Example compact_two : is_Ok (Compact "1 2") = false.
Proof. vm_compute. reflexivity. Qed.

Example compact_says :
  Error <$> (match Compact "[tru]" with Err e => Some e | Ok _ => None end)
  = Some "invalid character ']' in literal true (expecting 'e')".
Proof. vm_compute. reflexivity. Qed.

(** ** Lemmas: what a step keeps *)

(** A visible ASCII byte. *)
Definition visible (c : ascii) : bool := bool_decide (33 <= byte c <= 126).

(** A value, or the whole text, may end here. *)
Definition accepting (st : scan_step) : bool :=
  match st with EndValue | EndTop | State1 | State0 | Dot0 | E0 => true | _ => false end.

(** What holds of a step's answer: a byte is kept for being visible, or within a
    string; what is dropped leaves a place where a value ends only for another. *)
Definition step_ok (s : scanner) (c : ascii) (r : scanner * verdict) : Prop :=
  match r.2 with
  | Keep => visible c = true \/ step s = InString /\ step r.1 = InString /\ 32 <= byte c
  | SkipSpace | ScanEnd =>
      step s <> InString /\ step r.1 <> InString /\
      (accepting (step r.1) = true -> accepting (step s) = true)
  | ScanError => step r.1 = StateError
  end.

Lemma same_byte_true c d : same_byte c d = true <-> c = d.
Proof. apply bool_decide_eq_true. Qed.

Lemma digit_visible c : is_digit c = true -> visible c = true.
Proof. unfold is_digit, visible. rewrite !bool_decide_eq_true. lia. Qed.

Lemma digit_1_visible c : from_1_to_9 c = true -> visible c = true.
Proof. unfold from_1_to_9, visible. rewrite !bool_decide_eq_true. lia. Qed.

Lemma hex_visible c : is_hex c = true -> visible c = true.
Proof. unfold is_hex, is_digit, visible. rewrite !orb_true_iff, !bool_decide_eq_true. lia. Qed.

Lemma mem_visible cs c : forallb visible cs = true -> mem_byte cs c = true -> visible c = true.
Proof.
  unfold mem_byte. rewrite bool_decide_eq_true, forallb_forall. intros H Hc. apply H. by apply list_elem_of_In.
Qed.

#[local] Hint Resolve digit_visible digit_1_visible hex_visible : scan.

Ltac scan_cases :=
  repeat match goal with
    | |- step_ok _ _ (if ?b then _ else _) => destruct b eqn:?
    | |- step_ok _ _ (match ?x with _ => _ end) => destruct x eqn:?
    end;
  repeat match goal with
    | H : same_byte _ _ || same_byte _ _ = true |- _ => apply orb_true_iff in H as [H|H]
    | H : same_byte _ _ = true |- _ => apply same_byte_true in H; subst
    end.

Ltac scan_done :=
  unfold step_ok; cbn;
  first [ by left; auto with scan | by eexists | by left; eexists | by right | by split
        | left; by eapply mem_visible; [|eassumption]
        | right; split; [done|]; split; [done|]; lia
        | case_match; by split ].

(** What every reachable scanner has: after an error it keeps the error, and it
    has seen the end of the value only in the state after that, and the letters to
    come are those of a literal. *)
Definition sound (s : scanner) : Prop :=
  (step s = StateError -> is_Some (err s)) /\
  (endTop s = true -> step s = EndTop \/ step s = StateError) /\
  (forall w rest, step s = Word w rest -> all_bytes visible rest = true).

Lemma scan_step_ok s c : sound s -> step_ok s c (scan s c).
Proof.
  intros (_ & _ & Hw).
  unfold scan, state0, stateESign, stateBeginString, stateBeginValue, stateEndValue, stateEndTop, pushParseState, error_at.
  destruct s as [st ps et er]; destruct st; cbn [step parseState endTop err] in *; scan_cases; try scan_done.
  left. specialize (Hw _ _ eq_refl). by apply andb_true_iff in Hw as [? _].
Qed.

Lemma scan_sound s c :
  sound s ->
  sound (scan s c).1 /\ (is_Some (err s) -> is_Some (err (scan s c).1)) /\
  (isSpace c = true -> endTop (scan s c).1 = true -> endTop s = true \/ accepting (step s) = true).
Proof.
  intros (He & Ht & Hw).
  unfold scan, state0, stateESign, stateBeginString, stateBeginValue, stateEndValue, stateEndTop, pushParseState,
    popParseState, error_at, sound.
  destruct s as [st ps et er]; destruct st; cbn [step parseState endTop err] in *.
  all: repeat case_match; cbn.
  all: try (assert (et = false) as -> by (destruct et; [by destruct Ht|done])).
  all: try (split_and!; intros; simplify_eq/=; by eauto).
  all: try (split_and!; intros; simplify_eq/=; by eauto 2).
  specialize (Hw _ _ eq_refl). apply andb_true_iff in Hw as [_ Hw].
  split_and!; intros; simplify_eq/=; by eauto.
Qed.

(** *** What Compact returns *)

Definition first_byte (s : string) : option ascii := match s with EmptyString => None | String c _ => Some c end.

Definition printing (c : ascii) : bool := bool_decide (32 <= byte c).

(** The bytes kept from [s] on: none is a control byte; the first is visible outside
    a string, and the last where the text may end. *)
Definition kept (s s' : scanner) (out : string) : Prop :=
  all_bytes printing out = true /\
  (step s <> InString -> from_option (fun c => visible c = true) True (first_byte out)) /\
  (accepting (step s') = true ->
   from_option (fun c => visible c = true) (accepting (step s) = true) (last_byte out)).

Lemma compact_loop_kept src s :
  sound s -> sound (compact_loop s src).1 /\ kept s (compact_loop s src).1 (compact_loop s src).2.
Proof.
  induction src as [|c src IH] in s |- *; intros Hs.
  { split; [done|]. by unfold kept. }
  cbn [compact_loop].
  pose proof (scan_step_ok s c Hs) as Hok. destruct (scan_sound s c Hs) as [Hs' _].
  destruct (scan s c) as [s1 v]. unfold step_ok in Hok. cbn [fst snd] in *.
  specialize (IH s1 Hs') as [IHs (IHp & IHf & IHl)].
  destruct v; cbn [fst snd].
  - split; [done|]. split; [|split].
    + cbn. rewrite IHp, andb_true_r. unfold printing, visible in *. rewrite bool_decide_eq_true in *. destruct Hok; lia.
    + cbn. by destruct Hok as [|[]].
    + intros Ha. specialize (IHl Ha). cbn. destruct (last_byte _); [done|]. cbn in *.
      destruct Hok as [|(_ & Hi & _)]; [done|]. by rewrite Hi in IHl.
  - destruct Hok as (Hi & Hi' & Ha). split; [done|]. split; [done|]. split; [auto|].
    intros H. specialize (IHl H). destruct (last_byte _); cbn in *; auto.
  - destruct Hok as (Hi & Hi' & Ha). split; [done|]. split; [done|]. split; [auto|].
    intros H. specialize (IHl H). destruct (last_byte _); cbn in *; auto.
  - split; [done|]. split; [done|]. split; [done|]. by rewrite Hok.
Qed.

Lemma newScanner_sound : sound newScanner.
Proof. by repeat split. Qed.

Lemma eof_accepting s : sound s -> eof s = Ok () -> err s = None /\ accepting (step s) = true.
Proof.
  intros Hs. destruct (scan_sound s " " Hs) as (_ & _ & Ht). destruct Hs as (He & Hend & _).
  unfold eof. destruct (err s) as [e|]; [done|]. intros H. split; [done|].
  assert (endTop s = true \/ accepting (step s) = true) as [Hend'|]; [|destruct (Hend Hend') as [->|Hx]|done]; [|done|].
  - destruct (endTop s); [by left|]. apply Ht; [done|]. by destruct (endTop _).
  - by destruct (He Hx).
Qed.

Lemma Compact_Ok j c :
  Compact j = Ok c <->
  (compact_loop newScanner j).2 = c /\ eof (compact_loop newScanner j).1 = Ok ().
Proof.
  unfold Compact. destruct (eof _) as [[]|]; cbn; [|naive_solver]. split; [by intros [= <-]|by intros [<- _]].
Qed.

(** One printing text with visible ends. *)
Lemma Compact_line j c :
  Compact j = Ok c ->
  all_bytes printing c = true /\
  exists a b, first_byte c = Some a /\ visible a = true /\ last_byte c = Some b /\ visible b = true.
Proof.
  intros [<- He]%Compact_Ok. destruct (compact_loop_kept j newScanner newScanner_sound) as (Hs & Hp & Hf & Hl).
  apply eof_accepting in He as [_ Ha]; [|done]. specialize (Hl Ha). specialize (Hf ltac:(done)). split; [done|].
  destruct (compact_loop _ _).2 as [|a out]; [done|]. cbn in *. eauto 10.
Qed.

(** *** It is its own trimmed text *)

Lemma space_runes_ends :
  forallb (fun r => match first_byte r, last_byte r with
                    | Some a, Some b => negb (visible a) && negb (visible b)
                    | _, _ => false
                    end) space_runes = true.
Proof. vm_compute. reflexivity. Qed.

Lemma first_some_None {A B} (f : A -> option B) l : (forall x, In x l -> f x = None) -> first_some f l = None.
Proof. induction l as [|x l IH]; cbn; [done|]. intros H. rewrite (H x (or_introl eq_refl)). apply IH. auto. Qed.

Lemma trim_with_None f n s : f s = None -> trim_with f n s = s.
Proof. intros H. destruct n; cbn; [done|]. by rewrite H. Qed.

Lemma TrimSpace_visible s a b :
  first_byte s = Some a -> visible a = true -> last_byte s = Some b -> visible b = true -> TrimSpace s = s.
Proof.
  intros Ha Va Hb Vb. pose proof space_runes_ends as Hr. rewrite forallb_forall in Hr.
  assert (first_some (CutPrefix s) space_runes = None) as Hp.
  { apply first_some_None. intros x Hx. specialize (Hr x Hx). apply eq_None_not_Some. intros [r Hc].
    apply CutPrefix_Some in Hc. subst s. destruct x as [|x0 x]; [done|]. cbn in Ha. injection Ha as ->.
    cbn [first_byte] in Hr. rewrite Va in Hr. by destruct (last_byte (String a x)). }
  assert (first_some (CutSuffix s) space_runes = None) as Hq.
  { apply first_some_None. intros x Hx. specialize (Hr x Hx). apply eq_None_not_Some. intros [r Hc].
    apply CutSuffix_Some in Hc. subst s. rewrite last_byte_app in Hb by by destruct x. rewrite Hb, Vb in Hr.
    destruct (first_byte x); [|done]. by rewrite andb_false_r in Hr. }
  unfold TrimSpace. cbv zeta.
  rewrite (trim_with_None (fun s => first_some (CutPrefix s) space_runes) (String.length s) s Hp).
  exact (trim_with_None (fun s => first_some (CutSuffix s) space_runes) (String.length s) s Hq).
Qed.

(** *** Compacting again *)

(** The scanner [t] that reads the kept bytes stays with the scanner [s] that reads
    them all: where [s] has gone past the end of a number, [t] is still in it. *)
Definition follows (s t : scanner) : Prop :=
  t = s \/
  accepting (step t) = true /\ step t <> EndTop /\ parseState t = parseState s /\ endTop t = false /\ err t = err s /\
  (step s = EndValue /\ parseState s <> [] /\ endTop s = false \/ step s = EndTop /\ parseState s = [] /\ endTop s = true).

(** Where a value may end, a byte that does not go on with a number is read as at
    the end of any value. *)
Lemma dropped_follows s c :
  sound s ->
  match (scan s c).2 with
  | SkipSpace => follows (scan s c).1 s
  | ScanEnd => err (scan s c).1 = None -> follows (scan s c).1 s
  | _ => True
  end.
Proof.
  intros (_ & Ht & _). unfold follows.
  unfold scan, state0, stateESign, stateBeginString, stateBeginValue, stateEndValue, stateEndTop, pushParseState, error_at.
  destruct s as [st ps et er]; destruct st; cbn [step parseState endTop err] in *.
  all: repeat case_match; cbn; try done; try (by left).
  all: assert (et = false) as -> by (destruct et; [by destruct Ht|done]); subst.
  all: try (right; split_and!; [done..|]; left; done).
  all: try (intros; right; split_and!; [done..|]; right; done).
Qed.

(** What may come after a value, space included. *)
Definition after_value : list ascii := [":"; ","; "}"; "]"; " "]%char.

Lemma stateEndValue_keep s c :
  (stateEndValue s c).2 = Keep ->
  In c after_value /\
  forall t, parseState t = parseState s -> endTop t = endTop s -> err t = err s -> stateEndValue t c = stateEndValue s c.
Proof.
  unfold stateEndValue, stateEndTop. destruct s as [st ps et er]; cbn. intros H.
  destruct ps as [|p rest]; [done|]. repeat case_match; cbn in H; try done.
  all: repeat match goal with E : same_byte _ _ = true |- _ => apply same_byte_true in E; subst end.
  all: split; [cbn; tauto|]; intros [st' ps' et' er'] Hp Ht He; cbn in *; by subst.
Qed.

Lemma past_number t c :
  In c after_value -> accepting (step t) = true -> step t <> EndTop ->
  scan t c = stateEndValue t c.
Proof. intros Hc Ha Ht. unfold scan, state0. destruct (step t); try done; cbn in Hc; destruct_or? Hc; by subst. Qed.

Lemma kept_follows s t c :
  follows s t -> (scan s c).2 = Keep -> scan t c = scan s c.
Proof.
  intros [->|(Ha & Hn & Hp & Het & He & [(Hs & _ & Hes)|(Hs & _)])] H; [done| |].
  - unfold scan in H. rewrite Hs in H. destruct (stateEndValue_keep _ _ H) as [Hc Hq].
    rewrite (past_number t c Hc Ha Hn), (past_number s c Hc); [|by rewrite Hs..]. apply Hq; congruence.
  - unfold scan in H. by rewrite Hs in H.
Qed.

Lemma drop_follows s t c :
  sound s -> follows s t -> err (scan s c).1 = None -> (scan s c).2 = SkipSpace \/ (scan s c).2 = ScanEnd ->
  follows (scan s c).1 t.
Proof.
  intros Hs Hf. pose proof (dropped_follows s c Hs) as Hd. destruct Hf as [->|Hf].
  { intros He [Hv|Hv]; rewrite Hv in Hd; auto. }
  intros He Hv. assert ((scan s c).1 = s) as ->; [|by right].
  destruct Hf as (_ & _ & _ & _ & _ & [(Hst & Hp & _)|(Hst & _)]); unfold scan in *; rewrite Hst in *.
  - unfold stateEndValue in *. destruct s as [st ps et er]; cbn in *. destruct ps as [|p rest]; [done|].
    repeat case_match; cbn in *; by destruct Hv; subst.
  - unfold stateEndTop in *. by destruct (isSpace c).
Qed.

Lemma eof_follows s t : follows s t -> eof s = Ok () -> eof t = Ok ().
Proof.
  intros [->|(Ha & Hn & Hp & Het & He & Hs)] H; [done|]. unfold eof in *. rewrite He, Het. destruct (err s); [done|].
  destruct Hs as [(Hst & Hps & Hes)|(Hst & Hps & Hes)].
  - rewrite Hes in H. unfold scan in H. rewrite Hst in H. unfold stateEndValue in H.
    destruct (parseState s) eqn:Eps; [done|]. change (isSpace " ") with true in H. cbn in H. by rewrite Hes in H.
  - rewrite (past_number t " ") by (cbn; tauto || done). unfold stateEndValue. by rewrite Hp, Hps.
Qed.

Lemma compact_loop_error src s : sound s -> is_Some (err s) -> is_Some (err (compact_loop s src).1).
Proof.
  induction src as [|c src IH] in s |- *; intros Hs He; [done|]. cbn.
  destruct (scan_sound s c Hs) as (Hs' & He' & _). specialize (He' He).
  destruct (scan s c) as [s1 []]; cbn in *; auto.
Qed.

Lemma compact_loop_again src s t :
  sound s -> follows s t -> err (compact_loop s src).1 = None ->
  let r := compact_loop s src in
  (compact_loop t r.2).2 = r.2 /\ follows r.1 (compact_loop t r.2).1.
Proof.
  cbv zeta. induction src as [|c src IH] in s, t |- *; intros Hs Hf He; [done|]. cbn [compact_loop] in *.
  destruct (scan_sound s c Hs) as (Hs' & _ & _).
  pose proof (scan_step_ok s c Hs) as Hok. pose proof (kept_follows s t c Hf) as Hk. pose proof (drop_follows s t c Hs Hf) as Hd.
  destruct (scan s c) as [s1 v]. unfold step_ok in Hok. cbn [fst snd] in *. destruct v; cbn [fst snd] in *.
  - cbn [compact_loop]. rewrite Hk by done. cbn. destruct (IH s1 s1 Hs' ltac:(by left) He) as [-> Hf']. by split.
  - apply IH; [done| |done]. apply Hd; [|by left]. apply eq_None_not_Some. intros Hx.
    apply (compact_loop_error src) in Hx; [|done]. rewrite He in Hx. by destruct Hx.
  - apply IH; [done| |done]. apply Hd; [|by right]. apply eq_None_not_Some. intros Hx.
    apply (compact_loop_error src) in Hx; [|done]. rewrite He in Hx. by destruct Hx.
  - destruct Hs' as [Hx _]. specialize (Hx Hok). rewrite He in Hx. by destruct Hx.
Qed.

(** Compacting what was compacted changes nothing. *)
Lemma Compact_again j c : Compact j = Ok c -> Compact c = Ok c.
Proof.
  intros [<- He]%Compact_Ok. apply Compact_Ok.
  destruct (compact_loop_kept j newScanner newScanner_sound) as [Hs _].
  destruct (eof_accepting _ Hs He) as [Herr _].
  destruct (compact_loop_again j newScanner newScanner newScanner_sound ltac:(by left) Herr) as [Hl Hf].
  split; [done|]. by eapply eof_follows.
Qed.

End Json.
