(* ===== verification/Rclone.v ===== *)
(** * internal/rclone: the rclone command line and the generated config

    internal/rclone/cmd.go ([Cmd.Build], the remote path builders) and
    internal/rclone/config.go ([GenerateConfig]).  A generated config is read
    back by [parse_entries], the line discipline of an rclone.conf section: the
    theorem says the entries a reader sees are the ones asked for, which is what
    rejecting line breaks and outer whitespace is for, and compacting the JSON of a
    service account. *)
From S2P Require Import Prelude GoStrings Utf8 Posix Shell Rsync Json.
From stdpp Require Import options.

Definition DirectionBackup : string := "backup".
Definition DirectionRestore : string := "restore".

Definition defaultProgressFlags : string :=
  "--stats 1s --stats-log-level NOTICE --use-json-log --stats-one-line".

Definition remoteName : string := "remote".

Module Cmd.

Record t : Type := mk {
  Direction : string;
  RemotePath : string;
  LocalPath : string;
  ConfigPath : string;
  ExtraArgs : string;
  Delete : bool
}.

Definition ends (c : t) : result (string * string) :=
  if decide (Direction c = DirectionBackup) then Ok (LocalPath c, RemotePath c)
  else if decide (Direction c = DirectionRestore) then Ok (RemotePath c, LocalPath c)
  else Err (Errorf "invalid direction: %q, must be %q or %q"
              [AStr (Direction c); AStr DirectionBackup; AStr DirectionRestore]).

Definition action (c : t) : string :=
  if bool_decide (Direction c = DirectionRestore) && negb (Delete c) then "copy" else "sync".

Definition Build (c : t) : result string :=
  _ ← for_each (fun field => CheckSingleLine field.1 field.2)
        [("--path", LocalPath c); ("remote path", RemotePath c);
         ("rclone config path", ConfigPath c)];
  sd ← ends c;
  Ok ("rclone " +:+ action c
      +:+ (if decide (ConfigPath c = "") then "" else " --config " +:+ Quote (ConfigPath c))
      +:+ " " +:+ defaultProgressFlags
      +:+ " " +:+ Quote sd.1 +:+ " " +:+ Quote sd.2
      +:+ (if decide (ExtraArgs c = "") then "" else " " +:+ ExtraArgs c)).

(** The words rclone is meant to be started with. *)
Definition argv (c : t) (src dest : string) (extra : list tok) : list tok :=
  [Word "rclone"; Word (action c)]
  ++ (if decide (ConfigPath c = "") then [] else [Word "--config"; Word (ConfigPath c)])
  ++ (Word <$> ["--stats"; "1s"; "--stats-log-level"; "NOTICE"; "--use-json-log"; "--stats-one-line"])
  ++ [Word src; Word dest] ++ extra.
End Cmd.

(** ** Remote paths *)

Definition BuildRemotePath (bucket prefix name : string) : string :=
  if decide (prefix = "") then remoteName +:+ ":" +:+ bucket +:+ "/" +:+ name +:+ "/"
  else remoteName +:+ ":" +:+ bucket +:+ "/" +:+ prefix +:+ "/" +:+ name +:+ "/".

Definition BuildMetadataRemotePath (bucket prefix name : string) : string :=
  if decide (prefix = "") then remoteName +:+ ":" +:+ bucket +:+ "/" +:+ name +:+ ".meta.yaml"
  else remoteName +:+ ":" +:+ bucket +:+ "/" +:+ prefix +:+ "/" +:+ name +:+ ".meta.yaml".

Definition BuildObjectPath (bucket key : string) : string :=
  remoteName +:+ ":" +:+ bucket +:+ "/" +:+ TrimPrefix key "/".

Definition BuildRemotePathRaw (remote : string) : string := remote.

(** ** Command line theorems *)

Lemma action_word c : shell_words (Cmd.action c) = Some [Word (Cmd.action c)].
Proof. unfold Cmd.action. by destruct (_ && _). Qed.

(** Appending an optional, blank-separated tail to a line. *)
Lemma shell_words_opt s ts x xs :
  shell_words s = Some ts -> shell_words x = Some xs ->
  shell_words (s +:+ (if decide (x = "") then "" else " " +:+ x)) = Some (ts ++ xs).
Proof.
  intros Hs Hx. case_decide as H.
  - subst. injection Hx as <-. by rewrite app_nil_r, app_nil_r_str.
  - by apply shell_words_blank.
Qed.

Lemma Cmd_words c src dest extra :
  shell_words (Cmd.ExtraArgs c) = Some extra ->
  shell_words ("rclone " +:+ Cmd.action c
      +:+ (if decide (Cmd.ConfigPath c = "") then ""
           else " --config " +:+ Quote (Cmd.ConfigPath c))
      +:+ " " +:+ defaultProgressFlags +:+ " " +:+ Quote src +:+ " " +:+ Quote dest
      +:+ (if decide (Cmd.ExtraArgs c = "") then "" else " " +:+ Cmd.ExtraArgs c))
  = Some (Cmd.argv c src dest extra).
Proof.
  intros He.
  assert (shell_words (Cmd.action c +:+ (if decide (Cmd.ConfigPath c = "") then ""
            else " --config " +:+ Quote (Cmd.ConfigPath c)))
          = Some (Word (Cmd.action c) :: if decide (Cmd.ConfigPath c = "") then []
                  else [Word "--config"; Word (Cmd.ConfigPath c)])) as Hhead.
  { case_decide; [rewrite app_nil_r_str; apply action_word|].
    apply (shell_words_blank _ [_]); [apply action_word|].
    apply (shell_words_blank "--config" [Word "--config"]); [done|apply shell_words_Quote]. }
  assert (shell_words (Quote src +:+ " " +:+ Quote dest
      +:+ (if decide (Cmd.ExtraArgs c = "") then "" else " " +:+ Cmd.ExtraArgs c))
      = Some (Word src :: Word dest :: extra)) as Htail.
  { rewrite <- app_assoc_str, <- app_assoc_str.
    apply (shell_words_opt _ [Word src; Word dest]); [|done].
    rewrite app_assoc_str. apply shell_words_Quote_blank, shell_words_Quote. }
  revert Htail. generalize (Quote src +:+ " " +:+ Quote dest
      +:+ (if decide (Cmd.ExtraArgs c = "") then "" else " " +:+ Cmd.ExtraArgs c)).
  intros tl Htail.
  change ("rclone " +:+ ?t) with ("rclone" +:+ String " " t).
  apply (shell_words_blank _ [Word "rclone"]); [done|].
  rewrite <- app_assoc_str. revert Hhead. generalize (Cmd.action c +:+
    (if decide (Cmd.ConfigPath c = "") then "" else " --config " +:+ Quote (Cmd.ConfigPath c))).
  intros hd Hhead. unfold Cmd.argv.
  apply (shell_words_blank hd _ _ _ Hhead).
  apply (shell_words_blank defaultProgressFlags); [done|]. done.
Qed.

(** What the Job's shell runs for a backup or a restore.  When [Build]
    succeeds, the shell sees rclone, [sync] for a backup and for a restore that
    deletes, [copy] for one that does not, the config, the progress flags, then
    the source and the destination as one word each, in the order the direction
    asks for, then the user's raw flags. *)
Theorem rclone_command_line c s extra :
  Cmd.Build c = Ok s -> shell_words (Cmd.ExtraArgs c) = Some extra ->
  (Cmd.Direction c = DirectionBackup /\ Cmd.action c = "sync" /\
     shell_words s = Some (Cmd.argv c (Cmd.LocalPath c) (Cmd.RemotePath c) extra)) \/
  (Cmd.Direction c = DirectionRestore /\
     Cmd.action c = (if Cmd.Delete c then "sync" else "copy") /\
     shell_words s = Some (Cmd.argv c (Cmd.RemotePath c) (Cmd.LocalPath c) extra)).
Proof.
  unfold Cmd.Build, Cmd.ends. intros H He. apply bind_Ok in H as (_ & _ & H).
  apply bind_Ok in H as ([src dest] & Hends & H). apply Ok_inj in H as <-. cbn [fst snd].
  rewrite (Cmd_words c src dest extra He). unfold Cmd.action.
  destruct (decide (Cmd.Direction c = DirectionBackup)) as [Hd|_];
    [|destruct (decide (Cmd.Direction c = DirectionRestore)) as [Hd|_]; [|done]];
    apply Ok_inj in Hends as [= <- <-]; rewrite Hd; [by left|right].
  by destruct (Cmd.Delete c).
Qed.

Lemma rclone_command_line_witness :
  let c := Cmd.mk "restore" "remote:b/x y/" "/data" "/etc/rclone/rclone.conf" "" false in
  exists s, Cmd.Build c = Ok s /\
  ((Cmd.Direction c = DirectionBackup /\ Cmd.action c = "sync" /\
     shell_words s = Some (Cmd.argv c (Cmd.LocalPath c) (Cmd.RemotePath c) [])) \/
  (Cmd.Direction c = DirectionRestore /\
     Cmd.action c = (if Cmd.Delete c then "sync" else "copy") /\
     shell_words s = Some (Cmd.argv c (Cmd.RemotePath c) (Cmd.LocalPath c) []))).
Proof.
  intros c. eexists. split; [vm_compute; reflexivity|].
  apply (rclone_command_line c); vm_compute; reflexivity.
Defined.

(** ** Config generation *)

Definition BackendS3 : string := "s3".
Definition BackendAzure : string := "azure".
Definition BackendGCS : string := "gcs".
Definition DefaultS3Provider : string := "Other".

Record ConfigOptions : Type := mkConfigOptions {
  Backend : string;
  Provider : string;
  Endpoint : string;
  Region : string;
  AccessKey : string;
  SecretKey : string;
  StorageAccount : string;
  StorageKey : string;
  GCSServiceAccountJSON : string;
  GCSBucketPolicyOnly : option bool
}.

Definition newline : ascii := ascii_of_nat 10.
Definition nl : string := String newline "".

(** CR, LF and NUL, the bytes [strings.ContainsAny] looks for. *)
Definition line_break (a : ascii) : bool :=
  mem_byte [ascii_of_nat 13; ascii_of_nat 10; ascii_of_nat 0] a.

Definition validateConfigValue (name value : string) : result () :=
  if decide (value = "") then Ok ()
  else
    _ ← fail_if (any_byte line_break value)
          (Errorf "--%s must not contain line breaks" [AStr name]);
    fail_if (negb (bool_decide (TrimSpace value = value)))
      (Errorf "--%s must not have leading or trailing whitespace" [AStr name]).

Definition writtenFields (o : ConfigOptions) : list (string * string) :=
  if decide (Backend o = BackendS3) then
    [("s3-provider", Provider o); ("endpoint", Endpoint o); ("region", Region o);
     ("access-key", AccessKey o); ("secret-key", SecretKey o)]
  else if decide (Backend o = BackendAzure) then
    [("storage-account", StorageAccount o); ("storage-key", StorageKey o)]
  else [].

Definition validateOptions (o : ConfigOptions) : result () :=
  for_each (fun field => validateConfigValue field.1 field.2) (writtenFields o).

(** [fmt.Fprintf(&builder, "key = %s\n", value)] *)
Definition entry (key value : string) : string := key +:+ " = " +:+ value +:+ nl.

Definition opt_entry (key value : string) : string :=
  if decide (value = "") then "" else entry key value.

Definition header : string := "[" +:+ remoteName +:+ "]" +:+ nl.

Definition generateS3Config (o : ConfigOptions) : result string :=
  let provider := if decide (Provider o = "") then DefaultS3Provider else Provider o in
  let start := header +:+ entry "type" "s3" +:+ entry "provider" provider
               +:+ opt_entry "endpoint" (Endpoint o) +:+ opt_entry "region" (Region o) in
  auth ←
    (if bool_decide (AccessKey o <> "") && bool_decide (SecretKey o <> "") then
       Ok (entry "access_key_id" (AccessKey o) +:+ entry "secret_access_key" (SecretKey o))
     else if bool_decide (AccessKey o <> "") || bool_decide (SecretKey o <> "") then
       Err (ErrNew "both access-key and secret-key must be provided together")
     else Ok (entry "env_auth" "true"));
  Ok (start +:+ auth +:+ entry "no_check_bucket" "true").

Definition generateAzureConfig (o : ConfigOptions) : string :=
  header +:+ entry "type" "azureblob"
  +:+ opt_entry "account" (StorageAccount o)
  +:+ (if decide (StorageKey o = "") then entry "env_auth" "true"
       else entry "key" (StorageKey o)).

Definition compactJSON (input : string) : result string := Json.Compact input.

Definition generateGCSConfig (o : ConfigOptions) : result string :=
  let start := header +:+ entry "type" "google cloud storage"
               +:+ (if default true (GCSBucketPolicyOnly o)
                    then entry "bucket_policy_only" "true" else "") in
  if decide (GCSServiceAccountJSON o = "") then Ok (start +:+ entry "env_auth" "true")
  else
    compacted ← wrap_err "failed to compact GCS service account JSON: %w"
                  (compactJSON (GCSServiceAccountJSON o));
    Ok (start +:+ entry "service_account_credentials" compacted).

Definition GenerateConfig (o : ConfigOptions) : result string :=
  _ ← validateOptions o;
  if decide (Backend o = BackendS3) then generateS3Config o
  else if decide (Backend o = BackendAzure) then Ok (generateAzureConfig o)
  else if decide (Backend o = BackendGCS) then generateGCSConfig o
  else if decide (Backend o = "") then Err (ErrNew "backend must not be empty")
  else Err (Errorf "unsupported backend: %s" [AStr (Backend o)]).

(** ** Specification: reading the config back

    The section header first, then one entry per line, split at the first [=],
    both sides trimmed as rclone does on read. *)

Definition parse_line (line : string) : option (string * string) :=
  '(k, v) ← Cut line "="; Some (TrimSpace k, TrimSpace v).

Definition parse_entries (conf : string) : option (list (string * string)) :=
  match Split conf newline with
  | h :: lines =>
      if decide (h = "[" +:+ remoteName +:+ "]" /\ last lines = Some "")
      then mapM parse_line (removelast lines) else None
  | [] => None
  end.

(** The entries the options ask for; [None] when they ask for half a key pair,
    for a credential that is not JSON, or for no backend there is. *)
Definition opt_pair (key value : string) : list (string * string) :=
  if decide (value = "") then [] else [(key, value)].

Definition s3_entries (o : ConfigOptions) : option (list (string * string)) :=
  auth ← match bool_decide (AccessKey o = ""), bool_decide (SecretKey o = "") with
         | false, false => Some [("access_key_id", AccessKey o); ("secret_access_key", SecretKey o)]
         | true, true => Some [("env_auth", "true")]
         | _, _ => None
         end;
  Some ([("type", "s3"); ("provider", if decide (Provider o = "") then "Other" else Provider o)]
        ++ opt_pair "endpoint" (Endpoint o) ++ opt_pair "region" (Region o)
        ++ auth ++ [("no_check_bucket", "true")]).

Definition azure_entries (o : ConfigOptions) : list (string * string) :=
  [("type", "azureblob")] ++ opt_pair "account" (StorageAccount o)
  ++ (if decide (StorageKey o = "") then [("env_auth", "true")] else [("key", StorageKey o)]).

Definition gcs_entries (o : ConfigOptions)
  : option (list (string * string)) :=
  auth ← (if decide (GCSServiceAccountJSON o = "") then Some [("env_auth", "true")]
          else match compactJSON (GCSServiceAccountJSON o) with
               | Ok c => Some [("service_account_credentials", c)]
               | Err _ => None
               end);
  Some ([("type", "google cloud storage")]
        ++ (if default true (GCSBucketPolicyOnly o) then [("bucket_policy_only", "true")] else [])
        ++ auth).

Definition entries (o : ConfigOptions) : option (list (string * string)) :=
  if decide (Backend o = BackendS3) then s3_entries o
  else if decide (Backend o = BackendAzure) then Some (azure_entries o)
  else if decide (Backend o = BackendGCS) then gcs_entries o
  else None.

(** A value one config line can carry. *)
Definition config_value (v : string) : Prop :=
  any_byte line_break v = false /\ TrimSpace v = v.

(** ** Config lemmas *)

Fixpoint render (es : list (string * string)) : string :=
  match es with
  | [] => ""
  | kv :: es => entry kv.1 kv.2 +:+ render es
  end.

Lemma render_app es fs : render (es ++ fs) = render es +:+ render fs.
Proof. induction es as [|kv es IH]; [done|]. simpl. by rewrite IH, app_assoc_str. Qed.

Lemma render_opt k v : render (opt_pair k v) = opt_entry k v.
Proof.
  unfold opt_pair, opt_entry. case_decide; [done|]. simpl. by rewrite app_nil_r_str.
Qed.

Lemma TrimSpace_blank v : TrimSpace v = v -> TrimSpace (" " +:+ v) = v.
Proof. unfold TrimSpace at 2. cbn [String.length]. simpl trim_with at 2. done. Qed.

Definition good_entry (kv : string * string) : Prop :=
  free_of newline kv.1 /\ free_of "="%char kv.1 /\ TrimSpace (kv.1 +:+ " ") = kv.1 /\
  config_value kv.2.

Lemma parse_entry kv : good_entry kv -> parse_line (kv.1 +:+ " = " +:+ kv.2) = Some kv.
Proof.
  destruct kv as [k v]. unfold good_entry. cbn [fst snd]. intros (_ & Hk & Ht & _ & Hv). unfold parse_line.
  change (" = " +:+ v) with (" " +:+ String "=" (" " +:+ v)).
  rewrite <- app_assoc_str, Cut_byte.
  - change (Some (TrimSpace (k +:+ " "), TrimSpace (" " +:+ v)) = Some (k, v)).
    by rewrite Ht, TrimSpace_blank.
  - apply free_of_app. by split.
Qed.

Lemma config_value_line v : config_value v -> free_of newline v.
Proof.
  intros [H _]. rewrite any_byte_all, negb_false_iff in H. revert H. apply all_bytes_impl.
  intros a. unfold line_break, mem_byte. rewrite !negb_true_iff, !bool_decide_eq_false.
  intros Ha ->. apply Ha. unfold newline. set_solver.
Qed.

Lemma Split_render es :
  Forall good_entry es ->
  Split (render es) newline = ((fun kv => kv.1 +:+ " = " +:+ kv.2) <$> es) ++ [""].
Proof.
  induction 1 as [|[k v] es (Hk & _ & _ & Hv) _ IH]; [done|].
  cbn [render fst snd] in *. rewrite fmap_cons. unfold entry, nl. cbn [fst snd].
  rewrite <- !app_assoc_str. rewrite (app_assoc_str _ (String newline "")).
  change (String newline "" +:+ render es) with (String newline (render es)).
  rewrite Split_app, IH. rewrite Split_one; [by rewrite app_assoc_str|].
  apply free_of_app. split; [by apply free_of_app|by apply config_value_line].
Qed.

Lemma parse_render es : Forall good_entry es -> parse_entries (header +:+ render es) = Some es.
Proof.
  intros H. unfold parse_entries, header, nl. rewrite <- !app_assoc_str.
  rewrite (app_assoc_str _ (String newline "")).
  change (String newline "" +:+ render es) with (String newline (render es)).
  rewrite Split_app, Split_render by done. cbn [Split app].
  rewrite Split_one by done. cbn [app].
  rewrite decide_True by (split; [done|apply last_snoc]).
  rewrite removelast_last. apply mapM_Some. rewrite Forall2_fmap_l.
  induction H; constructor; auto. by apply parse_entry.
Qed.

(** The options as the generator writes them are the header and its entries. *)
Lemma generate_render o :
  match entries o with
  | Some es => is_Ok (validateOptions o) = true ->
      GenerateConfig o = Ok (header +:+ render es)
  | None => is_Ok (GenerateConfig o) = false
  end.
Proof.
  unfold entries, GenerateConfig.
  destruct (decide (Backend o = BackendS3)) as [H3|H3].
  { unfold s3_entries, generateS3Config.
    destruct (AccessKey o) as [|a ak], (SecretKey o) as [|s sk];
      try (cbn; destruct (validateOptions o); done);
      intros [[] Hv]%is_Ok_true; rewrite Hv; cbn [mbind result_bind];
      rewrite !render_app, !render_opt; cbn [render fst snd]; rewrite !app_nil_r_str;
      [change (if bool_decide ("" <> "") && _ then _ else _)
         with (Ok (A:=string) (entry "env_auth" "true"))
      |change (if bool_decide (String a ak <> "") && _ then _ else _) with
         (Ok (A:=string) (entry "access_key_id" (String a ak)
                          +:+ entry "secret_access_key" (String s sk)))];
      cbn [mbind result_bind]; by rewrite !app_assoc_str. }
  destruct (decide (Backend o = BackendAzure)) as [Ha|Ha].
  { intros [[] Hv]%is_Ok_true. rewrite Hv. cbn [mbind result_bind].
    unfold azure_entries, generateAzureConfig. rewrite !render_app, render_opt.
    case_decide; cbn [render fst snd]; by rewrite ?app_nil_r_str, ?app_assoc_str. }
  destruct (decide (Backend o = BackendGCS)) as [Hg|Hg].
  - unfold gcs_entries, generateGCSConfig.
    destruct (decide (GCSServiceAccountJSON o = "")); [|destruct (compactJSON _)];
      cbn [mbind option_bind result_bind wrap_err]; try (destruct (validateOptions o); done);
      (intros [[] Hv]%is_Ok_true; rewrite Hv; cbn [mbind result_bind]);
      rewrite !render_app; destruct (default true _); cbn [render fst snd];
      by rewrite ?app_nil_r_str, ?app_assoc_str, ?app_nil_r_str.
  - destruct (validateOptions o); [|done]. cbn [mbind result_bind]. by case_decide.
Qed.

Lemma validateConfigValue_Ok n v : validateConfigValue n v = Ok () <-> config_value v.
Proof.
  unfold validateConfigValue, config_value. case_decide as Hv; [by subst|].
  destruct (any_byte line_break v); cbn [fail_if mbind result_bind]; [naive_solver|].
  destruct (bool_decide (TrimSpace v = v)) eqn:E; cbn [fail_if negb].
  - apply bool_decide_eq_true in E. done.
  - apply bool_decide_eq_false in E. naive_solver.
Qed.

Lemma validateOptions_Ok o :
  is_Ok (validateOptions o) = true <-> Forall (fun f => config_value f.2) (writtenFields o).
Proof.
  assert (is_Ok (validateOptions o) = true <-> validateOptions o = Ok ()) as ->.
  { destruct (validateOptions o) as [[]|]; naive_solver. }
  unfold validateOptions. rewrite for_each_Ok.
  apply Forall_iff. intros [n v]. apply validateConfigValue_Ok.
Qed.

(** Every entry asked for fits on its line when the written values are valid. *)
Lemma opt_pair_good k v :
  config_value v -> good_entry (k, "") -> Forall good_entry (opt_pair k v).
Proof.
  intros Hv Hk. unfold opt_pair.
  case_decide; [constructor|]. apply Forall_singleton. unfold good_entry in *.
  cbn [fst snd] in *. tauto.
Qed.

Ltac one_entry :=
  unfold good_entry; cbn [fst snd];
  split; [done|split; [done|split; [done|first [assumption | by split]]]].
Ltac fixed_entry :=
  repeat (apply Forall_cons; split; [one_entry|]); apply Forall_nil; exact I.

(** Compacted JSON fits on a line of the config. *)
Lemma compactJSON_line j c : compactJSON j = Ok c -> config_value c.
Proof.
  intros (Hp & a & b & Ha & Va & Hb & Vb)%Json.Compact_line. split; [|by eapply Json.TrimSpace_visible].
  rewrite any_byte_all. apply negb_false_iff. eapply all_bytes_impl; [|exact Hp].
  intros d. unfold Json.printing, line_break, mem_byte. rewrite negb_true_iff, bool_decide_eq_true, bool_decide_eq_false.
  intros Hd Hx. repeat (apply elem_of_cons in Hx as [->|Hx]; [by vm_compute in Hd|]). by apply elem_of_nil in Hx.
Qed.

Lemma entries_good o es :
  Forall (fun f => config_value f.2) (writtenFields o) ->
  entries o = Some es -> Forall good_entry es.
Proof.
  unfold entries, writtenFields. intros Hw H.
  destruct (decide (Backend o = BackendS3)).
  { rewrite !Forall_cons in Hw. cbn [fst snd] in Hw. destruct Hw as (Hp & He & Hr & Ha & Hs & _).
    unfold s3_entries in H. apply bind_Some in H as (auth & Hauth & [= <-]).
    apply Forall_cons; split; [one_entry|].
    apply Forall_cons; split; [destruct (decide (Provider o = "")); one_entry|].
    apply Forall_app; split; [apply opt_pair_good; [done|one_entry]|].
    apply Forall_app; split; [apply opt_pair_good; [done|one_entry]|].
    apply Forall_app; split; [|fixed_entry].
    destruct (bool_decide _), (bool_decide _); try done; injection Hauth as <-; fixed_entry. }
  destruct (decide (Backend o = BackendAzure)).
  { rewrite !Forall_cons in Hw. cbn [fst snd] in Hw. destruct Hw as (Ha & Hk & _). injection H as <-.
    apply Forall_cons; split; [one_entry|].
    apply Forall_app; split; [apply opt_pair_good; [done|one_entry]|].
    case_decide; fixed_entry. }
  destruct (decide (Backend o = BackendGCS)); [|done].
  unfold gcs_entries in H. apply bind_Some in H as (auth & Hauth & [= <-]).
  apply Forall_cons; split; [one_entry|].
  apply Forall_app; split; [destruct (default true _); fixed_entry|].
  case_decide; [injection Hauth as <-; fixed_entry|].
  destruct (compactJSON _) as [c|] eqn:Ec; [|done]. injection Hauth as <-.
  apply compactJSON_line in Ec. fixed_entry.
Qed.

(** C23: the generated rclone.conf says what was asked for.  A config is
    generated exactly when every value the backend writes fits on one line (no
    line break or NUL, no outer whitespace) and the options ask for a whole set
    of credentials of a known backend, and reading a generated config back line
    by line yields exactly those entries, in order: no value spills into another
    key, the JSON of a service account, compacted, included. *)
Theorem GenerateConfig_roundtrip o :
  (is_Ok (GenerateConfig o) = true <->
     Forall (fun f => config_value f.2) (writtenFields o) /\
     is_Some (entries o)) /\
  (forall conf, GenerateConfig o = Ok conf ->
     parse_entries conf = entries o).
Proof.
  pose proof (generate_render o) as Hg.
  destruct (entries o) as [es|] eqn:He.
  - rewrite validateOptions_Ok in Hg. split.
    + split; [|intros [Hw _]; by rewrite Hg].
      intros H. split; [|by eexists]. apply validateOptions_Ok.
      apply is_Ok_true in H as [s H]. apply bind_Ok in H as (u & H & _).
      apply is_Ok_true. eauto.
    + intros conf H. assert (is_Ok (validateOptions o) = true) as Hv.
      { apply bind_Ok in H as (u & H & _). apply is_Ok_true. eauto. }
      apply validateOptions_Ok in Hv. rewrite (Hg Hv) in H. injection H as <-.
      apply parse_render. by eapply entries_good.
  - split.
    + rewrite Hg. split; [done|]. by intros [_ [? ?]].
    + intros conf H. by rewrite H in Hg.
Qed.

Lemma GenerateConfig_roundtrip_witness :
  let o := mkConfigOptions "gcs" "" "" "" "" "" "" ""
             (Json.quoted ("{" +:+ nl +:+ "  `type`: `service_account`" +:+ nl +:+ "}")) None in
  exists conf, GenerateConfig o = Ok conf /\ parse_entries conf = entries o /\
    entries o = Some [("type", "google cloud storage"); ("bucket_policy_only", "true");
                      ("service_account_credentials", Json.quoted "{`type`:`service_account`}")].
Proof.
  intros o. eexists. split; [vm_compute; reflexivity|]. split; [|vm_compute; reflexivity].
  apply (GenerateConfig_roundtrip o). vm_compute. reflexivity.
Defined.
