(* ===== verification/Archive.v ===== *)
(** * internal/archive: the tar command lines

    internal/archive/cmd.go ([Cmd], the archive file written or read by one
    Job) and internal/archive/transfer.go ([TransferCmd], a volume streamed into
    another with tar at both ends).  The built lines are read back with the
    shell's rules and run against an arbitrary oracle for the exit codes
    ([ShellLine]): which commands are started, and when the line counts as a
    success. *)
From S2P Require Import Prelude GoStrings Utf8 Posix Shell ShellLine Paths.
From stdpp Require Import options.

Definition DirectionBackup : string := "backup".
Definition DirectionRestore : string := "restore".
Definition CompressionNone : string := "none".
Definition CompressionZstd : string := "zstd".
Definition CompressionGzip : string := "gzip".

Definition DefaultZstdLevel : Z := 3.
Definition DefaultGzipLevel : Z := 6.
Definition minLevel : Z := 1.
Definition maxZstdLevel : Z := 19.
Definition maxGzipLevel : Z := 9.
Definition compressThreads : Z := 4.

Definition Compressions : list string := [CompressionNone; CompressionZstd; CompressionGzip].

Definition unsupportedCompression (compression : string) : error :=
  Errorf "unsupported compression: %q, must be one of %s"
    [AStr compression; AStr (Join Compressions ", ")].

Definition Extension (compression : string) : result string :=
  if decide (compression = CompressionNone) then Ok ".tar"
  else if decide (compression = CompressionZstd) then Ok ".tar.zst"
  else if decide (compression = CompressionGzip) then Ok ".tar.gz"
  else Err (unsupportedCompression compression).

Definition DefaultLevel (compression : string) : Z :=
  if decide (compression = CompressionZstd) then DefaultZstdLevel
  else if decide (compression = CompressionGzip) then DefaultGzipLevel
  else 0.

Definition checkLevel (compression : string) (level maximum : Z) : result () :=
  fail_if (bool_decide (level < minLevel)%Z || bool_decide (level > maximum)%Z)
    (Errorf "compression level %d is out of range for %s, must be between %d and %d"
       [AInt level; AStr compression; AInt minLevel; AInt maximum]).

Definition compressProgram (compression : string) (level : Z) : result string :=
  if decide (compression = CompressionNone) then
    _ ← fail_if (negb (bool_decide (level = 0)%Z))
          (ErrNew ("compression level does not apply to " +:+ CompressionNone));
    Ok ""
  else if decide (compression = CompressionZstd) then
    let level := if decide (level = 0)%Z then DefaultZstdLevel else level in
    _ ← checkLevel CompressionZstd level maxZstdLevel;
    Ok ("zstd -T" +:+ Itoa compressThreads +:+ " -" +:+ Itoa level)
  else if decide (compression = CompressionGzip) then
    let level := if decide (level = 0)%Z then DefaultGzipLevel else level in
    _ ← checkLevel CompressionGzip level maxGzipLevel;
    Ok ("pigz -p " +:+ Itoa compressThreads +:+ " -" +:+ Itoa level)
  else Err (unsupportedCompression compression).

Definition CheckLevel (compression : string) (level : Z) : result () :=
  _ ← compressProgram compression level; Ok ().

Definition decompressProgram (compression : string) : string :=
  if decide (compression = CompressionZstd) then "zstd"
  else if decide (compression = CompressionGzip) then "pigz -p " +:+ Itoa compressThreads
  else "".

Definition lostFoundExclude : string := "--exclude=./lost+found".

Definition cleanCmd (dataPath : string) : string :=
  "find " +:+ Quote dataPath +:+ " -mindepth 1 -not -path "
  +:+ Quote (PathJoin [dataPath; "lost+found"]) +:+ " -not -path "
  +:+ Quote (PathJoin [dataPath; "lost+found"] +:+ "/*") +:+ " -delete".

(** Both [checkPaths] and [TransferCmd.check]: not empty, then one line. *)
Definition checkField (field : string * string) : result () :=
  _ ← fail_if (bool_decide (field.2 = "")) (Errorf "%s must not be empty" [AStr field.1]);
  CheckSingleLine field.1 field.2.

Definition invalidDirection (d : string) : error :=
  Errorf "invalid direction: %q, must be %q or %q" [AStr d; AStr DirectionBackup; AStr DirectionRestore].

(** [ -I <program>], when there is one. *)
Definition programFlag (program : string) : string :=
  if decide (program = "") then "" else " -I " +:+ Quote program.

Module Cmd.
Record t : Type := mk {
  Direction : string;
  ArchivePath : string;
  DataPath : string;
  Compression : string;
  Level : Z;
  Clean : bool
}.

Definition checkPaths (c : t) : result () :=
  for_each checkField [("--name", ArchivePath c); ("--path", DataPath c)].

Definition Build (c : t) : result string :=
  _ ← checkPaths c;
  program ← compressProgram (Compression c) (Level c);
  start ←
    (if decide (Direction c = DirectionBackup) then
       Ok ("mkdir -p " +:+ Quote (Dir (ArchivePath c)) +:+ " && "
           +:+ "tar -c --numeric-owner --xattrs --sparse " +:+ lostFoundExclude)
     else if decide (Direction c = DirectionRestore) then
       Ok ("mkdir -p " +:+ Quote (DataPath c) +:+ " && "
           +:+ (if Clean c then cleanCmd (DataPath c) +:+ " && " else "")
           +:+ "tar -x --numeric-owner --xattrs " +:+ lostFoundExclude)
     else Err (invalidDirection (Direction c)));
  Ok (start
      +:+ (if bool_decide (program <> "") && bool_decide (Direction c = DirectionBackup)
           then " -I " +:+ Quote program else "")
      +:+ " -f " +:+ Quote (ArchivePath c) +:+ " -C " +:+ Quote (DataPath c)
      +:+ (if decide (Direction c = DirectionBackup) then " ." else "")).
End Cmd.

(** ** Specification: the commands a line is meant to run *)

Definition mkdir_argv (d : string) : list tok := [Word "mkdir"; Word "-p"; Word d].

Definition clean_argv (d : string) : list tok :=
  [Word "find"; Word d; Word "-mindepth"; Word "1";
   Word "-not"; Word "-path"; Word (PathJoin [d; "lost+found"]);
   Word "-not"; Word "-path"; Word (PathJoin [d; "lost+found"] +:+ "/*"); Word "-delete"].

Definition program_argv (program : string) : list tok :=
  if decide (program = "") then [] else [Word "-I"; Word program].

(** [tar] writing the members of [dir] to [file]. *)
Definition tar_create_argv (program file dir member : string) : list tok :=
  [Word "tar"; Word "-c"; Word "--numeric-owner"; Word "--xattrs"; Word "--sparse";
   Word lostFoundExclude]
  ++ program_argv program ++ [Word "-f"; Word file; Word "-C"; Word dir; Word member].

Definition tar_extract_argv (program file dir : string) : list tok :=
  [Word "tar"; Word "-x"; Word "--numeric-owner"; Word "--xattrs"; Word lostFoundExclude]
  ++ program_argv program ++ [Word "-f"; Word file; Word "-C"; Word dir].

(** Making the directory and, when asked, emptying it. *)
Definition prepare_argvs (dir : string) (clean : bool) : list (list tok) :=
  mkdir_argv dir :: if clean then [clean_argv dir] else [].

Definition archive_commands (c : Cmd.t) (program : string) : list (list tok) :=
  if decide (Cmd.Direction c = DirectionBackup)
  then [mkdir_argv (Dir (Cmd.ArchivePath c));
        tar_create_argv program (Cmd.ArchivePath c) (Cmd.DataPath c) "."]
  else prepare_argvs (Cmd.DataPath c) (Cmd.Clean c)
       ++ [tar_extract_argv "" (Cmd.ArchivePath c) (Cmd.DataPath c)].

(** ** Lemmas on the pieces of a line *)

Lemma clean_words d s ts :
  shell_words s = Some ts ->
  shell_words (cleanCmd d +:+ " && " +:+ s) = Some (clean_argv d ++ Op "&&" :: ts).
Proof.
  intros Hs. unfold cleanCmd, clean_argv.
  generalize (PathJoin [d; "lost+found"]). intros l.
  generalize (l +:+ "/*"). intros l'. rewrite !app_assoc_str.
  shell_line.
Qed.

Lemma prepare_words d (clean : bool) s ts :
  shell_words s = Some ts ->
  shell_words ("mkdir -p " +:+ Quote d +:+ " && "
               +:+ (if clean then cleanCmd d +:+ " && " else "") +:+ s)
  = Some (mkdir_argv d ++ Op "&&" :: (if clean then clean_argv d ++ [Op "&&"] else []) ++ ts).
Proof.
  intros Hs. destruct clean.
  - pose proof (clean_words d s ts Hs) as Hc. rewrite app_assoc_str.
    rewrite <- (assoc_L (++)). cbn [app]. revert Hc.
    generalize (cleanCmd d +:+ " && " +:+ s). intros l Hc. shell_line.
  - rewrite app_nil_l_str. shell_line.
Qed.

(** The compressor's flag in the middle of a tar command. *)
Lemma tar_words lit body program s ts :
  shell_words body = Some lit -> shell_words s = Some ts ->
  shell_words (body +:+ programFlag program +:+ " " +:+ s) = Some (lit ++ program_argv program ++ ts).
Proof.
  intros Hb Hs. unfold programFlag, program_argv. case_decide.
  - by apply shell_words_blank.
  - rewrite app_assoc_str. apply (shell_words_blank body lit ("-I " +:+ Quote program +:+ " " +:+ s)
      (Word "-I" :: Word program :: ts) Hb).
    apply (shell_words_lit "-I " "-I" [Word "-I"]); [done|done|].
    by apply shell_words_Quote_blank.
Qed.

(** Commands that each start only when the one before succeeded. *)
Definition chain (cs : list (list tok)) : list (list (list tok)) := (fun c => [c]) <$> cs.

Lemma program_simple program : forallb simple_tok (program_argv program) = true.
Proof. unfold program_argv. by case_decide. Qed.

Lemma archive_words c program line :
  compressProgram (Cmd.Compression c) (Cmd.Level c) = Ok program -> Cmd.Build c = Ok line ->
  shell_words line = Some (line_tokens [chain (archive_commands c program)]).
Proof.
  intros Hp H. unfold Cmd.Build in H. rewrite Hp in H.
  apply bind_Ok in H as (_ & _ & H). cbn [mbind result_bind] in H.
  apply bind_Ok in H as (start & Hs & H). apply Ok_inj in H as <-.
  unfold archive_commands, prepare_argvs.
  destruct (decide (Cmd.Direction c = DirectionBackup)) as [Hd|Hd];
    [|destruct (decide (Cmd.Direction c = DirectionRestore)) as [Hd'|]; [|done]];
    apply Ok_inj in Hs as <-.
  - transitivity (shell_words ("mkdir -p " +:+ Quote (Dir (Cmd.ArchivePath c)) +:+ " && "
      +:+ "tar -c --numeric-owner --xattrs --sparse --exclude=./lost+found"
      +:+ programFlag program +:+ " " +:+ "-f " +:+ Quote (Cmd.ArchivePath c)
      +:+ " -C " +:+ Quote (Cmd.DataPath c) +:+ " .")).
    { f_equal. rewrite (bool_decide_eq_true_2 (Cmd.Direction c = DirectionBackup)) by done.
      rewrite !app_assoc_str. unfold programFlag.
      rewrite andb_true_r. destruct (decide (program = "")) as [Hn|Hn];
      [rewrite bool_decide_eq_false_2 by tauto|rewrite bool_decide_eq_true_2 by done]; reflexivity. }
    generalize (Dir (Cmd.ArchivePath c)) as dir, (Cmd.ArchivePath c) as file,
      (Cmd.DataPath c) as data. intros dir file data.
    apply (shell_words_lit _ "mkdir -p" [Word "mkdir"; Word "-p"]); [done..|].
    apply (shell_words_Quote_lit _ _ "&& "); [done|].
    apply (shell_words_lit _ "&&" [Op "&&"]); [done..|].
    apply tar_words; [done|]. shell_line.
  - rewrite (bool_decide_eq_false_2 (Cmd.Direction c = DirectionBackup)) by done.
    rewrite andb_false_r.
    rewrite app_nil_l_str, app_nil_r_str, !app_assoc_str.
    assert (shell_words ("tar -x --numeric-owner --xattrs " +:+ lostFoundExclude
      +:+ " -f " +:+ Quote (Cmd.ArchivePath c) +:+ " -C " +:+ Quote (Cmd.DataPath c))
      = Some (tar_extract_argv "" (Cmd.ArchivePath c) (Cmd.DataPath c))) as Ht.
    { unfold lostFoundExclude. shell_line. }
    rewrite (prepare_words _ _ _ _ Ht). f_equal. destruct (Cmd.Clean c); [|done].
    cbn [app chain fmap list_fmap line_tokens join_op]. by rewrite <- (assoc_L (++)).
Qed.

Lemma archive_well_formed c program : well_formed [chain (archive_commands c program)] = true.
Proof.
  unfold archive_commands, prepare_argvs, chain, well_formed. pose proof (program_simple program).
  case_decide; [|by destruct (Cmd.Clean c)].
  cbn. rewrite forallb_app. unfold program_argv. by case_decide.
Qed.

(** The command of an archive Job, run.  A backup makes the archive's
    directory and then runs tar; a restore makes the target directory, empties
    it when asked, and then runs tar.  Whatever the exit codes, the commands are
    started in that order up to the first that fails, so tar never runs after a
    failed preparation, and the line succeeds exactly when all of them do. *)
Theorem archive_Build_runs c line status :
  Cmd.Build c = Ok line ->
  exists program sh,
    compressProgram (Cmd.Compression c) (Cmd.Level c) = Ok program /\
    run status line = Some sh /\
    ran sh = started status (chain (archive_commands c program)) /\
    (rc sh = 0%Z <-> Forall (fun a => status a = 0%Z) (archive_commands c program)).
Proof.
  intros H. assert (exists program, compressProgram (Cmd.Compression c) (Cmd.Level c) = Ok program)
    as [program Hp]. { unfold Cmd.Build in H. go_inv. eauto. }
  exists program. eexists. split; [done|]. split.
  { apply run_line; [by apply archive_words|apply archive_well_formed]. }
  cbn [fold_left].
  destruct (run_and_chain status false [] 0 (chain (archive_commands c program)))
    as (Hran & Hrc & _).
  - unfold archive_commands, prepare_argvs. case_decide; [by repeat constructor|].
    destruct (Cmd.Clean c); by repeat constructor.
  - right. by apply Forall_fmap, Forall_true.
  - by left.
  - split; [done|]. unfold fresh_shell. rewrite Hrc. unfold all_succeed, chain, succeeds.
    rewrite Forall_fmap. apply Forall_iff. intros a. cbn. by rewrite Forall_singleton.
Qed.

Lemma archive_Build_runs_witness :
  let c := Cmd.mk "restore" "/archive/a b.tar.gz" "/data/x" "gzip" 0 true in
  let status := fun a => if decide (a = clean_argv "/data/x") then 1%Z else 0%Z in
  exists line, Cmd.Build c = Ok line /\
  exists program sh,
    compressProgram (Cmd.Compression c) (Cmd.Level c) = Ok program /\
    run status line = Some sh /\
    ran sh = started status (chain (archive_commands c program)) /\
    (rc sh = 0%Z <-> Forall (fun a => status a = 0%Z) (archive_commands c program)).
Proof.
  intros c status. eexists. split; [vm_compute; reflexivity|].
  apply (archive_Build_runs c). vm_compute. reflexivity.
Defined.

(** ** transfer.go: a volume streamed into another *)

Definition TransportLevel : Z := 1.

Definition sshOptions : list string :=
  ["-o"; "StrictHostKeyChecking=no"; "-o"; "UserKnownHostsFile=/dev/null";
   "-o"; "ConnectTimeout=5"; "-o"; "ServerAliveInterval=10"; "-o"; "ServerAliveCountMax=3"].

Definition TotalMarker : string := "pv-migrate-bytes-total:".

Definition tarSource (srcPath : string) : string * string :=
  if HasSuffix srcPath "/" then (srcPath, ".") else (Dir srcPath, Base srcPath).

Definition preparePath (path : string) (clean : bool) : string :=
  "mkdir -p " +:+ Quote path +:+ " && " +:+ (if clean then cleanCmd path +:+ " && " else "").

(** A double quote and a backslash before [n], which a Rocq string cannot spell. *)
Definition dq : string := String dquote "".
Definition backslash_n : string := String (ascii_of_nat 92) "n".

Definition tarCreate (program srcPath : string) : string :=
  let dm := tarSource srcPath in
  "printf '" +:+ TotalMarker +:+ " %s" +:+ backslash_n +:+ "' " +:+ dq +:+ "$(df -B1 "
  +:+ Quote srcPath +:+ " | awk 'NR==2{print $3}')" +:+ dq +:+ " >&2; "
  +:+ "tar -c --numeric-owner --xattrs --sparse " +:+ lostFoundExclude
  +:+ programFlag program
  +:+ " -f - -C " +:+ Quote dm.1 +:+ " " +:+ Quote dm.2.

Definition tarExtract (decompressor path : string) : string :=
  "tar -x --numeric-owner --xattrs " +:+ lostFoundExclude
  +:+ programFlag decompressor +:+ " -f - -C " +:+ Quote path.

Module TransferCmd.
Record t : Type := mk {
  Push : bool;
  SSHUser : string;
  SSHHost : string;
  Port : Z;
  SrcPath : string;
  DestPath : string;
  Compression : string;
  Level : Z;
  Clean : bool;
  Local : bool
}.

Definition sshPrefix (c : t) : string :=
  Join (["ssh"] ++ sshOptions ++ (if decide (Port c = 0)%Z then [] else ["-p"; Itoa (Port c)])) " "
  +:+ " " +:+ Quote (SSHUser c +:+ "@" +:+ SSHHost c).

Definition check (c : t) : result () :=
  for_each checkField
    ([("--source-path", SrcPath c); ("--dest-path", DestPath c)]
     ++ if Local c then [] else [("ssh user", SSHUser c); ("ssh host", SSHHost c)]).

(** The compression the transfer uses. *)
Definition compression (c : t) : string :=
  if Local c then CompressionNone
  else if decide (Compression c = "") then CompressionZstd else Compression c.

Definition level (c : t) : Z :=
  if decide (compression c = CompressionNone) then 0
  else if decide (Level c = 0)%Z then TransportLevel else Level c.

Definition compressor (c : t) : result string :=
  program ← compressProgram (compression c) (level c);
  Ok (if decide (compression c = CompressionZstd) then program +:+ " --progress" else program).

Definition Build (c : t) : result string :=
  _ ← check c;
  program ← compressor c;
  let create := tarCreate program (SrcPath c) in
  let prepare := preparePath (DestPath c) (Clean c) in
  let extract := tarExtract (decompressProgram (compression c)) (DestPath c) in
  Ok (if Local c then "set -o pipefail; " +:+ prepare +:+ create +:+ " | " +:+ extract
      else if Push c then
        "set -o pipefail; " +:+ create +:+ " | " +:+ sshPrefix c +:+ " " +:+ Quote (prepare +:+ extract)
      else
        "set -o pipefail; " +:+ prepare +:+ sshPrefix c +:+ " " +:+ Quote create
        +:+ " | " +:+ extract).
End TransferCmd.

(** ** Specification: the commands of a transfer *)

(** The line announcing how much there is to read. *)
Definition announce_argv (src : string) : list tok :=
  [Word "printf"; Word (TotalMarker +:+ " %s" +:+ backslash_n);
   Subst ("df -B1 " +:+ Quote src +:+ " | awk 'NR==2{print $3}'"); Op ">&2"].

Definition ssh_argv (c : TransferCmd.t) (remote : string) : list tok :=
  (Word <$> "ssh" :: sshOptions)
  ++ (if decide (TransferCmd.Port c = 0)%Z then []
      else [Word "-p"; Word (Itoa (TransferCmd.Port c))])
  ++ [Word (TransferCmd.SSHUser c +:+ "@" +:+ TransferCmd.SSHHost c); Word remote].

Definition reader_argv (c : TransferCmd.t) (program : string) : list tok :=
  let dm := tarSource (TransferCmd.SrcPath c) in
  tar_create_argv program "-" dm.1 dm.2.

Definition writer_argv (c : TransferCmd.t) : list tok :=
  tar_extract_argv (decompressProgram (TransferCmd.compression c)) "-" (TransferCmd.DestPath c).

Definition reader_line (c : TransferCmd.t) (program : string) : list (list (list (list tok))) :=
  [[[announce_argv (TransferCmd.SrcPath c)]]; [[reader_argv c program]]].

Definition preparation (c : TransferCmd.t) : list (list (list tok)) :=
  chain (prepare_argvs (TransferCmd.DestPath c) (TransferCmd.Clean c)).

Definition writer_line (c : TransferCmd.t) : list (list (list (list tok))) :=
  [preparation c ++ [[writer_argv c]]].

(** What the line of each form is made of; [remote] is the text ssh runs. *)
Definition transfer_line (c : TransferCmd.t) (program remote : string)
  : list (list (list (list tok))) :=
  [set_pipefail] ::
  (if TransferCmd.Local c then
     [preparation c ++ [[announce_argv (TransferCmd.SrcPath c)]];
      [[reader_argv c program; writer_argv c]]]
   else if TransferCmd.Push c then
     [[[announce_argv (TransferCmd.SrcPath c)]]; [[reader_argv c program; ssh_argv c remote]]]
   else [preparation c ++ [[ssh_argv c remote; writer_argv c]]]).

(** ** Lemmas on transfers *)

Lemma reader_words c program :
  shell_words (tarCreate program (TransferCmd.SrcPath c)) = Some (line_tokens (reader_line c program)).
Proof.
  unfold tarCreate, reader_line, reader_argv. destruct (tarSource _) as [dir member]. cbn [fst snd].
  apply (shell_words_lit ("printf '" +:+ TotalMarker +:+ " %s" +:+ backslash_n +:+ "' ")
    ("printf '" +:+ TotalMarker +:+ " %s" +:+ backslash_n +:+ "'")
    [Word "printf"; Word (TotalMarker +:+ " %s" +:+ backslash_n)]
    (dq +:+ "$(df -B1 " +:+ Quote (TransferCmd.SrcPath c) +:+ " | awk 'NR==2{print $3}')" +:+ dq +:+ " >&2; "
     +:+ ("tar -c --numeric-owner --xattrs --sparse " +:+ lostFoundExclude +:+ programFlag program
     +:+ " -f - -C " +:+ Quote dir +:+ " " +:+ Quote member))
    (Subst ("df -B1 " +:+ Quote (TransferCmd.SrcPath c) +:+ " | awk 'NR==2{print $3}'")
     :: [Op ">&2"; Op ";"] ++ tar_create_argv program "-" dir member)); [done..|].
  apply (shell_words_Subst "df -B1 " _ " | awk 'NR==2{print $3}'"); [done..|].
  apply (shell_words_lit " >&2; " " >&2;" [Op ">&2"; Op ";"]); [done..|].
  apply (tar_words _ "tar -c --numeric-owner --xattrs --sparse --exclude=./lost+found" program
    ("-f - -C " +:+ Quote dir +:+ " " +:+ Quote member)); [done|].
  shell_line.
Qed.

Lemma writer_words c :
  shell_words (tarExtract (decompressProgram (TransferCmd.compression c)) (TransferCmd.DestPath c))
  = Some (writer_argv c).
Proof.
  unfold tarExtract, writer_argv.
  apply (tar_words _ "tar -x --numeric-owner --xattrs --exclude=./lost+found" _
    ("-f - -C " +:+ Quote (TransferCmd.DestPath c))); [done|].
  shell_line.
Qed.

Lemma ssh_words c remote :
  shell_words (TransferCmd.sshPrefix c +:+ " " +:+ Quote remote) = Some (ssh_argv c remote).
Proof.
  unfold TransferCmd.sshPrefix, ssh_argv. rewrite app_assoc_str.
  set (opts := (["ssh"] ++ sshOptions ++ _)).
  assert (exists tss, Forall2 (fun s ts => shell_words s = Some ts) opts tss /\
    concat tss = (Word <$> "ssh" :: sshOptions)
      ++ (if decide (TransferCmd.Port c = 0)%Z then []
          else [Word "-p"; Word (Itoa (TransferCmd.Port c))])) as (tss & Hf & Hc).
  { unfold opts. exists (((fun w => [Word w]) <$> "ssh" :: sshOptions)
      ++ (if decide (TransferCmd.Port c = 0)%Z then []
          else [[Word "-p"]; [Word (Itoa (TransferCmd.Port c))]])).
    split.
    - rewrite (assoc_L (++)). apply Forall2_app; [repeat (constructor; [reflexivity|]); constructor|].
      case_decide; [constructor|]. constructor; [done|]. constructor; [apply shell_words_Itoa|constructor].
    - rewrite concat_app. f_equal. by case_decide. }
  apply shell_words_Join in Hf. rewrite Hc in Hf. clearbody opts.
  rewrite (assoc_L (++)). apply (shell_words_blank (Join opts " ")); [done|].
  apply shell_words_Quote_blank, shell_words_Quote.
Qed.

Lemma prepare_path_words d clean s ts :
  shell_words s = Some ts ->
  shell_words (preparePath d clean +:+ s)
  = Some (concat ((fun a => a ++ [Op "&&"]) <$> prepare_argvs d clean) ++ ts).
Proof.
  intros Hs. unfold preparePath. rewrite !app_assoc_str, (prepare_words d clean s ts Hs).
  destruct clean; cbn -[clean_argv]; [|done]. by rewrite app_nil_r, <- (assoc_L (++)).
Qed.

Lemma pipe_words l s t ts :
  shell_words l = Some t -> shell_words s = Some ts ->
  shell_words (l +:+ " | " +:+ s) = Some (t ++ Op "|" :: ts).
Proof.
  intros Hl Hs. apply (shell_words_blank l t ("| " +:+ s)); [done|].
  by apply (shell_words_lit "| " "|" [Op "|"]).
Qed.

(** The text ssh runs on the other side, and what it is made of. *)
Definition remote_text (c : TransferCmd.t) (program : string) : string :=
  if TransferCmd.Push c
  then preparePath (TransferCmd.DestPath c) (TransferCmd.Clean c)
       +:+ tarExtract (decompressProgram (TransferCmd.compression c)) (TransferCmd.DestPath c)
  else tarCreate program (TransferCmd.SrcPath c).

Definition remote_line (c : TransferCmd.t) (program : string) : list (list (list (list tok))) :=
  if TransferCmd.Push c then writer_line c else reader_line c program.

Lemma remote_words c program :
  shell_words (remote_text c program) = Some (line_tokens (remote_line c program)).
Proof.
  unfold remote_text, remote_line. destruct (TransferCmd.Push c); [|apply reader_words].
  rewrite (prepare_path_words _ _ _ _ (writer_words c)). f_equal.
  unfold writer_line, preparation, prepare_argvs. by destruct (TransferCmd.Clean c).
Qed.

Lemma transfer_words c line :
  TransferCmd.Build c = Ok line ->
  exists program, TransferCmd.compressor c = Ok program /\
  shell_words line = Some (line_tokens (transfer_line c program (remote_text c program))).
Proof.
  unfold TransferCmd.Build. intros H. apply bind_Ok in H as (_ & _ & H).
  apply bind_Ok in H as (program & Hp & H). apply Ok_inj in H as <-.
  exists program. split; [done|]. unfold transfer_line, remote_text.
  pose proof (reader_words c program) as Hr. pose proof (writer_words c) as Hw.
  destruct (TransferCmd.Local c); [|destruct (TransferCmd.Push c)].
  - pose proof (prepare_path_words (TransferCmd.DestPath c) (TransferCmd.Clean c) _ _
      (pipe_words _ _ _ _ Hr Hw)) as Hb. revert Hb.
    match goal with |- shell_words ?l = _ -> _ => generalize l end. intros l Hb.
    etransitivity; [line_words|]. f_equal. unfold preparation, prepare_argvs.
    destruct (TransferCmd.Clean c); cbn -[clean_argv reader_argv writer_argv announce_argv];
      by rewrite <- ?(assoc_L (++)).
  - pose proof (pipe_words _ _ _ _ Hr (ssh_words c (preparePath (TransferCmd.DestPath c) (TransferCmd.Clean c)
       +:+ tarExtract (decompressProgram (TransferCmd.compression c)) (TransferCmd.DestPath c)))) as Hb.
    revert Hb. match goal with |- shell_words ?l = _ -> _ => generalize l end. intros l Hb.
    shell_line.
  - pose proof (prepare_path_words (TransferCmd.DestPath c) (TransferCmd.Clean c) _ _
      (pipe_words _ _ _ _ (ssh_words c (tarCreate program (TransferCmd.SrcPath c))) Hw)) as Hb.
    revert Hb. rewrite (app_assoc_str (TransferCmd.sshPrefix c)), (app_assoc_str " ").
    match goal with |- shell_words ?l = _ -> _ => generalize l end. intros l Hb.
    etransitivity; [line_words|]. f_equal. unfold preparation, prepare_argvs.
    destruct (TransferCmd.Clean c); cbn -[clean_argv ssh_argv reader_argv writer_argv announce_argv];
      by rewrite <- ?(assoc_L (++)).
Qed.

Ltac destruct_program :=
  unfold program_argv; repeat case_decide; reflexivity.

Lemma transfer_well_formed c program remote :
  well_formed (transfer_line c program remote) = true.
Proof.
  unfold transfer_line, preparation, prepare_argvs, reader_argv, writer_argv, ssh_argv.
  destruct (tarSource _) as [dir member]. unfold tar_create_argv, tar_extract_argv, program_argv.
  destruct (TransferCmd.Local c), (TransferCmd.Push c), (TransferCmd.Clean c);
    repeat case_decide; reflexivity.
Qed.

Lemma transfer_no_setting c program remote :
  Forall (Forall (fun p => p <> set_pipefail)) (tail (transfer_line c program remote)).
Proof.
  unfold transfer_line, preparation, prepare_argvs, set_pipefail. cbn [tail].
  destruct (TransferCmd.Local c), (TransferCmd.Push c), (TransferCmd.Clean c);
    by repeat constructor.
Qed.

Lemma transfer_run c line status :
  TransferCmd.Build c = Ok line ->
  exists program sh ls l,
    TransferCmd.compressor c = Ok program /\
    transfer_line c program (remote_text c program) = [set_pipefail] :: ls ++ [l] /\
    run status line = Some sh /\
    ran sh = concat (started status <$> ls ++ [l]) /\ (rc sh = 0%Z <-> all_succeed status l).
Proof.
  intros (program & Hp & Hw)%transfer_words.
  assert (exists ls l, transfer_line c program (remote_text c program) = [set_pipefail] :: ls ++ [l]
    /\ Forall (fun ps => ps <> []) (ls ++ [l])) as (ls & l & Hl & Hne).
  { unfold transfer_line, preparation, prepare_argvs.
    destruct (TransferCmd.Local c), (TransferCmd.Push c).
    1,2: eexists [_], _; split; [reflexivity|by repeat constructor].
    - eexists [_], _; split; [reflexivity|by repeat constructor].
    - eexists [], _; split; [reflexivity|by repeat constructor]. }
  pose proof (transfer_no_setting c program (remote_text c program)) as Hns.
  eexists program, _, ls, l. split; [done|]. split; [done|].
  split; [by apply run_line; [exact Hw|apply transfer_well_formed]|].
  rewrite Hl in *. cbn [tail] in Hns. cbn [fold_left]. by apply run_pipefail_lines.
Qed.

(** What a transfer between two pods runs, and when it counts as done.  The
    pull form prepares the destination, then pipes the remote reader into the
    local tar, and starts the pipe only if the preparation succeeded; the push
    form pipes the local reader into ssh, whose command prepares the destination
    and then extracts.  Either way the line succeeds exactly when every command
    of the deciding chain did, a reader that died half way included. *)
Theorem transfer_ssh_runs c line status :
  TransferCmd.Build c = Ok line -> TransferCmd.Local c = false ->
  exists program sh,
    TransferCmd.compressor c = Ok program /\ run status line = Some sh /\
    shell_words (remote_text c program) = Some (line_tokens (remote_line c program)) /\
    let ssh := ssh_argv c (remote_text c program) in
    if TransferCmd.Push c then
      ran sh = [[announce_argv (TransferCmd.SrcPath c)]; [reader_argv c program; ssh]] /\
      (rc sh = 0%Z <-> status (reader_argv c program) = 0%Z /\ status ssh = 0%Z)
    else
      ran sh = started status (preparation c ++ [[ssh; writer_argv c]]) /\
      (rc sh = 0%Z <-> all_succeed status (preparation c) /\
                       status ssh = 0%Z /\ status (writer_argv c) = 0%Z).
Proof.
  intros H Hl. destruct (transfer_run c line status H) as (program & sh & ls & l & Hp & Ht & Hr & Hran & Hrc).
  exists program, sh. split; [done|]. split; [done|]. split; [apply remote_words|].
  unfold transfer_line in Ht. rewrite Hl in Ht. destruct (TransferCmd.Push c); cbn zeta;
    injection Ht as Ht.
  - apply (app_inj_tail [_] ls) in Ht as [<- <-]. rewrite Hran. split.
    + cbn [app fmap list_fmap concat]. by rewrite !started_single.
    + by rewrite Hrc, all_succeed_single_pair.
  - apply (app_inj_tail [] ls) in Ht as [<- <-]. rewrite Hran. split.
    + cbn [app fmap list_fmap concat]. by rewrite app_nil_r.
    + rewrite Hrc. apply (all_succeed_pair status (preparation c)).
Qed.

Lemma transfer_ssh_runs_witness :
  let c := TransferCmd.mk false "root" "src.example" 2222 "/source/a b" "/dest/" "zstd" 0 true false in
  let status := fun a => if decide (a = clean_argv "/dest/") then 1%Z else 0%Z in
  exists line, TransferCmd.Build c = Ok line /\ TransferCmd.Local c = false /\
  exists program sh,
    TransferCmd.compressor c = Ok program /\ run status line = Some sh /\
    shell_words (remote_text c program) = Some (line_tokens (remote_line c program)) /\
    let ssh := ssh_argv c (remote_text c program) in
    if TransferCmd.Push c then
      ran sh = [[announce_argv (TransferCmd.SrcPath c)]; [reader_argv c program; ssh]] /\
      (rc sh = 0%Z <-> status (reader_argv c program) = 0%Z /\ status ssh = 0%Z)
    else
      ran sh = started status (preparation c ++ [[ssh; writer_argv c]]) /\
      (rc sh = 0%Z <-> all_succeed status (preparation c) /\
                       status ssh = 0%Z /\ status (writer_argv c) = 0%Z).
Proof.
  intros c status. eexists. split; [vm_compute; reflexivity|]. split; [reflexivity|].
  apply (transfer_ssh_runs c); vm_compute; reflexivity.
Defined.

(** C29: the one-pod transfer (both volumes in one Job) as it is written.  The
    preparation of the destination guards only the announcement after it: the
    copy is started whatever the preparation did, and its two ends alone decide
    the exit status.  In particular a clean that failed half way is followed by
    an extract, and the line then reports success. *)
Theorem transfer_local_runs c line status :
  TransferCmd.Build c = Ok line -> TransferCmd.Local c = true ->
  exists program sh,
    TransferCmd.compressor c = Ok program /\ run status line = Some sh /\
    ran sh = started status (preparation c ++ [[announce_argv (TransferCmd.SrcPath c)]])
             ++ [[reader_argv c program; writer_argv c]] /\
    (rc sh = 0%Z <-> status (reader_argv c program) = 0%Z /\ status (writer_argv c) = 0%Z).
Proof.
  intros H Hl. destruct (transfer_run c line status H) as (program & sh & ls & l & Hp & Ht & Hr & Hran & Hrc).
  exists program, sh. split; [done|]. split; [done|].
  unfold transfer_line in Ht. rewrite Hl in Ht. injection Ht as Ht.
  apply (app_inj_tail [_] ls) in Ht as [<- <-]. rewrite Hran. split.
  - cbn [app fmap list_fmap concat]. by rewrite started_single.
  - by rewrite Hrc, all_succeed_single_pair.
Qed.

Lemma transfer_local_runs_witness :
  let c := TransferCmd.mk false "" "" 0 "/source/" "/dest/" "" 0 true true in
  let status := fun a => if decide (a = clean_argv "/dest/") then 1%Z else 0%Z in
  exists line, TransferCmd.Build c = Ok line /\ TransferCmd.Local c = true /\
  exists program sh,
    TransferCmd.compressor c = Ok program /\ run status line = Some sh /\
    ran sh = started status (preparation c ++ [[announce_argv (TransferCmd.SrcPath c)]])
             ++ [[reader_argv c program; writer_argv c]] /\
    (rc sh = 0%Z <-> status (reader_argv c program) = 0%Z /\ status (writer_argv c) = 0%Z).
Proof.
  intros c status. eexists. split; [vm_compute; reflexivity|]. split; [reflexivity|].
  apply (transfer_local_runs c); vm_compute; reflexivity.
Defined.
