(* ===== verification/Stream.v ===== *)
(** * internal/archive: an archive streamed to or from an object store

    [StreamCmd] of internal/archive/cmd.go.  The restore line is read back with
    the shell's rules and run like the other tar lines.  The backup line starts
    with a script that sizes the upload's parts; its arithmetic is a small
    expression language, printed into the line and evaluated on 64-bit words as
    the shell does. *)
From S2P Require Import Prelude GoStrings Utf8 Posix Shell ShellLine Paths Archive.
From stdpp Require Import options.

Definition rcloneProgressFlags : string :=
  "--stats 1s --stats-log-level NOTICE --use-json-log --stats-one-line".

Definition streamPartBudget : Z := 9000.
Definition streamHeadroomNum : Z := 5.
Definition streamHeadroomDen : Z := 4.
Definition streamMinChunkMiB : Z := 5.

(** A literal in double quotes. *)
Definition dquoted (s : string) : string := dq +:+ s +:+ dq.

(** The script that sets [$chunk] to the size of a part in MiB. *)
Definition chunkSizing (dataPath : string) : string :=
  "used=$(df -B1 " +:+ Quote dataPath +:+ " | awk 'NR==2{print $3}'); "
  +:+ "chunk=$(( (used * " +:+ Itoa streamHeadroomNum +:+ " / " +:+ Itoa streamHeadroomDen +:+ " / "
  +:+ Itoa streamPartBudget +:+ " / 1048576) + 1 )); "
  +:+ "[ " +:+ dquoted "$chunk" +:+ " -lt " +:+ Itoa streamMinChunkMiB +:+ " ] && chunk="
  +:+ Itoa streamMinChunkMiB +:+ "; ".

Module StreamCmd.
Record t : Type := mk {
  Direction : string;
  RemotePath : string;
  DataPath : string;
  ConfigPath : string;
  Compression : string;
  Level : Z;
  ExtraArgs : string;
  Clean : bool
}.

Definition extraArgs (c : t) : string := if decide (ExtraArgs c = "") then "" else " " +:+ ExtraArgs c.

Definition buildBackup (c : t) (program rclone : string) : string :=
  "set -o pipefail; " +:+ chunkSizing (DataPath c)
  +:+ "tar -c --numeric-owner --xattrs --sparse " +:+ lostFoundExclude
  +:+ programFlag program
  +:+ " -f - -C " +:+ Quote (DataPath c) +:+ " . | " +:+ rclone +:+ " rcat " +:+ Quote (RemotePath c)
  +:+ " --s3-chunk-size " +:+ dquoted "${chunk}M" +:+ extraArgs c.

Definition buildRestore (c : t) (rclone : string) : string :=
  "set -o pipefail; mkdir -p " +:+ Quote (DataPath c) +:+ " && "
  +:+ (if Clean c then cleanCmd (DataPath c) +:+ " && " else "")
  +:+ rclone +:+ " cat " +:+ Quote (RemotePath c) +:+ extraArgs c
  +:+ " | tar -x --numeric-owner --xattrs " +:+ lostFoundExclude
  +:+ programFlag (decompressProgram (Compression c)) +:+ " -f - -C " +:+ Quote (DataPath c).

Definition Build (c : t) : result string :=
  _ ← for_each checkField [("--archive-file", RemotePath c); ("--path", DataPath c);
                           ("rclone config path", ConfigPath c)];
  program ← compressProgram (Compression c) (Level c);
  let rclone := "rclone --config " +:+ Quote (ConfigPath c) +:+ " " +:+ rcloneProgressFlags in
  if decide (Direction c = DirectionBackup) then Ok (buildBackup c program rclone)
  else if decide (Direction c = DirectionRestore) then Ok (buildRestore c rclone)
  else Err (invalidDirection (Direction c)).
End StreamCmd.

(** ** Specification: the restore line *)

Definition cat_argv (c : StreamCmd.t) (extra : list tok) : list tok :=
  (Word <$> ["rclone"; "--config"; StreamCmd.ConfigPath c; "--stats"; "1s"; "--stats-log-level"; "NOTICE";
             "--use-json-log"; "--stats-one-line"; "cat"; StreamCmd.RemotePath c]) ++ extra.

Definition unpack_argv (c : StreamCmd.t) : list tok :=
  tar_extract_argv (decompressProgram (StreamCmd.Compression c)) "-" (StreamCmd.DataPath c).

(** What each step of the restore runs, in order. *)
Definition restore_chain (c : StreamCmd.t) (extra : list tok) : list (list (list tok)) :=
  chain (prepare_argvs (StreamCmd.DataPath c) (StreamCmd.Clean c)) ++ [[cat_argv c extra; unpack_argv c]].

(** ** Specification: the sizing script *)

Inductive arith : Type :=
  | Var
  | Num (z : Z)
  | Mul (a b : arith)
  | Div (a b : arith)
  | Add (a b : arith)
  | Paren (a : arith).

Fixpoint show (e : arith) : string :=
  match e with
  | Var => "used"
  | Num z => Itoa z
  | Mul a b => show a +:+ " * " +:+ show b
  | Div a b => show a +:+ " / " +:+ show b
  | Add a b => show a +:+ " + " +:+ show b
  | Paren a => "(" +:+ show a +:+ ")"
  end.

(** The shell's integers: 64 bits, two's complement, division towards zero. *)
Definition wrap64 (z : Z) : Z := ((z + 2 ^ 63) mod 2 ^ 64 - 2 ^ 63)%Z.

Fixpoint eval (used : Z) (e : arith) : Z :=
  match e with
  | Var => used
  | Num z => z
  | Mul a b => wrap64 (eval used a * eval used b)
  | Div a b => wrap64 (Z.quot (eval used a) (eval used b))
  | Add a b => wrap64 (eval used a + eval used b)
  | Paren a => eval used a
  end.

Definition chunk_expr : arith :=
  Add (Paren (Div (Div (Div (Mul Var (Num streamHeadroomNum)) (Num streamHeadroomDen))
                     (Num streamPartBudget)) (Num 1048576))) (Num 1).

(** The value of [$chunk]: [used] is what [df] reported, if it did; an empty
    variable is 0 in arithmetic. *)
Definition chunk (used : option Z) : Z :=
  let computed := eval (default 0%Z used) chunk_expr in
  if decide (computed < streamMinChunkMiB)%Z then streamMinChunkMiB else computed.

Definition MiB : Z := 1048576.

(** The most parts an S3 upload may have. *)
Definition max_parts : Z := 10000.

(** The upload, with the part size as it stands between the double quotes. *)
Definition upload (c : StreamCmd.t) (program size : string) : string :=
  "tar -c --numeric-owner --xattrs --sparse " +:+ lostFoundExclude
  +:+ programFlag program
  +:+ " -f - -C " +:+ Quote (StreamCmd.DataPath c) +:+ " . | rclone --config "
  +:+ Quote (StreamCmd.ConfigPath c) +:+ " " +:+ rcloneProgressFlags +:+ " rcat "
  +:+ Quote (StreamCmd.RemotePath c) +:+ " --s3-chunk-size " +:+ dquoted (size +:+ "M")
  +:+ StreamCmd.extraArgs c.

Definition rcat_argv (c : StreamCmd.t) (size : string) (extra : list tok) : list tok :=
  (Word <$> ["rclone"; "--config"; StreamCmd.ConfigPath c; "--stats"; "1s"; "--stats-log-level"; "NOTICE";
             "--use-json-log"; "--stats-one-line"; "rcat"; StreamCmd.RemotePath c; "--s3-chunk-size";
             size +:+ "M"]) ++ extra.

(** ** Lemmas *)

Lemma wrap64_id z : (- 2 ^ 63 <= z < 2 ^ 63)%Z -> wrap64 z = z.
Proof. intros H. unfold wrap64. rewrite Z.mod_small; lia. Qed.

Lemma chunk_expr_eval u :
  (0 <= u)%Z -> (5 * u < 2 ^ 63)%Z -> eval u chunk_expr = (u * 5 / 4 / 9000 / MiB + 1)%Z.
Proof.
  intros H0 Hb. unfold chunk_expr, streamHeadroomNum, streamHeadroomDen, streamPartBudget, MiB. cbn [eval].
  assert (0 <= u * 5)%Z as H1 by lia.
  assert (0 <= u * 5 / 4 <= u * 5)%Z as H2 by (split; [apply Z.div_pos; lia|apply Z.div_le_upper_bound; lia]).
  assert (0 <= u * 5 / 4 / 9000 <= u * 5 / 4)%Z as H3
    by (split; [apply Z.div_pos; lia|apply Z.div_le_upper_bound; lia]).
  assert (0 <= u * 5 / 4 / 9000 / 1048576 <= u * 5 / 4 / 9000 / 2)%Z as H4
    by (split; [apply Z.div_pos; lia|apply Z.div_le_compat_l; lia]).
  assert (u * 5 / 4 / 9000 / 2 <= u)%Z as H5.
  { apply Z.div_le_upper_bound; [lia|]. apply Z.div_le_upper_bound; [lia|].
    apply Z.div_le_upper_bound; lia. }
  rewrite (wrap64_id (u * 5)) by lia. rewrite (Z.quot_div_nonneg (u * 5)), (wrap64_id (u * 5 / 4)) by lia.
  rewrite (Z.quot_div_nonneg (u * 5 / 4)), (wrap64_id (u * 5 / 4 / 9000)) by lia.
  rewrite (Z.quot_div_nonneg (u * 5 / 4 / 9000)), (wrap64_id (u * 5 / 4 / 9000 / 1048576)) by lia.
  rewrite wrap64_id by lia. done.
Qed.

Lemma extra_words c extra s ts :
  shell_words (StreamCmd.ExtraArgs c) = Some extra -> shell_words s = Some ts ->
  shell_words (s +:+ StreamCmd.extraArgs c) = Some (ts ++ extra).
Proof.
  intros He Hs. unfold StreamCmd.extraArgs. case_decide as E.
  - rewrite E in He. injection He as <-. by rewrite app_nil_r, app_nil_r_str.
  - by apply shell_words_blank.
Qed.

(** The words of [rclone <sub> <remote>] with its flags. *)
Lemma rclone_words config sub remote :
  shell_words sub = Some [Word sub] ->
  shell_words ("rclone --config " +:+ Quote config +:+ " " +:+ rcloneProgressFlags +:+ " " +:+ sub +:+ " " +:+ Quote remote)
  = Some (Word <$> ["rclone"; "--config"; config; "--stats"; "1s"; "--stats-log-level"; "NOTICE";
             "--use-json-log"; "--stats-one-line"; sub; remote]).
Proof.
  intros Hs.
  apply (shell_words_lit "rclone --config " "rclone --config" [Word "rclone"; Word "--config"]); [done..|].
  apply shell_words_Quote_blank.
  apply (shell_words_blank rcloneProgressFlags [_; _; _; _; _; _]); [reflexivity|].
  apply (shell_words_blank sub [_]); [done|apply shell_words_Quote].
Qed.

Lemma lex_double cur w :
  all_bytes plain_byte w = true -> lex Double (Some cur) (w +:+ dq) = Some [Word (cur +:+ w)].
Proof.
  revert cur. induction w as [|a w IH]; intros cur Hw.
  - cbn. by rewrite app_nil_r_str.
  - cbn in Hw. apply andb_true_iff in Hw as [Ha Hw]. rewrite app_cons_str. cbn [lex].
    assert (a <> dquote /\ dquote_special a = false) as [Hd Hs].
    { each_byte a; vm_compute in Ha; try discriminate Ha;
        split; (reflexivity || discriminate). }
    rewrite decide_False, Hs by done. unfold push. cbn [default from_option id].
    rewrite IH by done. by rewrite app_assoc_str.
Qed.

Lemma shell_words_dquoted w : all_bytes plain_byte w = true -> w <> "" -> shell_words (dquoted w) = Some [Word w].
Proof.
  intros Hw Hn. destruct w as [|a w]; [done|].
  transitivity (lex Double (Some "") (String a w +:+ dq)); [|by rewrite lex_double].
  unfold dquoted, shell_words. cbn in Hw. apply andb_true_iff in Hw as [Ha _].
  each_byte a; (vm_compute in Ha; try discriminate Ha); reflexivity.
Qed.

Lemma upload_words c program n extra :
  shell_words (StreamCmd.ExtraArgs c) = Some extra ->
  shell_words (upload c program (Itoa n))
  = Some (line_tokens [[[tar_create_argv program "-" (StreamCmd.DataPath c) "."; rcat_argv c (Itoa n) extra]]]).
Proof.
  intros He. unfold upload.
  assert (shell_words (dquoted (Itoa n +:+ "M") +:+ StreamCmd.extraArgs c)
          = Some (Word (Itoa n +:+ "M") :: extra)) as Hq.
  { apply (extra_words c extra _ [Word (Itoa n +:+ "M")] He). apply shell_words_dquoted.
    - rewrite all_bytes_app. by rewrite (proj1 (Itoa_word n)).
    - by destruct (Itoa n). }
  pose proof (rclone_words (StreamCmd.ConfigPath c) "rcat" (StreamCmd.RemotePath c) eq_refl) as Hr.
  pose proof (shell_words_blank _ _ _ _ Hr (shell_words_lit "--s3-chunk-size " "--s3-chunk-size"
    [Word "--s3-chunk-size"] _ _ eq_refl eq_refl Hq)) as Hw.
  pose proof (tar_words [Word "tar"; Word "-c"; Word "--numeric-owner"; Word "--xattrs"; Word "--sparse";
     Word lostFoundExclude] "tar -c --numeric-owner --xattrs --sparse --exclude=./lost+found" program
     ("-f - -C " +:+ Quote (StreamCmd.DataPath c) +:+ " .")
     [Word "-f"; Word "-"; Word "-C"; Word (StreamCmd.DataPath c); Word "."] eq_refl) as Ht.
  specialize (Ht ltac:(shell_line)).
  pose proof (pipe_words _ _ _ _ Ht Hw) as H. rewrite !app_assoc_str in H. exact H.
Qed.

Lemma restore_words c line extra :
  StreamCmd.Build c = Ok line -> StreamCmd.Direction c = DirectionRestore ->
  shell_words (StreamCmd.ExtraArgs c) = Some extra ->
  shell_words line = Some (line_tokens [[set_pipefail]; restore_chain c extra]).
Proof.
  unfold StreamCmd.Build. intros H Hd He. apply bind_Ok in H as (_ & _ & H).
  apply bind_Ok in H as (program & _ & H). rewrite Hd in H.
  rewrite decide_False, decide_True in H by done. apply Ok_inj in H as <-.
  pose proof (rclone_words (StreamCmd.ConfigPath c) "cat" (StreamCmd.RemotePath c) eq_refl) as Hr.
  apply (extra_words c extra _ _ He) in Hr.
  assert (shell_words ("tar -x --numeric-owner --xattrs " +:+ lostFoundExclude
     +:+ programFlag (decompressProgram (StreamCmd.Compression c)) +:+ " -f - -C " +:+ Quote (StreamCmd.DataPath c))
     = Some (unpack_argv c)) as Ht.
  { apply (tar_words _ "tar -x --numeric-owner --xattrs --exclude=./lost+found" _
      ("-f - -C " +:+ Quote (StreamCmd.DataPath c))); [done|]. shell_line. }
  pose proof (prepare_path_words (StreamCmd.DataPath c) (StreamCmd.Clean c) _ _
    (pipe_words _ _ _ _ Hr Ht)) as Hb.
  unfold StreamCmd.buildRestore, preparePath in *. rewrite !app_assoc_str in *. revert Hb.
  match goal with |- shell_words ?l = _ -> _ => set (tl := l) end. intros Hb.
  change (shell_words ("set -o pipefail; " +:+ tl) = Some (line_tokens [[set_pipefail]; restore_chain c extra])).
  clearbody tl. etransitivity; [line_words|]. f_equal.
  unfold restore_chain, prepare_argvs.
  destruct (StreamCmd.Clean c); cbn -[clean_argv cat_argv unpack_argv]; by rewrite <- ?(assoc_L (++)).
Qed.

Lemma parts_bound n size budget :
  (0 < size)%Z -> (n <= budget * size)%Z -> ((n + size - 1) / size <= budget)%Z.
Proof.
  intros Hs Hn. apply Z.lt_succ_r. apply Z.div_lt_upper_bound; [done|]. nia.
Qed.

Lemma restore_well_formed c extra :
  forallb simple_tok extra = true -> well_formed [[set_pipefail]; restore_chain c extra] = true.
Proof.
  intros Hs. unfold restore_chain, prepare_argvs, unpack_argv, tar_extract_argv.
  assert (forallb simple_tok (cat_argv c extra) = true) as Hc.
  { unfold cat_argv. by rewrite forallb_app, Hs. }
  revert Hc. generalize (cat_argv c extra). intros cat Hc.
  unfold program_argv. destruct (StreamCmd.Clean c), (decide (_ = "")); cbn; by rewrite Hc.
Qed.

(** ** Properties *)

(** A restore streamed from an object store.  The line prepares the volume,
    emptying it first when asked, and pipes rclone's output into tar only when
    every preparation succeeded; the object, the config and the volume reach the
    programs as they were given; and the line succeeds exactly when every command
    did, so a download that died half way is not taken for a success. *)
Theorem stream_restore_runs c line extra status
    (Hb : StreamCmd.Build c = Ok line) (Hd : StreamCmd.Direction c = DirectionRestore)
    (He : shell_words (StreamCmd.ExtraArgs c) = Some extra) (Hs : forallb simple_tok extra = true) :
  exists sh, run status line = Some sh /\
    ran sh = started status (restore_chain c extra) /\
    (rc sh = 0%Z <->
       all_succeed status (chain (prepare_argvs (StreamCmd.DataPath c) (StreamCmd.Clean c))) /\
       status (cat_argv c extra) = 0%Z /\ status (unpack_argv c) = 0%Z).
Proof.
  pose proof (restore_words c line extra Hb Hd He) as Hw. eexists. split.
  { apply run_line; [exact Hw|]. by apply restore_well_formed. }
  cbn [fold_left]. assert (Forall (fun p => p <> set_pipefail) (restore_chain c extra)) as Hn.
  { unfold restore_chain, prepare_argvs. apply Forall_app. split; [|by repeat constructor].
    destruct (StreamCmd.Clean c); by repeat constructor. }
  destruct (run_pipefail_lines status [] (restore_chain c extra) [] 0%Z) as [H1 H2].
  - by apply Forall_singleton.
  - apply Forall_singleton. unfold restore_chain. by destruct (chain _).
  - cbn [app fold_left] in H1, H2. split.
    + etransitivity; [exact H1|]. cbn. by rewrite app_nil_r.
    + etransitivity; [exact H2|]. unfold restore_chain. by rewrite all_succeed_pair.
Qed.

Lemma stream_restore_runs_witness :
  let c := StreamCmd.mk DirectionRestore "remote:b/x y.tar.zst" "/data" "/etc/rclone/rclone.conf" "zstd" 0
             "--transfers 2" true in
  let status := fun a => if decide (a = clean_argv "/data") then 1%Z else 0%Z in
  exists line, StreamCmd.Build c = Ok line /\
  exists sh, run status line = Some sh /\
    ran sh = started status (restore_chain c [Word "--transfers"; Word "2"]) /\
    (rc sh = 0%Z <->
       all_succeed status (chain (prepare_argvs (StreamCmd.DataPath c) (StreamCmd.Clean c))) /\
       status (cat_argv c [Word "--transfers"; Word "2"]) = 0%Z /\ status (unpack_argv c) = 0%Z).
Proof.
  intros c status. eexists. split; [vm_compute; reflexivity|].
  apply (stream_restore_runs c); vm_compute; reflexivity.
Defined.


