(* ===== verification/ArchiveTarget.v ===== *)
(** * internal/archive/target.go: reading --archive-file

    [ParseTarget] and what it calls.  The three forms of the value are an S3
    object, a file on a claim and a bare path; the theorem characterises the
    parser completely: which values give which target, that the forms do not
    overlap, and that every target can be written down. *)
From S2P Require Import Prelude GoStrings Posix Paths Archive.
From stdpp Require Import options.

(** The fields of a [time.Time] the tokens read. *)
Record Time : Type := mkTime {
  Year : Z; Month : Z; Day : Z; Hour : Z; Minute : Z; Second : Z
}.

(** Zero-padded decimal, as [time.Format] renders its numeric fields. *)
Definition pad (width : nat) (z : Z) : string :=
  let s := Itoa (Z.abs z) in
  (if (z <? 0)%Z then "-" else "")
  +:+ Nat.iter (width - String.length s) (String "0") s.

(** [now.Format(layout)] for the layouts of [timeTokens]. *)
Definition Format (now : Time) (layout : string) : string :=
  if decide (layout = "2006") then pad 4 (Year now)
  else if decide (layout = "01") then pad 2 (Month now)
  else if decide (layout = "02") then pad 2 (Day now)
  else if decide (layout = "15") then pad 2 (Hour now)
  else if decide (layout = "04") then pad 2 (Minute now)
  else if decide (layout = "05") then pad 2 (Second now)
  else layout.

Record Target : Type := mkTarget {
  Claim : string;
  Bucket : string;
  Path : string;
  Compression : string
}.

Definition InCluster (t : Target) : bool := bool_decide (Claim t <> "").
Definition InBucket (t : Target) : bool := bool_decide (Bucket t <> "").

Definition s3Scheme : string := "s3://".

Definition suffixes : list (string * string) :=
  [(".tar.zst", CompressionZstd); (".tzst", CompressionZstd);
   (".tar.gz", CompressionGzip); (".tgz", CompressionGzip); (".tar", CompressionNone)].

Definition Extensions : list string := suffixes.*1.

Definition compressionFromPath (path : string) : result string :=
  match List.find (fun s => HasSuffix path s.1) suffixes with
  | Some s => Ok s.2
  | None => Err (Errorf "--archive-file %q must end in one of %s"
                   [AStr path; AStr (Join Extensions ", ")])
  end.

Definition percent : ascii := "%"%char.

Definition timeTokens (b : ascii) : option string :=
  if decide (b = "Y"%char) then Some "2006"
  else if decide (b = "m"%char) then Some "01"
  else if decide (b = "d"%char) then Some "02"
  else if decide (b = "H"%char) then Some "15"
  else if decide (b = "M"%char) then Some "04"
  else if decide (b = "S"%char) then Some "05"
  else None.

Definition knownTokens : string := Join ["%Y"; "%m"; "%d"; "%H"; "%M"; "%S"] ", ".

Fixpoint expandTime (value : string) (now : Time) : result string :=
  match value with
  | EmptyString => Ok EmptyString
  | String a rest =>
      if decide (a <> percent) then String a <$> expandTime rest now
      else match rest with
           | EmptyString =>
               Err (ErrNew "--archive-file ends in a lone %, which names no timestamp token")
           | String b rest =>
               if decide (b = percent) then String percent <$> expandTime rest now
               else match timeTokens b with
                    | None => Err (Errorf "--archive-file has unknown timestamp token %%%c, known ones are %s"
                                     [AInt (byte b); AStr knownTokens])
                    | Some layout => String.append (Format now layout) <$> expandTime rest now
                    end
           end
  end.

Definition splitLocation (value : string) : result Target :=
  match CutPrefix value s3Scheme with
  | Some rest =>
      match Cut rest "/" with
      | Some (bucket, key) =>
          if bool_decide (bucket = "") || bool_decide (key = "") then
            Err (ErrNew "--archive-file with s3:// needs a bucket and an object path, as in s3://bucket/path/file.tar.zst")
          else Ok (mkTarget "" bucket key "")
      | None =>
          Err (ErrNew "--archive-file with s3:// needs a bucket and an object path, as in s3://bucket/path/file.tar.zst")
      end
  | None =>
      match Cut value ":" with
      | Some (claim, path) =>
          if negb (Contains claim "/") then
            if decide (claim = "") then
              Err (ErrNew "--archive-file names an empty claim before the colon")
            else Ok (mkTarget claim "" path "")
          else Ok (mkTarget "" "" value "")
      | None => Ok (mkTarget "" "" value "")
      end
  end.

Definition ParseTarget (value : string) (now : Time) : result Target :=
  _ ← fail_if (bool_decide (value = "")) (ErrNew "--archive-file must not be empty");
  expanded ← expandTime value now;
  target ← splitLocation expanded;
  _ ← fail_if (bool_decide (Path target = "")) (ErrNew "--archive-file names no path");
  compression ← compressionFromPath (Path target);
  Ok (mkTarget (Claim target) (Bucket target) (Path target) compression).

Example ParseTarget_ex :
  ParseTarget "backups:db/%Y-%m-%d.tar.zst" (mkTime 2025 3 7 9 5 0)
  = Ok (mkTarget "backups" "" "db/2025-03-07.tar.zst" "zstd").
Proof. reflexivity. Qed.

(** ** Specification *)

(** A target written as a value without timestamp tokens. *)
Definition render (t : Target) : string :=
  if decide (Bucket t <> "") then s3Scheme +:+ Bucket t +:+ "/" +:+ Path t
  else if decide (Claim t <> "") then Claim t +:+ ":" +:+ Path t
  else Path t.

(** Percent signs doubled. *)
Definition escape (s : string) : string := ReplaceAll s percent "%%".

Definition colon : ascii := ":"%char.

(** The targets a value can name: an object in a bucket, a file on a claim, or
    a path no claim could be read off. *)
Definition well_formed (t : Target) : Prop :=
  Path t <> "" /\
  (exists ext, (ext, Compression t) ∈ suffixes /\ HasSuffix (Path t) ext = true) /\
  ((Bucket t <> "" /\ Claim t = "" /\ free_of slash (Bucket t)) \/
   (Bucket t = "" /\ Claim t <> "" /\ free_of slash (Claim t) /\ free_of colon (Claim t) /\
      HasPrefix (render t) s3Scheme = false) \/
   (Bucket t = "" /\ Claim t = "" /\ HasPrefix (Path t) s3Scheme = false /\
      forall a b, Path t = a +:+ ":" +:+ b -> free_of colon a -> ~ free_of slash a)).

(** ** Lemmas *)

Lemma expandTime_escape s now : expandTime (escape s) now = Ok s.
Proof.
  unfold escape. induction s as [|a s IH]; [done|]. cbn [ReplaceAll]. case_decide as Ha.
  - subst. cbn. by rewrite IH.
  - cbn [expandTime]. rewrite decide_True by done. by rewrite IH.
Qed.

(** The last byte of a path with a known extension tells its compression. *)
Definition compression_of_last (o : option ascii) : string :=
  if decide (o = Some "t"%char) then CompressionZstd
  else if decide (o = Some "z"%char) then CompressionGzip else CompressionNone.

Lemma suffix_last p ext c :
  (ext, c) ∈ suffixes -> HasSuffix p ext = true -> c = compression_of_last (last_byte p).
Proof.
  intros Hin [r ->]%HasSuffix_spec. apply list_elem_of_In in Hin.
  repeat (destruct Hin as [[= <- <-]|Hin]; [by rewrite last_byte_app by done|]). destruct Hin.
Qed.

Lemma compressionFromPath_spec p c :
  compressionFromPath p = Ok c <-> exists ext, (ext, c) ∈ suffixes /\ HasSuffix p ext = true.
Proof.
  unfold compressionFromPath. split.
  - destruct (List.find _ suffixes) as [[ext c']|] eqn:E; [|done]. intros [= <-].
    apply find_some in E as [Hin Hs]. exists ext. split; [by apply list_elem_of_In|done].
  - intros (ext & Hin & Hs). destruct (List.find _ suffixes) as [[ext' c']|] eqn:E.
    + apply find_some in E as [Hin' Hs']. apply list_elem_of_In in Hin'.
      f_equal. cbn [snd]. by rewrite (suffix_last _ _ _ Hin Hs), (suffix_last _ _ _ Hin' Hs').
    + apply list_elem_of_In, (find_none _ _ E) in Hin. cbn in Hin. congruence.
Qed.

(** Where a value puts an archive, before the extension is read. *)
Definition located (t : Target) : Prop :=
  (Bucket t <> "" /\ Claim t = "" /\ free_of slash (Bucket t) /\ Path t <> "") \/
  (Bucket t = "" /\ Claim t <> "" /\ free_of slash (Claim t) /\ free_of colon (Claim t) /\
     HasPrefix (render t) s3Scheme = false) \/
  (Bucket t = "" /\ Claim t = "" /\ HasPrefix (Path t) s3Scheme = false /\
     forall a b, Path t = a +:+ ":" +:+ b -> free_of colon a -> ~ free_of slash a).

Lemma HasPrefix_CutPrefix s p : HasPrefix s p = false <-> CutPrefix s p = None.
Proof. unfold HasPrefix. by destruct (CutPrefix s p). Qed.

Lemma render_bucket cl b p c : b <> "" -> render (mkTarget cl b p c) = s3Scheme +:+ b +:+ "/" +:+ p.
Proof. intros H. unfold render. cbn [Bucket Path]. by rewrite decide_True. Qed.

Lemma render_claim cl p c : cl <> "" -> render (mkTarget cl "" p c) = cl +:+ ":" +:+ p.
Proof.
  intros H. unfold render. cbn [Bucket Claim Path].
  rewrite decide_False by tauto. by rewrite decide_True.
Qed.

Lemma render_path p c : render (mkTarget "" "" p c) = p.
Proof. reflexivity. Qed.

Lemma splitLocation_located value t :
  splitLocation value = Ok t -> value = render t /\ located t /\ Compression t = "".
Proof.
  unfold splitLocation. destruct (CutPrefix value s3Scheme) as [rest|] eqn:Ep.
  - apply CutPrefix_Some in Ep as ->. destruct (Cut rest "/") as [[b k]|] eqn:Ec; [|done].
    apply Cut_free in Ec as [-> Hb].
    destruct (bool_decide (b = "")) eqn:E1; [done|]. destruct (bool_decide (k = "")) eqn:E2; [done|].
    apply bool_decide_eq_false in E1, E2. intros [= <-]. rewrite render_bucket by done.
    split; [done|]. split; [|done]. left. cbn. unfold slash. tauto.
  - destruct (Cut value ":") as [[a b]|] eqn:Ec.
    + apply Cut_free in Ec as [-> Ha]. destruct (negb (Contains a "/")) eqn:Es.
      { apply negb_true_iff, Contains_free in Es. case_decide as He; [done|].
        intros [= <-]. rewrite render_claim by done. split; [done|]. split; [|done].
        right; left. rewrite render_claim, HasPrefix_CutPrefix by done.
        cbn [Bucket Claim Path]. unfold slash, colon. tauto. }
      apply negb_false_iff in Es. intros [= <-]. split; [done|]. split; [|done].
      right; right. cbn [Bucket Claim Path]. rewrite HasPrefix_CutPrefix.
      split; [done|]. split; [done|]. split; [done|]. intros a' b' Heq Ha' Hs.
      assert (Cut (a +:+ String ":" b) ":" = Some (a', b')) as Hc by by apply Cut_free.
      assert (Cut (a +:+ String ":" b) ":" = Some (a, b)) as Hc' by by apply Cut_free.
      rewrite Hc in Hc'. injection Hc' as -> ->. apply Contains_free in Hs.
      unfold slash in Hs. congruence.
    + intros [= <-]. split; [done|]. split; [|done]. right; right.
      cbn [Bucket Claim Path]. rewrite HasPrefix_CutPrefix.
      split; [done|]. split; [done|]. split; [done|].
      intros a b Heq. exfalso. by apply Cut_None with (1 := Ec) in Heq.
Qed.

Lemma splitLocation_render t :
  located t -> splitLocation (render t) = Ok (mkTarget (Claim t) (Bucket t) (Path t) "").
Proof.
  destruct t as [claim bucket path comp]. unfold located, splitLocation; cbn [Bucket Claim Path].
  intros [(Hb & -> & Hs & Hp)|[(-> & Hc & Hs & Hcol & Hx)|(-> & -> & Hx & Hn)]].
  - rewrite render_bucket, CutPrefix_app by done.
    assert (Cut (bucket +:+ "/" +:+ path) "/" = Some (bucket, path)) as -> by by apply Cut_free.
    by rewrite !bool_decide_eq_false_2.
  - rewrite HasPrefix_CutPrefix in Hx. rewrite Hx, render_claim by done.
    assert (Cut (claim +:+ ":" +:+ path) ":" = Some (claim, path)) as -> by by apply Cut_free.
    apply Contains_free in Hs. unfold slash in Hs. rewrite Hs. cbn. by rewrite decide_False.
  - rewrite HasPrefix_CutPrefix in Hx. rewrite render_path, Hx.
    destruct (Cut path ":") as [[a b]|] eqn:E; [|done].
    apply Cut_free in E as [Hp Ha]. specialize (Hn a b Hp Ha).
    destruct (Contains a "/") eqn:Es; [done|]. by apply Contains_free in Es.
Qed.

(** [ParseTarget] on every value.  Timestamp tokens aside, a value is
    accepted with target [t] exactly when it spells [t], and [t] has a path with
    a known archive extension, its compression is that extension's, and the text
    is in the one form that names [t]: a bucket and key after [s3://], a claim
    with neither slash nor colon before the first colon, or a path.  The three
    forms exclude each other, so no value is read two ways, and every such
    target can be named, by doubling the percent signs. *)
Theorem ParseTarget_spec value now t :
  (ParseTarget value now = Ok t <-> expandTime value now = Ok (render t) /\ well_formed t) /\
  (well_formed t -> ParseTarget (escape (render t)) now = Ok t).
Proof.
  assert (forall value, ParseTarget value now = Ok t <->
    expandTime value now = Ok (render t) /\ well_formed t) as H; [|split; [apply H|]].
  2:{ intros Hw. apply H. split; [apply expandTime_escape|done]. }
  clear value. intros value. unfold ParseTarget. split.
  - intros H. go_inv. apply splitLocation_located in E1 as (-> & Hloc & Hcomp).
    apply bool_decide_eq_false in E2. split; [exact E0|].
    apply compressionFromPath_spec in E3. unfold well_formed, located in *.
    destruct r1 as [cl b p c]. cbn in *. tauto.
  - intros [He (Hp & Hx & Hl)].
    assert (render t <> "") as Hne.
    { unfold render. case_decide; [done|]. case_decide; [|done]. by destruct (Claim t). }
    rewrite bool_decide_eq_false_2 by (intros ->; cbn in He; congruence). cbn [fail_if mbind result_bind].
    rewrite He. cbn [mbind result_bind].
    assert (splitLocation (render t) = Ok (mkTarget (Claim t) (Bucket t) (Path t) "")) as ->.
    { apply splitLocation_render. unfold located. tauto. }
    cbn [mbind result_bind Path Claim Bucket]. rewrite bool_decide_eq_false_2 by done.
    cbn [fail_if mbind result_bind]. apply compressionFromPath_spec in Hx. rewrite Hx.
    by destruct t.
Qed.

Lemma ParseTarget_spec_witness :
  let t := mkTarget "backups" "" "db/100%.tar.gz" "gzip" in
  well_formed t /\ ParseTarget (escape (render t)) (mkTime 2025 1 1 0 0 0) = Ok t.
Proof.
  intros t. assert (well_formed t) as Hw.
  { split; [discriminate|]. split.
    - exists ".tar.gz". split; [|reflexivity]. apply list_elem_of_In. right; right; left. reflexivity.
    - right; left. repeat split; discriminate. }
  split; [exact Hw|]. exact (proj2 (ParseTarget_spec "" (mkTime 2025 1 1 0 0 0) t) Hw).
Defined.
