(* ===== verification/Workload.v ===== *)
(** * The Kubernetes objects a transfer's Job is read through

    The fields internal/k8s and internal/app read of a Job, of its pods and of
    their containers' states. *)
From S2P Require Import Prelude.
From stdpp Require Import options.

Definition PodPending : string := "Pending".
Definition PodRunning : string := "Running".
Definition PodSucceeded : string := "Succeeded".
Definition PodFailed : string := "Failed".
Definition PodUnknown : string := "Unknown".

(** [corev1.ContainerStateTerminated] and [ContainerStateWaiting] *)
Record Terminated : Type := mkTerminated {
  ExitCode : Z;
  Signal : Z;
  term_Reason : string;
  term_Message : string
}.

Record Waiting : Type := mkWaiting { wait_Reason : string; wait_Message : string }.

Record ContainerStatus : Type := mkContainer {
  cs_Name : string;
  cs_Waiting : option Waiting;
  cs_Terminated : option Terminated;
  cs_LastTerminated : option Terminated
}.

Record JobPod : Type := mkJobPod {
  pod_UID : string;
  pod_Name : string;
  pod_Namespace : string;
  pod_Phase : string;
  pod_Reason : string;
  pod_Message : string;
  ContainerStatuses : list ContainerStatus
}.

(** [batchv1.JobCondition]: its type, whether its status is true, its message and
    when it changed, if that is set.  Times are nanoseconds. *)
Record JobCondition : Type := mkCondition {
  cond_Failed : bool;
  cond_True : bool;
  cond_Message : string;
  LastTransitionTime : option Z
}.

Record Job : Type := mkJob {
  job_UID : string;
  job_Name : string;
  job_Namespace : string;
  job_Active : Z;
  job_Succeeded : Z;
  job_Failed : Z;
  Conditions : list JobCondition;
  ContainerImages : list string;
  StartTime : option Z;
  CompletionTime : option Z
}.

(** Severity of a log record that carries part of an outcome. *)
Inductive log_level : Type := INFO | WARN | ERROR.
