(* ===== verification/Interleaving.v ===== *)
(** * Interleavings of atomic steps

    The concurrent parts of the program - an exec session, the goroutines of a
    local migration - are modelled by a function that runs one labelled step of
    one of their threads, or is blocked.  What such a model is asked is the same
    each time: what holds in every state that some interleaving reaches, and how
    many of a thread's own steps are left. *)
From S2P Require Import Prelude.
From stdpp Require Import relations options.
Local Open Scope nat_scope.

Section Interleaving.
Context {State Label : Type} (next : Label -> State -> option State).

Definition step (s s' : State) : Prop := exists l, next l s = Some s'.

Fixpoint runs (ls : list Label) (s : State) : option State :=
  match ls with
  | [] => Some s
  | l :: ls => match next l s with Some s => runs ls s | None => None end
  end.

(** None of the labels [own] picks can run. *)
Definition stuck (own : Label -> bool) (s : State) : Prop := forall l, own l = true -> next l s = None.

Lemma runs_reach ls : forall s s', runs ls s = Some s' -> rtc step s s'.
Proof.
  induction ls as [|l ls IH]; intros s s' H; cbn in H; [by injection H as <-|].
  destruct (next l s) as [s1|] eqn:E; [|done]. eapply rtc_l; [by exists l|eauto].
Qed.

Lemma reach_runs s s' : rtc step s s' -> exists ls, runs ls s = Some s'.
Proof.
  induction 1 as [s|s s1 s' [l Hl] _ [ls IH]]; [by exists []|]. exists (l :: ls). cbn. by rewrite Hl.
Qed.

(** What the picked steps keep, every run of them keeps. *)
Lemma runs_keep (picked : Label -> bool) (P : State -> Prop) :
  (forall l s s', picked l = true -> P s -> next l s = Some s' -> P s') ->
  forall ls s s', forallb picked ls = true -> P s -> runs ls s = Some s' -> P s'.
Proof.
  intros HP ls. induction ls as [|l ls IH]; intros s s' Hl Hs H; cbn in *; [by injection H as <-|].
  apply andb_true_iff in Hl as [Hl Hls]. destruct (next l s) as [s1|] eqn:E; [|done]. eauto.
Qed.

Lemma reachable_keep (P : State -> Prop) start :
  P start -> (forall l s s', P s -> next l s = Some s' -> P s') -> forall s, rtc step start s -> P s.
Proof. intros H0 HP. apply rtc_ind_r; [done|]. intros s s' _ [l Hl] Hs. by eapply HP. Qed.

(** Each picked step takes something off [left], as long as [P] holds: so many such
    steps are left at most. *)
Lemma runs_bounded (picked : Label -> bool) (P : State -> Prop) (left : State -> nat) :
  (forall l s s', picked l = true -> P s -> next l s = Some s' -> P s' /\ left s' < left s) ->
  forall ls s s', forallb picked ls = true -> P s -> runs ls s = Some s' -> length ls + left s' <= left s.
Proof.
  intros HP ls. induction ls as [|l ls IH]; intros s s' Hl Hs H; cbn in *; [injection H as ->; lia|].
  apply andb_true_iff in Hl as [Hl Hls]. destruct (next l s) as [s1|] eqn:E; [|done].
  destruct (HP l s s1 Hl Hs E) as [H1 H2]. specialize (IH s1 s' Hls H1 H). lia.
Qed.
End Interleaving.
