(* ===== verification/World.v ===== *)
(** * The outside world: what the program reads, and the calls it makes

    Programs with effects are values of [io]: a tree of calls, each continued by
    what the call answers.  [exec] runs one against a handler that answers the
    n-th call as it likes, and records the trace; [wp] says that a property of
    trace and result holds for every way the calls can answer.  The Kubernetes
    objects are records of the fields the program reads. *)
From S2P Require Import Prelude Workload.
From stdpp Require Import options.

(** ** Kubernetes objects *)

(** A [resource.Quantity] through what the program asks of it: its value, by
    which [IsZero] and [Cmp] decide, and its text. *)
Record Quantity : Type := mkQuantity { quantity_value : Z; quantity_text : string }.
Definition zeroQuantity : Quantity := mkQuantity 0 "0".
Definition IsZero (q : Quantity) : bool := bool_decide (quantity_value q = 0)%Z.
Definition Cmp (q r : Quantity) : comparison := (quantity_value q ?= quantity_value r)%Z.

Record PersistentVolumeClaim : Type := mkPVC {
  Namespace : string;
  Name : string;
  AccessModes : list string;
  VolumeName : string;
  StorageClassName : option string;
  Annotations : gmap string string;
  StatusCapacity : option Quantity;   (* Status.Capacity[storage] *)
  RequestsStorage : option Quantity   (* Spec.Resources.Requests[storage] *)
}.

Record Pod : Type := mkPod {
  PodName : string;
  PodNamespace : string;
  NodeName : string;
  Phase : string;
  VolumeClaims : list (option string) (* the claim each of its volumes names *)
}.

Record Node : Type := mkNode { Node_Name : string; Node_Labels : gmap string string }.

(** A volume's required node affinity is kept as what [NewNodeSelector] makes of
    it: a matcher of nodes, or the error of a selector it cannot read. *)
Record PersistentVolume : Type := mkVolume {
  Volume_Name : string;
  Volume_Required : option (result (Node -> bool))
}.

(** An API answer with what [apierrors.IsNotFound] and [IsForbidden] say of it. *)
Inductive status : Type := NotFound | Forbidden | OtherStatus.
Inductive api (A : Type) : Type :=
  | Found (a : A)
  | ApiErr (s : status) (e : error).
Arguments Found {A} a.
Arguments ApiErr {A} s e.

(** A cluster client: the API server it talks to and the namespace of its
    kubeconfig context. *)
Record ClusterClient : Type := mkClient { Host : string; NsInContext : string }.

#[export] Instance ClusterClient_eq_dec : EqDecision ClusterClient.
Proof. solve_decision. Defined.

(** Helm values and other [map[string]any] data. *)
Inductive value : Type :=
  | VNil
  | VStr (s : string)
  | VInt (z : Z)
  | VBool (b : bool)
  | VList (l : list value)
  | VMap (m : list (string * value)).

Definition values := list (string * value).

(** A map read, and a map write that keeps the other keys. *)
Fixpoint get (m : values) (k : string) : option value :=
  match m with
  | [] => None
  | (k', v) :: m => if decide (k = k') then Some v else get m k
  end.

Fixpoint set (m : values) (k : string) (v : value) : values :=
  match m with
  | [] => [(k, v)]
  | (k', v') :: m => if decide (k = k') then (k, v) :: m else (k', v') :: set m k v
  end.

(** [maps.Copy] *)
Definition copy_into (dst src : values) : values :=
  fold_left (fun m kv => set m kv.1 kv.2) src dst.

Lemma get_set m k k' v : get (set m k v) k' = if decide (k' = k) then Some v else get m k'.
Proof.
  induction m as [|[k0 v0] m IH]; simpl; [done|].
  destruct (decide (k = k0)) as [->|Hk]; simpl.
  - by destruct (decide (k' = k0)).
  - destruct (decide (k' = k0)) as [->|]; [by rewrite decide_False|done].
Qed.

(** What installing or uninstalling a release can come back with. *)
Inductive install_result : Type :=
  | Installed
  | InstallDeadline (e : error)   (* errors.Is(err, context.DeadlineExceeded) *)
  | InstallFailed (e : error).

Inductive uninstall_result : Type :=
  | Uninstalled
  | ReleaseNotFound
  | UninstallFailed (e : error).

(** What the local strategy's session opens and closes. *)
Inductive ssh_resource : Type := SshClient | TunnelListener | SshSession | PipeWriter.

(** ** Calls *)

Inductive call : Type -> Type :=
  (* context *)
  | CtxErr : call bool
  (* clusters *)
  | GetClusterClient (kubeconfig context : string) : call (result ClusterClient)
  | LoadChart (version : string) : call (result ())
  | GetPVC (c : ClusterClient) (ns name : string) : call (result PersistentVolumeClaim)
  | ListPods (c : ClusterClient) (ns : string) : call (result (list Pod))
  | GetVolume (c : ClusterClient) (name : string) : call (api PersistentVolume)
  | ListNodes (c : ClusterClient) : call (api (list Node))
  | GetStorageClass (c : ClusterClient) (name : string) : call (result string)
  | GetSecret (c : ClusterClient) (ns name : string) : call (result (gmap string string))
  | GetService (c : ClusterClient) (ns name : string) : call (result ())
  | CanCreateNetworkPolicies (c : ClusterClient) (ns : string) : call (result bool)
  (* internal/k8s waits *)
  | GetServiceAddress (c : ClusterClient) (ns name : string) (timeout : Z) : call (result string)
  | GetNodePort (c : ClusterClient) (ns name : string) (timeout : Z) : call (result Z)
  | GetNodeIP (c : ClusterClient) (node : string) : call (result string)
  | GetAnyNodeIP (c : ClusterClient) : call (result string)
  | WaitForPod (c : ClusterClient) (ns selector : string) : call (result Pod)
  | WaitForPodReady (c : ClusterClient) (ns selector : string) (timeout : Z) : call (result Pod)
  | WaitForJobStart (c : ClusterClient) (ns job : string) : call (result ())
  | WaitForJobCompletion (c : ClusterClient) (ns job : string) : call (result ())
  | CollectDiagnostics (c : ClusterClient) (ns release : string) : call string
  (* internal/k8s, below the waits: a Job, its pods and their logs *)
  | ListJobs (c : ClusterClient) (ns : string) : call (result (list Job))
  | GetJob (c : ClusterClient) (ns name : string) : call (result Job)
  | ListJobPods (c : ClusterClient) (ns job : string) : call (result (list JobPod))
  | WaitForJobPod (c : ClusterClient) (ns job : string) : call (result JobPod)
  | WaitForPodTermination (c : ClusterClient) (ns pod : string) : call (result JobPod)
  | GetJobPod (c : ClusterClient) (ns name : string) : call (result JobPod)
  | TailPodLogs (c : ClusterClient) (ns pod : string) (lines : Z) : call (result string)
  (* the goroutine that follows a pod's log and owns the writer *)
  | FollowLogs (c : ClusterClient) (ns pod : string) : call ()
  | StopFollower : call (result ())
  | BarRendered : call bool
  | MarkAsComplete : call (result ())
  | FinishBar : call ()
  (* output *)
  | Print (text : string) : call ()
  | Log (l : log_level) (msg : string) (attrs : list (string * string)) : call ()
  (* helm *)
  | CreateSSHKeyPair (algorithm : string) : call (result (string * string))
  | HelmInit (c : ClusterClient) (ns : string) : call (result ())
  | MergeUserValues (files sets strings fileValues : list string) : call (result values)
  | MergeMaps (base user : values) : call values
  | HelmInstall (c : ClusterClient) (ns release : string) (hookOnly : bool) (timeout : Z)
      (vals : values) : call install_result
  | HelmUninstall (c : ClusterClient) (ns release : string) (timeout : Z) : call uninstall_result
  (* the local strategy's session *)
  | RunLocalMigration (src dst : ClusterClient) (privateKey : string) (srcPod dstPod : Pod) (port : Z) : call (result ())
  | AwaitPort (source : bool) : call (result Z)
  | SshParseKey (privateKey : string) : call (result ())
  | SshDial (port : Z) (user : string) : call (result ())
  | SshListen (port : Z) : call (result ())
  | SshNewSession : call (result ())
  | SshRun (command : string) : call (option error * list string)
  | SshClose (r : ssh_resource) : call ()
  | JoinSession : call (option error)
  (* internal/snapshot *)
  | SnapshotNew (c : ClusterClient) : call (result ())
  | CheckClass (class : string) : call (result ())
  | CreateSnapshot (ns pvc class name : string) (labels : values) : call (result ())
  | WaitForCut (ns name : string) (timeout : Z) : call (result ())
  | WaitReady (ns name : string) (timeout : Z) : call (result ())
  | CloneClaim (snapshot name : string) (claim : PersistentVolumeClaim) (labels : values)
      : call (result ())
  | DeleteSnapshot (ns name : string) : call (result ())
  | DeleteClaim (ns name : string) : call (result ())
  | ListLabeledClaims (ns selector : string) : call (result (list string))
  | ListLabeledSnapshots (ns selector : string) : call (api (list string))
  (* internal/app: cleanup *)
  | Now : call Z
  | ListReleases (c : ClusterClient) (ns filter : string) : call (result (list (option (string * string))))
  | ListReleaseJobs (c : ClusterClient) (ns release : string) : call (result (list Job))
  (* a client exec'd in a pod *)
  | SessionOpen (c : ClusterClient) (ns pod container : string) (command : list string)
      : call (result nat)
  | SessionWrite (s : nat) (line : string) : call (result ())
  | SessionWriteSecret (s : nat) (line : string) : call (result ())
  | SessionWaitFor (s : nat) (marker : string) (timeout : Z) : call (result ())
  | SessionOutput (s : nat) : call string
  | SessionClose (s : nat) : call (result ()).

(** ** Programs *)

Inductive io (A : Type) : Type :=
  | Ret (a : A)
  | Vis {X : Type} (e : call X) (k : X -> io A).
Arguments Ret {A} a.
Arguments Vis {A X} e k.

Fixpoint io_bind_def {A B} (f : A -> io B) (p : io A) : io B :=
  match p with
  | Ret a => f a
  | Vis e k => Vis e (fun x => io_bind_def f (k x))
  end.

#[export] Instance io_ret : MRet io := fun A a => Ret a.
#[export] Instance io_bind : MBind io := fun A B f p => io_bind_def f p.

Definition ask {X} (e : call X) : io X := Vis e Ret.

(** A fallible program and the two ways one continues another: [x ←! p; q] stops
    at the first error, [raise] wraps it first. *)
Definition try_bind {A B} (p : io (result A)) (f : A -> io (result B)) : io (result B) :=
  r ← p; match r with Ok a => f a | Err e => Ret (Err e) end.
Notation "x ←! p ; q" := (try_bind p (fun x => q))
  (at level 20, p at level 100, q at level 200, right associativity, only parsing) : go_scope.

Definition wrap {A} (format : string) (p : io (result A)) : io (result A) :=
  r ← p; Ret (wrap_err format r).

(** ** Running a program *)

Inductive event : Type := | Ev {X : Type} (e : call X) (x : X).

Definition handler : Type := forall X, nat -> call X -> X.

Fixpoint exec {A} (h : handler) (n : nat) (p : io A) : list event * A :=
  match p with
  | Ret a => ([], a)
  | Vis e k => let x := h _ n e in
               let r := exec h (S n) (k x) in (Ev e x :: r.1, r.2)
  end.

(** [Q] holds of the trace and the result, whatever the calls answer. *)
Fixpoint wp {A} (p : io A) (t : list event) (Q : list event -> A -> Prop) : Prop :=
  match p with
  | Ret a => Q t a
  | Vis e k => forall x, wp (k x) (t ++ [Ev e x]) Q
  end.

Lemma wp_exec {A} (p : io A) t Q h n :
  wp p t Q -> Q (t ++ (exec h n p).1) (exec h n p).2.
Proof.
  revert t n. induction p as [a|X e k IH]; intros t n H; simpl in *.
  - by rewrite app_nil_r.
  - specialize (IH _ _ (S n) (H (h X n e))). by rewrite <- (assoc_L (++)) in IH.
Qed.

Lemma wp_bind {A B} (p : io A) (f : A -> io B) t Q :
  wp (p ≫= f) t Q <-> wp p t (fun t a => wp (f a) t Q).
Proof.
  unfold mbind, io_bind. revert t. induction p as [a|X e k IH]; intros t; simpl; [done|].
  split; intros H x; by apply IH.
Qed.

Lemma wp_mono {A} (p : io A) t (Q Q' : list event -> A -> Prop) :
  wp p t Q -> (forall t a, Q t a -> Q' t a) -> wp p t Q'.
Proof.
  intros H HQ. revert t H. induction p as [a|X e k IH]; intros t; simpl; [apply HQ|].
  intros H x. by apply IH.
Qed.

Lemma wp_try {A B} (p : io (result A)) (f : A -> io (result B)) t Q :
  wp (try_bind p f) t Q <->
  wp p t (fun t r => match r with Ok a => wp (f a) t Q | Err e => Q t (Err e) end).
Proof.
  unfold try_bind. rewrite wp_bind.
  split; intros H; eapply wp_mono; try exact H; intros t' []; done.
Qed.

Lemma wp_wrap {A} fmt (p : io (result A)) t Q :
  wp (wrap fmt p) t Q <-> wp p t (fun t r => Q t (wrap_err fmt r)).
Proof. unfold wrap. by rewrite wp_bind. Qed.

(** ** Programs all of whose events satisfy a property *)

Fixpoint all_events {A} (I : event -> Prop) (p : io A) : Prop :=
  match p with
  | Ret _ => True
  | Vis e k => forall x, I (Ev e x) /\ all_events I (k x)
  end.

Lemma all_events_bind {A B} I (p : io A) (f : A -> io B) :
  all_events I p -> (forall a, all_events I (f a)) -> all_events I (p ≫= f).
Proof.
  intros Hp Hf. unfold mbind, io_bind. induction p as [a|X e k IH]; simpl; [apply Hf|].
  intros x. destruct (Hp x). split; [done|]. by apply IH.
Qed.

Lemma wp_all_events {A} I (p : io A) t :
  Forall I t -> all_events I p -> wp p t (fun t' _ => Forall I t').
Proof.
  revert t. induction p as [a|X e k IH]; intros t Ht Hp; simpl; [done|].
  intros x. destruct (Hp x). apply IH; [|done]. apply Forall_app. by repeat constructor.
Qed.

Lemma wp_and {A} (p : io A) t Q Q' : wp p t Q -> wp p t Q' -> wp p t (fun t a => Q t a /\ Q' t a).
Proof. revert t. induction p as [a|X e k IH]; intros t; simpl; [done|]. intros H H' x. by apply IH. Qed.

Lemma wp_true {A} (p : io A) t : wp p t (fun _ _ => True).
Proof. revert t. induction p; intros t; simpl; auto. Qed.

Ltac quiet :=
  repeat first
    [ progress intros
    | match goal with
      | |- all_events _ (match ?x with _ => _ end) => destruct x
      | |- all_events _ (if ?b then _ else _) => destruct b
      | |- all_events _ (_ ≫= _) => apply all_events_bind
      | |- all_events _ (Ret _) => exact I
      | |- all_events _ (ask _) => intros ?; split; [try exact I|exact I]
      end
    | progress unfold try_bind
    | progress unfold wrap ].

(** Where a run starts only prefixes its trace. *)
Lemma wp_frame {A} (p : io A) t Q :
  wp p [] Q -> wp p t (fun t' a => exists t2, t' = t ++ t2 /\ Q t2 a).
Proof.
  cut (forall t0, wp p t0 Q -> wp p (t ++ t0) (fun t' a => exists t2, t' = t ++ t2 /\ Q t2 a)).
  { intros H Hp. specialize (H [] Hp). by rewrite app_nil_r in H. }
  induction p as [a|X e k IH]; intros t0 Hp; simpl in *; [by exists t0|].
  intros x. rewrite <- (assoc_L (++)). by apply IH.
Qed.

Lemma exec_bind {A B} h (p : io A) (f : A -> io B) n :
  exec h n (p ≫= f) =
  let r := exec h n p in
  let r' := exec h (n + length r.1) (f r.2) in (r.1 ++ r'.1, r'.2).
Proof.
  unfold mbind, io_bind. revert n. induction p as [a|X e k IH]; intros n; cbn.
  - rewrite Nat.add_0_r. by destruct (exec h n (f a)).
  - rewrite IH. cbn. by rewrite <- Nat.add_succ_comm.
Qed.

(** Every call a program may make satisfies [I]. *)
Fixpoint all_calls {A} (I : forall X, call X -> Prop) (p : io A) : Prop :=
  match p with
  | Ret _ => True
  | Vis e k => I _ e /\ forall x, all_calls I (k x)
  end.

Lemma all_calls_bind {A B} I (p : io A) (f : A -> io B) :
  all_calls I p -> (forall a, all_calls I (f a)) -> all_calls I (p ≫= f).
Proof.
  intros Hp Hf. unfold mbind, io_bind. induction p as [a|X e k IH]; cbn in *; [apply Hf|].
  destruct Hp as [He Hk]. split; [done|]. intros x. by apply IH.
Qed.

Ltac quiet_calls :=
  repeat first
    [ progress intros
    | match goal with
      | |- all_calls _ (match ?x with _ => _ end) => destruct x
      | |- all_calls _ (if ?b then _ else _) => destruct b
      | |- all_calls _ (_ ≫= _) => apply all_calls_bind
      | |- all_calls _ (Ret _) => exact I
      | |- all_calls _ (ask _) => split; [|intros ?; exact I]
      end
    | progress unfold try_bind
    | progress unfold wrap ].

(** ** Protocols

    A protocol is a state that calls and their answers move along, with the calls
    each state allows.  [mwp] says that a program keeps to it, and what holds of
    the last state and the result. *)
Section Protocol.
Context {S : Type} (allowed : S -> forall X, call X -> Prop) (next : S -> forall X, call X -> X -> S).

Fixpoint obeys (s : S) (t : list event) : Prop :=
  match t with
  | [] => True
  | Ev e x :: t => allowed s _ e /\ obeys (next s _ e x) t
  end.

Fixpoint final (s : S) (t : list event) : S :=
  match t with
  | [] => s
  | Ev e x :: t => final (next s _ e x) t
  end.

Fixpoint mwp {A} (s : S) (p : io A) (Q : S -> A -> Prop) : Prop :=
  match p with
  | Ret a => Q s a
  | Vis e k => allowed s _ e /\ forall x, mwp (next s _ e x) (k x) Q
  end.

Lemma mwp_exec {A} s (p : io A) Q h n :
  mwp s p Q -> obeys s (exec h n p).1 /\ Q (final s (exec h n p).1) (exec h n p).2.
Proof.
  revert s n. induction p as [a|X e k IH]; intros s n H; cbn in *; [done|].
  destruct H as [Ha H]. specialize (H (h X n e)). apply (IH _ _ (Datatypes.S n)) in H as [Ho HQ].
  by split.
Qed.

Lemma mwp_bind {A B} s (p : io A) (f : A -> io B) Q :
  mwp s (p ≫= f) Q <-> mwp s p (fun s a => mwp s (f a) Q).
Proof.
  unfold mbind, io_bind. revert s. induction p as [a|X e k IH]; intros s; cbn; [done|].
  split; intros [Ha H]; (split; [done|]); intros x; by apply IH.
Qed.

Lemma mwp_mono {A} s (p : io A) (Q Q' : S -> A -> Prop) :
  mwp s p Q -> (forall s a, Q s a -> Q' s a) -> mwp s p Q'.
Proof.
  intros H HQ. revert s H. induction p as [a|X e k IH]; intros s; cbn; [apply HQ|].
  intros [Ha H]. split; [done|]. intros x. by apply IH.
Qed.

Lemma mwp_try {A B} s (p : io (result A)) (f : A -> io (result B)) Q :
  mwp s (try_bind p f) Q <->
  mwp s p (fun s r => match r with Ok a => mwp s (f a) Q | Err e => Q s (Err e) end).
Proof.
  unfold try_bind. rewrite mwp_bind.
  split; intros H; eapply mwp_mono; try exact H; intros s' []; done.
Qed.

(** A program whose calls are allowed in a state and do not move it. *)
Lemma mwp_still {A} s (p : io A) (Q : S -> A -> Prop) :
  all_calls (fun X e => allowed s X e /\ forall x, next s X e x = s) p ->
  (forall a, Q s a) -> mwp s p Q.
Proof.
  intros Hp HQ. induction p as [a|X e k IH]; cbn in *; [done|].
  destruct Hp as [[Ha Hn] Hk]. split; [done|]. intros x. rewrite Hn. by apply IH.
Qed.
End Protocol.

(** The number of events of a trace a test accepts. *)
Definition count (f : event -> bool) (t : list event) : nat := length (List.filter f t).

Lemma count_app f t t' : count f (t ++ t') = count f t + count f t'.
Proof. unfold count. by rewrite List.filter_app, length_app. Qed.
