(* ===== verification/Link.v ===== *)
(** * Putting components together

    A component that calls another is a program over the other's operation as a
    call ([World.call]), and its theorems hold however the call is answered.  Here
    such a call is replaced by the program the other component is: [link] does so in
    a whole program, and [link_refines] says that a run of the linked program is a
    run of the client in which each such call is answered by a run of its
    implementation, whose own calls stand in its place.  So a theorem about the
    client and one about the implementation hold together of the linked program. *)
From S2P Require Import Prelude World.
From stdpp Require Import options.

(** ** The runs of a program *)

(** The program can make these calls, get these answers and end with this result. *)
Fixpoint yields {A} (p : io A) (t : list event) (a : A) : Prop :=
  match p with
  | Ret b => t = [] /\ a = b
  | Vis e k => exists x t', t = Ev e x :: t' /\ yields (k x) t' a
  end.

Lemma exec_yields {A} h n (p : io A) : yields p (exec h n p).1 (exec h n p).2.
Proof. revert n. induction p as [a|X e k IH]; intros n; cbn; [done|]. by eexists _, _. Qed.

Lemma wp_yields {A} (p : io A) t0 Q : wp p t0 Q <-> forall t a, yields p t a -> Q (t0 ++ t) a.
Proof.
  revert t0. induction p as [b|X e k IH]; intros t0; cbn.
  - split; [intros H t a [-> ->]; by rewrite app_nil_r|intros H; specialize (H [] b); rewrite app_nil_r in H; by apply H].
  - split.
    + intros H t a (x & t' & -> & Hy). specialize (H x). rewrite IH in H. apply H in Hy. by rewrite <- app_assoc in Hy.
    + intros H x. rewrite IH. intros t a Hy. rewrite <- app_assoc. apply H. by eexists _, _.
Qed.

Lemma mwp_yields {S A} allowed (next : S -> forall X, call X -> X -> S) s (p : io A) Q t a :
  mwp allowed next s p Q -> yields p t a -> obeys allowed next s t /\ Q (final next s t) a.
Proof.
  revert s t. induction p as [b|X e k IH]; intros s t H Hy; cbn in *.
  - by destruct Hy as [-> ->].
  - destruct H as [He H], Hy as (x & t' & -> & Hy). cbn. destruct (IH x _ _ (H x) Hy). by split.
Qed.

Lemma obeys_app {S} (allowed : S -> forall X, call X -> Prop) next s t1 t2 :
  obeys allowed next s (t1 ++ t2) <-> obeys allowed next s t1 /\ obeys allowed next (final next s t1) t2.
Proof. revert s. induction t1 as [|[X e x] t1 IH]; intros s; cbn; [tauto|]. rewrite IH. tauto. Qed.

Lemma final_app {S} (next : S -> forall X, call X -> X -> S) s t1 t2 :
  final next s (t1 ++ t2) = final next (final next s t1) t2.
Proof. revert s. induction t1 as [|[X e x] t1 IH]; intros s; cbn; [done|]. apply IH. Qed.

(** A trace of calls that every state allows and that leave it as it is. *)
Lemma still_trace {S} (allowed : S -> forall X, call X -> Prop) next s t :
  Forall (fun ev => match ev with Ev e x => allowed s _ e /\ next s _ e x = s end) t ->
  obeys allowed next s t /\ final next s t = s.
Proof.
  induction 1 as [|[X e x] t [Ha Hn] _ IH]; [done|]. cbn. rewrite Hn. destruct IH as [IH ->]. by repeat split.
Qed.

Lemma yields_bind {A B} (p : io A) (f : A -> io B) t b :
  yields (p ≫= f) t b <-> exists t1 a t2, t = t1 ++ t2 /\ yields p t1 a /\ yields (f a) t2 b.
Proof.
  unfold mbind, io_bind. revert t. induction p as [a|X e k IH]; intros t; cbn.
  - split; [intros H; by exists [], a, t|]. by intros (? & ? & t2 & -> & [-> ->] & H).
  - split.
    + intros (x & t' & -> & (t1 & a & t2 & -> & H1 & H2)%IH). exists (Ev e x :: t1), a, t2.
      split; [done|]. split; [by eexists _, _|done].
    + intros (t1 & a & t2 & -> & (x & t' & -> & H1) & H2). exists x, (t' ++ t2). split; [done|].
      apply IH. by eexists _, _, _.
Qed.

Lemma all_events_yields {A} I (p : io A) t a : all_events I p -> yields p t a -> Forall I t.
Proof.
  revert t. induction p as [b|X e k IH]; intros t Hp Hy; cbn in *; [by destruct Hy as [-> _]|].
  destruct Hy as (x & t' & -> & Hy). destruct (Hp x) as [Hx Hk]. constructor; [done|]. by eapply IH.
Qed.

Lemma all_calls_yields {A} (I : forall X, call X -> Prop) (p : io A) t a :
  all_calls I p -> yields p t a -> Forall (fun ev => match ev with Ev e _ => I _ e end) t.
Proof.
  revert t. induction p as [b|X e k IH]; intros t Hp Hy; cbn in *; [by destruct Hy as [-> _]|].
  destruct Hy as (x & t' & -> & Hy), Hp as [He Hk]. constructor; [done|]. by eapply IH.
Qed.

(** ** Linking *)

(** The calls that are components of the program, with the program each one is. *)
Definition implementation : Type := forall X, call X -> option (io X).

Section Link.
Context (impl : implementation).

Fixpoint link {A} (p : io A) : io A :=
  match p with
  | Ret a => Ret a
  | Vis e k =>
      match impl _ e with
      | Some q => io_bind_def (fun x => link (k x)) q
      | None => Vis e (fun x => link (k x))
      end
  end.

(** What stands for one event of the client: itself, or a run of its implementation. *)
Definition stands_for (u : list event) (ev : event) : Prop :=
  match ev with
  | Ev e x => match impl _ e with Some q => yields q u x | None => u = [Ev e x] end
  end.

(** The trace [t] is that of the client, [client], with each event replaced. *)
Fixpoint expands (t client : list event) : Prop :=
  match client with
  | [] => t = []
  | ev :: client => exists u rest, t = u ++ rest /\ stands_for u ev /\ expands rest client
  end.

Lemma expands_app t c1 c2 :
  expands t (c1 ++ c2) <-> exists t1 t2, t = t1 ++ t2 /\ expands t1 c1 /\ expands t2 c2.
Proof.
  revert t. induction c1 as [|ev c1 IH]; intros t; cbn.
  - split; [intros H; by exists [], t|]. by intros (? & t2 & -> & -> & H).
  - split.
    + intros (u & rest & -> & Hu & (t1 & t2 & -> & H1 & H2)%IH). exists (u ++ t1), t2.
      rewrite <- app_assoc. split; [done|]. split; [by exists u, t1|done].
    + intros (t0 & t2 & -> & (u & t1 & -> & Hu & H1) & H2). exists u, (t1 ++ t2).
      rewrite <- app_assoc. split; [done|]. split; [done|]. apply IH. by exists t1, t2.
Qed.

(** An event of the client has its place. *)
Lemma expands_at t c1 ev c2 : expands t (c1 ++ ev :: c2) ->
  exists t1 u t2, t = t1 ++ u ++ t2 /\ expands t1 c1 /\ stands_for u ev /\ expands t2 c2.
Proof.
  intros (t1 & rest & -> & H1 & (u & t2 & -> & Hu & H2))%expands_app. by exists t1, u, t2.
Qed.

(** What holds of everything that stands for an event, holds of the whole trace. *)
Lemma expands_Forall (I J : event -> Prop) t client :
  (forall u ev, J ev -> stands_for u ev -> Forall I u) -> Forall J client -> expands t client -> Forall I t.
Proof.
  intros HI. revert t. induction client as [|ev client IH]; intros t Hc Ht; cbn in Ht; [by rewrite Ht|].
  destruct Ht as (u & rest & -> & Hu & Hr). apply Forall_cons in Hc as [Hev Hc].
  apply Forall_app. split; [by eapply HI|by apply IH].
Qed.

Lemma expands_Exists (I J : event -> Prop) t client :
  (forall u ev, J ev -> stands_for u ev -> Exists I u) -> Exists J client -> expands t client -> Exists I t.
Proof.
  intros HI (ev & (c1 & c2 & ->)%list_elem_of_split & Hev)%Exists_exists (t1 & u & t2 & -> & _ & Hu & _)%expands_at.
  apply Exists_app. right. apply Exists_app. left. by eapply HI.
Qed.

(** A protocol of the client that a component's own calls keep to as well, and move
    as its answer does, is one of the linked program. *)
Lemma obeys_expands {S} (allowed : S -> forall X, call X -> Prop) next :
  (forall s X (e : call X) q u x, impl X e = Some q -> yields q u x -> allowed s X e ->
     obeys allowed next s u /\ final next s u = next s X e x) ->
  forall client s t, obeys allowed next s client -> expands t client ->
    obeys allowed next s t /\ final next s t = final next s client.
Proof.
  intros Hp client. induction client as [|[X e x] client IH]; intros s t Ho Ht; cbn [expands] in Ht; [by subst t|].
  destruct Ht as (u & rest & -> & Hu & Hr), Ho as [He Ho]. unfold stands_for in Hu.
  destruct (IH _ _ Ho Hr) as [Ho' Hf]. destruct (impl X e) as [q|] eqn:E.
  - destruct (Hp s X e q u x E Hu He) as [H1 H2]. rewrite obeys_app, final_app, H2. by split.
  - subst u. cbn. by split.
Qed.

(** A linked program refines its client.  Its runs are exactly those of the
    client in which every call to a component is answered with the result of a run
    of the component's own program, whose calls stand in the trace in place of the
    call, uninterrupted and in order; every other call is made as the client makes
    it, and the results are the same. *)
Theorem link_refines {A} (p : io A) t a :
  yields (link p) t a <-> exists client, yields p client a /\ expands t client.
Proof.
  revert t. induction p as [b|X e k IH]; intros t; cbn [link].
  - cbn. split; [intros [-> ->]; by exists []|]. by intros (c & [-> ->] & ->).
  - destruct (impl X e) as [q|] eqn:E.
    + change (io_bind_def ?f q) with (q ≫= f). rewrite yields_bind. split.
      * intros (t1 & x & t2 & -> & Hq & (client & Hc & Ht)%IH). exists (Ev e x :: client).
        split; [by eexists _, _|]. exists t1, t2. split; [done|]. split; [|done]. cbn. by rewrite E.
      * intros (c & (x & client & -> & Hc) & (u & t2 & -> & Hu & Ht)). exists u, x, t2.
        cbn in Hu. rewrite E in Hu. split; [done|]. split; [done|]. apply IH. by exists client.
    + cbn. split.
      * intros (x & t' & -> & (client & Hc & Ht)%IH). exists (Ev e x :: client).
        split; [by eexists _, _|]. exists [Ev e x], t'. split; [done|]. split; [|done]. cbn. by rewrite E.
      * intros (c & (x & client & -> & Hc) & (u & t' & -> & Hu & Ht)). exists x, t'.
        cbn in Hu. rewrite E in Hu. subst u. split; [done|]. apply IH. by exists client.
Qed.

(** What is proved of every run of the client holds of a run the linked one expands. *)
Lemma wp_link {A} (p : io A) Q t a :
  wp p [] Q -> yields (link p) t a -> exists client, expands t client /\ Q client a.
Proof.
  intros Hp (client & Hc & Ht)%link_refines. exists client. split; [done|]. rewrite wp_yields in Hp. by apply Hp.
Qed.
End Link.
