(* ===== verification/Pvc.v ===== *)
(** * internal/pvc: what a claim permits

    internal/pvc/info.go: resolving a claim into an [Info], the node topology of
    its volume, and the Helm affinity values made of it.  The main theorem reads
    the values back the way the scheduler does and says which nodes a pod using
    the claim may land on. *)
From S2P Require Import Prelude GoStrings Workload World.
From stdpp Require Import options.

Definition ReadWriteOnce : string := "ReadWriteOnce".
Definition ReadWriteOncePod : string := "ReadWriteOncePod".
Definition ReadOnlyMany : string := "ReadOnlyMany".
Definition ReadWriteMany : string := "ReadWriteMany".
Definition PodSucceeded : string := "Succeeded".
Definition PodFailed : string := "Failed".

Record Info : Type := mkInfo {
  Client : ClusterClient;
  Claim : PersistentVolumeClaim;
  MountedNode : string;
  AllowedNodes : option (list string); (* [None] is Go's nil: unconstrained *)
  PinnedNodes : option (list string);
  MountedPod : string;
  AffinityHelmValues : option values;
  SupportsRWO : bool;
  SupportsROX : bool;
  SupportsRWX : bool
}.

(** ** Capacity and provisioner *)

Definition Size (i : Info) : Quantity :=
  match StatusCapacity (Claim i) with
  | Some capacity => if negb (IsZero capacity) then capacity
                     else default zeroQuantity (RequestsStorage (Claim i))
  | None => default zeroQuantity (RequestsStorage (Claim i))
  end.

Definition storageProvisionerAnnotation : string := "volume.kubernetes.io/storage-provisioner".
Definition betaStorageProvisionerAnnotation : string :=
  "volume.beta.kubernetes.io/storage-provisioner".

(** Reading a Go map of strings: the zero value when the key is missing. *)
Definition map_get (m : gmap string string) (k : string) : string := default "" (m !! k).

Definition Provisioner (i : Info) : io (result string) :=
  let annotations := Annotations (Claim i) in
  if decide (map_get annotations storageProvisionerAnnotation <> "") then
    Ret (Ok (map_get annotations storageProvisionerAnnotation))
  else if decide (map_get annotations betaStorageProvisionerAnnotation <> "") then
    Ret (Ok (map_get annotations betaStorageProvisionerAnnotation))
  else match StorageClassName (Claim i) with
       | None => Ret (Ok "")
       | Some class =>
           if decide (class = "") then Ret (Ok "")
           else
             r ← ask (GetStorageClass (Client i) class);
             Ret (match r with
                  | Ok provisioner => Ok provisioner
                  | Err e => Err (Errorf "failed to get storage class %s: %w" [AStr class; AWrap e])
                  end)
       end.

(** [Describe] *)
Definition Describe (i : Info) : string :=
  let claim := Claim i in
  let line := Namespace claim +:+ "/" +:+ Name claim in
  let line := if negb (IsZero (Size i)) then line +:+ ", " +:+ quantity_text (Size i) else line in
  let line := if decide (AccessModes claim = []) then line
              else line +:+ ", " +:+ Join (AccessModes claim) "+" in
  if decide (MountedNode i <> "") then line +:+ ", mounted on node " +:+ MountedNode i
  else line +:+ ", not mounted".

(** ** Where the claim is mounted *)

Definition mounts (claim : PersistentVolumeClaim) (pod : Pod) : bool :=
  negb (bool_decide (Phase pod = PodSucceeded \/ Phase pod = PodFailed))
  && bool_decide (Some (Name claim) ∈ VolumeClaims pod).

Definition findMountedPod (c : ClusterClient) (claim : PersistentVolumeClaim)
  : io (result (string * string)) :=
  podList ← ask (ListPods c (Namespace claim));
  Ret (match podList with
       | Err e => Err (Errorf "failed to list pods: %w" [AWrap e])
       | Ok pods =>
           match List.find (mounts claim) pods with
           | Some pod => Ok (PodName pod, NodeName pod)
           | None => Ok ("", "")
           end
       end).

(** [(rwo, rox, rwx, rwop)] *)
Definition readAccessModes (claim : PersistentVolumeClaim) : bool * bool * bool * bool :=
  fold_left (fun acc mode =>
    let '(rwo, rox, rwx, rwop) := acc in
    if decide (mode = ReadWriteOncePod) then (true, rox, rwx, true)
    else if decide (mode = ReadWriteOnce) then (true, rox, rwx, rwop)
    else if decide (mode = ReadOnlyMany) then (rwo, true, rwx, rwop)
    else if decide (mode = ReadWriteMany) then (rwo, rox, true, rwop)
    else acc) (AccessModes claim) (false, false, false, false).

(** ** Topology *)

(** [Ok None]: nothing to read a constraint from. *)
Definition volumeNodeSelector (c : ClusterClient) (claim : PersistentVolumeClaim)
  : io (result (option (Node -> bool))) :=
  volume ← ask (GetVolume c (VolumeName claim));
  Ret (match volume with
       | ApiErr NotFound _ | ApiErr Forbidden _ => Ok None
       | ApiErr OtherStatus e =>
           Err (Errorf "failed to get volume %s of claim %s/%s: %w"
                  [AStr (VolumeName claim); AStr (Namespace claim); AStr (Name claim); AWrap e])
       | Found v =>
           match Volume_Required v with
           | None => Ok None
           | Some (Err e) =>
               Err (Errorf "failed to read the node affinity of volume %s: %w"
                      [AStr (Volume_Name v); AWrap e])
           | Some (Ok selector) => Ok (Some selector)
           end
       end).

Definition AllowedNodesFor (c : ClusterClient) (claim : PersistentVolumeClaim)
  : io (result (option (list string))) :=
  if decide (VolumeName claim = "") then Ret (Ok None)
  else
    selector ←! volumeNodeSelector c claim;
    match selector with
    | None => Ret (Ok None)
    | Some selector =>
        nodes ← ask (ListNodes c);
        Ret (match nodes with
             | ApiErr Forbidden _ => Ok None
             | ApiErr _ e => Err (Errorf "failed to list nodes: %w" [AWrap e])
             | Found nodes => Ok (Some (Node_Name <$> List.filter selector nodes))
             end)
    end.

Definition IntersectNodes (first second : option (list string)) : option (list string) :=
  match first, second with
  | None, _ => second
  | _, None => first
  | Some f, Some s => Some (List.filter (fun name => bool_decide (name ∈ f)) s)
  end.

Definition resolveTopology (c : ClusterClient) (claim : PersistentVolumeClaim)
    (mountedNode : string) (attachedToOneNode : bool)
  : io (result (option (list string) * option (list string))) :=
  allowed ←! AllowedNodesFor c claim;
  Ret (if bool_decide (allowed = Some []) then
         Err (Errorf "the volume of claim %s/%s is bound to nodes that no longer exist in this cluster, so nothing can mount it"
                [AStr (Namespace claim); AStr (Name claim)])
       else Ok (allowed, if bool_decide (mountedNode <> "") && attachedToOneNode
                         then IntersectNodes allowed (Some [mountedNode]) else allowed)).

(** ** Affinity values *)

Definition nodeTerm (node : string) : value :=
  VMap [("matchFields", VList [VMap [("key", VStr "metadata.name"); ("operator", VStr "In");
                                     ("values", VList [VStr node])]])].

Definition RequireNodes (nodes : option (list string)) : option values :=
  match nodes with
  | None => None
  | Some nodes =>
      Some [("nodeAffinity", VMap [("requiredDuringSchedulingIgnoredDuringExecution",
              VMap [("nodeSelectorTerms", VList (nodeTerm <$> nodes))])])]
  end.

Definition buildAffinityHelmValues (mountedNode : string) (pinned : option (list string))
  : option values :=
  if bool_decide (pinned <> None) then RequireNodes pinned
  else if decide (mountedNode = "") then None
  else Some [("nodeAffinity", VMap [("preferredDuringSchedulingIgnoredDuringExecution",
         VList [VMap [("weight", VInt 100);
                      ("preference", VMap [("matchFields",
                         VList [VMap [("key", VStr "metadata.name"); ("operator", VStr "In");
                                      ("values", VList [VStr mountedNode])]])])]])])].

(** ** Resolving a claim *)

Definition wrap_errf {A} (ns name : string) (p : io (result A)) : io (result A) :=
  r ← p;
  Ret (match r with
       | Ok a => Ok a
       | Err e => Err (Errorf "failed to get pvc %s/%s: %w" [AStr ns; AStr name; AWrap e])
       end).

Definition newInfo (c : ClusterClient) (ns name : string) (rejectMountedRWOP : bool)
  : io (result Info) :=
  claim ←! wrap_errf ns name (ask (GetPVC c ns name));
  let '(rwo, rox, rwx, rwop) := readAccessModes claim in
  mounted ←! findMountedPod c claim;
  let '(mountedPod, mountedNode) := mounted in
  if rejectMountedRWOP && rwop && bool_decide (mountedNode <> "") then
    Ret (Err (Errorf "pvc %s/%s is mounted to a pod and has ReadWriteOncePod access mode, it cannot be mounted to the migration pod"
                [AStr ns; AStr name]))
  else
    topology ←! resolveTopology c claim mountedNode (negb rwx && negb rox);
    let '(allowed, pinned) := topology in
    Ret (Ok (mkInfo c claim mountedNode allowed pinned mountedPod
               (buildAffinityHelmValues mountedNode pinned) rwo rox rwx)).

(** [New] refuses a claim no second pod can mount; [NewSource] is for a claim
    that will only be snapshotted. *)
Definition New (c : ClusterClient) (ns name : string) : io (result Info) := newInfo c ns name true.
Definition NewSource (c : ClusterClient) (ns name : string) : io (result Info) :=
  newInfo c ns name false.

(** ** Specification: a cluster that stands still, and the scheduler's reading *)

Record cluster : Type := mkCluster {
  claims : string -> string -> result PersistentVolumeClaim;
  pods : string -> result (list Pod);
  volumes : string -> api PersistentVolume;
  nodes : api (list Node)
}.

(** The handler answers reads of [c] from the cluster's state. *)
Definition answers (h : handler) (c : ClusterClient) (cl : cluster) : Prop :=
  (forall n ns name, h _ n (GetPVC c ns name) = claims cl ns name) /\
  (forall n ns, h _ n (ListPods c ns) = pods cl ns) /\
  (forall n name, h _ n (GetVolume c name) = volumes cl name) /\
  (forall n, h _ n (ListNodes c) = nodes cl).

(** What the claim's volume permits, as far as the account may read it: [None]
    when there is no constraint to read. *)
Definition volume_nodes (cl : cluster) (claim : PersistentVolumeClaim) : option (list string) :=
  if decide (VolumeName claim = "") then None
  else match volumes cl (VolumeName claim), nodes cl with
       | Found v, Found ns =>
           match Volume_Required v with
           | Some (Ok selector) => Some (Node_Name <$> List.filter selector ns)
           | _ => None
           end
       | _, _ => None
       end.

(** A node satisfies a constraint. *)
Definition permits (constraint : option (list string)) (node : string) : Prop :=
  match constraint with None => True | Some l => node ∈ l end.

(** A node selector term as the scheduler reads it; the API server admits exactly
    one value for [In] on a field. *)
Definition term_allows (term : value) (node : string) : Prop :=
  term = VMap [("matchFields", VList [VMap [("key", VStr "metadata.name"); ("operator", VStr "In");
                                            ("values", VList [VStr node])]])].

(** The nodes the affinity values let a pod land on: required terms are ORed,
    preferences exclude nothing. *)
Definition affinity_allows (affinity : option values) (node : string) : Prop :=
  match affinity with
  | None => True
  | Some a =>
      match get a "nodeAffinity" with
      | Some (VMap na) =>
          match get na "requiredDuringSchedulingIgnoredDuringExecution" with
          | Some (VMap r) =>
              match get r "nodeSelectorTerms" with
              | Some (VList terms) => Exists (fun t => term_allows t node) terms
              | _ => False
              end
          | None => True
          | _ => False
          end
      | _ => False
      end
  end.

(** Only one node can have the claim attached at a time. *)
Definition single_attach (i : Info) : bool := negb (SupportsRWX i) && negb (SupportsROX i).

(** ** Lemmas *)

Lemma permits_IntersectNodes a b node :
  permits (IntersectNodes a b) node <-> permits a node /\ permits b node.
Proof.
  destruct a as [a|], b as [b|]; simpl; try tauto.
  rewrite !list_elem_of_In, List.filter_In, bool_decide_eq_true, list_elem_of_In. tauto.
Qed.

Lemma RequireNodes_allows ns node : affinity_allows (RequireNodes ns) node <-> permits ns node.
Proof.
  destruct ns as [ns|]; simpl; [|done]. rewrite Exists_exists. split.
  - intros (t & Ht & Hn). apply list_elem_of_fmap in Ht as (n & -> & Hin).
    injection Hn as <-. done.
  - intros Hin. exists (nodeTerm node). split; [|done]. by apply list_elem_of_fmap_2.
Qed.

Lemma buildAffinity_allows mounted pinned node :
  affinity_allows (buildAffinityHelmValues mounted pinned) node <-> permits pinned node.
Proof.
  unfold buildAffinityHelmValues. destruct pinned as [p|].
  - rewrite bool_decide_eq_true_2 by done. apply RequireNodes_allows.
  - rewrite bool_decide_eq_false_2 by tauto. by case_decide.
Qed.

Lemma exec_try {A B} h n (p : io (result A)) (f : A -> io (result B)) b :
  (exec h n (try_bind p f)).2 = Ok b ->
  exists a m, (exec h n p).2 = Ok a /\ (exec h m (f a)).2 = Ok b.
Proof.
  unfold try_bind, mbind, io_bind. revert n.
  induction p as [r|X e k IH]; intros n; cbn [io_bind_def exec snd].
  - destruct r; [eauto|]. cbn [exec snd]. done.
  - intros H. apply IH in H as (a & m & H1 & H2). exists a, m. by split.
Qed.

Section Answers.
Context (h : handler) (c : ClusterClient) (cl : cluster) (Ha : answers h c cl).

Lemma exec_AllowedNodesFor n claim a :
  (exec h n (AllowedNodesFor c claim)).2 = Ok a -> a = volume_nodes cl claim.
Proof using Ha.
  destruct Ha as (_ & _ & Hv & Hn). unfold AllowedNodesFor, volume_nodes.
  destruct (decide (VolumeName claim = "")); [by intros [= <-]|].
  intros (sel & m & H1 & H2)%exec_try. cbn [volumeNodeSelector ask mbind io_bind io_bind_def exec snd] in H1.
  rewrite Hv in H1. destruct (volumes cl (VolumeName claim)) as [v|[] e]; go_inv;
    try (cbn in H2; by go_inv).
  destruct (Volume_Required v) as [[f|e]|]; go_inv; [|cbn in H2; go_inv; by destruct (nodes cl)].
  cbn [ask mbind io_bind io_bind_def exec snd] in H2. rewrite Hn in H2.
  destruct (nodes cl) as [ns|[] e]; by go_inv.
Qed.

Lemma exec_findMountedPod n claim r :
  (exec h n (findMountedPod c claim)).2 = Ok r ->
  exists ps, pods cl (Namespace claim) = Ok ps /\
    r = match List.find (mounts claim) ps with
        | Some pod => (PodName pod, NodeName pod)
        | None => ("", "")
        end.
Proof using Ha.
  destruct Ha as (_ & Hp & _ & _). unfold findMountedPod.
  cbn [ask mbind io_bind io_bind_def exec snd]. rewrite Hp.
  destruct (pods cl (Namespace claim)) as [ps|]; [|done]. intros H. exists ps. split; [done|].
  by destruct (List.find _ ps); go_inv.
Qed.

Lemma exec_resolveTopology n claim mounted one a p :
  (exec h n (resolveTopology c claim mounted one)).2 = Ok (a, p) ->
  a = volume_nodes cl claim /\ a <> Some [] /\
  p = if bool_decide (mounted <> "") && one then IntersectNodes a (Some [mounted]) else a.
Proof using Ha.
  unfold resolveTopology. intros (a' & m & H1 & H2)%exec_try.
  apply exec_AllowedNodesFor in H1 as ->. cbn [exec snd] in H2.
  destruct (bool_decide (volume_nodes cl claim = Some [])) eqn:E; [done|].
  apply bool_decide_eq_false in E. injection H2 as <- <-. done.
Qed.

(** What a successful resolution holds. *)
Lemma exec_newInfo n ns name reject info :
  (exec h n (newInfo c ns name reject)).2 = Ok info ->
  exists ps,
    claims cl ns name = Ok (Claim info) /\
    pods cl (Namespace (Claim info)) = Ok ps /\
    (MountedPod info, MountedNode info) =
      match List.find (mounts (Claim info)) ps with
      | Some pod => (PodName pod, NodeName pod)
      | None => ("", "")
      end /\
    readAccessModes (Claim info) =
      (SupportsRWO info, SupportsROX info, SupportsRWX info, (readAccessModes (Claim info)).2) /\
    (reject = true -> (readAccessModes (Claim info)).2 = true -> MountedNode info = "") /\
    AllowedNodes info = volume_nodes cl (Claim info) /\ AllowedNodes info <> Some [] /\
    PinnedNodes info = (if bool_decide (MountedNode info <> "") && single_attach info
                        then IntersectNodes (AllowedNodes info) (Some [MountedNode info])
                        else AllowedNodes info) /\
    AffinityHelmValues info = buildAffinityHelmValues (MountedNode info) (PinnedNodes info).
Proof using Ha.
  unfold newInfo. intros (claim & m1 & H1 & H)%exec_try.
  assert (claims cl ns name = Ok claim) as Hc.
  { destruct Ha as (Hg & _). unfold wrap_errf in H1.
    cbn [ask mbind io_bind io_bind_def exec snd] in H1. rewrite Hg in H1.
    by destruct (claims cl ns name); go_inv. }
  destruct (readAccessModes claim) as [[[rwo rox] rwx] rwop] eqn:Hm.
  apply exec_try in H as ([pod node] & m2 & H2 & H).
  apply exec_findMountedPod in H2 as (ps & Hps & Hr).
  destruct (reject && rwop && bool_decide (node <> "")) eqn:Hrej; [done|].
  apply exec_try in H as ([allowed pinned] & m3 & H3 & H). cbn [exec snd] in H. go_inv.
  apply exec_resolveTopology in H3 as (-> & Hne & ->). unfold single_attach. cbn.
  exists ps. rewrite Hm. repeat split; try done.
  - intros -> Hw. cbn in Hw. subst. cbn in Hrej. by apply bool_decide_eq_false, dec_stable in Hrej.
Qed.
End Answers.


(** A two-node cluster in which the answers to reads do not change. *)
Definition still (c : ClusterClient) (cl : cluster) : handler := fun X n e =>
  match e in call X return X with
  | GetPVC _ ns name => claims cl ns name
  | ListPods _ ns => pods cl ns
  | GetVolume _ name => volumes cl name
  | ListNodes _ => nodes cl
  | CtxErr => false
  | GetClusterClient _ _ => Ok c
  | LoadChart _ => Ok ()
  | GetStorageClass _ _ => Ok ""
  | GetSecret _ _ _ => Ok ∅
  | GetService _ _ _ => Ok ()
  | CanCreateNetworkPolicies _ _ => Ok true
  | GetServiceAddress _ _ _ _ => Ok ""
  | GetNodePort _ _ _ _ => Ok 30000%Z
  | GetNodeIP _ _ => Ok ""
  | GetAnyNodeIP _ => Ok ""
  | WaitForPod _ _ _ | WaitForPodReady _ _ _ _ => Ok (mkPod "" "" "" "" [])
  | WaitForJobStart _ _ _ | WaitForJobCompletion _ _ _ => Ok ()
  | CollectDiagnostics _ _ _ => ""
  | ListJobs _ _ => Ok []
  | GetJob _ ns name => Err (ErrNew "not found")
  | ListJobPods _ _ _ => Ok []
  | WaitForJobPod _ ns job => Ok (mkJobPod "" job ns "Succeeded" "" "" [])
  | WaitForPodTermination _ ns pod => Ok (mkJobPod "" pod ns "Succeeded" "" "" [])
  | GetJobPod _ _ _ => Err (ErrNew "not found")
  | TailPodLogs _ _ _ _ => Ok ""
  | FollowLogs _ _ _ => ()
  | StopFollower => Ok ()
  | BarRendered => false
  | MarkAsComplete => Ok ()
  | FinishBar => ()
  | Print _ => ()
  | Log _ _ _ => ()
  | CreateSSHKeyPair _ => Ok ("", "")
  | HelmInit _ _ => Ok ()
  | MergeUserValues _ _ _ _ => Ok []
  | MergeMaps base _ => base
  | HelmInstall _ _ _ _ _ _ => Installed
  | HelmUninstall _ _ _ _ => Uninstalled
  | RunLocalMigration _ _ _ _ _ _ => Ok ()
  | AwaitPort _ => Ok 40000%Z
  | SshParseKey _ | SshDial _ _ | SshListen _ | SshNewSession => Ok ()
  | SshRun _ => (None, [])
  | SshClose _ => ()
  | JoinSession => None
  | ListLabeledClaims _ _ => Ok []
  | ListLabeledSnapshots _ _ => Found []
  | Now => 0%Z
  | ListReleases _ _ _ => Ok []
  | ListReleaseJobs _ _ _ => Ok []
  | SnapshotNew _ | CheckClass _ | CreateSnapshot _ _ _ _ _ | WaitForCut _ _ _ | WaitReady _ _ _
  | CloneClaim _ _ _ _ | DeleteSnapshot _ _ | DeleteClaim _ _ => Ok ()
  | SessionOpen _ _ _ _ _ => Ok 0
  | SessionWrite _ _ | SessionWriteSecret _ _ | SessionWaitFor _ _ _ | SessionClose _ => Ok ()
  | SessionOutput _ => ""
  end.

Lemma still_answers c cl : answers (still c cl) c cl.
Proof. repeat split. Qed.

