(* ===== verification/Migration.v ===== *)
(** * internal/migration: a request, a migration, an attempt

    The structs of internal/migration/types.go.  Durations are their nanoseconds;
    the writer, the chart and the palette carry nothing the model reads. *)
From S2P Require Import Prelude World Pvc.
From stdpp Require Import options.

Record PVCInfo : Type := mkPVCInfo {
  KubeconfigPath : string;
  Context : string;
  pvc_Namespace : string;
  pvc_Name : string;
  Path : string
}.

Record Request : Type := mkRequest {
  ID : string;
  ImageTag : string;
  ChartVersion : string;
  Source : PVCInfo;
  Dest : PVCInfo;
  DeleteExtraneousFiles : bool;
  IgnoreMounted : bool;
  IgnoreSizes : bool;
  NoChown : bool;
  Detach : bool;
  Push : bool;
  NoCleanup : bool;
  NoCleanupOnFailure : bool;
  ShowProgressBar : bool;
  SourceMountReadWrite : bool;
  KeyAlgorithm : string;
  SSHReverseTunnelPort : Z;
  HelmTimeout : Z;
  HelmValuesFiles : list string;
  HelmValues : list string;
  HelmFileValues : list string;
  HelmStringValues : list string;
  Strategies : list string;
  DestHostOverride : string;
  LoadBalancerTimeout : Z;
  NoCompress : bool;
  NonRoot : bool;
  RsyncExtraArgs : string;
  Mover : string;
  StructuredLogs : bool;
  ColorOutput : bool
}.

Record Migration : Type := mkMigration {
  migration_Request : Request;
  SourceInfo : Info;
  DestInfo : Info
}.

Record DiagnosticTarget : Type := mkTarget { Release : string; Target_Info : Info }.

Record Attempt : Type := mkAttempt {
  Attempt_ID : string;
  HelmReleaseNamePrefix : string;
  Attempt_Migration : Migration;
  Detached : bool;
  ReleaseNames : list string;
  DiagnosticTargets : list DiagnosticTarget;
  Diagnostics : string
}.

(** Field updates of the mutable attempt. *)
Definition setReleaseNames (names : list string) (a : Attempt) : Attempt :=
  mkAttempt (Attempt_ID a) (HelmReleaseNamePrefix a) (Attempt_Migration a) (Detached a) names
    (DiagnosticTargets a) (Diagnostics a).
Definition setDetached (a : Attempt) : Attempt :=
  mkAttempt (Attempt_ID a) (HelmReleaseNamePrefix a) (Attempt_Migration a) true (ReleaseNames a)
    (DiagnosticTargets a) (Diagnostics a).
Definition addTarget (t : DiagnosticTarget) (a : Attempt) : Attempt :=
  mkAttempt (Attempt_ID a) (HelmReleaseNamePrefix a) (Attempt_Migration a) (Detached a)
    (ReleaseNames a) (DiagnosticTargets a ++ [t]) (Diagnostics a).
Definition setDiagnostics (d : string) (a : Attempt) : Attempt :=
  mkAttempt (Attempt_ID a) (HelmReleaseNamePrefix a) (Attempt_Migration a) (Detached a)
    (ReleaseNames a) (DiagnosticTargets a) d.

Definition MoverRsync : string := "rsync".
Definition MoverTar : string := "tar".
Definition Movers : list string := [MoverRsync; MoverTar].

(** ** Steps on an attempt: a fallible program that may change it *)

Definition act (A : Type) : Type := Attempt -> io (result A * Attempt).

Definition lift {A} (p : io (result A)) : act A := fun a => r ← p; Ret (r, a).
Definition modify (f : Attempt -> Attempt) : act () := fun a => Ret (Ok (), f a).
Definition failed {A} (e : error) : act A := fun a => Ret (Err e, a).
Definition done_with {A} (x : A) : act A := fun a => Ret (Ok x, a).
Definition act_bind {A B} (m : act A) (f : A -> act B) : act B := fun a =>
  ra ← m a;
  match ra.1 with
  | Ok x => f x ra.2
  | Err e => Ret (Err e, ra.2)
  end.
Definition act_wrap {A} (format : string) (m : act A) : act A := fun a =>
  ra ← m a; Ret (wrap_err format ra.1, ra.2).
Notation "x ←# m ; f" := (act_bind m (fun x => f))
  (at level 20, m at level 100, f at level 200, right associativity, only parsing) : go_scope.

Lemma wp_act_bind {A B} (m : act A) (f : A -> act B) a t Q :
  wp (act_bind m f a) t Q <->
  wp (m a) t (fun t ra => match ra.1 with
                          | Ok x => wp (f x ra.2) t Q
                          | Err e => Q t (Err e, ra.2)
                          end).
Proof.
  unfold act_bind. rewrite wp_bind.
  split; intros H; eapply wp_mono; try exact H; intros t' [[]]; done.
Qed.

Lemma wp_lift {A} (p : io (result A)) a t Q :
  wp (lift p a) t Q <-> wp p t (fun t r => Q t (r, a)).
Proof. unfold lift. by rewrite wp_bind. Qed.

Lemma wp_act_wrap {A} fmt (m : act A) a t Q :
  wp (act_wrap fmt m a) t Q <-> wp (m a) t (fun t ra => Q t (wrap_err fmt ra.1, ra.2)).
Proof. unfold act_wrap. by rewrite wp_bind. Qed.
