(* ===== verification/Mover.v ===== *)
(** * internal/strategy/mover.go: which program moves the data

    The command of a transfer together with the exit-code policy that reads its
    result: internal/strategy/mover.go, the rsync command builders of topology.go,
    mount.go and local.go, and the exit-code tables of internal/rsync,
    internal/archive and internal/rclone. *)
From S2P Require Import Prelude GoStrings Utf8 Posix Shell ShellLine Paths Rsync Archive World Pvc Migration.
From stdpp Require Import options.

(** ** Exit codes *)

Module RsyncExit.
Definition exitCodeMeanings : list (Z * string) :=
  [(1, "Syntax or usage error"); (2, "Protocol incompatibility");
   (3, "Errors selecting input/output files, dirs"); (4, "Requested action not supported");
   (5, "Error starting client-server protocol"); (6, "Daemon unable to append to log-file");
   (10, "Error in socket I/O"); (11, "Error in file I/O");
   (12, "Error in rsync protocol data stream"); (13, "Errors with program diagnostics");
   (14, "Error in IPC code"); (20, "Received SIGUSR1 or SIGINT");
   (21, "Some error returned by waitpid()"); (22, "Error allocating core memory buffers");
   (23, "Partial transfer due to error"); (24, "Partial transfer due to vanished source files");
   (25, "The --max-delete limit stopped deletions"); (30, "Timeout in data send/receive");
   (35, "Timeout waiting for daemon connection")]%Z.

Definition VanishedFilesExitCode : Z := 24.
Definition VanishedFilesMarker : string := "pv-migrate: some source files vanished during the transfer".
Definition ToleratedExitCodes : list Z := [VanishedFilesExitCode].
Definition NoRetryExitCodes : list Z := [1%Z].
Definition remoteShellExitCode : Z := 255.

Fixpoint meaning (table : list (Z * string)) (code : Z) : option string :=
  match table with
  | [] => None
  | (c, m) :: table => if decide (code = c) then Some m else meaning table code
  end.

Definition Interpret (code : Z) : string :=
  if decide (code = remoteShellExitCode) then
    "255 is not an rsync exit value: rsync passes through the status of the remote shell, and ssh uses 255 for its own errors"
  else match meaning exitCodeMeanings code with
       | None => ""
       | Some m => "rsync documents this exit code as: " +:+ m
       end.
End RsyncExit.

Module RcloneExit.
Definition exitCodeMeanings : list (Z * string) :=
  [(3, "Directory not found"); (4, "File not found")]%Z.

Definition Interpret (code : Z) : string :=
  match RsyncExit.meaning exitCodeMeanings code with
  | None => ""
  | Some m => "rclone documents this exit code as: " +:+ m
  end.
End RcloneExit.

Module ArchiveExit.
Definition ChangedFilesExitCode : Z := 1.
Definition ToleratedMarker : string := "pv-migrate: some files changed while tar was reading them".
Definition ToleratedExitCodes : list Z := [ChangedFilesExitCode].
Definition NoRetryExitCodes : list Z := [].

Definition Interpret (code : Z) : string :=
  if decide (code = 0)%Z then ""
  else if decide (code = ChangedFilesExitCode) then
    "some files changed while tar was reading them, or differ from the archive"
  else if decide (code = 2)%Z then
    "tar hit a fatal error, such as a path it could not open or a truncated stream"
  else "".
End ArchiveExit.

(** ** The policy and the command *)

Record moverPolicy : Type := mkPolicy {
  tolerated : list Z;
  noRetry : list Z;
  marker : string;
  interpret : Z -> string
}.

Record moverCommand : Type := mkMover { command : string; policy : moverPolicy }.

Definition tolerates (p : moverPolicy) (code : Z) : bool := bool_decide (code ∈ tolerated p).

Definition shellPattern (codes : list Z) : string := Join (Itoa <$> codes) "|".

Definition mover_values (m : moverCommand) : values :=
  [("command", VStr (command m)); ("toleratedExitCodes", VStr (shellPattern (tolerated (policy m))));
   ("toleratedMarker", VStr (marker (policy m)));
   ("noRetryExitCodes", VStr (shellPattern (noRetry (policy m))))].

Definition rsyncPolicy : moverPolicy :=
  mkPolicy RsyncExit.ToleratedExitCodes RsyncExit.NoRetryExitCodes
    (RsyncExit.VanishedFilesMarker +:+ "; treated as success") RsyncExit.Interpret.

Definition tarPolicy : moverPolicy :=
  mkPolicy ArchiveExit.ToleratedExitCodes ArchiveExit.NoRetryExitCodes
    (ArchiveExit.ToleratedMarker +:+ "; treated as success") ArchiveExit.Interpret.

Definition rsyncMover (command : string) : moverCommand := mkMover command rsyncPolicy.
Definition tarMover (command : string) : moverCommand := mkMover command tarPolicy.

Definition moverKind (req : Request) : result string :=
  if decide (Mover req = "" \/ Mover req = MoverRsync) then Ok MoverRsync
  else if decide (Mover req = MoverTar) then Ok MoverTar
  else Err (Errorf "unknown --mover %q, expected one of: %s"
              [AStr (Mover req); AStr (Join Movers ", ")]).

Definition checkTarFlags (req : Request) : result () :=
  fail_if (bool_decide (RsyncExtraArgs req <> ""))
    (Errorf "--rsync-extra-args names raw rsync flags, and --mover %s runs tar instead" [AStr MoverTar]).

Definition CheckMoverFlags (req : Request) : result () :=
  kind ← moverKind req;
  if decide (kind <> MoverTar) then Ok () else checkTarFlags req.

Definition tarCompression (req : Request) : string :=
  if NoCompress req then CompressionNone else CompressionZstd.

Definition rootSSHUser : string := "root".
Definition nonRootSSHUser : string := "pvmigrate".
Definition rootSSHPort : Z := 22.
Definition nonRootSSHPort : Z := 2222.

Definition sshUser (req : Request) : string := if NonRoot req then nonRootSSHUser else rootSSHUser.
Definition sshPort (req : Request) : Z := if NonRoot req then nonRootSSHPort else rootSSHPort.

(** ** The rsync commands *)

(** [resolveMountPaths] of a request. *)
Definition mountPaths (req : Request) : result (string * string) :=
  resolveMountPaths (Path (Source req)) (Path (Dest req)).

(** The fields of [rsync.Cmd] the three builders set alike. *)
Definition rsyncCmd (req : Request) (srcPath destPath : string) (port : Z) (srcSSH destSSH : bool)
    (srcUser srcHost destUser destHost : string) (compress : bool) : Rsync.Cmd :=
  Rsync.mkCmd port (NoChown req) (NonRoot req) (DeleteExtraneousFiles req) srcSSH destSSH
    srcUser srcHost srcPath destUser destHost destPath compress (RsyncExtraArgs req).

Definition sshRsyncCmd (req : Request) (push : bool) (sshHost : string) (port : Z)
    (srcPath destPath : string) : Rsync.Cmd :=
  if push
  then rsyncCmd req srcPath destPath port false true "" "" (sshUser req) sshHost (negb (NoCompress req))
  else rsyncCmd req srcPath destPath port true false (sshUser req) sshHost "" "" (negb (NoCompress req)).

Definition buildRsyncCmdString (req : Request) (push : bool) (sshHost : string) (port : Z)
  : result string :=
  paths ← mountPaths req;
  wrap_err "failed to build rsync command: %w"
    (Rsync.Build (sshRsyncCmd req push sshHost port paths.1 paths.2)).

Definition buildRsyncCmdMount (req : Request) : result string :=
  paths ← mountPaths req;
  wrap_err "failed to build rsync command: %w"
    (Rsync.Build (rsyncCmd req paths.1 paths.2 0 false false "" "" "" "" false)).

Definition buildRsyncCmdLocal (req : Request) : result string :=
  paths ← mountPaths req;
  wrap_err "failed to build rsync command: %w"
    (Rsync.Build (rsyncCmd req paths.1 paths.2 (SSHReverseTunnelPort req) false true
                    "" "" (sshUser req) "localhost" (negb (NoCompress req)))).

(** ** The mover of each kind of transfer *)

Definition tarTransfer (req : Request) (push : bool) (sshHost : string) (port : Z)
    (srcPath destPath : string) : TransferCmd.t :=
  TransferCmd.mk push (sshUser req) sshHost port srcPath destPath (tarCompression req) 0
    (DeleteExtraneousFiles req) false.

Definition buildMoverCmdSSH (req : Request) (push : bool) (sshHost : string) (port : Z)
  : result moverCommand :=
  kind ← moverKind req;
  if decide (kind <> MoverTar) then rsyncMover <$> buildRsyncCmdString req push sshHost port
  else
    _ ← checkTarFlags req;
    paths ← mountPaths req;
    tarMover <$> wrap_err "failed to build tar command: %w"
      (TransferCmd.Build (tarTransfer req push sshHost port paths.1 paths.2)).

Definition buildMoverCmdLocal (req : Request) : result moverCommand :=
  kind ← moverKind req;
  if decide (kind <> MoverTar) then rsyncMover <$> buildRsyncCmdMount req
  else
    _ ← checkTarFlags req;
    paths ← mountPaths req;
    tarMover <$> wrap_err "failed to build tar command: %w"
      (TransferCmd.Build (TransferCmd.mk false "" "" 0 paths.1 paths.2 "" 0
                            (DeleteExtraneousFiles req) true)).

Definition buildMoverCmdSSHSession (req : Request) : result moverCommand :=
  kind ← moverKind req;
  if decide (kind <> MoverTar) then rsyncMover <$> buildRsyncCmdLocal req
  else
    _ ← checkTarFlags req;
    paths ← mountPaths req;
    tarMover <$> wrap_err "failed to build tar command: %w"
      (TransferCmd.Build (tarTransfer req true "localhost" (SSHReverseTunnelPort req) paths.1 paths.2)).

(** ** The local session, which applies the policy itself *)

(** [completeMoverSession]: the session's failure, and whether it was one the
    mover documents as a success with caveats.  [exitStatus] is what
    [errors.As] finds on the session's error. *)
Section Session.
Variable exitStatus : error -> option Z.

Definition isToleratedExit (p : moverPolicy) (runErr : error) : bool :=
  match exitStatus runErr with Some code => tolerates p code | None => false end.

Definition completeMoverSession (runErr : option error) (p : moverPolicy) (marked : result ())
  : result () * bool :=
  match runErr with
  | Some e => if negb (isToleratedExit p e) then (Err (Errorf "%w" [AType "*moverRunError"; AWrap e]), false)
              else (marked, true)
  | None => (marked, false)
  end.

Definition moverSessionError (p : moverPolicy) (runErr : error) (recentLines : list string) : error :=
  let err := Errorf "data mover session failed: %w" [AWrap runErr] in
  let err := match exitStatus runErr with
             | Some code =>
                 if decide (interpret p code <> "")
                 then Errorf "%w (%s)" [AWrap err; AStr (interpret p code)] else err
             | None => err
             end in
  if decide (recentLines = []) then err
  else Errorf "%w\nlast lines of rsync output:\n%s"
         [AWrap err; AStr (Join recentLines (String (ascii_of_nat 10) ""))].
End Session.

(** ** Specification *)

(** The three places a transfer command is built for. *)
Inductive place : Type :=
  | OverSSH (push : bool) (host : string) (port : Z)
  | OnePod
  | LocalSession.

Definition build (p : place) (req : Request) : result moverCommand :=
  match p with
  | OverSSH push host port => buildMoverCmdSSH req push host port
  | OnePod => buildMoverCmdLocal req
  | LocalSession => buildMoverCmdSSHSession req
  end.

Definition rsync_of (p : place) (req : Request) (src dst : string) : Rsync.Cmd :=
  match p with
  | OverSSH push host port => sshRsyncCmd req push host port src dst
  | OnePod => rsyncCmd req src dst 0 false false "" "" "" "" false
  | LocalSession => rsyncCmd req src dst (SSHReverseTunnelPort req) false true
                      "" "" (sshUser req) "localhost" (negb (NoCompress req))
  end.

Definition tar_of (p : place) (req : Request) (src dst : string) : TransferCmd.t :=
  match p with
  | OverSSH push host port => tarTransfer req push host port src dst
  | OnePod => TransferCmd.mk false "" "" 0 src dst "" 0 (DeleteExtraneousFiles req) true
  | LocalSession => tarTransfer req true "localhost" (SSHReverseTunnelPort req) src dst
  end.

(** ** Lemmas *)

(** All three builders have this shape. *)
Lemma build_shape p req :
  build p req =
    (kind ← moverKind req;
     if decide (kind <> MoverTar) then
       paths ← mountPaths req;
       rsyncMover <$> wrap_err "failed to build rsync command: %w"
         (Rsync.Build (rsync_of p req paths.1 paths.2))
     else
       _ ← checkTarFlags req;
       paths ← mountPaths req;
       tarMover <$> wrap_err "failed to build tar command: %w"
         (TransferCmd.Build (tar_of p req paths.1 paths.2))).
Proof.
  destruct p; cbn [build]; unfold buildMoverCmdSSH, buildMoverCmdLocal, buildMoverCmdSSHSession,
    buildRsyncCmdString, buildRsyncCmdMount, buildRsyncCmdLocal;
    destruct (moverKind req); cbn [mbind result_bind]; try done; case_decide; try done;
    by destruct (mountPaths req).
Qed.

Lemma fmap_Ok {A B} (f : A -> B) (m : result A) b : (f <$> m) = Ok b <-> exists a, m = Ok a /\ b = f a.
Proof. destruct m; cbn; naive_solver. Qed.

Lemma moverKind_Ok req kind :
  moverKind req = Ok kind <->
  (kind = MoverRsync /\ (Mover req = "" \/ Mover req = MoverRsync)) \/
  (kind = MoverTar /\ Mover req = MoverTar).
Proof.
  unfold moverKind, MoverRsync, MoverTar. repeat case_decide; split; intros Hx;
    try discriminate Hx; try (apply Ok_inj in Hx; subst); intuition congruence.
Qed.

Lemma rsync_of_extra p req src dst : Rsync.ExtraArgs (rsync_of p req src dst) = RsyncExtraArgs req.
Proof. destruct p as [[]| |]; reflexivity. Qed.

(** C14: the command a Job or session runs, whichever strategy built it.  It is
    the program the request named, never another; the policy that will read its
    exit status is that program's; both paths lie inside their volumes; and the
    shell cuts the command into that program's arguments for this place, with
    raw rsync flags only when the program is rsync. *)
Theorem mover_command_runs p req m :
  build p req = Ok m ->
  exists src dst, mountPaths req = Ok (src, dst) /\
  head (walk [] src) = Some "source" /\ head (walk [] dst) = Some "dest" /\
  (((Mover req = "" \/ Mover req = MoverRsync) /\ policy m = rsyncPolicy /\
    forall extra, shell_words (RsyncExtraArgs req) = Some extra ->
      shell_words (command m) = Some (Rsync.argv (rsync_of p req src dst) extra)) \/
   (Mover req = MoverTar /\ RsyncExtraArgs req = "" /\ policy m = tarPolicy /\
    exists program, TransferCmd.compressor (tar_of p req src dst) = Ok program /\
      let c := tar_of p req src dst in
      shell_words (command m) = Some (line_tokens (transfer_line c program (remote_text c program))))).
Proof.
  rewrite build_shape. intros (kind & Hk & H)%bind_Ok. apply moverKind_Ok in Hk.
  destruct (decide (kind <> MoverTar)) as [Hn|Hn].
  - apply bind_Ok in H as ([src dst] & Hp & H). apply fmap_Ok in H as (s & Hs & ->).
    apply wrap_err_Ok in Hs. exists src, dst. split; [done|].
    destruct (resolveMountPaths_inside _ _ _ _ Hp) as [H1 H2]. split; [done|]. split; [done|].
    left. split; [naive_solver|]. split; [done|]. intros extra He. cbn [command rsyncMover fst snd] in *.
    apply (Rsync.Build_words _ _ _ Hs). by rewrite rsync_of_extra.
  - apply dec_stable in Hn as ->. apply bind_Ok in H as (u & Hu & H).
    apply bind_Ok in H as ([src dst] & Hp & H). apply fmap_Ok in H as (s & Hs & ->).
    apply wrap_err_Ok in Hs. exists src, dst. split; [done|].
    destruct (resolveMountPaths_inside _ _ _ _ Hp) as [H1 H2]. split; [done|]. split; [done|].
    right. split; [unfold MoverRsync, MoverTar in *; intuition congruence|].
    apply fail_if_Ok, bool_decide_eq_false, dec_stable in Hu. split; [done|]. split; [done|].
    apply transfer_words in Hs as (program & Hc & Hw). by exists program.
Qed.

(** A request with nothing set but its paths. *)
Definition plain_request (mover src dst : string) (push : bool) : Request :=
  mkRequest "" "" "" (mkPVCInfo "" "" "" "a" src) (mkPVCInfo "" "" "" "b" dst) false false false false
    false push false false false false "ed25519" 50000 0 [] [] [] [] [] "" 0 false false "" mover
    false false.

Lemma mover_command_runs_witness :
  let req := plain_request "tar" "db/" "restore" true in
  exists m, build (OverSSH true "10.0.0.1" 22) req = Ok m /\
  exists src dst, mountPaths req = Ok (src, dst) /\
  head (walk [] src) = Some "source" /\ head (walk [] dst) = Some "dest" /\
  (((Mover req = "" \/ Mover req = MoverRsync) /\ policy m = rsyncPolicy /\
    forall extra, shell_words (RsyncExtraArgs req) = Some extra ->
      shell_words (command m)
      = Some (Rsync.argv (rsync_of (OverSSH true "10.0.0.1" 22) req src dst) extra)) \/
   (Mover req = MoverTar /\ RsyncExtraArgs req = "" /\ policy m = tarPolicy /\
    exists program, TransferCmd.compressor (tar_of (OverSSH true "10.0.0.1" 22) req src dst) = Ok program /\
      let c := tar_of (OverSSH true "10.0.0.1" 22) req src dst in
      shell_words (command m) = Some (line_tokens (transfer_line c program (remote_text c program))))).
Proof.
  intros req. eexists. split; [vm_compute; reflexivity|].
  apply (mover_command_runs (OverSSH true "10.0.0.1" 22) req). vm_compute. reflexivity.
Defined.

(** The preflight check settles the mover flags for every strategy.  What
    [CheckMoverFlags] refuses, each builder would refuse with the same error;
    what it accepts, no builder refuses over the mover or its flags: it fails
    only over a path or a value the command could not carry. *)
Theorem CheckMoverFlags_settles p req :
  match CheckMoverFlags req with
  | Err e => build p req = Err e
  | Ok _ =>
      build p req =
        (paths ← mountPaths req;
         if decide (Mover req = MoverTar)
         then tarMover <$> wrap_err "failed to build tar command: %w"
                (TransferCmd.Build (tar_of p req paths.1 paths.2))
         else rsyncMover <$> wrap_err "failed to build rsync command: %w"
                (Rsync.Build (rsync_of p req paths.1 paths.2)))
  end.
Proof.
  rewrite build_shape. unfold CheckMoverFlags. destruct (moverKind req) as [kind|e] eqn:Hk; [|done].
  cbn [mbind result_bind]. apply moverKind_Ok in Hk.
  destruct (decide (kind <> MoverTar)) as [Hn|Hn].
  - assert (Mover req <> MoverTar) as Hm by (unfold MoverRsync, MoverTar in *; intuition congruence).
    destruct (mountPaths req); [|done]. cbn [mbind result_bind]. by rewrite decide_False.
  - apply dec_stable in Hn as ->. destruct (checkTarFlags req); [|done]. cbn [mbind result_bind].
    destruct (mountPaths req); [|done]. cbn [mbind result_bind].
    rewrite decide_True; [done|]. unfold MoverRsync, MoverTar in *. intuition congruence.
Qed.
