(* ===== verification/HelmValues.v ===== *)
(** * Helm values: internal/helm/values.go and the values of the strategies

    The values each strategy hands to its releases (internal/strategy/topology.go,
    mount.go, local.go, strategy.go) and the adjustments made to them before an
    install: the non-root settings and the network policies the account may not
    create. *)
From S2P Require Import Prelude GoStrings World Pvc Migration Mover.
From stdpp Require Import options.

Definition rsyncComponent : string := "rsync".
Definition sshdComponent : string := "sshd".
Definition keyEnabled : string := "enabled".
Definition keyNamespace : string := "namespace".
Definition keyNetworkPolicy : string := "networkPolicy".
Definition keyPublicKey : string := "publicKey".
Definition keyPVCMounts : string := "pvcMounts".
Definition keyName : string := "name".
Definition keyMountPath : string := "mountPath".
Definition keyReadOnly : string := "readOnly".
Definition keyAffinity : string := "affinity".

(** [v.(map[string]any)] on a map read, which may miss the key. *)
Definition as_map (v : option value) : option values :=
  match v with Some (VMap m) => Some m | _ => None end.

(** [m[k] == true], [m[k] == false] on an [any]. *)
Definition is_bool (b : bool) (v : option value) : bool :=
  match v with Some (VBool b') => bool_decide (b = b') | _ => false end.

Definition EnabledComponent (vals : values) (component : string) : option values :=
  match as_map (get vals component) with
  | Some section => if is_bool true (get section keyEnabled) then Some section else None
  | None => None
  end.

Definition ComponentNamespace (section : values) : string :=
  match get section keyNamespace with Some (VStr ns) => ns | _ => "" end.

Definition NetworkPolicyOn (section : values) : bool :=
  match as_map (get section keyNetworkPolicy) with
  | Some policy => negb (is_bool false (get policy keyEnabled))
  | None => true
  end.

Definition namespaceToCheck (section : values) : string :=
  if negb (is_bool true (get section keyEnabled)) then ""
  else if negb (NetworkPolicyOn section) then ""
  else ComponentNamespace section.

Definition networkPoliciesAllowed (c : ClusterClient) (namespace : string) : io bool :=
  r ← ask (CanCreateNetworkPolicies c namespace);
  Ret (match r with Ok allowed => allowed | Err _ => false end).

(** [slices.Sorted]: insertion by the byte order of strings. *)
Fixpoint insert_sorted (k : string) (l : list string) : list string :=
  match l with
  | [] => [k]
  | x :: l' => if String.leb k x then k :: l else x :: insert_sorted k l'
  end.
Definition sorted_keys (vals : values) : list string := foldr insert_sorted [] vals.*1.

(** The policy switched off, a missing policy map being created. *)
Definition policy_off (section : values) : values :=
  let policy := default [] (as_map (get section keyNetworkPolicy)) in
  set section keyNetworkPolicy (VMap (set policy keyEnabled (VBool false))).

Fixpoint assoc_get (l : list (string * bool)) (k : string) : option bool :=
  match l with
  | [] => None
  | (k', v) :: l => if decide (k = k') then Some v else assoc_get l k
  end.

Fixpoint disable_loop (c : ClusterClient) (components : list string)
    (cache : list (string * bool)) (vals : values) : io values :=
  match components with
  | [] => Ret vals
  | component :: components =>
      match as_map (get vals component) with
      | None => disable_loop c components cache vals
      | Some section =>
          let namespace := namespaceToCheck section in
          if decide (namespace = "") then disable_loop c components cache vals
          else
            ac ← match assoc_get cache namespace with
                 | Some allowed => Ret (allowed, cache)
                 | None => allowed ← networkPoliciesAllowed c namespace;
                           Ret (allowed, (namespace, allowed) :: cache)
                 end;
            let '(allowed, cache) := ac : bool * list (string * bool) in
            if allowed then disable_loop c components cache vals
            else disable_loop c components cache (set vals component (VMap (policy_off section)))
      end
  end.

Definition DisableNetworkPoliciesWhereForbidden (c : ClusterClient) (vals : values) : io values :=
  disable_loop c (sorted_keys vals) [] vals.

(** ** Values of the components *)

(** One side of a transfer: where a component runs and what it mounts. *)
Record componentSide : Type := mkSide {
  side_info : Info;
  side_mountPath : string;
  side_readOnly : bool
}.

(** A possibly nil map as a value. *)
Definition opt_map (m : option values) : value :=
  match m with Some m => VMap m | None => VNil end.

Definition mount_entry (side : componentSide) : value :=
  VMap [(keyName, VStr (Name (Claim (side_info side)))); (keyReadOnly, VBool (side_readOnly side));
        (keyMountPath, VStr (side_mountPath side))].

Definition buildSshdHelmValues (side : componentSide) (publicKey : string) : values :=
  [(keyEnabled, VBool true); (keyNamespace, VStr (Namespace (Claim (side_info side))));
   (keyPublicKey, VStr publicKey); (keyPVCMounts, VList [mount_entry side]);
   (keyAffinity, opt_map (AffinityHelmValues (side_info side)))].

Definition buildRsyncHelmValues (side : componentSide) (mover : moverCommand)
    (privateKey privateKeyMountPath : string) : values :=
  copy_into
    [(keyEnabled, VBool true); (keyNamespace, VStr (Namespace (Claim (side_info side))));
     ("privateKeyMount", VBool true); ("privateKey", VStr privateKey);
     ("privateKeyMountPath", VStr privateKeyMountPath); (keyPVCMounts, VList [mount_entry side]);
     (keyAffinity, opt_map (AffinityHelmValues (side_info side)))]
    (mover_values mover).

Definition sshdReleaseValues (side : componentSide) (publicKey serviceType : string) : values :=
  [(sshdComponent, VMap (set (buildSshdHelmValues side publicKey) "service"
                           (VMap [("type", VStr serviceType)])))].

Definition srcSide (mig : Migration) : componentSide :=
  mkSide (SourceInfo mig) "/source" (negb (SourceMountReadWrite (migration_Request mig))).
Definition destSide (mig : Migration) : componentSide := mkSide (DestInfo mig) "/dest" false.

(** ** Adjustments before an install *)

(** Updating the map stored under a key, when there is one. *)
Definition update_section (vals : values) (component : string) (f : values -> values) : values :=
  match as_map (get vals component) with
  | Some section => set vals component (VMap (f section))
  | None => vals
  end.

Definition nonRootUID : Z := 10000.

Definition applyNonRootValues (vals : values) (req : Request) : values :=
  if negb (NonRoot req) then vals
  else
    let nonRootSecCtx := VMap [("runAsNonRoot", VBool true); ("runAsUser", VInt nonRootUID);
                               ("runAsGroup", VInt nonRootUID);
                               ("allowPrivilegeEscalation", VBool false)] in
    let nonRootPodSecCtx := VMap [("fsGroup", VInt nonRootUID)] in
    let secure (section : values) :=
      set (set section "securityContext" nonRootSecCtx) "podSecurityContext" nonRootPodSecCtx in
    let vals := update_section vals sshdComponent secure in
    let vals := update_section vals rsyncComponent secure in
    update_section vals sshdComponent (fun sshd =>
      set (set sshd "containerPort" (VInt nonRootSSHPort))
        "publicKeyMountPath" (VStr "/home/pvmigrate/.ssh/authorized_keys")).

Definition imageTagValues (req : Request) : list string :=
  if decide (ImageTag req = "") then HelmValues req
  else ["rsync.image.tag=" +:+ ImageTag req; "sshd.image.tag=" +:+ ImageTag req] ++ HelmValues req.

Definition getMergedHelmValues (base : values) (req : Request) : io (result values) :=
  user ←! wrap "failed to merge helm values: %w"
            (ask (MergeUserValues (HelmValuesFiles req) (imageTagValues req)
                    (HelmStringValues req) (HelmFileValues req)));
  merged ← ask (MergeMaps base user);
  Ret (Ok merged).

Definition installsLoadBalancer (vals : values) : bool :=
  match as_map (get vals sshdComponent) with
  | Some sshd =>
      if negb (is_bool true (get sshd keyEnabled)) then false
      else match as_map (get sshd "service") with
           | Some service => match get service "type" with
                             | Some (VStr t) => bool_decide (t = "LoadBalancer")
                             | _ => false
                             end
           | None => false
           end
  | None => false
  end.
