(* ===== verification/Chart.v ===== *)
(** * internal/helm/pv-migrate/values.yaml: what the chart takes

    The chart declares every value its templates read in values.yaml, with a
    default of the value's type; a value the program sets under another name is read
    by nothing, and one of another type breaks a template.  [field] is that file as
    a table, [fits] is the typing.  A map that is empty there ([{}]) is copied into
    an object as it is, so any map will do ([Open]); the fields of a mount are those
    the templates read. *)
From S2P Require Import Prelude World.
From stdpp Require Import options.

Inductive shape : Type :=
  | Str
  | Int
  | Bool
  | Open
  | ListOf (s : shape)
  | Fields (fs : list (string * shape)).

(** [null] takes a default away, so it is a map that is not there. *)
Fixpoint fits (s : shape) (v : value) : bool :=
  match s, v with
  | Str, VStr _ | Int, VInt _ | Bool, VBool _ => true
  | Open, (VMap _ | VNil) => true
  | ListOf s, VList l => forallb (fits s) l
  | Fields fs, VMap m =>
      forallb (fun kv : string * value =>
        existsb (fun f : string * shape => bool_decide (f.1 = kv.1) && fits f.2 kv.2) fs) m
  | _, _ => false
  end.

(** What the three components have in common. *)
Definition common : list (string * shape) := [
  ("enabled", Bool);
  ("image", Fields [("repository", Str); ("pullPolicy", Str); ("tag", Str)]);
  ("imagePullSecrets", ListOf Open);
  ("serviceAccount", Fields [("create", Bool); ("annotations", Open); ("name", Str)]);
  ("podAnnotations", Open); ("podLabels", Open); ("podSecurityContext", Open); ("securityContext", Open);
  ("resources", Open); ("nodeName", Str); ("nodeSelector", Open); ("tolerations", ListOf Open); ("affinity", Open);
  ("networkPolicy", Fields [("enabled", Bool)]);
  ("namespace", Str);
  ("pvcMounts", ListOf (Fields [("name", Str); ("readOnly", Bool); ("mountPath", Str)]))
].

Definition private_key : list (string * shape) :=
  [("privateKeyMount", Bool); ("privateKeyMountPath", Str); ("privateKey", Str)].

Definition job : list (string * shape) := [
  ("restartPolicy", Str); ("backoffLimit", Int); ("ttlSecondsAfterFinished", Int); ("jobLabels", Open);
  ("jobAnnotations", Open); ("maxRetries", Int); ("retryPeriodSeconds", Int); ("command", Str); ("extraArgs", Str)
].

Definition sshd_fields : list (string * shape) :=
  common ++ private_key ++ [
  ("containerPort", Int);
  ("service", Fields [("type", Str); ("port", Int); ("nodePort", Int); ("annotations", Open); ("loadBalancerIP", Str);
                      ("loadBalancerClass", Str)]);
  ("deploymentLabels", Open); ("deploymentAnnotations", Open);
  ("publicKeyMount", Bool); ("publicKeyMountPath", Str); ("publicKey", Str)
].

Definition rsync_fields : list (string * shape) :=
  common ++ private_key ++ job ++ [
  ("toleratedExitCodes", Str); ("toleratedMarker", Str); ("noRetryExitCodes", Str)
].

Definition rclone_fields : list (string * shape) :=
  common ++ job ++ [
  ("configMount", Bool); ("configMountPath", Str); ("config", Str); ("jobSuffix", Str);
  ("metadataBase64", Str); ("metadataRemotePath", Str); ("metadataLocalPath", Str)
].

Definition fields_of (component : string) : list (string * shape) :=
  if decide (component = "sshd") then sshd_fields
  else if decide (component = "rsync") then rsync_fields
  else if decide (component = "rclone") then rclone_fields
  else [].

(** Two values of the rsync component that topology.go sets and the chart does not
    have. *)
Definition undeclared (component : string) : list string :=
  if decide (component = "rsync") then ["sshRemoteHost"; "sshRemotePort"] else [].

(** ** Values that fit *)

Definition field (component key : string) : option shape :=
  snd <$> List.find (fun f : string * shape => String.eqb f.1 key) (fields_of component).

Definition entry_fits (component : string) (kv : string * value) : bool :=
  bool_decide (kv.1 ∈ undeclared component) ||
  match field component kv.1 with Some shape => fits shape kv.2 | None => false end.

Definition section_fits (component : string) (section : values) : Prop := Forall (entry_fits component) section.

(** Every section is one of a component of the chart, and fits it. *)
Definition chart_fits (vals : values) : Prop :=
  Forall (fun kv => exists section, kv.2 = VMap section /\ kv.1 ∈ ["sshd"; "rsync"; "rclone"] /\ section_fits kv.1 section) vals.

(** ** Lemmas *)

Lemma Forall_set (P : string * value -> Prop) m k v : Forall P m -> P (k, v) -> Forall P (set m k v).
Proof.
  intros Hm Hk. induction Hm as [|[k' v'] m Hp Hm IH]; cbn; [by repeat constructor|].
  case_decide; by constructor.
Qed.

Lemma Forall_copy_into (P : string * value -> Prop) src : forall dst, Forall P dst -> Forall P src -> Forall P (copy_into dst src).
Proof.
  unfold copy_into. induction src as [|[k v] src IH]; intros dst Hd Hs; [done|].
  apply Forall_cons in Hs as [Hk Hs]. cbn. apply IH; [|done]. by apply Forall_set.
Qed.

Lemma get_in m k v : get m k = Some v -> (k, v) ∈ m.
Proof.
  induction m as [|[k' v'] m IH]; cbn; [done|]. case_decide; [intros [= ->]; subst; by left|]. intros Hg. right. auto.
Qed.

Lemma section_fits_set c section k v : section_fits c section -> entry_fits c (k, v) -> section_fits c (set section k v).
Proof. apply (Forall_set (fun kv => entry_fits c kv)). Qed.

Lemma chart_fits_section vals c section : chart_fits vals -> get vals c = Some (VMap section) ->
  c ∈ ["sshd"; "rsync"; "rclone"] /\ section_fits c section.
Proof.
  unfold chart_fits. rewrite Forall_forall. intros H Hg. destruct (H _ (get_in _ _ _ Hg)) as (s & E & Hc & Hs).
  cbn in *. by injection E as ->.
Qed.

Lemma chart_fits_set vals c section : chart_fits vals -> c ∈ ["sshd"; "rsync"; "rclone"] -> section_fits c section ->
  chart_fits (set vals c (VMap section)).
Proof. intros Hv Hc Hs. apply Forall_set; [done|]. by exists section. Qed.

Lemma entry_fits_field c k s v : field c k = Some s -> fits s v = true -> entry_fits c (k, v).
Proof. intros Hf Hv. apply Is_true_true. unfold entry_fits. cbn [fst snd]. by rewrite Hf, Hv, orb_true_r. Qed.

Lemma fits_entry c k s v : field c k = Some s -> bool_decide (k ∈ undeclared c) = false -> entry_fits c (k, v) -> fits s v = true.
Proof. intros Hf Hk Hv. apply Is_true_true in Hv. unfold entry_fits in Hv. cbn [fst snd] in Hv. by rewrite Hf, Hk in Hv. Qed.

(** The components of the chart, one by one. *)
Lemma each_component (P : string -> Prop) c : c ∈ ["sshd"; "rsync"; "rclone"] -> P "sshd" -> P "rsync" -> P "rclone" -> P c.
Proof.
  intros Hc H1 H2 H3. repeat (apply elem_of_cons in Hc as [->|Hc]; [done|]). by apply elem_of_nil in Hc.
Qed.

Definition policy_shape : shape := Fields [("enabled", Bool)].
Lemma policy_field c : c ∈ ["sshd"; "rsync"; "rclone"] ->
  field c "networkPolicy" = Some policy_shape /\ bool_decide ("networkPolicy" ∈ undeclared c) = false.
Proof. intros Hc. revert c Hc. intros c Hc. pattern c. by apply each_component. Qed.

Lemma Fields_set fs m k v s : fits (Fields fs) (VMap m) = true -> (k, s) ∈ fs -> fits s v = true ->
  fits (Fields fs) (VMap (set m k v)) = true.
Proof.
  cbn. rewrite !forallb_forall. intros Hm Hk Hv kv Hin. apply list_elem_of_In in Hin. revert kv Hin.
  apply Forall_forall, Forall_set; [apply Forall_forall; intros kv Hin; apply Hm; by apply list_elem_of_In|].
  apply existsb_exists. exists (k, s). split; [by apply list_elem_of_In|]. cbn. by rewrite bool_decide_true, Hv.
Qed.
