(* ===== verification/ChartFiles.v ===== *)
(** * internal/helm/helm.go: the embedded chart

    [LoadChart] walks the chart that is embedded in the program, hands its files to
    Helm's loader under their paths below the chart, and puts the program's version
    in.  The loader is Helm's, a parameter. *)
From S2P Require Import Prelude GoStrings.
From stdpp Require Import options.

(** An embedded directory, its entries in the order of [fs.ReadDir]. *)
Inductive tree : Type :=
  | File (data : string)
  | Dir (entries : list (string * tree)).

Definition rootDir : string := "pv-migrate".

(** [fs.WalkDir] over what is embedded, whose reads do not fail: the files with
    their paths. *)
Fixpoint walk (path : string) (t : tree) : list (string * string) :=
  match t with
  | File data => [(path, data)]
  | Dir entries => concat (map (fun e : string * tree => walk (path +:+ "/" +:+ e.1) e.2) entries)
  end.

(** [filepath.Rel] for a path below the base; anything else would be an error. *)
Definition Rel (base path : string) : result string :=
  match CutPrefix path (base +:+ "/") with
  | Some rest => Ok rest
  | None => if decide (path = base) then Ok "." else Err (ErrNew "Rel: can't make path relative")
  end.

Record BufferedFile : Type := mkFile { Name : string; Data : string }.

Definition buffered (f : string * string) : result BufferedFile :=
  relativePath ← wrap_err "failed to relativize path: %w" (Rel rootDir f.1);
  Ok (mkFile relativePath f.2).

Definition chartAsBufferedFiles (chartFS : tree) : result (list BufferedFile) :=
  wrap_err "failed to walk chart directory: %w" (mapM buffered (walk rootDir chartFS)).

Record Metadata : Type := mkMetadata { Version : string; AppVersion : string }.

Section Load.
Context {Templates : Type} (LoadFiles : list BufferedFile -> result (Metadata * Templates)).

Definition LoadChart (chartFS : tree) (version : string) : result (Metadata * Templates) :=
  files ← wrap_err "failed to get chart files: %w" (chartAsBufferedFiles chartFS);
  helmChart ← wrap_err "failed to load chart: %w" (LoadFiles files);
  Ok (if decide (version = "") then helmChart else (mkMetadata version version, helmChart.2)).
End Load.

(** ** Lemmas *)

(** Induction over the entries of the directories too. *)
Lemma tree_ind' (P : tree -> Prop) :
  (forall data, P (File data)) -> (forall entries, Forall (fun e => P e.2) entries -> P (Dir entries)) -> forall t, P t.
Proof.
  intros Hf Hd. fix IH 1. intros [data|entries]; [apply Hf|]. apply Hd. induction entries as [|e entries IHe]; by constructor.
Qed.

(** Below another directory the paths are those below it, prefixed. *)
Lemma walk_below base path t : walk (base +:+ "/" +:+ path) t = (fun f => (base +:+ "/" +:+ f.1, f.2)) <$> walk path t.
Proof.
  revert path. induction t as [data|entries IH] using tree_ind'; intros path; [done|]. cbn.
  induction IH as [|e entries He _ IHs]; [done|]. cbn. rewrite fmap_app, <- IHs. f_equal.
  rewrite <- He. f_equal. by rewrite !app_assoc_str.
Qed.

Lemma Rel_below base rest : Rel base (base +:+ "/" +:+ rest) = Ok rest.
Proof. unfold Rel. by rewrite (proj2 (CutPrefix_Some _ _ rest)) by by rewrite app_assoc_str. Qed.

Lemma buffered_one p d : buffered (rootDir +:+ "/" +:+ p, d) = Ok (mkFile p d).
Proof.
  assert (Rel rootDir (rootDir +:+ "/" +:+ p) = Ok p) as E by apply Rel_below.
  unfold buffered. cbn [fst snd]. by rewrite E.
Qed.

Lemma buffered_below fs : mapM buffered ((fun f : string * string => (rootDir +:+ "/" +:+ f.1, f.2)) <$> fs) =
  Ok ((fun f => mkFile f.1 f.2) <$> fs).
Proof.
  induction fs as [|[p d] fs IH]; [done|]. rewrite fmap_cons. cbn [mapM fst snd]. rewrite buffered_one.
  cbn [mbind result_bind]. by rewrite IH.
Qed.

Lemma chart_walk_root entries : walk rootDir (Dir entries) =
  (fun f : string * string => (rootDir +:+ "/" +:+ f.1, f.2)) <$> concat (map (fun e : string * tree => walk e.1 e.2) entries).
Proof.
  cbn [walk]. induction entries as [|e entries IH]; [done|]. cbn [map concat]. rewrite fmap_app, IH. f_equal. apply walk_below.
Qed.

(** ** Property *)

(** The loader is handed every file of the chart, once each and in the order of the
    walk, under its path below the chart's directory; what it makes of them has the
    program's version in both places, unless that is empty. *)
Theorem chart_loaded {Templates} (LoadFiles : list BufferedFile -> result (Metadata * Templates)) entries version :
  let files := (fun f => mkFile f.1 f.2) <$> concat (map (fun e : string * tree => walk e.1 e.2) entries) in
  LoadChart LoadFiles (Dir entries) version =
    match LoadFiles files with
    | Ok (metadata, templates) => Ok (if decide (version = "") then metadata else mkMetadata version version, templates)
    | Err e => Err (Errorf "failed to load chart: %w" [AWrap e])
    end.
Proof.
  intros files. unfold LoadChart, chartAsBufferedFiles.
  rewrite chart_walk_root. rewrite buffered_below. cbn [wrap_err mbind result_bind]. fold files.
  destruct (LoadFiles files) as [[metadata templates]|e]; [|done]. cbn. by case_decide.
Qed.
