(* ===== verification/NetAddr.v ===== *)
(** * internal/util and the ssh host: is it an IPv6 literal?

    [util.IsIPv6] is [netip.ParseAddr] followed by [Is6]; the parser of net/netip
    is written out below.  [formatSSHTargetHost] (internal/strategy/loadbalancer.go)
    brackets such a host for rsync, whose remote spec ends the host at the first
    colon outside brackets. *)
From S2P Require Import Prelude GoStrings.
From stdpp Require Import options.

#[local] Open Scope char_scope.

Definition is_hex (a : ascii) : bool :=
  is_digit a || bool_decide (97 <= byte a <= 102)%Z || bool_decide (65 <= byte a <= 70)%Z.

(** One octet of an embedded IPv4 address: digits without a leading zero, at
    most 255. *)
Definition octet (s : string) : bool :=
  match s with
  | EmptyString => false
  | String "0" (String _ _) => false
  | _ => all_bytes is_digit s && match digits_value 0 s with
                                 | Some v => bool_decide (v <= 255)%Z
                                 | None => false
                                 end
  end.

Definition parseIPv4Fields (s : string) : bool :=
  match Split s "." with
  | [a; b; c; d] => octet a && octet b && octet c && octet d
  | _ => false
  end.

(** The leading hex digits and what follows them. *)
Fixpoint span_hex (s : string) : string * string :=
  match s with
  | String a r => if is_hex a then let p := span_hex r in (String a p.1, p.2) else (EmptyString, s)
  | EmptyString => (EmptyString, EmptyString)
  end.

(** The loop over the fields: [i] bytes are filled, [ellipsis] tells where [::]
    stood.  Each round uses at least one byte of [s]. *)
Fixpoint parse_fields (fuel : nat) (s : string) (i : nat) (ellipsis : option nat) : bool :=
  match fuel with
  | O => false
  | S fuel =>
      let finish (s : string) (i : nat) (ellipsis : option nat) :=
        bool_decide (s = EmptyString)
        && (if bool_decide (i < 16) then bool_decide (ellipsis <> None) else bool_decide (ellipsis = None)) in
      if bool_decide (16 <= i) then finish s i ellipsis
      else
        let '(digits, rest) := span_hex s in
        if bool_decide (digits = EmptyString) || bool_decide (4 < String.length digits) then false
        else match rest with
             | EmptyString => finish EmptyString (i + 2) ellipsis
             | String "." _ =>
                 if bool_decide (ellipsis = None) && negb (bool_decide (i = 12)) then false
                 else if bool_decide (16 < i + 4) then false
                 else parseIPv4Fields s && finish EmptyString (i + 4) ellipsis
             | String ":" EmptyString => false
             | String ":" (String ":" rest) =>
                 if bool_decide (ellipsis <> None) then false
                 else if bool_decide (rest = EmptyString) then finish EmptyString (i + 2) (Some (i + 2))
                 else parse_fields fuel rest (i + 2) (Some (i + 2))
             | String ":" rest => parse_fields fuel rest (i + 2) ellipsis
             | String _ _ => false
             end
  end.

Definition parseIPv6 (s : string) : bool :=
  let '(s, zone_ok) := match Cut s "%" with
                       | Some (s, zone) => (s, bool_decide (zone <> EmptyString))
                       | None => (s, true)
                       end in
  zone_ok &&
  match s with
  | String ":" (String ":" EmptyString) => true
  | String ":" (String ":" rest) => parse_fields (S (String.length rest)) rest 0 (Some 0)
  | _ => parse_fields (S (String.length s)) s 0 None
  end.

(** [IsIPv6]: the first of [.], [:] and [%] picks the parser. *)
Fixpoint IsIPv6_from (whole s : string) : bool :=
  match s with
  | EmptyString => false
  | String "." _ => false
  | String ":" _ => parseIPv6 whole
  | String "%" _ => false
  | String _ s => IsIPv6_from whole s
  end.

Definition IsIPv6 (host : string) : bool := IsIPv6_from host host.

Definition formatSSHTargetHost (host : string) : string :=
  if IsIPv6 host then "[" +:+ host +:+ "]" else host.

Example IsIPv6_ex :
  (IsIPv6 <$> ["::1"; "fe80::1%eth0"; "2001:db8::10.0.0.1"; "1:2:3:4:5:6:7:8"; "10.0.0.1"; "host";
               "1:2:3"; "::1::"; "[::1]"; "1:2:3:4:5:6:7:8::"; "::ffff:1.2.3.4"; "fe80::1%"; ":1"; "1::"]%string)
  = [true; true; true; true; false; false; false; false; false; false; true; false; false; true].
Proof. reflexivity. Qed.
