(* ===== verification/Strategy.v ===== *)
(** * internal/strategy: the ways a transfer can be set up

    [installHelmChart], the two-release run and the five strategies (mount,
    clusterip, loadbalancer, nodeport, local) of internal/strategy, as programs
    that change the attempt, and [Cleanup].  Narration is left out; the session
    of the local strategy (port-forwards, tunnel, errgroup) is one call. *)
From S2P Require Import Prelude GoStrings Paths Opid World Pvc Migration Mover HelmValues NetAddr.
From stdpp Require Import options.

Definition ErrUnaccepted : error := ErrNew "unaccepted".

(** [*DeclinedError]: its reason, unwrapping to [ErrUnaccepted]. *)
Definition Declined (reason : string) : error :=
  Errorf "%s: %w" [AType "*DeclinedError"; AStr reason; AWrap ErrUnaccepted].

(** [errors.Is(err, ErrUnaccepted)] *)
Definition is_unaccepted (e : error) : bool :=
  error_has (fun e => match e with ErrNew m => bool_decide (m = "unaccepted") | _ => false end) e.

(** ** Which strategies there are *)

Inductive strategy : Type := Mount | ClusterIP | LoadBalancer | Local | NodePort.

#[export] Instance strategy_eq_dec : EqDecision strategy.
Proof. solve_decision. Defined.

Definition nameToStrategy (name : string) : option strategy :=
  if decide (name = "mount") then Some Mount
  else if decide (name = "clusterip") then Some ClusterIP
  else if decide (name = "loadbalancer") then Some LoadBalancer
  else if decide (name = "local") then Some Local
  else if decide (name = "nodeport") then Some NodePort
  else None.

(** The map from the requested names, as an association list. *)
Fixpoint GetStrategiesMapForNames (names : list string) : result (list (string * strategy)) :=
  match names with
  | [] => Ok []
  | name :: names =>
      match nameToStrategy name with
      | None => Err (Errorf "strategy not found: %s" [AStr name])
      | Some s => rest ← GetStrategiesMapForNames names; Ok ((name, s) :: rest)
      end
  end.

Definition Describe (name : string) (push : bool) : string :=
  let side := if push then "sshd next to the destination, rsync next to the source"
              else "sshd next to the source, rsync next to the destination" in
  match nameToStrategy name with
  | Some Mount => "one pod mounts both claims and copies locally, no network"
  | Some ClusterIP => side +:+ ", over a ClusterIP service"
  | Some LoadBalancer => side +:+ ", over a LoadBalancer service"
  | Some NodePort => side +:+ ", over a NodePort service"
  | Some Local => "sshd on both sides, the copy goes through this machine"
  | None => ""
  end.

(** ** Installing a release *)

Definition sshdLabelSelector (release : string) : string :=
  "app.kubernetes.io/component=sshd,app.kubernetes.io/instance=" +:+ release.

(** The readiness gate of [describeRelease]; the rest of it is narration. *)
Definition describeRelease (c : ClusterClient) (release : string) (vals : values) (timeout : Z)
  : io (result ()) :=
  match EnabledComponent vals sshdComponent with
  | Some sshd =>
      r ← ask (WaitForPodReady c (ComponentNamespace sshd) (sshdLabelSelector release) timeout);
      Ret (match r with
           | Ok _ => Ok ()
           | Err e => Err (Errorf "failed to wait for the sshd pod to become ready (see --helm-timeout): %w" [AWrap e])
           end)
  | None => Ret (Ok ())
  end.

Definition installHelmChart (pvcInfo : Info) (name : string) (vals : values) : act () :=
  _ ←# modify (addTarget (mkTarget name pvcInfo));
  _ ←# act_wrap "failed to init helm action config: %w"
         (lift (ask (HelmInit (Client pvcInfo) (Namespace (Claim pvcInfo)))));
  fun attempt =>
    let req := migration_Request (Attempt_Migration attempt) in
    let vals := applyNonRootValues vals req in
    (vals ←# (fun a => v ← DisableNetworkPoliciesWhereForbidden (Client pvcInfo) vals; Ret (Ok v, a));
     vals ←# act_wrap "failed to get merged helm values: %w" (lift (getMergedHelmValues vals req));
     lift
       (r ← ask (HelmInstall (Client pvcInfo) (Namespace (Claim pvcInfo)) name
                   (installsLoadBalancer vals) (HelmTimeout req) vals);
        match r with
        | InstallDeadline e =>
            Ret (Err (Errorf "timed out after %s waiting for the release's resources to become ready (see --helm-timeout): %w"
                        [ADur (HelmTimeout req); AWrap e]))
        | InstallFailed e => Ret (Err (Errorf "failed to install helm chart: %w" [AWrap e]))
        | Installed => describeRelease (Client pvcInfo) name vals (HelmTimeout req)
        end)) attempt.

(** ** Cleanup *)

Definition cleanupForPVC (release : string) (timeout : Z) (pvcInfo : Info) : io (result bool) :=
  _ ←! wrap "failed to initialize helm action config: %w"
         (ask (HelmInit (Client pvcInfo) (Namespace (Claim pvcInfo))));
  r ← ask (HelmUninstall (Client pvcInfo) (Namespace (Claim pvcInfo)) release timeout);
  Ret (match r with
       | Uninstalled => Ok true
       | ReleaseNotFound => Ok false
       | UninstallFailed e => Err (Errorf "failed to uninstall helm release %s: %w" [AStr release; AWrap e])
       end).

(** Every release on both sides; a failure does not stop the others.  The errors
    are collected in order, as [multierror.Append] does. *)
Fixpoint cleanup_loop (timeout : Z) (todo : list (Info * string)) (errs : list error)
  : io (list error) :=
  match todo with
  | [] => Ret errs
  | (info, name) :: todo =>
      r ← cleanupForPVC name timeout info;
      cleanup_loop timeout todo (match r with Ok _ => errs | Err e => errs ++ [e] end)
  end.

Definition Cleanup (attempt : Attempt) : io (list error) :=
  let mig := Attempt_Migration attempt in
  cleanup_loop (HelmTimeout (migration_Request mig))
    (info ← [SourceInfo mig; DestInfo mig]; name ← ReleaseNames attempt; [(info, name)]) [].

(** ** Topology *)

Record topology : Type := mkTopology {
  sshd : componentSide;
  rsync : componentSide;
  push : bool
}.

Record sshTarget : Type := mkSshTarget { host : string; port : Z }.

Definition resolveTopology (mig : Migration) : topology :=
  if Push (migration_Request mig) then mkTopology (destSide mig) (srcSide mig) true
  else mkTopology (srcSide mig) (destSide mig) false.

Definition generateSSHKeys (keyAlgorithm : string) : io (result (string * string * string)) :=
  keys ←! wrap "failed to create ssh key pair: %w" (ask (CreateSSHKeyPair keyAlgorithm));
  Ret (Ok (keys.1, keys.2, "/tmp/id_" +:+ keyAlgorithm)).

Definition waitForRsyncJob (rsyncInfo : Info) (rsyncRelease : string) : act () := fun attempt =>
  let c := Client rsyncInfo in
  let namespace := Namespace (Claim rsyncInfo) in
  let jobName := rsyncRelease +:+ "-rsync" in
  if Detach (migration_Request (Attempt_Migration attempt)) then
    (_ ←# act_wrap "failed to wait for job to start: %w" (lift (ask (WaitForJobStart c namespace jobName)));
     modify setDetached) attempt
  else lift (ask (WaitForJobCompletion c namespace jobName)) attempt.

(** ** The two-release strategies *)

Definition installSshd (topo : topology) (release publicKey serviceType : string) : act () :=
  installHelmChart (side_info (sshd topo)) release (sshdReleaseValues (sshd topo) publicKey serviceType).

Definition installRsyncJob (topo : topology) (release privateKey privateKeyMountPath sshHost : string)
    (sshPort : Z) : act () := fun attempt =>
  let req := migration_Request (Attempt_Migration attempt) in
  (mover ←# lift (Ret (buildMoverCmdSSH req (push topo) sshHost sshPort));
   let rsyncVals := set (buildRsyncHelmValues (rsync topo) mover privateKey privateKeyMountPath)
                      "sshRemoteHost" (VStr sshHost) in
   let rsyncVals := if decide (sshPort = 0)%Z then rsyncVals
                    else set rsyncVals "sshRemotePort" (VInt sshPort) in
   installHelmChart (side_info (rsync topo)) release [(rsyncComponent, VMap rsyncVals)]) attempt.

(** The callback resolves the endpoint once sshd is installed. *)
Definition resolveTargetFunc : Type := Request -> topology -> string -> io (result sshTarget).

Definition runTwoReleaseStrategy (serviceType : string) (resolveTarget : resolveTargetFunc) : act () :=
  fun attempt =>
  let mig := Attempt_Migration attempt in
  let req := migration_Request mig in
  let topo := resolveTopology mig in
  (keys ←# lift (generateSSHKeys (KeyAlgorithm req));
   let '(publicKey, privateKey, privateKeyMountPath) := keys in
   let '(sshdRelease, rsyncRelease) := releaseNames (push topo) (HelmReleaseNamePrefix attempt) in
   _ ←# modify (setReleaseNames [sshdRelease; rsyncRelease]);
   _ ←# act_wrap "failed to install sshd: %w" (installSshd topo sshdRelease publicKey serviceType);
   target ←# lift (resolveTarget req topo sshdRelease);
   let sshTargetHost := if decide (DestHostOverride req = "") then host target
                        else formatSSHTargetHost (DestHostOverride req) in
   _ ←# act_wrap "failed to install rsync job: %w"
          (installRsyncJob topo rsyncRelease privateKey privateKeyMountPath sshTargetHost (port target));
   waitForRsyncJob (side_info (rsync topo)) rsyncRelease) attempt.

Definition getSshdPodForHelmRelease (info : Info) (release : string) : io (result Pod) :=
  r ← ask (WaitForPod (Client info) (Namespace (Claim info)) (sshdLabelSelector release));
  Ret (match r with
       | Ok pod => Ok pod
       | Err e => Err (Errorf "failed to get sshd pod for helm release %s: %w" [AStr release; AWrap e])
       end).

Definition resolveNodePortTarget : resolveTargetFunc := fun req topo sshdRelease =>
  let info := side_info (sshd topo) in
  let c := Client info in
  nodePort ←! wrap "failed to get NodePort: %w"
    (ask (GetNodePort c (Namespace (Claim info)) (sshdRelease +:+ "-sshd") (LoadBalancerTimeout req)));
  if decide (DestHostOverride req <> "") then Ret (Ok (mkSshTarget "" nodePort))
  else
    sshdPod ←! wrap "failed to get sshd pod: %w" (getSshdPodForHelmRelease info sshdRelease);
    nodeIP ← ask (GetNodeIP c (NodeName sshdPod));
    match nodeIP with
    | Ok ip => Ret (Ok (mkSshTarget (formatSSHTargetHost ip) nodePort))
    | Err _ =>
        ip ←! wrap "failed to find usable node IP: %w" (ask (GetAnyNodeIP c));
        Ret (Ok (mkSshTarget (formatSSHTargetHost ip) nodePort))
    end.

Definition resolveLBTarget : resolveTargetFunc := fun req topo sshdRelease =>
  let info := side_info (sshd topo) in
  let c := Client info in
  let ns := Namespace (Claim info) in
  let svcName := sshdRelease +:+ "-sshd" in
  svc ← ask (GetService c ns svcName);
  match svc with
  | Err e => Ret (Err (Errorf "failed to get service %s/%s: %w" [AStr ns; AStr svcName; AWrap e]))
  | Ok _ =>
      lbAddress ← ask (GetServiceAddress c ns svcName (LoadBalancerTimeout req));
      match lbAddress with
      | Ok address => Ret (Ok (mkSshTarget (formatSSHTargetHost address) 0))
      | Err e =>
          interrupted ← ask CtxErr;
          if interrupted : bool then Ret (Err e)
          else
            target ← resolveNodePortTarget req topo sshdRelease;
            Ret (match target with
                 | Ok t => Ok t
                 | Err e' => Err (Errorf "%w, and the node port fallback failed: %w" [AWrap e; AWrap e'])
                 end)
      end
  end.

(** ** mount *)

Definition mount_cannotDoReason (mig : Migration) : string :=
  let s := SourceInfo mig in
  let d := DestInfo mig in
  if decide (Host (Client s) <> Host (Client d)) then "source and destination are on different clusters"
  else if decide (Namespace (Claim s) <> Namespace (Claim d)) then
    "source and destination are in different namespaces"
  else
    let sameNode := bool_decide (MountedNode s = MountedNode d) in
    let oneUnmounted := bool_decide (MountedNode s = "") || bool_decide (MountedNode d = "") in
    if sameNode || oneUnmounted || SupportsROX s || SupportsRWX s || SupportsRWX d then ""
    else "PVCs are mounted on different nodes and do not support multi-access modes".

Definition determineTargetNode (mig : Migration) : string :=
  let s := SourceInfo mig in
  let d := DestInfo mig in
  if bool_decide (MountedNode s <> "") && negb (SupportsROX s) && negb (SupportsRWX s) then MountedNode s
  else if bool_decide (MountedNode d <> "") && negb (SupportsROX d) && negb (SupportsRWX d) then MountedNode d
  else if bool_decide (MountedNode s <> "") then MountedNode s
  else MountedNode d.

Definition buildMountHelmValues (mig : Migration) (mover : moverCommand) : values :=
  let s := SourceInfo mig in
  let d := DestInfo mig in
  [(rsyncComponent, VMap (copy_into
     [(keyEnabled, VBool true); (keyNamespace, VStr (Namespace (Claim s)));
      ("nodeName", VStr (determineTargetNode mig));
      (keyPVCMounts, VList
         [VMap [(keyName, VStr (Name (Claim s))); (keyMountPath, VStr "/source");
                (keyReadOnly, VBool (negb (SourceMountReadWrite (migration_Request mig))))];
          VMap [(keyName, VStr (Name (Claim d))); (keyMountPath, VStr "/dest")]]);
      (keyAffinity, opt_map (AffinityHelmValues s));
      (keyNetworkPolicy, VMap [(keyEnabled, VBool false)])]
     (mover_values mover)))].

Definition runMount : act () := fun attempt =>
  let mig := Attempt_Migration attempt in
  if decide (mount_cannotDoReason mig <> "") then failed (Declined (mount_cannotDoReason mig)) attempt
  else
    (mover ←# act_wrap "failed to build rsync command: %w"
                (lift (Ret (buildMoverCmdLocal (migration_Request mig))));
     let releaseName := HelmReleaseNamePrefix attempt in
     _ ←# modify (setReleaseNames [releaseName]);
     _ ←# installHelmChart (SourceInfo mig) releaseName (buildMountHelmValues mig mover);
     waitForRsyncJob (SourceInfo mig) releaseName) attempt.

(** ** clusterip *)

Definition clusterip_cannotDoReason (mig : Migration) : string :=
  if decide (Host (Client (SourceInfo mig)) <> Host (Client (DestInfo mig)))
  then "source and destination are on different clusters" else "".

Definition buildClusterIPHelmVals (mig : Migration) (topo : topology) (release : string)
  : io (result (values * string)) :=
  let req := migration_Request mig in
  keys ←! generateSSHKeys (KeyAlgorithm req);
  let '(publicKey, privateKey, privateKeyMountPath) := keys in
  let sshTargetHost :=
    if decide (DestHostOverride req = "")
    then release +:+ "-sshd." +:+ Namespace (Claim (side_info (sshd topo)))
    else formatSSHTargetHost (DestHostOverride req) in
  mover ←! Ret (buildMoverCmdSSH req (push topo) sshTargetHost 0);
  Ret (Ok ([(rsyncComponent, VMap (buildRsyncHelmValues (rsync topo) mover privateKey privateKeyMountPath));
            (sshdComponent, VMap (buildSshdHelmValues (sshd topo) publicKey))], sshTargetHost)).

Definition runClusterIP : act () := fun attempt =>
  let mig := Attempt_Migration attempt in
  if decide (clusterip_cannotDoReason mig <> "") then failed (Declined (clusterip_cannotDoReason mig)) attempt
  else
    let topo := resolveTopology mig in
    let releaseName := HelmReleaseNamePrefix attempt in
    (_ ←# modify (setReleaseNames [releaseName]);
     vals ←# act_wrap "failed to build helm values: %w" (lift (buildClusterIPHelmVals mig topo releaseName));
     _ ←# installHelmChart (DestInfo mig) releaseName vals.1;
     _ ←# (if decide (Namespace (Claim (SourceInfo mig)) <> Namespace (Claim (DestInfo mig)))
           then modify (addTarget (mkTarget releaseName (SourceInfo mig))) else done_with ());
     waitForRsyncJob (side_info (rsync topo)) releaseName) attempt.

(** ** local *)

Definition installLocalOnSource (mig : Migration) (releaseName publicKey privateKey privateKeyMountPath : string) : act () :=
  let sshdVals := set (set (set (buildSshdHelmValues (srcSide mig) publicKey)
                    "privateKeyMount" (VBool true)) "privateKey" (VStr privateKey))
                    "privateKeyMountPath" (VStr privateKeyMountPath) in
  installHelmChart (SourceInfo mig) releaseName [(sshdComponent, VMap sshdVals)].

Definition installLocalOnDest (mig : Migration) (releaseName publicKey : string) : act () :=
  installHelmChart (DestInfo mig) releaseName [(sshdComponent, VMap (buildSshdHelmValues (destSide mig) publicKey))].

Definition runLocal : act () := fun attempt =>
  let mig := Attempt_Migration attempt in
  let req := migration_Request mig in
  if Detach req then
    failed (Declined "local strategy requires a persistent connection through the local machine") attempt
  else
    (keys ←# lift (generateSSHKeys (KeyAlgorithm req));
     let '(publicKey, privateKey, privateKeyMountPath) := keys in
     let srcReleaseName := HelmReleaseNamePrefix attempt +:+ "-src" in
     let destReleaseName := HelmReleaseNamePrefix attempt +:+ "-dest" in
     _ ←# modify (setReleaseNames [srcReleaseName; destReleaseName]);
     _ ←# act_wrap "failed to install on source: %w"
            (installLocalOnSource mig srcReleaseName publicKey privateKey privateKeyMountPath);
     _ ←# act_wrap "failed to install on dest: %w" (installLocalOnDest mig destReleaseName publicKey);
     srcPod ←# act_wrap "failed to get source sshd pod: %w"
                 (lift (getSshdPodForHelmRelease (SourceInfo mig) srcReleaseName));
     destPod ←# act_wrap "failed to get dest sshd pod: %w"
                  (lift (getSshdPodForHelmRelease (DestInfo mig) destReleaseName));
     lift (ask (RunLocalMigration (Client (SourceInfo mig)) (Client (DestInfo mig)) privateKey srcPod destPod
                  (sshPort req)))) attempt.

(** [Strategy.Run] *)
Definition Run (s : strategy) : act () :=
  match s with
  | Mount => runMount
  | ClusterIP => runClusterIP
  | LoadBalancer => runTwoReleaseStrategy "LoadBalancer" resolveLBTarget
  | NodePort => runTwoReleaseStrategy "NodePort" resolveNodePortTarget
  | Local => runLocal
  end.

(** ** Specification: what an attempt may do to the clusters *)

Definition side_of (mig : Migration) (c : ClusterClient) (ns : string) : Prop :=
  exists info, info ∈ [SourceInfo mig; DestInfo mig] /\ c = Client info /\ ns = Namespace (Claim info).

(** The two sides of a migration. *)
Definition side_ok (mig : Migration) (side : componentSide) : Prop := side = srcSide mig \/ side = destSide mig.

(** A mount of the source claim is read-only unless the request says otherwise,
    and a mount of the destination is writable. *)
Definition mount_ok (mig : Migration) (v : value) : Prop :=
  exists m, v = VMap m /\
  ((get m keyMountPath = Some (VStr "/source") /\
    get m keyName = Some (VStr (Name (Claim (SourceInfo mig)))) /\
    get m keyReadOnly = Some (VBool (negb (SourceMountReadWrite (migration_Request mig))))) \/
   (get m keyMountPath = Some (VStr "/dest") /\
    get m keyName = Some (VStr (Name (Claim (DestInfo mig)))) /\
    is_bool true (get m keyReadOnly) = false)).

Definition section_ok (mig : Migration) (section : values) : Prop :=
  exists ms, get section keyPVCMounts = Some (VList ms) /\ Forall (mount_ok mig) ms.

Definition values_ok (mig : Migration) (vals : values) : Prop :=
  forall component section, as_map (get vals component) = Some section -> section_ok mig section.

(** What is asked of the values a strategy hands to Helm: it holds of those each
    strategy builds, and installing a release adjusts them without losing it. *)
Class SafeValues (mig : Migration) (ok : values -> Prop) : Prop := {
  safe_nonroot vals req : ok vals -> ok (applyNonRootValues vals req);
  safe_policy vals component section :
    as_map (get vals component) = Some section -> ok vals -> ok (set vals component (VMap (policy_off section)));
  safe_mount mover : ok (buildMountHelmValues mig mover);
  safe_clusterip rside sside mover key path publicKey : side_ok mig rside -> side_ok mig sside ->
    ok [(rsyncComponent, VMap (buildRsyncHelmValues rside mover key path));
        (sshdComponent, VMap (buildSshdHelmValues sside publicKey))];
  safe_sshd side publicKey serviceType : side_ok mig side -> ok (sshdReleaseValues side publicKey serviceType);
  safe_rsync side mover key path host : side_ok mig side ->
    let vals := set (buildRsyncHelmValues side mover key path) "sshRemoteHost" (VStr host) in
    ok [(rsyncComponent, VMap vals)] /\ forall port, ok [(rsyncComponent, VMap (set vals "sshRemotePort" (VInt port)))];
  safe_local_source side publicKey key path : side_ok mig side ->
    ok [(sshdComponent, VMap (set (set (set (buildSshdHelmValues side publicKey) "privateKeyMount" (VBool true))
                                "privateKey" (VStr key)) "privateKeyMountPath" (VStr path)))];
  safe_local_dest side publicKey : side_ok mig side -> ok [(sshdComponent, VMap (buildSshdHelmValues side publicKey))]
}.

(** Every release installed is one the attempt lists, in a namespace of one of
    its sides; every set of values handed to Helm is [ok]. *)
Definition event_ok (ok : values -> Prop) (mig : Migration) (names : list string) (e : event) : Prop :=
  match e with
  | Ev (HelmInstall c ns release _ _ _) _ => release ∈ names /\ side_of mig c ns
  | Ev (MergeMaps base _) _ => ok base
  | Ev (HelmUninstall _ _ _ _) _ => False
  | _ => True
  end.

(** ** Lemmas: steps *)

Section Sound.
Context (ok : values -> Prop) (mig : Migration) {Safe : SafeValues mig ok} (names : list string).

(** The attempt lists these releases, for this migration, and is detached only
    when the request says so. *)
Definition tracks (a : Attempt) : Prop :=
  ReleaseNames a = names /\ Attempt_Migration a = mig /\
  (Detached a = true -> Detach (migration_Request mig) = true).

(** A step that keeps that so, whose events are all allowed, and whose value, if
    it has one, satisfies [P]. *)
Definition sound {A} (P : A -> Prop) (m : act A) : Prop := forall a t,
  tracks a -> Forall (event_ok ok mig names) t ->
  wp (m a) t (fun t' ra => Forall (event_ok ok mig names) t' /\ tracks ra.2 /\
                           forall x, ra.1 = Ok x -> P x).

Definition any {A} (x : A) : Prop := True.

Lemma sound_bind {A B} P Q (m : act A) (f : A -> act B) :
  sound P m -> (forall x, P x -> sound Q (f x)) -> sound Q (act_bind m f).
Proof.
  intros Hm Hf a t Ha Ht. rewrite wp_act_bind. eapply wp_mono; [by apply Hm|].
  intros t' [[x|e] a'] (Ht' & Ha' & Hx); cbn in *; [by apply (Hf x); auto|done].
Qed.

Lemma sound_read {A} P (f : Attempt -> act A) :
  (forall a, Attempt_Migration a = mig -> sound P (f a)) -> sound P (fun a => f a a).
Proof. intros Hf a t Ha Ht. apply Hf; [apply Ha|done|done]. Qed.

Lemma sound_lift {A} (p : io (result A)) : all_events (event_ok ok mig names) p -> sound any (lift p).
Proof.
  intros Hp a t Ha Ht. rewrite wp_lift. eapply wp_mono; [by apply wp_all_events|]. done.
Qed.

Lemma sound_wrap {A} fmt P (m : act A) : sound P m -> sound P (act_wrap fmt m).
Proof.
  intros Hm a t Ha Ht. rewrite wp_act_wrap. eapply wp_mono; [by apply Hm|].
  intros t' [[x|e] a'] (H1 & H2 & H3); cbn in *; [done|]. by split.
Qed.

Lemma sound_modify f : (forall a, tracks a -> tracks (f a)) -> sound any (modify f).
Proof. intros Hf a t Ha Ht. cbn. split; [done|]. split; [by apply Hf|done]. Qed.

Lemma disable_sound c comps cache vals t :
  ok vals -> Forall (event_ok ok mig names) t ->
  wp (disable_loop c comps cache vals) t
     (fun t' v => Forall (event_ok ok mig names) t' /\ ok v).
Proof using Safe.
  revert cache vals t. induction comps as [|comp comps IH]; intros cache vals t Hv Ht; [by split|].
  cbn [disable_loop].
  destruct (as_map (get vals comp)) as [s|] eqn:E; [|by apply IH].
  case_decide; [by apply IH|]. rewrite wp_bind.
  assert (ok (set vals comp (VMap (policy_off s)))) as Hv' by by apply safe_policy.
  destruct (assoc_get cache _) as [[]|]; [by apply IH..|].
  rewrite wp_bind. unfold networkPoliciesAllowed. rewrite wp_bind. cbn.
  intros [[]|]; cbn; apply IH; try done; apply Forall_app; by repeat constructor.
Qed.

Lemma sound_install info name vals :
  info ∈ [SourceInfo mig; DestInfo mig] -> name ∈ names -> ok vals ->
  sound any (installHelmChart info name vals).
Proof using Safe.
  intros Hi Hn Hv. unfold installHelmChart.
  eapply sound_bind; [by apply sound_modify|intros _ _].
  eapply sound_bind; [apply sound_wrap, sound_lift; quiet|intros _ _].
  apply (sound_read _ (fun attempt => _)). intros a _. cbv zeta.
  set (req := migration_Request _). clearbody req. clear a.
  eapply (sound_bind (ok)).
  - intros a t Ha Ht. rewrite wp_bind.
    eapply wp_mono; [apply disable_sound; [by apply safe_nonroot|done]|].
    intros t' v [Ht' Hv']. cbn. split; [done|]. split; [done|]. by intros x [= <-].
  - intros v Hv'. eapply sound_bind; [apply sound_wrap, sound_lift|intros merged _].
    + unfold getMergedHelmValues, wrap. quiet. exact Hv'.
    + apply sound_lift. unfold describeRelease. quiet. split; [done|]. by exists info.
Qed.

Lemma sound_generateSSHKeys alg : sound any (lift (generateSSHKeys alg)).
Proof. apply sound_lift. unfold generateSSHKeys, wrap. quiet. Qed.

Lemma sound_wait info release : sound any (waitForRsyncJob info release).
Proof.
  intros a t Ha Ht. unfold waitForRsyncJob. pose proof Ha as (_ & -> & _).
  destruct (Detach _) eqn:E.
  - refine (sound_bind any any _ _ _ _ a t Ha Ht).
    + apply sound_wrap, sound_lift. quiet.
    + intros _ _. apply sound_modify. intros a' (H1 & H2 & H3). by split.
  - refine (sound_lift _ _ a t Ha Ht). quiet.
Qed.

(** ** Lemmas: the releases *)

Lemma side_ok_info side : side_ok mig side -> side_info side ∈ [SourceInfo mig; DestInfo mig].
Proof. intros [-> | ->]; cbn; [by left|by right; left]. Qed.

Lemma topology_sides : side_ok mig (sshd (resolveTopology mig)) /\ side_ok mig (rsync (resolveTopology mig)).
Proof.
  unfold resolveTopology, side_ok. destruct (Push (migration_Request mig)); cbn; auto.
Qed.

Lemma sound_installSshd topo release key type :
  side_ok mig (sshd topo) -> release ∈ names -> sound any (installSshd topo release key type).
Proof using Safe.
  intros Hs Hr. apply sound_install; [by apply side_ok_info|done|].
  by apply safe_sshd.
Qed.

Lemma sound_installRsyncJob topo release key path h p :
  side_ok mig (rsync topo) -> release ∈ names -> sound any (installRsyncJob topo release key path h p).
Proof using Safe.
  intros Hs Hr. intros a t Ha Ht. unfold installRsyncJob.
  refine (sound_bind any any _ _ _ _ a t Ha Ht); [apply sound_lift; quiet|intros mover _].
  apply sound_install; [by apply side_ok_info|done|].
  destruct (safe_rsync (rsync topo) mover key path h Hs) as [H1 H2]. case_decide; [exact H1|apply H2].
Qed.

Lemma resolveNodePort_quiet req topo release :
  all_events (event_ok ok mig names) (resolveNodePortTarget req topo release).
Proof. unfold resolveNodePortTarget, getSshdPodForHelmRelease. quiet. Qed.

Lemma resolveLB_quiet req topo release :
  all_events (event_ok ok mig names) (resolveLBTarget req topo release).
Proof.
  unfold resolveLBTarget. quiet. apply resolveNodePort_quiet.
Qed.
End Sound.

(** ** The strategies *)

(** What holds of every run of an attempt that started out with no releases. *)
Definition run_ok (ok : values -> Prop) (mig : Migration) (t : list event) (ra : result () * Attempt) : Prop :=
  Forall (event_ok ok mig (ReleaseNames ra.2)) t /\ tracks mig (ReleaseNames ra.2) ra.2.

Definition fresh (a : Attempt) (mig : Migration) : Prop := tracks mig [] a.

Section Strategies.
Context (ok : values -> Prop) (mig : Migration) {Safe : SafeValues mig ok}.

Lemma event_ok_more names e : event_ok ok mig [] e -> event_ok ok mig names e.
Proof. destruct e as [X []]; cbn; try done. by intros [[]%not_elem_of_nil _]. Qed.

Lemma run_ok_sound {P} names (m : act ()) a t :
  sound ok mig names P m -> tracks mig names a -> Forall (event_ok ok mig names) t ->
  wp (m a) t (run_ok ok mig).
Proof.
  intros Hm Ha Ht. eapply wp_mono; [by apply Hm|].
  intros t' ra (H1 & H2 & _). pose proof H2 as [Hn _]. unfold run_ok. by rewrite Hn.
Qed.

(** The releases are listed before the first install. *)
Lemma run_ok_listed names (m : () -> act ()) a t :
  fresh a mig -> sound ok mig names any (m ()) -> Forall (event_ok ok mig []) t ->
  wp (act_bind (modify (setReleaseNames names)) m a) t (run_ok ok mig).
Proof.
  intros (Hn & Ha & Hd) Hm Ht. rewrite wp_act_bind. cbn.
  eapply run_ok_sound; [done|by split|].
  eapply Forall_impl; [done|]. intros e. apply event_ok_more.
Qed.

(** A step before that, which installs nothing. *)
Lemma run_ok_before {A} (m : act A) (f : A -> act ()) a t :
  fresh a mig -> sound ok mig [] any m -> Forall (event_ok ok mig []) t ->
  (forall x a t, fresh a mig -> Forall (event_ok ok mig []) t -> wp (f x a) t (run_ok ok mig)) ->
  wp (act_bind m f a) t (run_ok ok mig).
Proof.
  intros Ha Hm Ht Hf. rewrite wp_act_bind. eapply wp_mono; [by apply Hm|].
  intros t' [[x|e] a'] (H1 & H2 & _); cbn in *; [by apply Hf|].
  pose proof H2 as [Hn _]. unfold run_ok. cbn. by rewrite Hn.
Qed.

Lemma two_release_ok serviceType resolve a :
  (forall names req topo r, all_events (event_ok ok mig names) (resolve req topo r)) ->
  fresh a mig -> wp (runTwoReleaseStrategy serviceType resolve a) [] (run_ok ok mig).
Proof using Safe.
  intros Hres Ha. unfold runTwoReleaseStrategy. cbv zeta. pose proof Ha as (_ & -> & _).
  apply run_ok_before; [done|apply sound_generateSSHKeys|done|].
  intros [[publicKey privateKey] path] a' t Ha' Ht.
  destruct (releaseNames _ _) as [sshdRelease rsyncRelease].
  destruct (topology_sides mig) as [Hs Hr].
  apply run_ok_listed; [done| |done].
  eapply sound_bind; [apply sound_wrap, sound_installSshd; [done|done|set_solver]|intros _ _].
  eapply sound_bind; [apply sound_lift, Hres|intros target _].
  eapply sound_bind; [apply sound_wrap, sound_installRsyncJob; [done|done|set_solver]|intros _ _].
  apply sound_wait.
Qed.

Lemma run_ok_declined a e : fresh a mig -> wp (failed e a) [] (run_ok ok mig).
Proof. intros Ha. pose proof Ha as [Hn _]. unfold run_ok; cbn. by rewrite Hn. Qed.

Lemma mount_ok_run a : fresh a mig -> wp (runMount a) [] (run_ok ok mig).
Proof using Safe.
  intros Ha. unfold runMount. cbv zeta. pose proof Ha as (_ & -> & _).
  case_decide; [by apply run_ok_declined|].
  apply run_ok_before; [done|apply sound_wrap, sound_lift; quiet|done|].
  intros mover a' t Ha' Ht. apply run_ok_listed; [done| |done].
  eapply sound_bind; [apply sound_install; [done|set_solver|set_solver|apply safe_mount]|intros _ _].
  apply sound_wait.
Qed.

Lemma sound_clusterip_values names topo release :
  side_ok mig (sshd topo) -> side_ok mig (rsync topo) ->
  sound ok mig names (fun v => ok v.1) (lift (buildClusterIPHelmVals mig topo release)).
Proof using Safe.
  intros Hs Hr a t Ha Ht. rewrite wp_lift. unfold buildClusterIPHelmVals. cbv zeta.
  rewrite wp_try. eapply wp_mono.
  - apply (wp_all_events (event_ok ok mig names)); [done|]. unfold generateSSHKeys. quiet.
  - intros t' [[[publicKey privateKey] path]|e] Ht'; [|by split].
    rewrite wp_try. cbn [wp]. destruct (buildMoverCmdSSH _ _ _ _) as [mover|e]; [|by split].
    cbn [wp]. split; [done|]. split; [done|]. intros x Hx. cbn [fst] in Hx. go_inv. cbn [fst].
    by apply safe_clusterip.
Qed.

Lemma clusterip_ok_run a : fresh a mig -> wp (runClusterIP a) [] (run_ok ok mig).
Proof using Safe.
  intros Ha. unfold runClusterIP. cbv zeta. pose proof Ha as (_ & -> & _).
  case_decide; [by apply run_ok_declined|].
  apply run_ok_listed; [done| |done]. destruct (topology_sides mig) as [Hs Hr].
  eapply (sound_bind _ _ _ (fun v => ok v.1));
    [by apply sound_wrap, sound_clusterip_values|intros vals Hv].
  eapply sound_bind; [apply sound_install; [done|set_solver|set_solver|done]|intros _ _].
  eapply sound_bind; [|intros _ _; apply sound_wait].
  case_decide; [by apply sound_modify|].
  intros a' t Ha' Ht. by split.
Qed.

Lemma local_ok_run a : fresh a mig -> wp (runLocal a) [] (run_ok ok mig).
Proof using Safe.
  intros Ha. unfold runLocal, installLocalOnSource, installLocalOnDest. cbv zeta. pose proof Ha as (_ & -> & _).
  destruct (Detach _); [by apply run_ok_declined|].
  apply run_ok_before; [done|apply sound_generateSSHKeys|done|].
  intros [[publicKey privateKey] path] a' t Ha' Ht.
  apply run_ok_listed; [done| |done].
  eapply sound_bind; [apply sound_wrap, sound_install; [done|set_solver|set_solver|]|intros _ _].
  { apply safe_local_source. by left. }
  eapply sound_bind; [apply sound_wrap, sound_install; [done|set_solver|set_solver|]|intros _ _].
  { apply safe_local_dest. by right. }
  unfold getSshdPodForHelmRelease.
  eapply sound_bind; [apply sound_wrap, sound_lift; quiet|intros srcPod _].
  eapply sound_bind; [apply sound_wrap, sound_lift; quiet|intros dstPod _].
  apply sound_lift. quiet.
Qed.

Lemma Run_ok s a : fresh a mig -> wp (Run s a) [] (run_ok ok mig).
Proof using Safe.
  intros Ha. destruct s; cbn [Run].
  - by apply mount_ok_run.
  - by apply clusterip_ok_run.
  - apply two_release_ok; [intros; apply resolveLB_quiet|done].
  - by apply local_ok_run.
  - apply two_release_ok; [intros; apply resolveNodePort_quiet|done].
Qed.
End Strategies.

(** ** The mounts of the values *)

Lemma section_ok_set mig s k v : k <> keyPVCMounts -> section_ok mig s -> section_ok mig (set s k v).
Proof. intros Hk (ms & Hg & Hm). exists ms. split; [|done]. by rewrite get_set, decide_False. Qed.

Section Mounts.
Context (mig : Migration).

Lemma values_ok_update vals component f :
  (forall s, section_ok mig s -> section_ok mig (f s)) -> values_ok mig vals -> values_ok mig (update_section vals component f).
Proof.
  intros Hf Hv. unfold update_section. destruct (as_map (get vals component)) as [s|] eqn:E; [|done].
  intros c' s' H. rewrite get_set in H. case_decide; [|by eapply Hv].
  cbn in H. injection H as <-. apply Hf. by eapply Hv.
Qed.

Lemma mount_entry_ok side : side_ok mig side -> mount_ok mig (mount_entry side).
Proof. intros [-> | ->]; eexists; (split; [reflexivity|]); [left|right]; by repeat split. Qed.

Lemma values_ok_cons component section vals :
  section_ok mig section -> values_ok mig vals -> values_ok mig ((component, VMap section) :: vals).
Proof. intros Hs Hv c s. cbn. case_decide; [|apply Hv]. cbn. by intros [= <-]. Qed.

Lemma values_ok_single component section : section_ok mig section -> values_ok mig [(component, VMap section)].
Proof. intros Hs. by apply values_ok_cons. Qed.

Lemma sshd_section_ok side publicKey : side_ok mig side -> section_ok mig (buildSshdHelmValues side publicKey).
Proof.
  intros Hs. exists [mount_entry side]. split; [reflexivity|]. repeat constructor. by apply mount_entry_ok.
Qed.

Lemma rsync_section_ok side mover key path :
  side_ok mig side -> section_ok mig (buildRsyncHelmValues side mover key path).
Proof.
  intros Hs. exists [mount_entry side]. split; [reflexivity|]. repeat constructor. by apply mount_entry_ok.
Qed.

#[export] Instance mounts_safe : SafeValues mig (values_ok mig).
Proof.
  split.
  - intros vals req H. unfold applyNonRootValues. destruct (negb (NonRoot req)); [done|].
    repeat (apply values_ok_update; [intros s Hs; by repeat apply section_ok_set|]). done.
  - intros vals component section E H. pose proof (values_ok_update vals component policy_off) as Hu.
    unfold update_section in Hu. rewrite E in Hu. apply Hu; [|done]. intros s Hs. by apply section_ok_set.
  - intros mover. apply values_ok_single. eexists. split; [reflexivity|].
    apply Forall_cons; split; [|apply Forall_cons; split; [|done]];
      (eexists; split; [reflexivity|]); [left|right]; by repeat split.
  - intros. apply values_ok_cons; [by apply rsync_section_ok|]. by apply values_ok_single, sshd_section_ok.
  - intros. apply values_ok_single, section_ok_set; [done|]. by apply sshd_section_ok.
  - intros side mover key path host Hs vals.
    assert (section_ok mig vals) by (apply section_ok_set; [done|]; by apply rsync_section_ok).
    split; [|intros port]; apply values_ok_single; [done|]. by apply section_ok_set.
  - intros. apply values_ok_single. repeat (apply section_ok_set; [done|]). by apply sshd_section_ok.
  - intros. by apply values_ok_single, sshd_section_ok.
Qed.
End Mounts.

Lemma mount_section_node mig mover :
  get (copy_into
     [(keyEnabled, VBool true); (keyNamespace, VStr (Namespace (Claim (SourceInfo mig))));
      ("nodeName", VStr (determineTargetNode mig));
      (keyPVCMounts, VList
         [VMap [(keyName, VStr (Name (Claim (SourceInfo mig)))); (keyMountPath, VStr "/source");
                (keyReadOnly, VBool (negb (SourceMountReadWrite (migration_Request mig))))];
          VMap [(keyName, VStr (Name (Claim (DestInfo mig)))); (keyMountPath, VStr "/dest")]]);
      (keyAffinity, opt_map (AffinityHelmValues (SourceInfo mig)));
      (keyNetworkPolicy, VMap [(keyEnabled, VBool false)])]
     (mover_values mover)) "nodeName" = Some (VStr (determineTargetNode mig)).
Proof. reflexivity. Qed.

(** ** Properties *)

(** C6: whichever strategy runs an attempt that has no releases yet, and however
    the clusters answer: every release it installs is one the attempt then lists,
    in the namespace and cluster of one of the two claims; and every set of values
    it hands to Helm mounts the source claim at /source, read-only unless the
    request asked otherwise, and the destination claim writable at /dest, and
    nothing else; and it uninstalls nothing. *)
Theorem Run_stays_in_bounds (s : strategy) (a : Attempt) (h : handler) n
    (Hfresh : ReleaseNames a = []) (Hattached : Detached a = false) :
  let mig := Attempt_Migration a in
  let run := exec h n (Run s a) in
  let names := ReleaseNames run.2.2 in
  Attempt_Migration run.2.2 = mig /\
  forall X (e : call X) (x : X), Ev e x ∈ run.1 ->
    match e with
    | HelmInstall c ns release _ _ _ =>
        release ∈ names /\
        exists info, info ∈ [SourceInfo mig; DestInfo mig] /\
                     c = Client info /\ ns = Namespace (Claim info)
    | MergeMaps base _ =>
        forall component section, as_map (get base component) = Some section ->
          exists mounts, get section keyPVCMounts = Some (VList mounts) /\
                         Forall (mount_ok mig) mounts
    | HelmUninstall _ _ _ _ => False
    | _ => True
    end.
Proof.
  intros mig run names.
  assert (fresh a mig) as Ha by (split; [done|]; split; [done|congruence]).
  assert (run_ok (values_ok mig) mig run.1 run.2) as [Hev (_ & Hm & Hd)]
    by exact (wp_exec _ _ _ h n (Run_ok (values_ok mig) mig s a Ha)).
  split; [done|]. intros X e x Hin.
  rewrite Forall_forall in Hev. exact (Hev _ Hin).
Qed.

Definition quiet_claim (ns name : string) (modes : list string) : PersistentVolumeClaim :=
  mkPVC ns name modes "" None ∅ None None.

(** Two claims of one cluster and a request to copy the first into the second. *)
Definition plain_migration (mover : string) (push : bool) : Migration :=
  let c := mkClient "https://a" "default" in
  mkMigration (plain_request mover "" "" push)
    (mkInfo c (quiet_claim "db" "a" [ReadWriteOnce]) "" None None "" None true false false)
    (mkInfo c (quiet_claim "web" "b" [ReadWriteOnce]) "" None None "" None true false false).

Definition plain_attempt (mover : string) (push : bool) : Attempt :=
  mkAttempt "ab12" "pv-migrate-ab12-clusterip" (plain_migration mover push) false [] [] "".

Lemma Run_stays_in_bounds_witness :
  let a := plain_attempt "" true in
  let run := exec (still (mkClient "https://a" "default") (mkCluster (fun _ _ => Err (ErrNew ""))
                     (fun _ => Ok []) (fun _ => ApiErr NotFound (ErrNew "")) (Found []))) 0 (Run ClusterIP a) in
  run.2.1 = Ok () /\ ReleaseNames run.2.2 = ["pv-migrate-ab12-clusterip"] /\
  Attempt_Migration run.2.2 = Attempt_Migration a.
Proof.
  intros a run. split; [vm_compute; reflexivity|]. split; [vm_compute; reflexivity|].
  refine (proj1 (Run_stays_in_bounds ClusterIP a _ 0 _ _)); reflexivity.
Defined.

(** C25: the pod of the mount strategy is placed where it can use both claims.
    When the strategy takes a migration, the node the pod is bound to is one where
    the source can be attached: it is not attached elsewhere, or allows several
    nodes.  The destination can be attached for writing there too, except in one
    case: both claims are in use on different nodes, and the destination has
    ReadOnlyMany but not ReadWriteMany among its modes, which the code counts as
    attachable anywhere.  The pod is bound to no node only when neither claim is in
    use. *)
Theorem mount_placement (mig : Migration) (mover : moverCommand)
    (Haccepted : mount_cannotDoReason mig = "") :
  let s := SourceInfo mig in
  let d := DestInfo mig in
  exists node section,
    as_map (get (buildMountHelmValues mig mover) rsyncComponent) = Some section /\
    get section "nodeName" = Some (VStr node) /\
    (MountedNode s = "" \/ node = MountedNode s \/ SupportsROX s = true \/ SupportsRWX s = true) /\
    ((MountedNode d = "" \/ node = MountedNode d \/ SupportsRWX d = true) <->
     ~ (MountedNode s <> "" /\ MountedNode d <> "" /\ MountedNode s <> MountedNode d /\
        SupportsROX d = true /\ SupportsRWX d = false)) /\
    (node = "" <-> MountedNode s = "" /\ MountedNode d = "").
Proof.
  intros s d. exists (determineTargetNode mig). eexists. split; [reflexivity|].
  split; [by apply mount_section_node|].
  unfold mount_cannotDoReason in Haccepted. unfold determineTargetNode.
  fold s d in Haccepted |- *. clearbody s d.
  repeat (case_decide; [discriminate Haccepted|]).
  destruct (decide (MountedNode s = "")) as [Es|Es];
    destruct (decide (MountedNode d = "")) as [Ed|Ed];
    destruct (decide (MountedNode s = MountedNode d)) as [Esd|Esd]; try congruence;
    rewrite ?(bool_decide_eq_true_2 _ Es), ?(bool_decide_eq_false_2 _ Es),
      ?(bool_decide_eq_true_2 _ Ed), ?(bool_decide_eq_false_2 _ Ed),
      ?(bool_decide_eq_false_2 _ Esd) in Haccepted;
    repeat case_bool_decide; try congruence;
    destruct (SupportsROX s), (SupportsRWX s), (SupportsROX d), (SupportsRWX d); cbn in *;
    try discriminate; intuition congruence.
Qed.

Lemma mount_placement_witness :
  let c := mkClient "https://a" "default" in
  let mig := mkMigration (plain_request "" "" "" false)
    (mkInfo c (quiet_claim "db" "a" [ReadWriteMany]) "node-1" None None "" None false false true)
    (mkInfo c (quiet_claim "db" "b" [ReadWriteOnce]) "node-2" None None "" None true false false) in
  mount_cannotDoReason mig = "" /\ determineTargetNode mig = "node-2" /\
  exists node section,
    as_map (get (buildMountHelmValues mig (rsyncMover "rsync")) rsyncComponent) = Some section /\
    get section "nodeName" = Some (VStr node) /\ node <> "".
Proof.
  intros c mig. split; [reflexivity|]. split; [reflexivity|].
  destruct (mount_placement mig (rsyncMover "rsync") eq_refl) as (node & section & H1 & H2 & _ & _ & H).
  exists node, section. split; [exact H1|]. split; [exact H2|].
  intros E. apply H in E as [E _]. discriminate E.
Defined.
