(* ===== verification/Peek.v ===== *)
(** * internal/strategy/strategy.go: the peek of a long install

    While Helm waits for a release, [peekAfter] lets a goroutine write, at half the
    budget, what the cluster reports so far ([writeMidInstallDiagnostics]) to the
    writer of the request.  The install takes it back when it returns, by closing a
    channel.  Here are the goroutine, the install and whoever writes after it, as an
    interleaving of atomic steps; one step of the peek is one write. *)
From S2P Require Import Prelude GoStrings Console Workload Interleaving.
From stdpp Require Import relations options.
Local Open Scope nat_scope.

(** The block in text mode, one write an entry; what the cluster reports is the
    writes of [WriteWorkloadDiagnostics]. *)
Definition writeMidInstallDiagnostics (palette : Palette) (release ns : string) (reported : list string) : list string :=
  [nl +:+ Bold palette "Still waiting. What the cluster reports so far:" +:+ nl +:+ nl +:+ "  " +:+ release +:+
   " (namespace " +:+ ns +:+ "):" +:+ nl] ++ reported ++ [nl].

(** ** The goroutine *)

Inductive peek_pc : Type :=
  | Selecting                        (* in the [select] *)
  | Peeking (todo : list string)     (* the writes that remain *)
  | Gone.

Inductive writer : Type := ByPeek | ByCaller.

Record state : Type := mkState {
  peek : peek_pc;
  fired : bool;                      (* [time.After] has delivered *)
  done : bool;                       (* the channel is closed *)
  out : list (writer * string)       (* what the writer got, in order *)
}.

Inductive label : Type :=
  | TimerFires
  | StopPeek                         (* the install has returned; its deferred call *)
  | CallerWrites (text : string)     (* what follows the install: a failure block, the next attempt *)
  | TakesDone                        (* the two cases of the [select]: *)
  | TakesTimer
  | PeekWrites.

Section Peek.
Context (block : list string).

Definition peekAfter : state := mkState Selecting false false [].

Definition next (l : label) (s : state) : option state :=
  match l with
  | TimerFires => if fired s then None else Some (mkState (peek s) true (done s) (out s))
  | StopPeek => if done s then None else Some (mkState (peek s) (fired s) true (out s))
  | CallerWrites text => if done s then Some (mkState (peek s) (fired s) (done s) (out s ++ [(ByCaller, text)])) else None
  | TakesDone =>
      match peek s with
      | Selecting => if done s then Some (mkState Gone (fired s) (done s) (out s)) else None
      | _ => None
      end
  | TakesTimer =>
      match peek s with
      | Selecting => if fired s then Some (mkState (Peeking block) (fired s) (done s) (out s)) else None
      | _ => None
      end
  | PeekWrites =>
      match peek s with
      | Peeking (text :: todo) => Some (mkState (Peeking todo) (fired s) (done s) (out s ++ [(ByPeek, text)]))
      | Peeking [] => Some (mkState Gone (fired s) (done s) (out s))
      | _ => None
      end
  end.

Definition own (l : label) : bool := match l with TakesDone | TakesTimer | PeekWrites => true | _ => false end.

(** What the peek has written. *)
Definition peeked (s : state) : list string :=
  omap (fun w : writer * string => match w.1 with ByPeek => Some w.2 | ByCaller => None end) (out s).

(** ** Lemmas *)

Lemma peeked_app s w : peeked (mkState (peek s) (fired s) (done s) (out s ++ [w])) =
  peeked s ++ match w.1 with ByPeek => [w.2] | ByCaller => [] end.
Proof. unfold peeked. cbn. rewrite omap_app. by destruct w as [[] t]. Qed.

(** Once in the block, what is written and what is left make it up. *)
Definition in_block (s : state) : Prop :=
  match peek s with
  | Selecting => peeked s = []
  | Peeking todo => peeked s ++ todo = block
  | Gone => peeked s = [] \/ peeked s = block
  end.

Lemma in_block_step l s s' : in_block s -> next l s = Some s' -> in_block s'.
Proof.
  unfold in_block. intros H E. destruct l; cbn in E.
  - destruct (fired s); [done|]. by injection E as <-.
  - destruct (done s); [done|]. by injection E as <-.
  - destruct (done s) eqn:Ed; [|done]. injection E as <-. cbn [peek]. rewrite <- Ed, peeked_app. by rewrite app_nil_r.
  - destruct (peek s); try done. destruct (done s); [|done]. injection E as <-. by left.
  - destruct (peek s); try done. destruct (fired s); [|done]. injection E as <-. cbn. change (peeked s ++ block = block). by rewrite H.
  - destruct (peek s) as [|[|text todo]|] eqn:Ep; try done; injection E as <-.
    + right. by rewrite app_nil_r in H.
    + cbn. unfold peeked in *. cbn. rewrite omap_app. cbn. by rewrite <- app_assoc.
Qed.

(** The steps the goroutine has left. *)
Definition steps_left (s : state) : nat :=
  match peek s with Selecting => S (S (length block)) | Peeking todo => S (length todo) | Gone => 0 end.

Lemma peek_own_step l s s' : own l = true -> next l s = Some s' -> steps_left s' < steps_left s.
Proof.
  unfold steps_left. intros Hl E. destruct l; try discriminate Hl; cbn in E.
  - destruct (peek s); try done. destruct (done s); [|done]. injection E as <-. cbn. lia.
  - destruct (peek s); try done. destruct (fired s); [|done]. injection E as <-. cbn. lia.
  - destruct (peek s) as [|[|text todo]|]; try done; injection E as <-; cbn; lia.
Qed.
(** Left to run, it writes what remains. *)
Lemma writes_rest todo : forall s, peek s = Peeking todo ->
  exists s', rtc (step next) s s' /\ out s' = out s ++ ((ByPeek,.) <$> todo).
Proof.
  induction todo as [|t todo IH]; intros s Hs; [exists s; split; [done|]; by rewrite app_nil_r|].
  destruct (IH (mkState (Peeking todo) (fired s) (done s) (out s ++ [(ByPeek, t)])) eq_refl) as (s' & Hr & Ho).
  exists s'. split.
  - eapply rtc_l; [|exact Hr]. exists PeekWrites. cbn. by rewrite Hs.
  - rewrite Ho. cbn. by rewrite <- app_assoc.
Qed.

Lemma reachable_block s : rtc (step next) peekAfter s -> in_block s.
Proof. revert s. apply reachable_keep; [done|]. intros l s s' H E. by eapply in_block_step. Qed.

Lemma own_bounded s ls s' : in_block s -> forallb own ls = true -> runs next ls s = Some s' -> length ls <= S (S (length block)).
Proof.
  intros Hi Hls Hr.
  pose proof (runs_bounded next own (fun _ => True) steps_left (fun l s s' Hl _ E => conj I (peek_own_step l s s' Hl E)) ls s s' Hls I Hr) as Hb.
  assert (steps_left s <= S (S (length block))); [|lia].
  unfold steps_left, in_block in *. destruct (peek s); [lia| |lia]. rewrite <- Hi, length_app. lia.
Qed.

Lemma never_blocked s : done s = true -> stuck next own s -> peek s = Gone.
Proof.
  intros Hd Hst. destruct (peek s) as [|[|t todo]|] eqn:E; [|..|done].
  - specialize (Hst TakesDone eq_refl). cbn in Hst. by rewrite E, Hd in Hst.
  - specialize (Hst PeekWrites eq_refl). cbn in Hst. by rewrite E in Hst.
  - specialize (Hst PeekWrites eq_refl). cbn in Hst. by rewrite E in Hst.
Qed.
End Peek.

(** ** Properties *)

(** C37: the peek is taken back, not joined.  However the steps interleave, it
    writes its block once at most, whole and in order as long as it is left to run;
    its goroutine takes no more steps than the block has writes and two; and once
    the install has returned it is never blocked.  But the install does not wait for
    it: a peek whose block has two writes or more can have what comes after the
    install written into it, and even a peek that had written nothing when it was
    taken back can begin after that. *)
Theorem peek_not_joined (block : list string) (text : string) : 2 <= length block ->
  (forall s, rtc (step (next block)) peekAfter s ->
     peeked s `prefix_of` block /\
     (peek s = Gone -> peeked s = [] \/ peeked s = block) /\
     (forall ls s', forallb own ls = true -> runs (next block) ls s = Some s' -> length ls <= S (S (length block))) /\
     (done s = true -> stuck (next block) own s -> peek s = Gone)) /\
  (exists first rest s, block = first :: rest /\ rtc (step (next block)) peekAfter s /\
     out s = (ByPeek, first) :: (ByCaller, text) :: ((ByPeek,.) <$> rest)) /\
  (exists s1 s2, rtc (step (next block)) peekAfter s1 /\ done s1 = true /\ peeked s1 = [] /\
     rtc (step (next block)) s1 s2 /\ peeked s2 = block).
Proof.
  intros Hlen. split; [|split].
  - intros s Hs. pose proof (reachable_block block s Hs) as Hi. split; [|split; [|split]].
    + unfold in_block in Hi. destruct (peek s); [rewrite Hi; apply prefix_nil|by eexists|destruct Hi as [-> | ->]; [apply prefix_nil|done]].
    + intros E. unfold in_block in Hi. by rewrite E in Hi.
    + intros ls s'. by apply own_bounded.
    + apply never_blocked.
  - destruct block as [|first rest]; [cbn in Hlen; lia|].
    destruct (writes_rest (first :: rest) rest (mkState (Peeking rest) true true [(ByPeek, first); (ByCaller, text)]) eq_refl)
      as (s' & Hr & Ho).
    exists first, rest, s'. split; [done|]. split; [|by rewrite Ho]. etrans; [|exact Hr].
    by eapply runs_reach with (ls := [TimerFires; TakesTimer; PeekWrites; StopPeek; CallerWrites text]).
  - destruct (writes_rest block block (mkState (Peeking block) true true []) eq_refl) as (s' & Hr & Ho).
    exists (mkState Selecting true true []), s'. split; [|split; [done|split; [done|split]]].
    + by eapply runs_reach with (ls := [TimerFires; StopPeek]).
    + eapply rtc_l; [|exact Hr]. by exists TakesTimer.
    + unfold peeked. rewrite Ho. cbn. clear. by induction block as [|t b IH]; cbn; [|f_equal].
Qed.

(** A failure block written into a peek of two lines. *)
Lemma peek_not_joined_witness :
  let block := writeMidInstallDiagnostics false "x-rsync" "db" ["    pod x-rsync-abcde: Pending"] in
  exists first rest s, block = first :: rest /\ rtc (step (next block)) peekAfter s /\
    out s = (ByPeek, first) :: (ByCaller, "failed") :: ((ByPeek,.) <$> rest).
Proof.
  intros block. refine (proj1 (proj2 (peek_not_joined block "failed" _))). cbn. lia.
Defined.
