(* ===== verification/LogReopen.v ===== *)
(** * internal/k8s/job.go: the log of a Job across its reopenings

    [WaitForJobCompletion] follows the log of a pod by a stream that the retry loop
    of internal/progresslog opens again when it ends.  [followLogOptions] asks for
    the whole log on the first opening and for what is printed from then on
    afterwards.  Here are the pod that prints, the closure that opens and the stream
    that delivers, as an interleaving over the lines of the log. *)
From S2P Require Import Prelude Interleaving.
From stdpp Require Import relations list sorting options.
Local Open Scope nat_scope.

(** [corev1.PodLogOptions], as far as it is set. *)
Record PodLogOptions : Type := mkPodLogOptions { Follow : bool; TailLines : option nat }.

Definition followLogOptions (alreadyStreamed : bool) : PodLogOptions :=
  mkPodLogOptions true (if alreadyStreamed then Some 0 else None).

(** Where the API server begins: at the first line, or at the last ones asked for. *)
Definition first_line (options : PodLogOptions) (printed : nat) : nat :=
  match TailLines options with None => 0 | Some n => printed - n end.

Record state : Type := mkState {
  log : list string;             (* what the pod has printed *)
  streamedOnce : bool;
  stream : option nat;           (* an open stream, and the line it delivers next *)
  seen : list nat                (* the lines the parser was given, by their place in the log *)
}.

Definition init : state := mkState [] false None [].

Inductive label : Type :=
  | Prints (line : string)
  | Opens (ok : bool)            (* [LogStreamFunc], and whether [Stream] succeeds *)
  | Delivers
  | Drops.                       (* the stream ends *)

Definition next (l : label) (s : state) : option state :=
  match l with
  | Prints line => Some (mkState (log s ++ [line]) (streamedOnce s) (stream s) (seen s))
  | Opens ok =>
      match stream s with
      | Some _ => None
      | None =>
          let options := followLogOptions (streamedOnce s) in
          Some (mkState (log s) true (if ok then Some (first_line options (length (log s))) else None) (seen s))
      end
  | Delivers =>
      match stream s with
      | Some n => if decide (n < length (log s)) then Some (mkState (log s) (streamedOnce s) (Some (S n)) (seen s ++ [n]))
                  else None
      | None => None
      end
  | Drops => match stream s with Some _ => Some (mkState (log s) (streamedOnce s) None (seen s)) | None => None end
  end.

(** ** Lemmas *)

(** Everything seen lies before the next line of the stream, and before the end of
    the log. *)
Definition in_order (s : state) : Prop :=
  StronglySorted lt (seen s) /\ Forall (fun i => i < length (log s)) (seen s) /\
  (forall n, stream s = Some n -> Forall (fun i => i < n) (seen s)) /\
  (streamedOnce s = false -> seen s = [] /\ stream s = None).

Lemma sorted_snoc l n : StronglySorted lt l -> Forall (fun i => i < n) l -> StronglySorted lt (l ++ [n]).
Proof.
  induction 1 as [|x l Hl IH Hx]; intros Hn; cbn; [by repeat constructor|].
  apply Forall_cons in Hn as [Hxn Hn]. constructor; [by apply IH|]. apply Forall_app. by split; [|constructor].
Qed.

Lemma in_order_step l s s' : in_order s -> next l s = Some s' -> in_order s'.
Proof.
  intros (Hs & Hl & Hn & Hf) E. destruct l as [line|ok| |]; cbn in E.
  - injection E as <-. split; [done|]. split; [|done]. cbn. rewrite length_app.
    eapply Forall_impl; [exact Hl|]. cbn. lia.
  - destruct (stream s) eqn:Es; [done|]. injection E as <-. split; [done|]. split; [done|]. split; [|done].
    cbn. intros n En. destruct ok; [|done]. injection En as <-. unfold first_line, followLogOptions. cbn.
    destruct (streamedOnce s); cbn; [by rewrite Nat.sub_0_r|]. destruct (Hf eq_refl) as [-> _]. by constructor.
  - destruct (stream s) as [n|] eqn:Es; [|done]. case_decide as Hlt; [|done]. injection E as <-.
    specialize (Hn n eq_refl). split; [by apply sorted_snoc|]. split; [|split].
    + cbn. apply Forall_app. by split; [|constructor].
    + cbn. intros m [= <-]. apply Forall_app. split; [|constructor; [lia|done]].
      eapply Forall_impl; [exact Hn|]. cbn. lia.
    + intros Ho. by destruct (Hf Ho).
  - destruct (stream s) as [n|] eqn:Es; [|done]. injection E as <-. split; [done|]. split; [done|]. split; [done|].
    intros Ho. by destruct (Hf Ho).
Qed.

(** A line the stream has passed by. *)
Definition missed (i : nat) (s : state) : Prop :=
  streamedOnce s = true /\ i < length (log s) /\ i ∉ seen s /\ forall n, stream s = Some n -> i < n.

Lemma missed_step i l s s' : missed i s -> next l s = Some s' -> missed i s'.
Proof.
  intros (Ho & Hl & Hi & Hn) E. destruct l as [line|ok| |]; cbn in E.
  - injection E as <-. repeat split; try done. cbn. rewrite length_app. lia.
  - destruct (stream s) eqn:Es; [done|]. injection E as <-. repeat split; try done. cbn. intros n En.
    destruct ok; [|done]. injection En as <-. unfold first_line, followLogOptions. rewrite Ho. cbn. lia.
  - destruct (stream s) as [n|] eqn:Es; [|done]. case_decide; [|done]. injection E as <-.
    specialize (Hn n eq_refl). repeat split; try done; cbn.
    + rewrite elem_of_app, list_elem_of_singleton. intros [?| ->]; [done|lia].
    + intros m [= <-]. lia.
  - destruct (stream s) as [n|] eqn:Es; [|done]. injection E as <-. by repeat split.
Qed.

Definition is_open (l : label) : bool := match l with Opens _ => true | _ => false end.

(** What one stream from the start has delivered is a prefix of the log. *)
Definition prefix_seen (s : state) : Prop :=
  seen s = seq 0 (length (seen s)) /\ forall n, stream s = Some n -> n = length (seen s).

Lemma prefix_step l s s' : is_open l = false -> prefix_seen s -> next l s = Some s' -> prefix_seen s'.
Proof.
  intros Hl [Hs Hn] E. destruct l as [line| | |]; cbn in E; [|done|..].
  - by injection E as <-.
  - destruct (stream s) as [n|] eqn:Es; [|done]. case_decide; [|done]. injection E as <-.
    specialize (Hn n eq_refl). split; cbn; rewrite length_app; cbn.
    + rewrite Nat.add_1_r, seq_S, <- Hs. by rewrite Hn.
    + intros m [= <-]. lia.
  - destruct (stream s); [|done]. by injection E as <-.
Qed.

(** ** What the parser of the log is given *)

(** A reopened stream never goes back: the parser is given the lines in the order of
    the log and none of them twice, so the progress cannot be rewound and completed
    again. *)
Theorem reopening_never_rewinds s : rtc (step next) init s ->
  StronglySorted lt (seen s) /\ NoDup (seen s) /\ Forall (fun i => i < length (log s)) (seen s).
Proof.
  intros Hr. assert (in_order s) as (Hs & Hl & _).
  { revert s Hr. apply reachable_keep; [|intros; by eapply in_order_step].
    repeat split; try done; constructor. }
  split; [done|]. split; [|done]. clear Hl. induction Hs as [|x l _ IH Hx]; constructor; [|done].
  intros Hin. rewrite Forall_forall in Hx. specialize (Hx x Hin). lia.
Qed.

(** As long as the stream is opened once, nothing is left out. *)
Theorem first_stream_whole ls1 ls2 s s' :
  forallb (fun l => negb (is_open l)) ls1 = true -> forallb (fun l => negb (is_open l)) ls2 = true ->
  runs next (ls1 ++ Opens true :: ls2) init = Some s' -> runs next ls1 init = Some s ->
  seen s' = seq 0 (length (seen s')).
Proof.
  intros H1 H2 Hr Hr1.
  assert (forall ls a b, forallb (fun l => negb (is_open l)) ls = true -> prefix_seen a -> runs next ls a = Some b -> prefix_seen b)
    as Hk by (intros ls a b; apply runs_keep; intros l x y Hl%negb_true_iff; by apply prefix_step).
  assert (in_order s) as (_ & _ & _ & Hf).
  { eapply (reachable_keep next in_order init); [|intros; by eapply in_order_step|by eapply runs_reach].
    repeat split; try done; constructor. }
  assert (streamedOnce s = false) as Ho.
  { refine (runs_keep next (fun l => negb (is_open l)) (fun x => streamedOnce x = false) _ ls1 init s H1 eq_refl Hr1).
    intros l x y Hl Hx E. destruct l; cbn in *; try done; repeat case_match; try done; by injection E as <-. }
  destruct (Hf Ho) as [Hs Hn]. clear H1 Hf.
  assert (runs next (Opens true :: ls2) s = Some s') as Hr2.
  { clear -Hr Hr1. revert Hr Hr1. generalize init. induction ls1 as [|l ls1 IH]; intros x Hr Hr1; cbn in *.
    - by injection Hr1 as ->.
    - destruct (next l x); [|done]. by eapply IH. }
  cbn [runs next] in Hr2. rewrite Hn, Ho in Hr2. eapply Hk; [exact H2| |exact Hr2].
  split; cbn; rewrite Hs; [done|]. by intros n [= <-].
Qed.

(** What was printed before a reopening and not delivered by then is never seen. *)
Theorem reopening_skips s i ok s1 s' :
  streamedOnce s = true -> i < length (log s) -> i ∉ seen s ->
  next (Opens ok) s = Some s1 -> rtc (step next) s1 s' -> i ∉ seen s'.
Proof.
  intros Ho Hl Hi E Hr. assert (missed i s1) as Hm.
  { cbn in E. destruct (stream s); [done|]. injection E as <-. repeat split; try done. cbn. intros n En.
    destruct ok; [|done]. injection En as <-. unfold first_line, followLogOptions. rewrite Ho. cbn. lia. }
  assert (missed i s') as (_ & _ & H & _); [|done].
  revert s' Hr. by apply reachable_keep; [|intros; by eapply missed_step].
Qed.

(** An opening that fails counts: after it no stream has been followed, and yet the
    next one leaves out what was printed before it. *)
Theorem failed_opening_counts line : exists s,
  runs next [Prints line; Opens false; Opens true] init = Some s /\ seen s = [] /\
  forall s', rtc (step next) s s' -> 0 ∉ seen s'.
Proof.
  eexists. split; [reflexivity|]. split; [done|]. intros s' Hr.
  refine (reopening_skips (mkState [line] true None []) 0 true (mkState [line] true (Some 1) []) s' eq_refl _ _ eq_refl Hr).
  - cbn. lia.
  - apply not_elem_of_nil.
Qed.
