(* ===== verification/Migrator.v ===== *)
(** * internal/migrator: the ladder of strategies

    [Migrator.Run] of migrator.go with its checks, the attempt with its
    diagnostics and cleanup, and the outcomes of outcome.go.  The identifier
    [opid.Generate] makes up is an argument; log lines are left out, except for the
    records that stand in for the summary on a structured stream. *)
From S2P Require Import Prelude GoStrings Fmt Console Opid World Pvc Migration Mover Strategy.
From stdpp Require Import options.

(** ** Checks before the ladder *)

Fixpoint dedup_from (seen : gset string) (s : list string) : list string :=
  match s with
  | [] => []
  | val :: s => if decide (val ∈ seen) then dedup_from seen s
                else val :: dedup_from ({[val]} ∪ seen) s
  end.

Definition dedup (s : list string) : list string := dedup_from ∅ s.

Definition preflight (req : Request) : result (list (string * strategy)) :=
  _ ← CheckMoverFlags req;
  GetStrategiesMapForNames (Strategies req).

Definition getClusterClients (r : Request) : io (result (ClusterClient * ClusterClient)) :=
  let source := Source r in
  let dest := Dest r in
  sourceClient ←! ask (GetClusterClient (KubeconfigPath source) (Context source));
  if decide (KubeconfigPath source <> KubeconfigPath dest \/ Context source <> Context dest) then
    destClient ←! ask (GetClusterClient (KubeconfigPath dest) (Context dest));
    Ret (Ok (sourceClient, destClient))
  else Ret (Ok (sourceClient, sourceClient)).

Definition resolvedNamespaces (r : Request) (sourceClient destClient : ClusterClient) : string * string :=
  (if decide (pvc_Namespace (Source r) = "") then NsInContext sourceClient else pvc_Namespace (Source r),
   if decide (pvc_Namespace (Dest r) = "") then NsInContext destClient else pvc_Namespace (Dest r)).

Definition describeRelation (s d : Info) : string :=
  if decide (Host (Client s) <> Host (Client d)) then "🏠 the claims are in different clusters"
  else if decide (Namespace (Claim s) = Namespace (Claim d)) then
    "🏠 both claims are in the same cluster and namespace"
  else "🏠 both claims are in the same cluster, in different namespaces".

Definition handleMounted (info : Info) (ignoreMounted : bool) : result () :=
  if decide (MountedNode info = "") then Ok ()
  else if ignoreMounted then Ok ()
  else Err (Errorf "PVC is mounted to a node and --ignore-mounted is not requested: node: %s claim %s"
              [AStr (MountedNode info); AStr (Name (Claim info))]).

Definition handleMountedPVCs (r : Request) (s d : Info) : result () :=
  _ ← handleMounted s (IgnoreMounted r);
  handleMounted d (IgnoreMounted r).

(** [strings.ToLower]; provisioner names are ASCII. *)
Fixpoint ToLower (s : string) : string :=
  match s with EmptyString => "" | String a s => String (lower_byte a) (ToLower s) end.

Definition capacityEnforced (provisioner : string) : bool :=
  if decide (provisioner = "") then true
  else
    let p := ToLower provisioner in
    negb (Contains p "local-path" || Contains p "hostpath" || bool_decide (p = "openebs.io/local")).

(** The loop over the two claims: does some provisioner not enforce capacity?  A
    failed lookup leaves the name empty. *)
Fixpoint unenforced (candidates : list Info) : io bool :=
  match candidates with
  | [] => Ret false
  | info :: candidates =>
      r ← Provisioner info;
      let provisioner := match r with Ok p => p | Err _ => "" end in
      if negb (capacityEnforced provisioner) then Ret true else unenforced candidates
  end.

Definition handleSizes (r : Request) (s d : Info) : io (result ()) :=
  let sourceSize := Size s in
  let destSize := Size d in
  if IgnoreSizes r then Ret (Ok ())
  else if IsZero sourceSize || IsZero destSize then Ret (Ok ())
  else match Cmp destSize sourceSize with
       | Lt =>
           skip ← unenforced [s; d];
           Ret (if skip : bool then Ok ()
                else Err (Errorf "destination PVC %s/%s (%s) is smaller than source PVC %s/%s (%s): the migration would likely fail once the destination runs out of space. If you are sure the data fits, re-run with --ignore-sizes"
                            [AStr (Namespace (Claim d)); AStr (Name (Claim d)); AStr (quantity_text destSize);
                             AStr (Namespace (Claim s)); AStr (Name (Claim s)); AStr (quantity_text sourceSize)]))
       | _ => Ret (Ok ())
       end.

Definition validatePVCs (r : Request) (s d : Info) : io (result ()) :=
  if negb (SupportsRWO d) && negb (SupportsRWX d) then Ret (Err (ErrNew "destination PVC is not writable"))
  else handleSizes r s d.

Definition buildMigrationWithClients (r : Request) (sourceClient destClient : ClusterClient)
  : io (result Migration) :=
  _ ←! wrap "failed to load helm chart: %w" (ask (LoadChart (ChartVersion r)));
  let '(sourceNs, destNs) := resolvedNamespaces r sourceClient destClient in
  s ←! wrap "failed to get PVC info for source PVC: %w" (New sourceClient sourceNs (pvc_Name (Source r)));
  d ←! wrap "failed to get PVC info for destination PVC: %w" (New destClient destNs (pvc_Name (Dest r)));
  _ ←! Ret (handleMountedPVCs r s d);
  _ ←! validatePVCs r s d;
  Ret (Ok (mkMigration r s d)).

(** ** Outcomes *)

Record attemptOutcome : Type := mkOutcome {
  outcome_strategy : string;
  declined : bool;
  err : option error;
  diagnostics : string
}.

Definition status (o : attemptOutcome) : string := if declined o then "declined" else "failed".

(** The [Reason] of a [*DeclinedError] in the tree. *)
Definition declined_reason (e : error) : option string :=
  found ← error_find (of_type "*DeclinedError") e;
  match found with
  | Errorf _ [_; AStr reason; _] => Some reason
  | _ => None
  end.

Definition message (o : attemptOutcome) : string :=
  match err o with
  | None => ""
  | Some e =>
      let reason := default "" (declined_reason e) in
      if decide (reason <> "") then reason else Error e
  end.

Definition newLadderExhaustedError (outcomes : list attemptOutcome) : error :=
  Errorf "no strategy could complete the migration"
    (AType "*ladderExhaustedError" ::
     omap (fun o => (fun e => AWrap (Errorf "%s: %w" [AStr (outcome_strategy o); AWrap e])) <$> err o)
       outcomes).

Definition recordFailedAttempt (name : string) (attempt : Attempt) (attemptErr : error) : attemptOutcome :=
  if is_unaccepted attemptErr then mkOutcome name true (Some attemptErr) ""
  else mkOutcome name false (Some attemptErr) (Diagnostics attempt).

(** ** The summary *)

Definition writeIndented (message : string) : string :=
  String.concat "" ((fun line => "    " +:+ line +:+ nl) <$> Split message (ascii_of_nat 10)).

(** [%-*s] *)
Definition pad_right (width : nat) (s : string) : string :=
  s +:+ Nat.iter (width - String.length s) (fun t => String " " t) "".

Definition summaryRow (palette : Palette) (nameWidth : nat) (o : attemptOutcome) : string :=
  let name := Bold palette (pad_right nameWidth (outcome_strategy o)) in
  if declined o then "  " +:+ name +:+ "  " +:+ Warn palette "declined" +:+ "  " +:+ message o +:+ nl
  else "  " +:+ name +:+ "  " +:+ Bad palette "failed" +:+ nl +:+ writeIndented (message o).

Fixpoint diagnosticsBlocks (palette : Palette) (printed : bool) (outcomes : list attemptOutcome) : string :=
  match outcomes with
  | [] => ""
  | o :: outcomes =>
      if decide (diagnostics o = "") then diagnosticsBlocks palette printed outcomes
      else (if printed then "" else nl +:+ Bold palette "What the cluster reported:" +:+ nl +:+ nl)
           +:+ diagnostics o +:+ diagnosticsBlocks palette true outcomes
  end.

Definition writeDiagnosticsBlocks (outcomes : list attemptOutcome) (palette : Palette) : string :=
  diagnosticsBlocks palette false outcomes.

Definition writeSummary (outcomes : list attemptOutcome) (palette : Palette) : string :=
  nl +:+
  match outcomes with
  | [o] =>
      Failure palette ("Migration failed: the " +:+ outcome_strategy o +:+ " strategy " +:+ status o +:+ ".")
      +:+ nl +:+ writeIndented (message o)
  | _ =>
      let nameWidth := foldr max 0 ((fun o => String.length (outcome_strategy o)) <$> outcomes) in
      Failure palette "Migration failed: no strategy could complete the migration." +:+ nl +:+ nl
      +:+ String.concat "" (summaryRow palette nameWidth <$> outcomes)
  end
  +:+ writeDiagnosticsBlocks outcomes palette.

(** What the run reports besides its error: text on the request's writer, or
    records on a structured stream. *)
Inductive level : Type := LevelWarn | LevelError.
Inductive report : Type :=
  | NoReport
  | Text (s : string)
  | Records (l : list (level * list (string * string))).

Definition outcomeRecord (o : attemptOutcome) : level * list (string * string) :=
  (if declined o then LevelWarn else LevelError,
   [("strategy", outcome_strategy o); ("outcome", status o); ("error", message o)]
   ++ (if decide (diagnostics o = "") then [] else [("diagnostics", diagnostics o)])).

Definition reportOutcomes (r : Request) (outcomes : list attemptOutcome) : report :=
  if StructuredLogs r then Records (outcomeRecord <$> outcomes)
  else Text (writeSummary outcomes (ColorOutput r)).

Definition printDetachMessage (migrationID : string) : report :=
  Text (nl +:+ "Migration " +:+ migrationID +:+ " detached. The rsync job is running in the cluster." +:+ nl
        +:+ nl +:+ "To check status:" +:+ nl +:+ "  pv-migrate status " +:+ migrationID +:+ nl
        +:+ nl +:+ "To clean up after completion:" +:+ nl +:+ "  pv-migrate cleanup " +:+ migrationID +:+ nl).

(** ** Diagnostics of a failed attempt *)

Definition sidesDiffer (s d : Info) : bool :=
  bool_decide (Namespace (Claim s) <> Namespace (Claim d)) || bool_decide (Host (Client s) <> Host (Client d)).

(** The code compares pointers; where the sides differ, their namespace and
    cluster tell them apart. *)
Definition same_side (i j : Info) : bool := negb (sidesDiffer i j).

Definition sideLabel (attempt : Attempt) (info : Info) : string :=
  let mig := Attempt_Migration attempt in
  if negb (sidesDiffer (SourceInfo mig) (DestInfo mig)) then ""
  else if same_side info (SourceInfo mig) then "source side, "
  else if same_side info (DestInfo mig) then "destination side, "
  else "".

Fixpoint collect (attempt : Attempt) (targets : list DiagnosticTarget) (buf : string) : io string :=
  match targets with
  | [] => Ret buf
  | t :: targets =>
      let info := Target_Info t in
      let heading := "  " +:+ Release t +:+ " (" +:+ sideLabel attempt info +:+ "namespace "
                     +:+ Namespace (Claim info) +:+ "):" +:+ nl in
      d ← ask (CollectDiagnostics (Client info) (Namespace (Claim info)) (Release t));
      collect attempt targets (buf +:+ heading +:+ d)
  end.

Definition collectDiagnostics (attempt : Attempt) : io string :=
  collect attempt (DiagnosticTargets attempt) "".

(** ** An attempt *)

(** Whether the releases stay. *)
Definition keeps (attempt : Attempt) (runErr : result ()) : bool :=
  let req := migration_Request (Attempt_Migration attempt) in
  NoCleanup req || Detached attempt || (NoCleanupOnFailure req && negb (is_Ok runErr)).

Definition cleanupAttempt (attempt : Attempt) (runErr : result ()) : io () :=
  if decide (ReleaseNames attempt = []) then Ret ()
  else if keeps attempt runErr then Ret ()
  else _ ← Cleanup attempt; Ret ().

Definition runAttempt (str : strategy) (attempt : Attempt) : io (result () * Attempt) :=
  ra ← Run str attempt;
  let '(runErr, attempt) := ra in
  attempt ← match runErr with
            | Err e => if negb (is_unaccepted e)
                       then d ← collectDiagnostics attempt; Ret (setDiagnostics d attempt)
                       else Ret attempt
            | Ok _ => Ret attempt
            end;
  _ ← cleanupAttempt attempt runErr;
  Ret (runErr, attempt).

(** ** The ladder *)

Definition newAttempt (migrationID name : string) (mig : Migration) : Attempt :=
  mkAttempt migrationID (releasePrefixFor migrationID name) mig false [] [] "".

Definition strategy_lookup (m : list (string * strategy)) (name : string) : option strategy :=
  snd <$> List.find (fun kv => String.eqb kv.1 name) m.

(** Reached when a name is missing from the map: [str.Run] on a nil interface. *)
Definition nil_dereference : error := ErrNew "panic: nil pointer dereference".

Fixpoint ladder (req : Request) (migrationID : string) (mig : Migration)
    (nameToStrategy : list (string * strategy)) (todo : list string) (outcomes : list attemptOutcome)
  : io (result () * report) :=
  match todo with
  | [] => Ret (Err (newLadderExhaustedError outcomes), reportOutcomes req outcomes)
  | name :: todo =>
      match strategy_lookup nameToStrategy name with
      | None => Ret (Err nil_dereference, NoReport)
      | Some str =>
          ra ← runAttempt str (newAttempt migrationID name mig);
          match ra.1 with
          | Ok _ => Ret (Ok (), if Detach req then printDetachMessage migrationID else NoReport)
          | Err e =>
              let outcomes := outcomes ++ [recordFailedAttempt name ra.2 e] in
              interrupted ← ask CtxErr;
              if interrupted : bool
              then Ret (Err (newLadderExhaustedError outcomes), reportOutcomes req outcomes)
              else ladder req migrationID mig nameToStrategy todo outcomes
          end
      end
  end.

(** [Migrator.Run]; [generated] is what [opid.Generate] would return. *)
Definition Migrator_Run (req : Request) (generated : string) : io (result () * report) :=
  match preflight req with
  | Err e => Ret (Err e, NoReport)
  | Ok nameToStrategy =>
      let migrationID := if decide (ID req = "") then generated else ID req in
      clients ← getClusterClients req;
      match clients with
      | Err e => Ret (Err e, NoReport)
      | Ok (sourceClient, destClient) =>
          mig ← buildMigrationWithClients req sourceClient destClient;
          match mig with
          | Err e => Ret (Err e, NoReport)
          | Ok mig => ladder req migrationID mig nameToStrategy (dedup (Strategies req)) []
          end
      end
  end.

Definition run_example (answer : bool) (strategies : list string) : list event * (result () * report) :=
  let c := mkClient "https://a" "default" in
  let claim ns name := mkPVC ns name [ReadWriteOnce] "" None ∅ None None in
  let h := still c (mkCluster (fun ns name => Ok (claim ns name)) (fun _ => Ok [])
                      (fun _ => ApiErr NotFound (ErrNew "gone")) (Found [])) in
  let req := mkRequest "ab12" "" "" (mkPVCInfo "" "" "" "a" "") (mkPVCInfo "" "" "web" "b" "") false
    false false false false false false false false false "ed25519" 50000 0 [] [] [] [] strategies "" 0
    false false "" "" false false in
  exec h 0 (Migrator_Run req "zz").

Example ladder_runs :
  (run_example false ["mount"; "mount"; "clusterip"; "local"]).2 = (Ok (), NoReport).
Proof. vm_compute. reflexivity. Qed.

Example ladder_declines :
  (run_example false ["mount"]).2
  = (Err (newLadderExhaustedError
            [mkOutcome "mount" true (Some (Declined "source and destination are in different namespaces")) ""]),
     Text (nl +:+ "Migration failed: the mount strategy declined." +:+ nl
           +:+ "    source and destination are in different namespaces" +:+ nl)).
Proof. vm_compute. reflexivity. Qed.

(** ** Specification: what a run leaves behind *)

Definition installed (ev : event) : option (ClusterClient * string * string) :=
  match ev with
  | Ev (HelmInstall c ns release _ _ _) _ => Some (c, ns, release)
  | _ => None
  end.

(** The release was uninstalled, or that was attempted and failed, or Helm could
    not be reached for its namespace. *)
Definition cleanup_tried (r : ClusterClient * string * string) (ev : event) : Prop :=
  match ev with
  | Ev e x =>
      match e in call X return X -> Prop with
      | HelmUninstall c ns release _ => fun _ => (c, ns, release) = r
      | HelmInit c ns => fun x => (c, ns) = r.1 /\ is_Ok x = false
      | _ => fun _ => False
      end x
  end.

Definition uninstalls (ev : event) : bool :=
  match ev with Ev (HelmUninstall _ _ _ _) _ => true | _ => false end.

(** Every install of the trace is followed by its cleanup. *)
Fixpoint cleaned (t : list event) : Prop :=
  match t with
  | [] => True
  | ev :: t =>
      match installed ev with Some r => Exists (cleanup_tried r) t | None => True end /\ cleaned t
  end.

Lemma cleaned_app t1 t2 : cleaned t1 -> cleaned t2 -> cleaned (t1 ++ t2).
Proof.
  intros H1 H2. induction t1 as [|ev t1 IH]; cbn in *; [done|].
  destruct H1 as [Hev H1]. split; [|by apply IH].
  destruct (installed ev); [|done]. apply Exists_app. by left.
Qed.

Lemma cleaned_covered t1 t2 :
  Forall (fun ev => match installed ev with Some r => Exists (cleanup_tried r) t2 | None => True end) t1 ->
  cleaned t2 -> cleaned (t1 ++ t2).
Proof.
  intros H1 H2. induction H1 as [|ev t1 Hev H1 IH]; cbn; [done|].
  split; [|done]. destruct (installed ev); [|done]. apply Exists_app. by right.
Qed.

Definition installs_nothing (ev : event) : Prop := installed ev = None.

Lemma cleaned_quiet t : Forall installs_nothing t -> cleaned t.
Proof. induction 1 as [|ev t Hev Ht IH]; cbn; [done|]. by rewrite Hev. Qed.

(** ** Lemmas: cleanup reaches every release on both sides *)

Lemma cleanup_loop_tries timeout todo errs :
  wp (cleanup_loop timeout todo errs) []
     (fun t _ => Forall installs_nothing t /\
                 Forall (fun ir => Exists (cleanup_tried (Client ir.1, Namespace (Claim ir.1), ir.2)) t) todo).
Proof.
  revert errs. induction todo as [|[info name] todo IH]; intros errs; cbn [cleanup_loop]; [by split|].
  rewrite wp_bind. unfold cleanupForPVC. rewrite wp_try, wp_wrap. cbn [wp ask app].
  assert (forall ev rest, installs_nothing ev ->
    (forall t2, wp (cleanup_loop timeout todo rest) t2 (fun t' _ => exists t3, t' = t2 ++ t3 /\
       Forall installs_nothing t3 /\
       Forall (fun ir => Exists (cleanup_tried (Client ir.1, Namespace (Claim ir.1), ir.2)) t3) todo))) as Hrest.
  { intros _ rest _ t2. apply wp_frame, IH. }
  intros [[]|e]; cbn [wrap_err].
  - rewrite wp_bind. cbn [wp ask app]. intros r.
    eapply wp_mono; [apply (Hrest (Ev (HelmInit (Client info) (Namespace (Claim info))) (Ok ())))|]; [done|].
    intros t' _ (t3 & -> & Hq & Ht). split.
    + apply Forall_app. split; [by repeat constructor|done].
    + constructor; [|eapply Forall_impl; [exact Ht|]; intros ir Hir; apply Exists_app; by right].
      apply Exists_app. left. right. by left.
  - eapply wp_mono; [apply (Hrest (Ev (HelmInit (Client info) (Namespace (Claim info))) (Err e)))|]; [done|].
    intros t' _ (t3 & -> & Hq & Ht). split.
    + apply Forall_app. split; [by repeat constructor|done].
    + constructor; [|eapply Forall_impl; [exact Ht|]; intros ir Hir; apply Exists_app; by right].
      apply Exists_app. left. by left.
Qed.

Lemma Cleanup_covers a a' r mig t :
  run_ok (values_ok mig) mig t (r, a') -> ReleaseNames a = ReleaseNames a' -> Attempt_Migration a = Attempt_Migration a' ->
  wp (Cleanup a) [] (fun t2 _ => cleaned t2 /\
    Forall (fun ev => match installed ev with Some r => Exists (cleanup_tried r) t2 | None => True end) t).
Proof.
  intros [Hev (_ & Hm & _)] En Em. cbn in Hev, Hm. unfold Cleanup. eapply wp_mono; [apply cleanup_loop_tries|].
  intros t2 _ [Hq Ht]. split; [by apply cleaned_quiet|].
  eapply Forall_impl; [exact Hev|]. intros [X e x]; destruct e; cbn; try done.
  intros (Hin & info & Hi & -> & ->). rewrite Forall_forall in Ht. cbn [snd] in *.
  apply (Ht (info, release)). rewrite En, Em, Hm.
  apply list_elem_of_bind. exists info. split; [|done].
  apply list_elem_of_bind. exists release. split; [by apply list_elem_of_singleton|done].
Qed.

Definition uninstalls_nothing (ev : event) : Prop := uninstalls ev = false.

Lemma run_ok_uninstalls mig t ra : run_ok (values_ok mig) mig t ra -> Forall uninstalls_nothing t.
Proof. intros [H _]. eapply Forall_impl; [exact H|]. by intros [X []]. Qed.

Lemma collect_quiet I attempt targets buf :
  (forall c ns r d, I (Ev (CollectDiagnostics c ns r) d)) -> all_events I (collect attempt targets buf).
Proof.
  intros HI. revert buf. induction targets as [|t targets IH]; intros buf; cbn; [done|].
  intros d. split; [apply HI|apply IH].
Qed.

(** The attempt after its run, with its diagnostics: same releases, and only
    diagnostic calls in between. *)
Definition only_diagnostics (ev : event) : Prop :=
  match ev with Ev (CollectDiagnostics _ _ _) _ => True | _ => False end.

Lemma runAttempt_wp s a mig :
  fresh a mig ->
  wp (runAttempt s a) [] (fun t ra =>
    tracks mig (ReleaseNames ra.2) ra.2 /\
    (keeps ra.2 ra.1 = false -> cleaned t) /\
    (keeps ra.2 ra.1 = true -> Forall uninstalls_nothing t)).
Proof.
  intros Ha. unfold runAttempt. rewrite wp_bind.
  eapply wp_mono; [by apply (Run_ok (values_ok mig) mig s a)|]. intros t1 [r a1] Hrun. rewrite wp_bind.
  eapply (wp_mono _ _ (fun t a' => exists t2, t = t1 ++ t2 /\ Forall only_diagnostics t2 /\
    ReleaseNames a' = ReleaseNames a1 /\ Attempt_Migration a' = Attempt_Migration a1 /\
    Detached a' = Detached a1)).
  - apply wp_frame. destruct r as [[]|e]; [by cbn|].
    destruct (negb (is_unaccepted e)); [|by cbn]. rewrite wp_bind. unfold collectDiagnostics.
    eapply wp_mono; [apply (wp_all_events only_diagnostics); [done|by apply collect_quiet]|].
    by intros t2 d Ht2.
  - intros t a' (t2 & -> & Hd & En & Em & Ed). cbn [fst snd].
    assert (tracks mig (ReleaseNames a') a') as Htr.
    { destruct Hrun as [_ (H1 & H2 & H3)]. split; [done|]. cbn in *. rewrite Em, Ed. by split. }
    assert (Forall installs_nothing t2) as Hi
      by (eapply Forall_impl; [exact Hd|]; intros [X []]; done).
    assert (Forall uninstalls_nothing (t1 ++ t2)) as Hu.
    { apply Forall_app. split; [by eapply run_ok_uninstalls|].
      eapply Forall_impl; [exact Hd|]. by intros [X []]. }
    assert (ReleaseNames a' = [] -> cleaned (t1 ++ t2)) as Hnone.
    { intros E. apply cleaned_quiet, Forall_app. split; [|done].
      destruct Hrun as [Hev _]. cbn in Hev. rewrite <- En, E in Hev.
      eapply Forall_impl; [exact Hev|]. intros [X []]; cbn; try done.
      by intros [[]%not_elem_of_nil _]. }
    rewrite wp_bind. unfold cleanupAttempt. destruct (decide (ReleaseNames a' = [])) as [E|E].
    { cbn. split; [done|]. split; [intros _; by apply Hnone|done]. }
    destruct (keeps a' r) eqn:Ek; [by cbn; rewrite Ek|]. rewrite wp_bind.
    eapply wp_mono; [apply wp_frame; eapply Cleanup_covers; [exact Hrun|done|done]|].
    intros t _ (t3 & -> & Hc & Hcov). cbn. rewrite Ek. split; [done|]. split; [intros _|done].
    apply cleaned_covered; [|done].
    apply Forall_app. split; [done|].
    eapply Forall_impl; [exact Hi|]. intros ev Hev. unfold installs_nothing in Hev. by rewrite Hev.
Qed.

(** ** Lemmas: the calls around the attempts *)

Definition neutral (ev : event) : Prop := installs_nothing ev /\ uninstalls_nothing ev.

Lemma New_neutral c ns name : all_events neutral (New c ns name).
Proof.
  unfold New, newInfo, findMountedPod, Pvc.resolveTopology, AllowedNodesFor, volumeNodeSelector, wrap_errf.
  quiet; done.
Qed.

Lemma buildMigration_neutral r s d : all_events neutral (buildMigrationWithClients r s d).
Proof.
  unfold buildMigrationWithClients, validatePVCs, handleSizes, unenforced, Provisioner.
  repeat first [apply New_neutral | progress quiet]; done.
Qed.

(** What becomes of the releases under a request's cleanup flags. *)
Definition fate (req : Request) (t : list event) : Prop :=
  (NoCleanup req = false -> Detach req = false -> NoCleanupOnFailure req = false -> cleaned t) /\
  (NoCleanup req = true -> Forall uninstalls_nothing t).

Lemma fate_app req t1 t2 : fate req t1 -> fate req t2 -> fate req (t1 ++ t2).
Proof.
  intros [H1 H1'] [H2 H2']. split; intros; [apply cleaned_app|apply Forall_app; split]; auto.
Qed.

Lemma fate_neutral req t : Forall neutral t -> fate req t.
Proof.
  intros H. split; intros; [apply cleaned_quiet|]; (eapply Forall_impl; [exact H|]); by intros ev [].
Qed.

Lemma wp_fate_neutral {A} req (p : io A) t :
  all_events neutral p -> fate req t -> wp p t (fun t' _ => fate req t').
Proof.
  intros Hp Ht. eapply wp_mono; [apply wp_frame, (wp_all_events neutral _ []); [done|exact Hp]|].
  intros t' _ (t2 & -> & H2). by apply fate_app, fate_neutral.
Qed.

Lemma runAttempt_fate s a mig t :
  fresh a mig -> fate (migration_Request mig) t ->
  wp (runAttempt s a) t (fun t' _ => fate (migration_Request mig) t').
Proof.
  intros Ha Ht. eapply wp_mono; [by apply wp_frame, (runAttempt_wp s a mig)|].
  intros t' [r a'] (t2 & -> & (_ & Hm & Hd) & Hk & Hk'). apply fate_app; [done|].
  cbn in *. unfold keeps in *. rewrite Hm in *. split.
  - intros H1 H2 H3. apply Hk. rewrite H1, H3. destruct (Detached a'); [|done].
    rewrite Hd in H2; done.
  - intros H1. apply Hk'. by rewrite H1.
Qed.

Lemma newAttempt_fresh id name mig : fresh (newAttempt id name mig) mig.
Proof. by split. Qed.

Lemma ladder_fate req id mig m todo outcomes t :
  migration_Request mig = req -> fate req t ->
  wp (ladder req id mig m todo outcomes) t (fun t' _ => fate req t').
Proof.
  intros Em. revert outcomes t. induction todo as [|name todo IH]; intros outcomes t Ht; cbn; [done|].
  destruct (strategy_lookup m name) as [s|]; [|done]. rewrite wp_bind. subst req.
  eapply wp_mono; [by apply runAttempt_fate; [apply newAttempt_fresh|]|].
  intros t' [[u|e] a'] Ht'; cbn [fst snd]; [done|].
  assert (forall b, fate (migration_Request mig) (t' ++ [Ev CtxErr b])) as Hn.
  { intros b. apply fate_app; [done|]. by apply fate_neutral; repeat constructor. }
  intros [|]; cbn; [apply Hn|by apply IH].
Qed.

Lemma buildMigration_request r s d :
  wp (buildMigrationWithClients r s d) [] (fun _ m => forall mig, m = Ok mig -> migration_Request mig = r).
Proof.
  unfold buildMigrationWithClients. destruct (resolvedNamespaces r s d) as [sourceNs destNs].
  repeat (rewrite ?wp_try, ?wp_wrap; eapply wp_mono; [apply wp_true|];
          intros ? [?|?] _; cbn [wp wrap_err]; [|by intros]).
  intros mig H. by go_inv.
Qed.

Lemma run_fate req generated : wp (Migrator_Run req generated) [] (fun t _ => fate req t).
Proof.
  unfold Migrator_Run. destruct (preflight req) as [m|e]; [|by apply fate_neutral].
  cbv zeta. rewrite wp_bind. eapply wp_mono.
  { apply wp_fate_neutral; [|by apply fate_neutral]. unfold getClusterClients. quiet; done. }
  intros t [[source dest]|e] Ht; [|done]. rewrite wp_bind.
  eapply wp_mono.
  { apply wp_and; [by apply wp_fate_neutral; [apply buildMigration_neutral|]|].
    apply wp_frame, buildMigration_request. }
  intros t' [mig|e] [Ht' (t2 & _ & Hm)]; [|done]. apply ladder_fate; [by apply Hm|done].
Qed.

(** ** Lemmas: the ladder *)

(** An attempt as it was tried: the strategy's name, and what it came to. *)
Definition tried_t : Type := string * (result () * Attempt).

Definition did_run (h : handler) (migrationID : string) (mig : Migration) (tr : tried_t) : Prop :=
  exists s k, nameToStrategy tr.1 = Some s /\
              (exec h k (runAttempt s (newAttempt migrationID tr.1 mig))).2 = tr.2.

Definition failed_attempt (tr : tried_t) : Prop := is_Ok tr.2.1 = false.

(** The outcome recorded for a failed one. *)
Definition outcome_of (tr : tried_t) : option attemptOutcome :=
  match tr.2.1 with
  | Ok _ => None
  | Err e => Some (recordFailedAttempt tr.1 tr.2.2 e)
  end.

Lemma lookup_GetStrategiesMapForNames names m name :
  GetStrategiesMapForNames names = Ok m -> name ∈ names ->
  exists s, strategy_lookup m name = Some s /\ nameToStrategy name = Some s.
Proof.
  unfold strategy_lookup. revert m. induction names as [|k names IH]; intros m H Hin; cbn in H.
  { by apply not_elem_of_nil in Hin. }
  destruct (nameToStrategy k) as [s|] eqn:Ek; [|discriminate H]. go_inv. cbn.
  destruct (String.eqb k name) eqn:Eq; cbn.
  - apply String.eqb_eq in Eq as ->. by exists s.
  - apply String.eqb_neq in Eq. apply elem_of_cons in Hin as [->|Hin]; [done|]. by eapply IH.
Qed.

Lemma elem_of_dedup_from seen s name : name ∈ dedup_from seen s <-> name ∈ s /\ name ∉ seen.
Proof.
  revert seen. induction s as [|k s IH]; intros seen; cbn [dedup_from]; [set_solver|].
  destruct (decide (k ∈ seen)); [rewrite IH; set_solver|].
  rewrite elem_of_cons, IH. destruct (decide (name = k)); set_solver.
Qed.

Lemma NoDup_dedup_from seen s : NoDup (dedup_from seen s).
Proof.
  revert seen. induction s as [|k s IH]; intros seen; cbn [dedup_from]; [constructor|].
  destruct (decide (k ∈ seen)); [apply IH|]. constructor; [|apply IH].
  rewrite elem_of_dedup_from. set_solver.
Qed.

Lemma dedup_from_first seen s name i :
  s !! i = Some name -> name ∉ seen -> name ∉ take i s ->
  exists j, dedup_from seen s !! j = Some name /\
            take j (dedup_from seen s) = dedup_from seen (take i s).
Proof.
  revert seen i. induction s as [|k s IH]; intros seen i Hi Hs Ht; [done|].
  destruct i as [|i]; cbn in *.
  - injection Hi as ->. exists 0. by rewrite decide_False.
  - apply not_elem_of_cons in Ht as [Hk Ht]. destruct (decide (k ∈ seen)).
    + by apply IH.
    + destruct (IH ({[k]} ∪ seen) i Hi) as (j & Hj & Hp); [set_solver|done|].
      exists (S j). cbn. by rewrite Hp.
Qed.

Section Ladder.
Context (req : Request) (migrationID : string) (mig : Migration) (h : handler).
Context (m : list (string * strategy)) (names : list string).
Context (Hm : GetStrategiesMapForNames names = Ok m).

Definition ladder_spec (todo : list string) (outcomes : list attemptOutcome)
    (run : list event * (result () * report)) : Prop :=
  exists tried : list tried_t,
    tried.*1 `prefix_of` todo /\ Forall (did_run h migrationID mig) tried /\
    match run.2.1 with
    | Ok _ => exists front last, tried = front ++ [last] /\ Forall failed_attempt front /\
                                 is_Ok last.2.1 = true
    | Err e =>
        Forall failed_attempt tried /\
        e = newLadderExhaustedError (outcomes ++ omap outcome_of tried) /\
        run.2.2 = reportOutcomes req (outcomes ++ omap outcome_of tried) /\
        (tried.*1 = todo \/ exists t, run.1 = t ++ [Ev CtxErr true])
    end.

Lemma ladder_meets todo outcomes n :
  (forall name, name ∈ todo -> name ∈ names) ->
  ladder_spec todo outcomes (exec h n (ladder req migrationID mig m todo outcomes)).
Proof using Hm.
  revert outcomes n. induction todo as [|name todo IH]; intros outcomes n Hin; cbn [ladder].
  { exists []. rewrite app_nil_r. cbn. repeat split; [apply prefix_nil|constructor|constructor|by left]. }
  destruct (lookup_GetStrategiesMapForNames names m name Hm) as (s & -> & Hs); [apply Hin; set_solver|].
  rewrite exec_bind. cbn zeta. set (run1 := exec h n _).
  destruct run1 as [t1 [r a]] eqn:E1. cbn [fst snd].
  assert (did_run h migrationID mig (name, (r, a))) as Hd.
  { exists s, n. split; [done|]. cbn. fold run1. by rewrite E1. }
  destruct r as [u|e]; cbn [fst snd].
  { exists [(name, (Ok u, a))]. cbn. split; [by apply prefix_cons, prefix_nil|].
    split; [by constructor|]. exists [], (name, (Ok u, a)). by repeat constructor. }
  cbn [exec mbind io_bind io_bind_def ask]. destruct (h bool _ CtxErr) eqn:Ec; cbn [exec fst snd].
  - exists [(name, (Err e, a))]. cbn. split; [by apply prefix_cons, prefix_nil|].
    split; [by constructor|]. split; [by repeat constructor|]. split; [done|]. split; [done|].
    right. by exists t1.
  - destruct (IH (outcomes ++ [recordFailedAttempt name a e]) (S (n + length t1)))
      as (tried & Hp & Hr & Hres); [set_solver|].
    exists ((name, (Err e, a)) :: tried). cbn [fmap list_fmap fst].
    split; [by apply prefix_cons|]. split; [by constructor|].
    destruct (exec h _ (ladder req migrationID mig m todo _)) as [t2 [[[]|e'] rep]]; cbn [fst snd] in *.
    + destruct Hres as (front & last & -> & Hf & Hl). exists ((name, (Err e, a)) :: front), last.
      split; [done|]. split; [by constructor|done].
    + destruct Hres as (Hf & He & Hrep & Hend). split; [by constructor|].
      rewrite <- (assoc_L (++)) in He, Hrep. split; [exact He|]. split; [exact Hrep|].
      destruct Hend as [<-|[t ->]]; [by left|right]. exists (t1 ++ Ev CtxErr false :: t).
      by rewrite <- (assoc_L (++)).
Qed.
End Ladder.

Lemma ladder_error_has p outcomes o e :
  o ∈ outcomes -> err o = Some e -> error_has p e = true ->
  error_has p (newLadderExhaustedError outcomes) = true.
Proof.
  intros Hin He Hp. unfold newLadderExhaustedError.
  apply (error_has_wrapped _ _ _ (Errorf "%s: %w" [AStr (outcome_strategy o); AWrap e])).
  - apply elem_of_cons. right. apply list_elem_of_omap. exists o. by rewrite He.
  - apply (error_has_wrapped _ _ _ e); [set_solver|done].
Qed.

Lemma recorded_err name a e : err (recordFailedAttempt name a e) = Some e.
Proof. unfold recordFailedAttempt. by destruct (is_unaccepted e). Qed.

Lemma exec_wrap {A} h n fmt (p : io (result A)) a :
  (exec h n (World.wrap fmt p)).2 = Ok a -> (exec h n p).2 = Ok a.
Proof. unfold World.wrap. rewrite exec_bind. cbn. apply wrap_err_Ok. Qed.

Lemma handleMountedPVCs_Ok req s d u :
  handleMountedPVCs req s d = Ok u ->
  IgnoreMounted req = true \/ (MountedNode s = "" /\ MountedNode d = "").
Proof.
  unfold handleMountedPVCs, handleMounted. intros H. go_inv.
  destruct (IgnoreMounted req); [by left|right]. repeat case_decide; done.
Qed.

Lemma unenforced_true h n candidates :
  (exec h n (unenforced candidates)).2 = true ->
  exists info k provisioner, info ∈ candidates /\ (exec h k (Provisioner info)).2 = Ok provisioner /\
                             capacityEnforced provisioner = false.
Proof.
  revert n. induction candidates as [|info candidates IH]; intros n; [done|].
  cbn [unenforced]. rewrite exec_bind. cbn [snd fst].
  destruct (exec h n (Provisioner info)) as [t [p|e]] eqn:E; cbn [snd fst].
  - destruct (capacityEnforced p) eqn:Ep; cbn [negb].
    + intros H. apply IH in H as (i & k & p' & Hi & H). exists i, k, p'. split; [set_solver|done].
    + intros _. exists info, n, p. rewrite E. split; [set_solver|done].
  - cbn. intros H. apply IH in H as (i & k & p' & Hi & H). exists i, k, p'. split; [set_solver|done].
Qed.

Lemma validatePVCs_Ok h n req s d u :
  (exec h n (validatePVCs req s d)).2 = Ok u ->
  (SupportsRWO d = true \/ SupportsRWX d = true) /\
  (IgnoreSizes req = true \/ quantity_value (Size s) = 0%Z \/ quantity_value (Size d) = 0%Z \/
   (quantity_value (Size s) <= quantity_value (Size d))%Z \/
   exists info k provisioner, info ∈ [s; d] /\ (exec h k (Provisioner info)).2 = Ok provisioner /\
                              capacityEnforced provisioner = false).
Proof.
  unfold validatePVCs. destruct (negb (SupportsRWO d) && negb (SupportsRWX d)) eqn:Ew; [done|].
  intros H. split; [destruct (SupportsRWO d), (SupportsRWX d); auto|].
  unfold handleSizes, Cmp, IsZero in H. destruct (IgnoreSizes req); [by left|right].
  case_bool_decide; [by left|right]. case_bool_decide; [by left|right].
  cbn [orb] in H. destruct (Z.compare_spec (quantity_value (Size d)) (quantity_value (Size s))).
  - left. lia.
  - right. rewrite exec_bind in H. cbn [snd fst] in H.
    apply (unenforced_true h n). destruct (exec h n (unenforced [s; d])).2; done.
  - left. lia.
Qed.

(** ** Properties *)

(** A run leaves nothing behind unless it was asked to.  With none of
    --no-cleanup, --no-cleanup-on-failure and --detach, every release the run
    installs is later uninstalled, or its uninstall was attempted and failed: on
    success and on failure, for every strategy of the ladder, whatever the
    clusters answer and wherever an attempt stops.  With --no-cleanup the run
    uninstalls nothing. *)
Theorem Run_cleans_up (req : Request) (generated : string) (h : handler) n :
  let t := (exec h n (Migrator_Run req generated)).1 in
  (NoCleanup req = false -> Detach req = false -> NoCleanupOnFailure req = false -> cleaned t) /\
  (NoCleanup req = true -> Forall uninstalls_nothing t).
Proof. exact (wp_exec _ _ _ h n (run_fate req generated)). Qed.

Lemma Run_cleans_up_witness :
  let t := (run_example false ["mount"; "clusterip"]).1 in
  existsb uninstalls t = true /\ cleaned t.
Proof.
  intros t. split; [vm_compute; reflexivity|].
  refine (proj1 (Run_cleans_up _ _ _ 0) _ _ _); reflexivity.
Defined.

(** C13: the ladder tries the requested strategies in order, each at most once,
    and stops at the first that succeeds.  The run succeeds exactly when the last
    attempt made did; every attempt before it failed.  Otherwise every attempt
    made failed, the strategies not tried are the ones after an interruption, the
    summary is of exactly the attempts made, and each attempt's error can still be
    found in the unwrap tree of the error returned. *)
Theorem ladder_climbs (req : Request) (migrationID : string) (mig : Migration)
    (m : list (string * strategy)) (h : handler) n
    (Hm : GetStrategiesMapForNames (Strategies req) = Ok m) :
  let names := dedup (Strategies req) in
  let run := exec h n (ladder req migrationID mig m names []) in
  NoDup names /\ (forall name, name ∈ names <-> name ∈ Strategies req) /\
  exists tried : list tried_t,
    tried.*1 `prefix_of` names /\ Forall (did_run h migrationID mig) tried /\
    match run.2.1 with
    | Ok _ => exists front last, tried = front ++ [last] /\ Forall failed_attempt front /\
                                 is_Ok last.2.1 = true
    | Err e =>
        Forall failed_attempt tried /\
        run.2.2 = reportOutcomes req (omap outcome_of tried) /\
        (tried.*1 = names \/ exists t, run.1 = t ++ [Ev CtxErr true]) /\
        forall tr e', tr ∈ tried -> tr.2.1 = Err e' ->
          forall p, error_has p e' = true -> error_has p e = true
    end.
Proof.
  intros names run. split; [apply NoDup_dedup_from|].
  assert (forall name, name ∈ names <-> name ∈ Strategies req) as Hn.
  { intros name. unfold names, dedup. rewrite elem_of_dedup_from. set_solver. }
  split; [done|].
  destruct (ladder_meets req migrationID mig h m (Strategies req) Hm names [] n) as (tried & Hp & Hr & Hres).
  { intros name. apply Hn. }
  exists tried. split; [done|]. split; [done|]. fold run in Hres. destruct run.2.1 as [u|e]; [done|].
  destruct Hres as (Hf & -> & Hrep & Hend). split; [done|]. split; [done|]. split; [done|].
  intros [name [r a]] e' Hin He p Hp'. cbn in He. subst r.
  eapply ladder_error_has; [|by apply (recorded_err name a)|done].
  apply list_elem_of_omap. by exists (name, (Err e', a)).
Qed.

Lemma ladder_climbs_witness :
  let req := plain_request "" "" "" false in
  let req := mkRequest "" "" "" (Source req) (Dest req) false false false false false false false false
               false false "ed25519" 50000 0 [] [] [] [] ["mount"; "local"; "mount"] "" 0 false false ""
               "" false false in
  let names := dedup (Strategies req) in
  names = ["mount"; "local"] /\ NoDup names.
Proof.
  intros req0 req names. split; [vm_compute; reflexivity|].
  refine (proj1 (ladder_climbs req "ab12" (plain_migration "" false) [("mount", Mount); ("local", Local); ("mount", Mount)]
    (fun X n e => still (mkClient "" "") (mkCluster (fun _ _ => Err (ErrNew "")) (fun _ => Ok [])
       (fun _ => ApiErr NotFound (ErrNew "")) (Found [])) X n e) 0 _)).
  reflexivity.
Defined.

(** C18: a migration that passes the pre-flight checks has the claims the request
    names, in the request's namespaces or else those of the two contexts; neither
    claim is mounted, unless --ignore-mounted; the destination can be written; and
    the destination is not smaller than the source, unless --ignore-sizes, or one
    of the sizes is unknown, or the provisioner of one of the claims was looked up
    and is one of those that do not enforce capacity. *)
Theorem buildMigration_checks (req : Request) (sourceClient destClient : ClusterClient) (h : handler) n
    (mig : Migration)
    (Hok : (exec h n (buildMigrationWithClients req sourceClient destClient)).2 = Ok mig) :
  let s := SourceInfo mig in
  let d := DestInfo mig in
  let ns := resolvedNamespaces req sourceClient destClient in
  migration_Request mig = req /\
  (exists k, (exec h k (New sourceClient ns.1 (pvc_Name (Source req)))).2 = Ok s) /\
  (exists k, (exec h k (New destClient ns.2 (pvc_Name (Dest req)))).2 = Ok d) /\
  (IgnoreMounted req = true \/ (MountedNode s = "" /\ MountedNode d = "")) /\
  (SupportsRWO d = true \/ SupportsRWX d = true) /\
  (IgnoreSizes req = true \/ quantity_value (Size s) = 0%Z \/ quantity_value (Size d) = 0%Z \/
   (quantity_value (Size s) <= quantity_value (Size d))%Z \/
   exists info k provisioner, info ∈ [s; d] /\ (exec h k (Provisioner info)).2 = Ok provisioner /\
                              capacityEnforced provisioner = false).
Proof.
  intros s d ns. unfold buildMigrationWithClients in Hok.
  apply exec_try in Hok as (u & k0 & _ & Hok).
  destruct (resolvedNamespaces req sourceClient destClient) as [sourceNs destNs] eqn:Ens.
  apply exec_try in Hok as (s' & k1 & Hs & Hok). apply exec_wrap in Hs.
  apply exec_try in Hok as (d' & k2 & Hd & Hok). apply exec_wrap in Hd.
  apply exec_try in Hok as (u1 & k3 & Hm & Hok). apply exec_try in Hok as (u2 & k4 & Hv & Hok).
  cbn in Hok, Hm. apply Ok_inj in Hok. subst mig s d ns. cbn.
  split; [done|]. split; [by exists k0|]. split; [by exists k1|].
  split; [by eapply handleMountedPVCs_Ok|]. by eapply validatePVCs_Ok.
Qed.

Lemma buildMigration_checks_witness :
  let c := mkClient "https://a" "db" in
  let claim ns name := mkPVC ns name [ReadWriteOnce] "" None
    {["volume.kubernetes.io/storage-provisioner" := "rancher.io/local-path"]}
    (Some (mkQuantity (if decide (name = "a") then 2 else 1) "")) None in
  let h := still c (mkCluster (fun ns name => Ok (claim ns name)) (fun _ => Ok [])
                      (fun _ => ApiErr NotFound (ErrNew "gone")) (Found [])) in
  let req := plain_request "" "" "" false in
  exists mig, (exec h 0 (buildMigrationWithClients req c c)).2 = Ok mig /\
    MountedNode (SourceInfo mig) = "" /\ MountedNode (DestInfo mig) = "".
Proof.
  intros c claim h req.
  assert (exists mig, (exec h 0 (buildMigrationWithClients req c c)).2 = Ok mig) as [mig Hm]
    by (eexists; vm_compute; reflexivity).
  exists mig. split; [exact Hm|].
  destruct (buildMigration_checks req c c h 0 mig Hm) as (_ & _ & _ & [H|H] & _); [discriminate H|exact H].
Defined.
