(* ===== verification/Flush.v ===== *)
(** * internal/flush: quiescing a database for the cut

    spec.go: the recipe of each kind of database, and how the lock of a MySQL-family
    server is chosen from what the server says it is; session.go: a command run in
    a pod ([Run]).  In the scripts a tilde stands for the double quote. *)
From S2P Require Import Prelude GoStrings Decimal Fmt World.
From stdpp Require Import sorting options.

Inductive Mode : Type := ModeSession | ModeOneShot | ModePair.

Record Lock : Type := mkLock {
  lock_Name : string;
  Statement : string;
  Unlock : string;
  lock_Note : string
}.

Record Spec : Type := mkSpec {
  mode : Mode;
  ReadsCredentials : bool;
  Identify : string;
  Choose : string -> result Lock;
  Probe : string;
  Marker : string;
  LockMarker : string;
  ReleaseMarker : string;
  spec_Note : string;
  spec_command : string -> list string;
  spec_release : string -> list string;
  override : option (list string)
}.

Definition Command (s : Spec) (user : string) : list string :=
  match override s with Some argv => argv | None => spec_command s user end.

Definition Release (s : Spec) (user : string) : list string := spec_release s user.

Definition WithCommand (s : Spec) (argv : list string) : Spec :=
  mkSpec (mode s) false (Identify s) (Choose s) (Probe s) (Marker s) (LockMarker s) (ReleaseMarker s)
    (spec_Note s) (spec_command s) (spec_release s) (Some argv).

(** ** Credentials *)

Record Credentials : Type := mkCredentials { User : string; Password : string }.

Definition ErrMultilinePassword : error :=
  ErrNew "the flush password contains a line break, which cannot be passed safely".

Definition line_break (a : ascii) : bool := mem_byte [ascii_of_nat 13; ascii_of_nat 10] a.

Definition Check_ (c : Credentials) : result () :=
  if any_byte line_break (Password c) then Err ErrMultilinePassword
  else if any_byte line_break (User c) then Err (ErrNew "the flush user contains a line break")
  else Ok ().

(** ** What the server says it is *)

Definition identityPrefix : string := "pv-migrate-server=".
Definition IdentityEnd : string := "|pv-migrate-end".
Definition quiescedMarker : string := "pv-migrate-quiesced".

Definition mysqlIdentify : string :=
  "SELECT CONCAT('pv-migrate', '-server=', @@version, '|', @@version_comment, '|pv-migrate', '-end');".
Definition mysqlProbe : string := "SELECT CONCAT('pv-migrate', '-quiesced');".

Definition ParseIdentity (output : string) : result string :=
  match Cut output identityPrefix with
  | None => Err (Errorf "the server did not say what it is; output: %s" [AStr output])
  | Some (_, rest) =>
      match Cut rest IdentityEnd with
      | None => Err (Errorf "the server's answer was cut short; output: %s" [AStr output])
      | Some (answer, _) => Ok answer
      end
  end.

(** ** The client scripts *)

Fixpoint quotes (s : string) : string :=
  match s with
  | EmptyString => ""
  | String a s => String (if decide (a = "~"%char) then double_quote else a) (quotes s)
  end.

Definition mysqlScript : string :=
  Eval vm_compute in quotes (
  "IFS= read -r pw; " +:+
  "export MYSQL_PWD=~${pw:-${MYSQL_PWD:-${MARIADB_ROOT_PASSWORD:-$MYSQL_ROOT_PASSWORD}}}~; " +:+
  "client=$(command -v mariadb || command -v mysql) || " +:+
  "{ echo ~pv-migrate: this container has neither a mariadb nor a mysql client~ >&2; exit 127; }; " +:+
  "exec ~$client~ --skip-reconnect -u~${1:-root}~ --batch --skip-column-names --unbuffered").

Definition postgresScript : string :=
  Eval vm_compute in quotes (
  "IFS= read -r pw; " +:+
  "pw=~${pw:-${PGPASSWORD:-$POSTGRES_PASSWORD}}~; " +:+
  "if [ -n ~$pw~ ]; then export PGPASSWORD=~$pw~; fi; " +:+
  "exec psql -X -q -w -v ON_ERROR_STOP=1 -d postgres -U ~${1:-${POSTGRES_USER:-postgres}}~ -c CHECKPOINT").

Definition mongoScript : string :=
  Eval vm_compute in quotes (
  "IFS= read -r pw; " +:+
  "user=~${1:-$MONGO_INITDB_ROOT_USERNAME}~; pass=~${pw:-$MONGO_INITDB_ROOT_PASSWORD}~; js=~$2~; " +:+
  "client=$(command -v mongosh || command -v mongo) || " +:+
  "{ echo ~pv-migrate: this container has neither mongosh nor mongo~ >&2; exit 127; }; " +:+
  "if [ -n ~$user~ ]; then " +:+
  "exec ~$client~ --quiet -u ~$user~ -p ~$pass~ --authenticationDatabase admin --eval ~$js~; fi; " +:+
  "exec ~$client~ --quiet --eval ~$js~").

Definition shellScript (script : string) (args : list string) : list string :=
  ["sh"; "-c"; script; "sh"] ++ args.

(** ** The locks of the MySQL family *)

Definition lockInstance : Lock := mkLock "LOCK INSTANCE FOR BACKUP" "LOCK INSTANCE FOR BACKUP;"
  "UNLOCK INSTANCE;" "DDL is blocked, writes continue; InnoDB recovers the rest from its redo log".
Definition lockTablesForBackup : Lock := mkLock "LOCK TABLES FOR BACKUP" "LOCK TABLES FOR BACKUP;"
  "UNLOCK TABLES;"
  "DDL and writes to non-transactional tables are blocked, InnoDB writes continue; InnoDB recovers the rest from its redo log".
Definition flushWithReadLock : Lock := mkLock "FLUSH TABLES WITH READ LOCK" "FLUSH TABLES WITH READ LOCK;"
  "UNLOCK TABLES;"
  "all writes are blocked until the snapshot is cut; the lock waits for running statements to finish first, so a long query delays it and stalls writers meanwhile".
Definition backupStage : Lock := mkLock "BACKUP STAGE BLOCK_COMMIT"
  "BACKUP STAGE START; BACKUP STAGE BLOCK_COMMIT;" "BACKUP STAGE END;"
  "non-transactional tables flushed, DDL blocked and commits held; InnoDB and Aria recover the rest from their logs".

(** ** Choosing one *)

Fixpoint digit_prefix (s : string) : string :=
  match s with
  | EmptyString => ""
  | String a s => if is_digit a then String a (digit_prefix s) else ""
  end.

Definition atLeast (major minor wantMajor wantMinor : Z) : bool :=
  bool_decide (wantMajor < major)%Z ||
  (bool_decide (major = wantMajor)%Z && bool_decide (wantMinor <= minor)%Z).

(** The version text the numbers are read from. *)
Definition real_version (version : string) : string :=
  let version := TrimSpace version in
  match CutPrefix version "5.5.5-" with
  | Some rest => if Contains rest "MariaDB" then rest else version
  | None => version
  end.

Definition leadingVersion (version : string) : result (Z * Z) :=
  let version := real_version version in
  match Cut version "." with
  | None => Err (Errorf "no major.minor in %q" [AStr version])
  | Some (majorPart, rest) =>
      match ParseInt majorPart, ParseInt (digit_prefix rest) with
      | None, _ => Err (Errorf "no major version in %q" [AStr version])
      | Some _, None => Err (Errorf "no minor version in %q" [AStr version])
      | Some major, Some minor => Ok (major, minor)
      end
  end.

(** [strings.Cut] where a missing separator leaves everything in the first part. *)
Definition cut_bar (identity : string) : string * string := default (identity, "") (Cut identity "|").

Definition ChooseMySQLLock (identity : string) : result Lock :=
  let '(version, comment) := cut_bar identity in
  match leadingVersion version with
  | Err e => Err (Errorf "cannot tell which lock %q supports: %w" [AStr identity; AWrap e])
  | Ok (major, minor) =>
      Ok (if Contains version "MariaDB" then
            if atLeast major minor 10 4 then backupStage else flushWithReadLock
          else if decide (8 <= major)%Z then lockInstance
          else if Contains comment "Percona" && bool_decide (major = 5)%Z && bool_decide (7 <= minor)%Z
          then lockTablesForBackup
          else flushWithReadLock)
  end.

(** ** The registry *)

Definition no_choice (identity : string) : result Lock := Err (ErrNew "panic: nil func").
Definition no_command (user : string) : list string := [].

Definition mysqlFamily : Spec :=
  mkSpec ModeSession true mysqlIdentify ChooseMySQLLock mysqlProbe quiescedMarker "" "" ""
    (fun user => shellScript mysqlScript [user]) no_command None.

Definition postgres : Spec :=
  mkSpec ModeOneShot true "" no_choice "" "" "" ""
    "checkpoint written to shorten recovery; the snapshot is crash-consistent through the WAL either way"
    (fun user => shellScript postgresScript [user]) no_command None.

Definition mongodb : Spec :=
  mkSpec ModePair true "" no_choice "" "" "pv-migrate-fsynclock=1" "pv-migrate-lockcount=0"
    "writes blocked and a checkpoint written; on a replica set point this at a hidden secondary, not the primary"
    (fun user => shellScript mongoScript [user;
       quotes "var r = db.fsyncLock(); print(~pv-migrate-fsynclock=~ + r.ok + ~ ~ + (r.errmsg || ~~))"])
    (fun user => shellScript mongoScript [user;
       quotes "print(~pv-migrate-lockcount=~ + db.fsyncUnlock().lockCount)"]) None.

Definition scylladb : Spec :=
  mkSpec ModeOneShot false "" no_choice "" "" "" ""
    "memtables flushed to SSTables; the commitlog replays anything after, up to 10 s of acknowledged writes under the default periodic sync"
    (fun _ => ["nodetool"; "flush"]) no_command None.

Definition specs : list (string * Spec) :=
  [("mysql", mysqlFamily); ("mariadb", mysqlFamily); ("postgres", postgres); ("mongodb", mongodb);
   ("scylladb", scylladb)].

#[local] Instance leb_decision : RelDecision (fun s t : string => String.leb s t = true).
Proof. intros s t. apply _. Defined.

(** [sort.Strings] over the map's keys. *)
Definition Kinds : list string := merge_sort (fun s t : string => String.leb s t = true) (specs.*1).

Definition Lookup (kind : string) : result Spec :=
  match List.find (fun kv => String.eqb kv.1 kind) specs with
  | Some (_, spec) => Ok spec
  | None => Err (Errorf "unsupported --flush %q, must be one of %s" [AStr kind; AStr (GoStrings.Join Kinds ", ")])
  end.

Example Kinds_sorted : Kinds = ["mariadb"; "mongodb"; "mysql"; "postgres"; "scylladb"].
Proof. vm_compute. reflexivity. Qed.

Example choose_examples :
  ChooseMySQLLock "8.0.36|MySQL Community Server - GPL" = Ok lockInstance /\
  ChooseMySQLLock "5.7.44-48|Percona Server (GPL)" = Ok lockTablesForBackup /\
  ChooseMySQLLock "5.5.5-10.3.39-MariaDB-1:10.3.39+maria~ubu2004|mariadb.org" = Ok flushWithReadLock /\
  ChooseMySQLLock "11.4.2-MariaDB-ubu2404|mariadb.org" = Ok backupStage.
Proof. vm_compute. auto. Qed.

(** ** A command run in a pod *)

Definition Run (c : ClusterClient) (namespace pod container : string) (command : list string)
    (password : option string) : io (result () * string) :=
  session ← ask (SessionOpen c namespace pod container command);
  match session with
  | Err e => Ret (Err e, "")
  | Ok session =>
      sent ← match password with
             | Some password => ask (SessionWriteSecret session password)
             | None => Ret (Ok ())
             end;
      closed ← ask (SessionClose session);
      output ← ask (SessionOutput session);
      Ret (match sent with Err e => Err e | Ok _ => closed end, output)
  end.

(** ** Specification *)

(** The statement that undoes each lock statement, from the servers' manuals. *)
Definition undoes (statement : string) : option string :=
  if decide (statement = "LOCK INSTANCE FOR BACKUP;") then Some "UNLOCK INSTANCE;"
  else if decide (statement = "LOCK TABLES FOR BACKUP;") then Some "UNLOCK TABLES;"
  else if decide (statement = "FLUSH TABLES WITH READ LOCK;") then Some "UNLOCK TABLES;"
  else if decide (statement = "BACKUP STAGE START; BACKUP STAGE BLOCK_COMMIT;") then Some "BACKUP STAGE END;"
  else None.

(** [(major, minor)] is not before [(a, b)]. *)
Definition since (a b major minor : Z) : Prop := (a < major \/ (major = a /\ b <= minor))%Z.

Definition no_digit_first (s : string) : Prop :=
  match s with EmptyString => True | String a _ => is_digit a = false end.

(** ** Lemmas *)

Lemma digit_prefix_app d s :
  all_bytes is_digit d = true -> no_digit_first s -> digit_prefix (d +:+ s) = d.
Proof.
  intros Hd Hs. induction d as [|a d IH].
  - destruct s as [|b s]; [done|]. cbn in *. by rewrite Hs.
  - cbn in Hd. apply andb_true_iff in Hd as [Ha Hd].
    change (String a d +:+ s) with (String a (d +:+ s)). cbn [digit_prefix]. rewrite Ha. by rewrite IH.
Qed.

Lemma leadingVersion_parse version major minor tail :
  real_version version = Itoa major +:+ "." +:+ Itoa minor +:+ tail ->
  (0 <= major <= max_int64)%Z -> (0 <= minor <= max_int64)%Z -> no_digit_first tail ->
  leadingVersion version = Ok (major, minor).
Proof.
  intros Hv Hmaj Hmin Ht. unfold leadingVersion. rewrite Hv.
  destruct (Itoa_digits major) as (Hd1 & _ & _); [lia|].
  destruct (Itoa_digits minor) as (Hd2 & _ & _); [lia|].
  change ("." +:+ Itoa minor +:+ tail) with (String "." (Itoa minor +:+ tail)).
  rewrite Cut_byte by (by apply digits_free_of).
  rewrite digit_prefix_app by done. by rewrite !ParseInt_Itoa.
Qed.

Lemma atLeast_spec major minor a b : atLeast major minor a b = true <-> since a b major minor.
Proof.
  unfold atLeast, since. rewrite orb_true_iff, andb_true_iff, !bool_decide_eq_true. lia.
Qed.

(** ** Properties *)

(** The lock for a MySQL-family server.  From a version text that starts with
    the numbers major.minor, alone or behind the 5.5.5- that a proxy puts in front
    of a MariaDB version, the numbers are read back, and the lock is the one that
    server has: BACKUP STAGE from MariaDB 10.4, LOCK INSTANCE FOR BACKUP from MySQL
    8, Percona's LOCK TABLES FOR BACKUP on 5.7, and FLUSH TABLES WITH READ LOCK
    before those.  The unlock statement that goes with it is the one that undoes
    it. *)
Theorem ChooseMySQLLock_fits (proxy : bool) (major minor : Z) (tail comment : string)
    (Hmajor : (0 <= major <= max_int64)%Z) (Hminor : (0 <= minor <= max_int64)%Z)
    (Htail : no_digit_first tail)
    (Hreal : let v := Itoa major +:+ "." +:+ Itoa minor +:+ tail in
             real_version ((if proxy then "5.5.5-" else "") +:+ v) = v)
    (Hbar : free_of "|" tail) :
  let v := (if proxy then "5.5.5-" else "") +:+ Itoa major +:+ "." +:+ Itoa minor +:+ tail in
  exists lock, ChooseMySQLLock (v +:+ "|" +:+ comment) = Ok lock /\
    undoes (Statement lock) = Some (Unlock lock) /\
    (Statement lock = "BACKUP STAGE START; BACKUP STAGE BLOCK_COMMIT;" <->
     Contains v "MariaDB" = true /\ since 10 4 major minor) /\
    (Statement lock = "LOCK INSTANCE FOR BACKUP;" <->
     Contains v "MariaDB" = false /\ since 8 0 major minor) /\
    (Statement lock = "LOCK TABLES FOR BACKUP;" <->
     Contains v "MariaDB" = false /\ Contains comment "Percona" = true /\
     since 5 7 major minor /\ ~ since 6 0 major minor).
Proof.
  intros v.
  assert (free_of "|" v) as Hv.
  { destruct (Itoa_digits major) as (Hd1 & _ & _); [lia|].
    destruct (Itoa_digits minor) as (Hd2 & _ & _); [lia|]. unfold v.
    rewrite !free_of_app. split; [by destruct proxy|]. split; [by apply digits_free_of|].
    split; [done|]. split; [by apply digits_free_of|done]. }
  assert (leadingVersion v = Ok (major, minor)) as Hl by (by eapply leadingVersion_parse).
  unfold ChooseMySQLLock, cut_bar.
  change ("|" +:+ comment) with (String "|" comment). rewrite Cut_byte by done.
  unfold default, from_option, id. rewrite Hl. eexists. split; [reflexivity|].
  pose proof (atLeast_spec major minor 10 4) as Hat. unfold since in *.
  destruct (Contains v "MariaDB").
  { destruct (atLeast major minor 10 4); cbn; (split; [done|]); intuition (try done; try lia). }
  destruct (decide (8 <= major)%Z).
  { cbn. split; [done|]. intuition (try done; try lia). }
  destruct (Contains comment "Percona"), (bool_decide (major = 5)%Z) eqn:E5,
    (bool_decide (7 <= minor)%Z) eqn:E7; cbn;
    rewrite ?bool_decide_eq_true, ?bool_decide_eq_false in *;
    (split; [done|]); intuition (try done; try lia).
Qed.

Lemma ChooseMySQLLock_fits_witness :
  let v := "5.5.5-" +:+ Itoa 10 +:+ "." +:+ Itoa 3 +:+ ".39-MariaDB" in
  v = "5.5.5-10.3.39-MariaDB" /\
  exists lock, ChooseMySQLLock (v +:+ "|" +:+ "mariadb.org binary distribution") = Ok lock /\
    undoes (Statement lock) = Some (Unlock lock).
Proof.
  intros v. split; [vm_compute; reflexivity|].
  destruct (ChooseMySQLLock_fits true 10 3 ".39-MariaDB" "mariadb.org binary distribution")
    as (lock & H & Hu & _); [split; discriminate|split; discriminate|reflexivity| | |].
  - vm_compute. reflexivity.
  - vm_compute. reflexivity.
  - exists lock. split; [exact H|exact Hu].
Defined.

(** What the client reads on its stdin: each [Write] and [WriteSecret] sends its
    line and a newline. *)
Definition stdin_of (lines : list string) : string :=
  String.concat "" ((fun l => l +:+ String (ascii_of_nat 10) "") <$> lines).

Lemma stdin_of_lines lines :
  Forall (free_of (ascii_of_nat 10)) lines -> Split (stdin_of lines) (ascii_of_nat 10) = lines ++ [""].
Proof.
  unfold stdin_of. induction 1 as [|l lines Hl Hls IH]; [done|].
  assert (forall rest, l +:+ String (ascii_of_nat 10) "" +:+ rest = l +:+ String (ascii_of_nat 10) rest)
    as Hr by done.
  assert (forall a rest, String.concat "" (a :: rest) = a +:+ String.concat "" rest) as Hc.
  { intros a [|b rest]; cbn; [by rewrite app_nil_r_str|done]. }
  cbn [fmap list_fmap]. rewrite Hc, app_assoc_str, Hr, Split_app, IH.
  rewrite (Split_one _ l) by done. done.
Qed.

Definition newline : ascii := ascii_of_nat 10.

Lemma any_byte_free c s (p : ascii -> bool) :
  p c = true -> any_byte p s = false -> free_of c s.
Proof.
  intros Hc. induction s as [|a s IH]; [done|]. cbn. intros [Ha Hs]%orb_false_iff.
  apply free_of_cons. split; [|by apply IH]. intros ->. by rewrite Hc in Ha.
Qed.

Lemma lock_lines lock identity :
  ChooseMySQLLock identity = Ok lock -> free_of newline (Statement lock) /\ free_of newline (Unlock lock).
Proof.
  unfold ChooseMySQLLock. destruct (cut_bar identity) as [version comment].
  destruct (leadingVersion version) as [[major minor]|e]; [|discriminate].
  intros H. apply Ok_inj in H. subst lock. repeat (case_match || case_decide); by vm_compute.
Qed.

(** A password the check lets through cannot become a statement.  The lines
    the client of a MySQL-family server reads on its stdin over a whole session are
    the password first, then the identity query, the lock, the probe and the unlock
    that were sent, and nothing else; and without the check they would not be, as
    soon as the password holds a newline. *)
Theorem Check_keeps_lines (creds : Credentials) (identity : string) (lock : Lock)
    (Hlock : ChooseMySQLLock identity = Ok lock) :
  let lines := [Password creds; mysqlIdentify; Statement lock; mysqlProbe; Unlock lock] in
  (Check_ creds = Ok () -> Split (stdin_of lines) newline = lines ++ [""]) /\
  (~ free_of newline (Password creds) -> Split (stdin_of lines) newline <> lines ++ [""]).
Proof.
  intros lines. destruct (lock_lines lock identity Hlock) as [Hs Hu]. split.
  - unfold Check_. destruct (any_byte line_break (Password creds)) eqn:E; [discriminate|]. intros _.
    apply stdin_of_lines. repeat constructor; try done. by apply (any_byte_free _ _ line_break).
  - intros Hn H. apply Hn. pose proof (Split_free_of (stdin_of lines) newline) as Hf.
    rewrite H in Hf. by inversion Hf.
Qed.

Lemma Check_keeps_lines_witness :
  let creds := mkCredentials "backup" "pa ss;" in
  let lock := lockInstance in
  let lines := [Password creds; mysqlIdentify; Statement lock; mysqlProbe; Unlock lock] in
  Check_ creds = Ok () /\ Split (stdin_of lines) newline = lines ++ [""].
Proof.
  intros creds lock lines. split; [vm_compute; reflexivity|].
  refine (proj1 (Check_keeps_lines creds "8.0.36|MySQL Community Server - GPL" lock _) _).
  - vm_compute. reflexivity.
  - vm_compute. reflexivity.
Defined.
