(* ===== verification/BucketRequest.v ===== *)
(** * internal/bucketstorage: the request

    [bucketstorage.Request], less its writer and logger.  Durations are their
    nanoseconds. *)
From S2P Require Import Prelude.
From stdpp Require Import options.

Definition DirectionBackup : string := "backup".
Definition DirectionRestore : string := "restore".

(** [DefaultPrefix] *)
Definition DefaultPrefix : string := "pv-migrate".

Record Request : Type := mkRequest {
  ID : string;
  ImageTag : string;
  ChartVersion : string;
  Direction : string;
  KubeconfigPath : string;
  Context : string;
  req_Namespace : string;
  PVCName : string;
  IgnoreMounted : bool;
  NonRoot : bool;
  Detach : bool;
  NoCleanup : bool;
  NoCleanupOnFailure : bool;
  DeleteExtraneousFiles : bool;
  Backend : string;
  Bucket : string;
  S3Provider : string;
  Endpoint : string;
  Region : string;
  AccessKey : string;
  SecretKey : string;
  StorageAccount : string;
  StorageKey : string;
  GCSServiceAccountJSON : string;
  GCSBucketPolicyOnly : option bool;
  req_Name : string;
  Prefix : string;
  Path : string;
  RcloneConfigFile : string;
  Remote : string;
  RcloneExtraArgs : string;
  ArchiveFile : string;
  CompressionLevel : Z;
  Snapshot : bool;
  FromSnapshot : string;
  SnapshotClass : string;
  KeepSnapshot : bool;
  Flush : string;
  FlushContainer : string;
  FlushCommand : list string;
  FlushUser : string;
  FlushPassword : string;
  FlushPasswordSecret : string;
  HelmTimeout : Z;
  HelmValuesFiles : list string;
  HelmValues : list string;
  HelmFileValues : list string;
  HelmStringValues : list string;
  StructuredLogs : bool;
  ColorOutput : bool
}.
