(* ===== verification/SnapshotSource.v ===== *)
(** * internal/bucketstorage/snapshotsource.go: a backup read from a snapshot

    Quiescing the database, cutting the snapshot under its lock, releasing the
    lock, cloning a claim from the snapshot, and taking back what a failed run
    made.  The closures of the source are data here: [release] is what [quiesce]
    leaves to be undone, and the [released] flag the closure captures is passed
    along.  Deferred calls run in their order, last registered first. *)
From S2P Require Import Prelude GoStrings Fmt World Pvc Flush BucketRequest.
From stdpp Require Import sorting options.

Definition second : Z := 1000000000.
Definition cutTimeout : Z := 5 * 60 * second.
Definition readyTimeout : Z := 30 * 60 * second.
Definition markerTimeout : Z := 30 * second.

Definition snapshotSuffix : string := "-snap".
Definition cloneSuffix : string := "-clone".

Definition usesSnapshot (req : Request) : bool :=
  Snapshot req || bool_decide (FromSnapshot req <> "") || bool_decide (Flush req <> "").

Definition validateSnapshotRequest (req : Request) : result () :=
  if negb (usesSnapshot req) then Ok ()
  else if decide (Direction req <> DirectionBackup) then
    Err (ErrNew "--snapshot, --from-snapshot and --flush apply to a backup, not a restore")
  else if decide (FromSnapshot req <> "" /\ Flush req <> "") then
    Err (ErrNew "--flush quiesces the database while a new snapshot is cut, so it cannot be combined with --from-snapshot, which reads one that already exists")
  else if decide (Flush req <> "") then (_ ← Flush.Lookup (Flush req); Ok ())
  else Ok ().

Definition runLabels (releaseName : string) : values :=
  [("app.kubernetes.io/name", VStr "pv-migrate"); ("app.kubernetes.io/instance", VStr releaseName)].

Definition snapshotLabels (releaseName : string) (keep : bool) : values :=
  if keep then [("app.kubernetes.io/name", VStr "pv-migrate")] else runLabels releaseName.

(** ** Credentials *)

Definition refuseUnusedCredentials (req : Request) : result () :=
  if decide (FlushUser req = "" /\ FlushPassword req = "" /\ FlushPasswordSecret req = "") then Ok ()
  else if decide (FlushCommand req <> []) then
    Err (ErrNew "--flush-command replaces the built-in client, so --flush-user and the flush password have nothing to apply to; log in from the command itself, or drop --flush-command")
  else Err (Errorf "--flush %s logs in as nobody: nodetool reaches the node through its local REST API, not CQL, so --flush-user and the flush password do not apply" [AStr (Flush req)]).

#[local] Instance leb_decision : RelDecision (fun s t : string => String.leb s t = true).
Proof. intros s t. apply _. Defined.

Definition flushSecretDefaultKey : string := "password".

Definition readSecretValue (c : ClusterClient) (namespace ref : string) : io (result string) :=
  let '(name, key) := match Cut ref ":" with
                      | Some (name, key) => (name, key)
                      | None => (ref, flushSecretDefaultKey)
                      end in
  if decide (name = "" \/ key = "") then
    Ret (Err (Errorf "--flush-password-secret %q must be a Secret name, or name:key" [AStr ref]))
  else
    secret ← ask (GetSecret c namespace name);
    Ret (match secret with
         | Err e => Err (Errorf "failed to read the flush password from secret %s/%s: %w"
                           [AStr namespace; AStr name; AWrap e])
         | Ok data =>
             match data !! key with
             | Some value => Ok value
             | None =>
                 let keys := merge_sort (fun s t : string => String.leb s t = true) (map_to_list data).*1 in
                 Err (Errorf "secret %s/%s has no key %q; it has: %s"
                        [AStr namespace; AStr name; AStr key; AStr (GoStrings.Join keys ", ")])
             end
         end).

Definition resolveFlushCredentials (c : ClusterClient) (req : Request) (namespace : string) (spec : Spec)
  : io (result (option Credentials)) :=
  if negb (ReadsCredentials spec) then
    Ret (_ ← refuseUnusedCredentials req; Ok None)
  else if decide (FlushPassword req <> "" /\ FlushPasswordSecret req <> "") then
    Ret (Err (ErrNew "give the flush password one way, either directly or with --flush-password-secret, not both"))
  else
    password ←! (if decide (FlushPasswordSecret req <> "")
                 then readSecretValue c namespace (FlushPasswordSecret req)
                 else Ret (Ok (FlushPassword req)));
    let creds := mkCredentials (FlushUser req) password in
    Ret (_ ← Check_ creds; Ok (Some creds)).

Definition userOf (creds : option Credentials) : string :=
  match creds with None => "" | Some creds => User creds end.

(** ** Where and what a flush runs *)

Record execTarget : Type := mkExecTarget {
  target_client : ClusterClient;
  target_namespace : string;
  target_pod : string;
  target_container : string
}.

Record flushPlan : Type := mkPlan {
  plan_spec : Spec;
  plan_target : execTarget;
  plan_creds : option Credentials
}.

Definition execTarget_run (t : execTarget) (command : list string) (creds : option Credentials)
  : io (result () * string) :=
  Run (target_client t) (target_namespace t) (target_pod t) (target_container t) command
    (Password <$> creds).

Definition prepareFlush (c : ClusterClient) (req : Request) (source : Info) : io (result flushPlan) :=
  spec ←! Ret (Flush.Lookup (Flush req));
  if decide (MountedPod source = "") then
    Ret (Err (Errorf "--flush %s needs a database to talk to, but no pod has claim %s mounted"
                [AStr (Flush req); AStr (Name (Claim source))]))
  else
    spec ←! Ret (match FlushCommand req with
                 | [] => Ok spec
                 | argv =>
                     match mode spec with
                     | ModePair => Err (Errorf "--flush-command replaces the one client a kind runs, and %s runs three (lock, unlock and a check), so it takes none" [AStr (Flush req)])
                     | _ => Ok (WithCommand spec argv)
                     end
                 end);
    creds ←! resolveFlushCredentials c req (Namespace (Claim source)) spec;
    Ret (Ok (mkPlan spec (mkExecTarget c (Namespace (Claim source)) (MountedPod source) (FlushContainer req))
               creds)).

(** ** Taking the lock *)

(** What is left to undo once a database is quiesced. *)
Inductive release : Type :=
  | ReleaseNothing
  | ReleaseSession (session : nat) (kind : string) (lock : Lock)
  | ReleasePair (target : execTarget) (kind : string) (spec : Spec) (creds : option Credentials).

Definition chooseLock (session : nat) (kind : string) (spec : Spec) : io (result Lock) :=
  _ ←! ask (SessionWrite session (Identify spec));
  waited ← ask (SessionWaitFor session IdentityEnd markerTimeout);
  match waited with
  | Err e => Ret (Err (Errorf "--flush %s could not ask the server what it is: %w" [AStr kind; AWrap e]))
  | Ok _ =>
      output ← ask (SessionOutput session);
      Ret (match (identity ← ParseIdentity output; Choose spec identity) with
           | Err e => Err (Errorf "--flush %s: %w" [AStr kind; AWrap e])
           | Ok lock => Ok lock
           end)
  end.

Definition quiesceSession (target : execTarget) (kind : string) (spec : Spec) (creds : option Credentials)
  : io (result release) :=
  session ←! ask (SessionOpen (target_client target) (target_namespace target) (target_pod target)
                    (target_container target) (Command spec (userOf creds)));
  lock ← (_ ←! match creds with
              | Some creds => ask (SessionWriteSecret session (Password creds))
              | None => Ret (Ok ())
              end;
          lock ←! chooseLock session kind spec;
          _ ←! ask (SessionWrite session (Statement lock));
          _ ←! ask (SessionWrite session (Probe spec));
          waited ← ask (SessionWaitFor session (Marker spec) markerTimeout);
          Ret (match waited with
               | Err e => Err (Errorf "failed to confirm the %s lock (%s): %w"
                                 [AStr kind; AStr (lock_Name lock); AWrap e])
               | Ok _ => Ok lock
               end));
  match lock with
  | Err e => _ ← ask (SessionClose session); Ret (Err e)
  | Ok lock => Ret (Ok (ReleaseSession session kind lock))
  end.

Definition quiesceOneShot (target : execTarget) (kind : string) (spec : Spec) (creds : option Credentials)
  : io (result release) :=
  ran ← execTarget_run target (Command spec (userOf creds)) creds;
  Ret (match ran with
       | (Err e, out) => Err (Errorf "--flush %s failed: %w; output: %s" [AStr kind; AWrap e; AStr out])
       | (Ok _, _) => Ok ReleaseNothing
       end).

Definition checkLockTaken (kind : string) (spec : Spec) (out : string) : result () :=
  fail_if (bool_decide (LockMarker spec <> "") && negb (Contains out (LockMarker spec)))
    (Errorf "--flush %s: the database refused the lock, so the snapshot would not be protected; output: %s"
       [AStr kind; AStr out]).

Definition quiescePair (target : execTarget) (kind : string) (spec : Spec) (creds : option Credentials)
  : io (result release) :=
  ran ← execTarget_run target (Command spec (userOf creds)) creds;
  Ret (match ran with
       | (Err e, out) => Err (Errorf "--flush %s failed: %w; output: %s" [AStr kind; AWrap e; AStr out])
       | (Ok _, out) => _ ← checkLockTaken kind spec out; Ok (ReleasePair target kind spec creds)
       end).

Definition runRelease (r : release) : io (result ()) :=
  match r with
  | ReleaseNothing => Ret (Ok ())
  | ReleaseSession session kind lock =>
      sent ← ask (SessionWrite session (Unlock lock));
      match sent with
      | Err e => _ ← ask (SessionClose session); Ret (Err e)
      | Ok _ =>
          closed ← ask (SessionClose session);
          Ret (match closed with
               | Err e => Err (Errorf "the %s unlock was sent but the client did not exit cleanly: %w"
                                 [AStr kind; AWrap e])
               | Ok _ => Ok ()
               end)
      end
  | ReleasePair target kind spec creds =>
      ran ← execTarget_run target (Flush.Release spec (userOf creds)) creds;
      Ret (match ran with
           | (Err e, out) =>
               Err (Errorf "the %s release failed and the database may still be locked: %w; output: %s"
                      [AStr kind; AWrap e; AStr out])
           | (Ok _, out) =>
               fail_if (bool_decide (ReleaseMarker spec <> "") && negb (Contains out (ReleaseMarker spec)))
                 (Errorf "the %s release ran but the database is still locked, so a lock leaked by an earlier run is still held; release it by hand before the next backup; output: %s"
                    [AStr kind; AStr out])
           end)
  end.

(** [None] is the function that does nothing, for a run without --flush. *)
Definition quiesce (c : ClusterClient) (req : Request) (source : Info) : io (result (option release)) :=
  if decide (Flush req = "") then Ret (Ok None)
  else
    plan ←! prepareFlush c req source;
    let '(mkPlan spec target creds) := plan in
    r ←! match mode spec with
         | ModeSession => quiesceSession target (Flush req) spec creds
         | ModeOneShot => quiesceOneShot target (Flush req) spec creds
         | ModePair => quiescePair target (Flush req) spec creds
         end;
    Ret (Ok (Some r)).

(** One call of the function [quiesce] returned, with the flag it captures. *)
Definition unlock (r : option release) (released : bool) : io (result () * bool) :=
  match r with
  | None => Ret (Ok (), released)
  | Some r => if released then Ret (Ok (), true)
              else (done ← runRelease r; Ret (done, true))
  end.

(** ** Cutting the snapshot *)

Definition cutSnapshot (c : ClusterClient) (req : Request) (source : Info) (snapshotName : string)
    (labels : values) : io (result ()) :=
  let namespace := Namespace (Claim source) in
  r ←! quiesce c req source;
  created ← ask (CreateSnapshot namespace (Name (Claim source)) (SnapshotClass req) snapshotName labels);
  (* the body, its value, and the flag *)
  body ← match created with
         | Err e => Ret (Err e, false)
         | Ok _ =>
             waited ← ask (WaitForCut namespace snapshotName cutTimeout);
             match waited with
             | Ok _ => unlock r false
             | Err e =>
                 (* deferred: a snapshot that never cut is taken back *)
                 _ ← ask (DeleteSnapshot namespace snapshotName);
                 Ret (Err e, false)
             end
         end;
  (* deferred: the release, whose error counts when nothing else failed *)
  unlocked ← unlock r body.2;
  Ret (match body.1, unlocked.1 with
       | Ok _, Err e => Err e
       | res, _ => res
       end).

Definition ensureSnapshot (c : ClusterClient) (req : Request) (source : Info) (releaseName : string)
  : io (result (string * bool)) :=
  if decide (FromSnapshot req <> "") then Ret (Ok (FromSnapshot req, false))
  else
    let snapshotName := releaseName +:+ snapshotSuffix in
    _ ←! cutSnapshot c req source snapshotName (snapshotLabels releaseName (KeepSnapshot req));
    Ret (Ok (snapshotName, true)).

(** ** The clone *)

Definition inheritTopology (clone source : Info) : Info :=
  match AllowedNodes clone, AllowedNodes source with
  | None, Some nodes =>
      mkInfo (Client clone) (Claim clone) (MountedNode clone) (Some nodes) (Some nodes) (MountedPod clone)
        (RequireNodes (Some nodes)) (SupportsRWO clone) (SupportsROX clone) (SupportsRWX clone)
  | _, _ => clone
  end.

(** The clone, or the error with whether the claim exists by then. *)
Definition cloneSnapshot (c : ClusterClient) (snapshotName cloneName : string) (source : Info)
    (labels : values) : io (result Info * bool) :=
  cloned ← ask (CloneClaim snapshotName cloneName (Claim source) labels);
  match cloned with
  | Err e => Ret (Err e, false)
  | Ok _ =>
      clone ← New c (Namespace (Claim source)) cloneName;
      Ret (match clone with
           | Err e => (Err (Errorf "failed to get cloned claim: %w" [AWrap e]), true)
           | Ok clone => (Ok (inheritTopology clone source), true)
           end)
  end.

Definition rollbackSnapshotSource (namespace cloneName snapshotName : string)
    (cloneCreated removeSnapshot : bool) : io () :=
  _ ← (if cloneCreated then ask (DeleteClaim namespace cloneName) else Ret (Ok ()));
  _ ← (if removeSnapshot then ask (DeleteSnapshot namespace snapshotName) else Ret (Ok ()));
  Ret ().

Record snapshotSource : Type := mkSource {
  clone : Info;
  source_namespace : string;
  cloneName : string;
  snapshotName : string;
  removeSnapshot : bool
}.

Definition prepareSnapshotSource (c : ClusterClient) (req : Request) (source : Info) (releaseName : string)
  : io (result snapshotSource) :=
  let namespace := Namespace (Claim source) in
  _ ←! ask (SnapshotNew c);
  _ ←! (if decide (FromSnapshot req = "") then ask (CheckClass (SnapshotClass req)) else Ret (Ok ()));
  ensured ←! ensureSnapshot c req source releaseName;
  let '(snapshot, created) := ensured in
  let removeSnapshot := created && negb (KeepSnapshot req) in
  let cloneName := releaseName +:+ cloneSuffix in
  body ← (ready ← ask (WaitReady namespace snapshot readyTimeout);
          match ready with
          | Err e => Ret (Err e, false)
          | Ok _ => cloneSnapshot c snapshot cloneName source (runLabels releaseName)
          end);
  match body with
  | (Ok clone, _) => Ret (Ok (mkSource clone namespace cloneName snapshot removeSnapshot))
  | (Err e, cloneCreated) =>
      (* deferred: a failure takes back what the run made *)
      _ ← rollbackSnapshotSource namespace cloneName snapshot cloneCreated removeSnapshot;
      Ret (Err e)
  end.

(** [removeSnapshotSource]: the source's [cleanup]. *)
Definition removeSnapshotSource (src : snapshotSource) : io (result ()) :=
  _ ←! ask (DeleteClaim (source_namespace src) (cloneName src));
  if negb (removeSnapshot src) then Ret (Ok ())
  else ask (DeleteSnapshot (source_namespace src) (snapshotName src)).

Definition releaseSnapshotSource (req : Request) (src : snapshotSource) (failed : bool) : io () :=
  if Detach req then Ret ()
  else if NoCleanup req || (failed && NoCleanupOnFailure req) then Ret ()
  else _ ← removeSnapshotSource src; Ret ().

(** [handleMounted] of bucketstorage.go. *)
Definition handleMounted (info : Info) (ignoreMounted : bool) : result () :=
  if decide (MountedNode info = "") then Ok ()
  else if ignoreMounted then Ok ()
  else Err (Errorf "PVC is mounted to a node and --ignore-mounted is not requested: node: %s, claim: %s/%s"
              [AStr (MountedNode info); AStr (Namespace (Claim info)); AStr (Name (Claim info))]).

(** What the job mounts, with the source to release after a snapshot-backed run. *)
Definition resolveSource (c : ClusterClient) (req : Request) (live : Info) (releaseName : string)
  : io (result (Info * option snapshotSource)) :=
  if negb (usesSnapshot req) then
    Ret (_ ← handleMounted live (IgnoreMounted req); Ok (live, None))
  else
    src ←! prepareSnapshotSource c req live releaseName;
    Ret (Ok (clone src, Some src)).

(** ** Specification: the protocol of a snapshot-backed source *)

#[export] Instance Mode_eq_dec : EqDecision Mode.
Proof. solve_decision. Defined.

Inductive snap_state : Type := Absent | Uncut | IsCut | Removed.
Inductive clone_state : Type := NoClone | HasClone | CloneRemoved.

Record state : Type := mkState {
  open : option nat;            (* the session that is open *)
  running : list string;        (* the command last started in the pod *)
  sent_ok : bool;               (* its credentials, if any, were sent *)
  exited_ok : bool;             (* it exited without an error *)
  held : bool;                  (* the database said it took the lock *)
  snap : snap_state;
  waited : bool;                (* readyToUse was waited for *)
  ready : bool;                 (* and reached *)
  has_clone : clone_state
}.

Definition start : state := mkState None [] true false false Absent false false NoClone.

Definition set_session (o : option nat) (cmd : list string) (h : bool) (st : state) : state :=
  mkState o cmd true false h (snap st) (waited st) (ready st) (has_clone st).
Definition set_sent (b : bool) (st : state) : state :=
  mkState (open st) (running st) b (exited_ok st) (held st) (snap st) (waited st) (ready st) (has_clone st).
Definition set_closed (b h : bool) (st : state) : state :=
  mkState None (running st) (sent_ok st) b h (snap st) (waited st) (ready st) (has_clone st).
Definition set_held (h : bool) (st : state) : state :=
  mkState (open st) (running st) (sent_ok st) (exited_ok st) h (snap st) (waited st) (ready st) (has_clone st).
Definition set_snap (s : snap_state) (st : state) : state :=
  mkState (open st) (running st) (sent_ok st) (exited_ok st) (held st) s (waited st) (ready st) (has_clone st).
Definition set_ready (b : bool) (st : state) : state :=
  mkState (open st) (running st) (sent_ok st) (exited_ok st) (held st) (snap st) true b (has_clone st).
Definition set_clone (c : clone_state) (st : state) : state :=
  mkState (open st) (running st) (sent_ok st) (exited_ok st) (held st) (snap st) (waited st) (ready st) c.

Section Protocol.
Context (req : Request) (source : Info) (releaseName : string).

Definition flush_spec : option Spec :=
  if decide (Flush req = "") then None
  else match Flush.Lookup (Flush req) with Ok spec => Some spec | Err _ => None end.

(** The kinds that hold a lock from before the cut until after it. *)
Definition holds_lock : bool :=
  match flush_spec with
  | Some spec => negb (bool_decide (mode spec = ModeOneShot))
  | None => false
  end.

Definition is_mode (m : Mode) : bool :=
  match flush_spec with Some spec => bool_decide (mode spec = m) | None => false end.

Definition spec_text (f : Spec -> string) : string :=
  match flush_spec with Some spec => f spec | None => "" end.

(** The two commands of a pair. *)
Definition lock_command : list string :=
  match flush_spec with Some spec => Command spec (FlushUser req) | None => [] end.
Definition release_command : list string :=
  match flush_spec with Some spec => Flush.Release spec (FlushUser req) | None => [] end.

Definition is_release (cmd : list string) : bool := is_mode ModePair && bool_decide (cmd = release_command).

Definition namespace : string := Namespace (Claim source).
Definition our_snapshot : string := releaseName +:+ snapshotSuffix.
Definition our_clone : string := releaseName +:+ cloneSuffix.
Definition snapshot_read : string := if decide (FromSnapshot req <> "") then FromSnapshot req else our_snapshot.

(** What each state allows. *)
Definition allowed (st : state) X (e : call X) : Prop :=
  match e with
  | SessionOpen _ ns pod container cmd =>
      open st = None /\ (ns, pod, container) = (namespace, MountedPod source, FlushContainer req) /\
      (is_release cmd = true -> held st = true)
  | SessionWrite s _ | SessionWriteSecret s _ | SessionWaitFor s _ _ | SessionClose s => open st = Some s
  | CreateSnapshot ns pvc class name labels =>
      (ns, pvc, class, name) = (namespace, Name (Claim source), SnapshotClass req, our_snapshot) /\
      FromSnapshot req = "" /\ snap st = Absent /\ (holds_lock = true -> held st = true)
  | WaitForCut ns name _ =>
      (ns, name) = (namespace, our_snapshot) /\ snap st = Uncut /\ (holds_lock = true -> held st = true)
  | WaitReady ns name _ =>
      (ns, name) = (namespace, snapshot_read) /\ open st = None /\ held st = false /\
      (FromSnapshot req = "" -> snap st = IsCut)
  | CloneClaim snapshot name claim _ =>
      (snapshot, name, claim) = (snapshot_read, our_clone, Claim source) /\ ready st = true /\
      has_clone st = NoClone
  | DeleteSnapshot ns name =>
      (ns, name) = (namespace, our_snapshot) /\ (snap st = Uncut \/ (snap st = IsCut /\ KeepSnapshot req = false))
  | DeleteClaim ns name => (ns, name) = (namespace, our_clone) /\ has_clone st = HasClone
  | HelmInstall _ _ _ _ _ _ | HelmUninstall _ _ _ _ => False
  | _ => True
  end.

(** Where a call and its answer lead. *)
Definition next (st : state) X (e : call X) : X -> state :=
  match e in call X return X -> state with
  | SessionOpen _ _ _ _ cmd => fun x =>
      set_session (match x with Ok s => Some s | Err _ => None end) cmd
        (held st && negb (is_release cmd)) st
  | SessionWriteSecret _ _ => fun x => set_sent (is_Ok x) st
  | SessionWaitFor _ m _ => fun x =>
      if is_mode ModeSession && bool_decide (m = spec_text Marker) && is_Ok x then set_held true st else st
  | SessionClose _ => fun x => set_closed (is_Ok x) (held st && negb (is_mode ModeSession)) st
  | SessionOutput _ => fun out =>
      if is_mode ModePair && bool_decide (running st = lock_command) && sent_ok st && exited_ok st
         && Contains out (spec_text LockMarker)
      then set_held true st else st
  | CreateSnapshot _ _ _ _ _ => fun x => if is_Ok x then set_snap Uncut st else st
  | WaitForCut _ _ _ => fun x => if is_Ok x then set_snap IsCut st else st
  | WaitReady _ _ _ => fun x => set_ready (is_Ok x) st
  | CloneClaim _ _ _ _ => fun x => if is_Ok x then set_clone HasClone st else st
  | DeleteSnapshot _ _ => fun _ => set_snap Removed st
  | DeleteClaim _ _ => fun _ => set_clone CloneRemoved st
  | _ => fun _ => st
  end.

(** ** Lemmas *)

Local Notation mwp := (mwp allowed next).

(** No session is open and no lock is held; the rest is as in [st0]. *)
Definition idle_as (st0 st : state) : Prop :=
  open st = None /\ held st = false /\
  (snap st, waited st, ready st, has_clone st) = (snap st0, waited st0, ready st0, has_clone st0).

(** What [quiesce] leaves: a state from which the release it returns is due. *)
Definition due (st0 : state) (r : option release) (st : state) : Prop :=
  (snap st, waited st, ready st, has_clone st) = (snap st0, waited st0, ready st0, has_clone st0) /\
  (holds_lock = true -> held st = true) /\
  match r with
  | None | Some ReleaseNothing => open st = None /\ held st = false
  | Some (ReleaseSession s _ _) => open st = Some s /\ is_mode ModeSession = true
  | Some (ReleasePair t _ spec creds) =>
      open st = None /\ is_mode ModePair = true /\ Flush.Release spec (userOf creds) = release_command /\

      (target_namespace t, target_pod t, target_container t)
      = (namespace, MountedPod source, FlushContainer req)
  end.

(** The state after a command was run in the pod: [Run]. *)
Definition after_run (st : state) (cmd : list string) (sent closed : bool) (out : string) : state :=
  let h := held st && negb (is_release cmd) && negb (is_mode ModeSession) in
  mkState None cmd sent closed
    (h || (is_mode ModePair && bool_decide (cmd = lock_command) && sent && closed
           && Contains out (spec_text LockMarker)))
    (snap st) (waited st) (ready st) (has_clone st).

Lemma execTarget_run_mwp st t cmd creds (Q : state -> result () * string -> Prop) :
  open st = None ->
  (target_namespace t, target_pod t, target_container t)
  = (namespace, MountedPod source, FlushContainer req) ->
  (is_release cmd = true -> held st = true) ->
  (forall e, Q (set_session None cmd (held st && negb (is_release cmd)) st) (Err e, "")) ->
  (forall (sent closed : result ()) out,
     Q (after_run st cmd (is_Ok sent) (is_Ok closed) out)
       (match sent with Err e => Err e | Ok _ => closed end, out)) ->
  mwp st (execTarget_run t cmd creds) Q.
Proof.
  intros Ho Ht Hrel He HQ. unfold execTarget_run, Run. cbn -[allowed next].
  split; [by repeat split|]. intros [s|e]; cbn -[allowed next]; [|by apply He].
  assert (forall st2 (sent : result ()), open st2 = Some s ->
    (forall (closed : result ()) out, next (set_closed (is_Ok closed) (held st2 && negb (is_mode ModeSession)) st2)
       _ (SessionOutput s) out = after_run st cmd (is_Ok sent) (is_Ok closed) out) ->
    mwp st2 (Vis (SessionClose s) (fun x => Vis (SessionOutput s) (fun x0 =>
       Ret (match sent with Ok _ => x | Err e => Err e end, x0)))) Q) as Hend.
  { intros st2 sent Ho2 Hn. cbn -[next]. split; [done|]. intros closed. split; [done|]. intros out.
    change (next st2 (result ()) (SessionClose s) closed)
      with (set_closed (is_Ok closed) (held st2 && negb (is_mode ModeSession)) st2).
    rewrite Hn. destruct sent; apply HQ. }
  destruct creds as [creds|]; cbn -[allowed next].
  - split; [done|]. intros sent. apply Hend; [done|]. intros closed out. unfold after_run. cbn.
    destruct (is_mode ModePair), (bool_decide (cmd = lock_command)), (is_Ok sent), (is_Ok closed),
      (Contains out (spec_text LockMarker)); cbn; by rewrite ?orb_true_r, ?orb_false_r.
  - apply (Hend _ (Ok ())); [done|]. intros closed out. unfold after_run. cbn.
    destruct (is_mode ModePair), (bool_decide (cmd = lock_command)), (is_Ok closed),
      (Contains out (spec_text LockMarker)); cbn; by rewrite ?orb_true_r, ?orb_false_r.
Qed.

Lemma flush_spec_cases base :
  flush_spec = Some base -> base ∈ [mysqlFamily; postgres; mongodb; scylladb].
Proof.
  unfold flush_spec. case_decide; [done|]. unfold Flush.Lookup, specs. cbn [List.find fst].
  repeat (destruct (String.eqb _ _); [intros [= <-]; rewrite !elem_of_cons; tauto|]). done.
Qed.

Lemma is_mode_spec m base : flush_spec = Some base -> is_mode m = bool_decide (mode base = m).
Proof. intros H. unfold is_mode. by rewrite H. Qed.

Lemma pair_is_mongodb : is_mode ModePair = true -> flush_spec = Some mongodb.
Proof.
  unfold is_mode. destruct flush_spec as [base|] eqn:E; [|done].
  intros H%bool_decide_eq_true. apply flush_spec_cases in E.
  repeat (apply elem_of_cons in E as [->|E]; [done|]). by apply not_elem_of_nil in E.
Qed.

Lemma session_is_mysql : is_mode ModeSession = true -> flush_spec = Some mysqlFamily.
Proof.
  unfold is_mode. destruct flush_spec as [base|] eqn:E; [|done].
  intros H%bool_decide_eq_true. apply flush_spec_cases in E.
  repeat (apply elem_of_cons in E as [->|E]; [done|]). by apply not_elem_of_nil in E.
Qed.

Lemma lock_is_not_release : is_release lock_command = false.
Proof.
  unfold is_release. destruct (is_mode ModePair) eqn:Hm; [|done]. cbn.
  apply bool_decide_eq_false. pose proof (pair_is_mongodb Hm) as Hs.
  unfold lock_command, release_command. rewrite Hs. intros H. vm_compute in H. discriminate H.
Qed.

Lemma runRelease_idle st0 r st :
  due st0 (Some r) st -> mwp st (runRelease r) (fun st' _ => idle_as st0 st').
Proof.
  intros (Hk & Hh & Hr). destruct r as [|s kind lock|t kind spec creds]; cbn [runRelease].
  - destruct Hr. by split.
  - destruct Hr as [Ho Hm]. cbn -[allowed next]. split; [exact Ho|].
    intros [[]|e]; cbn -[allowed next]; (split; [exact Ho|]); intros x; cbn;
      rewrite Hm, andb_false_r; by repeat split.
  - destruct Hr as (Ho & Hm & Hc & Ht).
    assert (is_release (Flush.Release spec (userOf creds)) = true) as Hrel.
    { unfold is_release. rewrite Hm. by apply bool_decide_eq_true. }
    assert (held st = true) as Hheld.
    { apply Hh. unfold holds_lock. by rewrite (pair_is_mongodb Hm). }
    rewrite mwp_bind. apply execTarget_run_mwp; try done.
    + intros e. rewrite Hrel, andb_false_r. by repeat split.
    + intros sent closed out. unfold after_run. rewrite Hrel, andb_false_r. cbn.
      rewrite bool_decide_eq_false_2.
      { rewrite andb_false_r. by repeat split. }
      rewrite Hc. intros Heq. pose proof lock_is_not_release as Hl. rewrite <- Heq in Hl.
      rewrite Hc in Hrel. congruence.
Qed.

(** The plan [prepareFlush] makes. *)
Definition plan_ok (plan : flushPlan) : Prop :=
  exists base, flush_spec = Some base /\
    (plan_spec plan = base \/
     exists argv, plan_spec plan = WithCommand base argv /\ mode base <> ModePair) /\
    (target_namespace (plan_target plan), target_pod (plan_target plan), target_container (plan_target plan))
    = (namespace, MountedPod source, FlushContainer req) /\
    (mode base = ModePair -> userOf (plan_creds plan) = FlushUser req).

Lemma credentials_mwp st c ns spec :
  mwp st (resolveFlushCredentials c req ns spec)
    (fun st' r => st' = st /\ forall creds, r = Ok creds -> ReadsCredentials spec = true ->
                                         userOf creds = FlushUser req).
Proof.
  unfold resolveFlushCredentials. destruct (ReadsCredentials spec); cbn [negb].
  2: { cbn. by split. }
  case_decide; [cbn; by split|]. rewrite mwp_try. eapply mwp_mono.
  - apply (mwp_still _ _ _ _ (fun st' _ => st' = st)); [|done].
    case_decide; [|cbn; done]. unfold readSecretValue. destruct (Cut _ _) as [[name key]|]; quiet_calls; done.
  - intros st' [password|e] ->; [|by split]. cbn. split; [done|].
    intros creds Hc _. by go_inv.
Qed.

Lemma prepareFlush_mwp st c :
  Flush req <> "" ->
  mwp st (prepareFlush c req source) (fun st' r => st' = st /\ forall plan, r = Ok plan -> plan_ok plan).
Proof.
  intros Hf. unfold prepareFlush. rewrite mwp_try. cbn [mwp].
  destruct (Flush.Lookup (Flush req)) as [base|e] eqn:Hl; [|by split].
  assert (flush_spec = Some base) as Hb by (unfold flush_spec; by rewrite decide_False, Hl).
  case_decide; [cbn; by split|]. rewrite mwp_try. cbn [mwp].
  set (chosen := match FlushCommand req with [] => Ok base | _ :: _ => _ end).
  assert (forall spec, chosen = Ok spec -> spec = base \/
            exists argv, spec = WithCommand base argv /\ mode base <> ModePair) as Hchosen.
  { unfold chosen. intros spec. destruct (FlushCommand req) as [|a argv]; [intros [= ->]; by left|].
    destruct (mode base) eqn:Em; [| |done]; intros [= <-]; right; by exists (a :: argv). }
  destruct chosen as [spec|e]; [|by split]. specialize (Hchosen spec eq_refl).
  rewrite mwp_try. eapply mwp_mono; [apply credentials_mwp|].
  intros st' [creds|e] [-> Hc]; [|by split]. cbn. split; [done|]. intros plan [= <-].
  exists base. cbn. split; [done|]. split; [done|]. split; [done|]. intros Hm.
  apply Hc; [done|]. destruct Hchosen as [->|(argv & _ & Hn)]; [|done].
  apply flush_spec_cases in Hb. repeat (apply elem_of_cons in Hb as [->|Hb]; [done|]).
  by apply not_elem_of_nil in Hb.
Qed.

Lemma quiescePair_mwp st kind target spec creds :
  flush_spec = Some spec -> mode spec = ModePair -> open st = None -> held st = false ->
  (target_namespace target, target_pod target, target_container target)
  = (namespace, MountedPod source, FlushContainer req) ->
  userOf creds = FlushUser req ->
  mwp st (quiescePair target kind spec creds)
    (fun st' r => match r with Err _ => idle_as st st' | Ok r => due st (Some r) st' end).
Proof.
  intros Hs Hm Ho Hh Ht Hu. unfold quiescePair. rewrite mwp_bind.
  assert (Command spec (userOf creds) = lock_command) as Hcmd
    by (unfold lock_command; by rewrite Hs, Hu).
  rewrite Hcmd. apply execTarget_run_mwp; [done|done|by rewrite lock_is_not_release| |].
  - intros e. cbn. rewrite Hh. by repeat split.
  - intros sent closed out. cbn [mwp].
    assert (is_mode ModePair = true) as Hp by (rewrite (is_mode_spec _ _ Hs); by apply bool_decide_eq_true).
    assert (after_run st lock_command (is_Ok sent) (is_Ok closed) out
            = mkState None lock_command (is_Ok sent) (is_Ok closed)
                (is_Ok sent && is_Ok closed && Contains out (spec_text LockMarker))
                (snap st) (waited st) (ready st) (has_clone st)) as ->.
    { unfold after_run. rewrite Hh, Hp. cbn. by rewrite bool_decide_eq_true_2. }
    destruct sent as [u|e]; cbn [is_Ok]; [|by repeat split].
    destruct closed as [u'|e]; cbn [is_Ok]; [|by repeat split].
    assert (Contains out (LockMarker spec) = Contains out (spec_text LockMarker)) as Hc
      by (unfold spec_text; by rewrite Hs).
    assert (LockMarker spec <> "") as Hmk.
    { pose proof (pair_is_mongodb Hp) as Hmongo. rewrite Hs in Hmongo. injection Hmongo as ->. done. }
    unfold checkLockTaken. rewrite Hc, (bool_decide_eq_true_2 _ Hmk).
    destruct (Contains out (spec_text LockMarker)); cbn; [|by repeat split].
    split; [done|]. split; [done|]. split; [done|]. split; [done|]. split; [|done].
    rewrite Hu. unfold release_command. by rewrite Hs.
Qed.

Lemma quiesceOneShot_mwp st kind target spec creds :
  holds_lock = false -> is_mode ModePair = false -> open st = None -> held st = false ->
  (target_namespace target, target_pod target, target_container target)
  = (namespace, MountedPod source, FlushContainer req) ->
  mwp st (quiesceOneShot target kind spec creds)
    (fun st' r => match r with Err _ => idle_as st st' | Ok r => due st (Some r) st' end).
Proof.
  intros Hl Hp Ho Hh Ht. unfold quiesceOneShot. rewrite mwp_bind.
  apply execTarget_run_mwp; [done|done|unfold is_release; by rewrite Hp| |].
  - intros e. cbn. rewrite Hh. by repeat split.
  - intros sent closed out. cbn [mwp]. unfold after_run. rewrite Hh, Hp. cbn.
    destruct sent; [destruct closed|]; cbn; repeat split; try done; by rewrite Hl.
Qed.

(** Inside an open session, with the lock held or not. *)
Definition in_session (st0 : state) (s : nat) (h : bool) (st : state) : Prop :=
  open st = Some s /\ held st = h /\
  (snap st, waited st, ready st, has_clone st) = (snap st0, waited st0, ready st0, has_clone st0).

Definition in_session_ok {A} (st0 : state) (s : nat) (st : state) (r : result A) : Prop :=
  exists h, in_session st0 s h st /\ (is_Ok r = true -> h = true).

Lemma chooseLock_mwp st0 st s kind spec (Q : state -> result Lock -> Prop) :
  is_mode ModeSession = true -> is_mode ModePair = false ->
  in_session st0 s false st ->
  (forall r, Q st r) -> mwp st (chooseLock s kind spec) Q.
Proof.
  intros Hm Hp (Ho & Hh & Hk) HQ. unfold chooseLock. cbn -[allowed next].
  split; [exact Ho|]. intros [u|e]; cbn -[allowed next]; [|apply HQ].
  change (next st _ (SessionWrite s (Identify spec)) (Ok u)) with st.
  split; [exact Ho|]. intros w. assert (next st _ (SessionWaitFor s IdentityEnd markerTimeout) w = st) as ->.
  { cbn. unfold spec_text. rewrite (session_is_mysql Hm). by rewrite andb_false_r. }
  destruct w as [u'|e]; cbn -[allowed next]; [|apply HQ].
  split; [done|]. intros out. cbn [next]. rewrite Hp. apply HQ.
Qed.

Lemma quiesceSession_mwp st kind target spec creds :
  is_mode ModeSession = true -> Marker spec = Marker mysqlFamily ->
  open st = None -> held st = false ->
  (target_namespace target, target_pod target, target_container target)
  = (namespace, MountedPod source, FlushContainer req) ->
  mwp st (quiesceSession target kind spec creds)
    (fun st' r => match r with Err _ => idle_as st st' | Ok r => due st (Some r) st' end).
Proof.
  intros Hm Hmk Ho Hh Ht.
  assert (is_mode ModePair = false) as Hp
    by (unfold is_mode; by rewrite (session_is_mysql Hm)).
  assert (forall cmd, is_release cmd = false) as Hrel by (intros; unfold is_release; by rewrite Hp).
  unfold quiesceSession. rewrite mwp_try. cbn [mwp ask]. split; [split; [done|]; split; [done|by rewrite Hrel]|].
  intros [s|e].
  2: { cbn. rewrite Hh. by repeat split. }
  rewrite mwp_bind. eapply (mwp_mono _ _ _ _ (in_session_ok st s)).
  - set (st1 := next st _ _ _). assert (in_session st s false st1) as Hin1
      by (unfold st1; cbn; rewrite Hh; by repeat split). clearbody st1.
    assert (forall st2, in_session st s false st2 -> forall A (e : error), in_session_ok st s st2 (@Err A e)) as Hfail
      by (intros; by exists false).
    rewrite mwp_try.
    eapply (mwp_mono _ _ _ _ (fun st2 _ => in_session st s false st2)).
    { destruct creds as [creds|]; cbn -[allowed next]; [|done].
      destruct Hin1 as (H1 & H2 & H3). split; [exact H1|]. intros x. by repeat split. }
    intros st2 [u|e] Hin2; [|by apply Hfail].
    rewrite mwp_try. apply (chooseLock_mwp st st2); [done|done|done|].
    intros [lock|e]; [|by apply Hfail].
    destruct Hin2 as (H1 & H2 & H3). cbn -[allowed next]. split; [exact H1|].
    intros [u1|e]; cbn -[allowed next]; [|by apply Hfail]. split; [exact H1|].
    intros [u2|e]; cbn -[allowed next]; [|by apply Hfail]. split; [exact H1|].
    intros w. cbn [next]. rewrite Hmk, Hm. unfold spec_text. rewrite (session_is_mysql Hm), bool_decide_eq_true_2 by done.
    destruct w as [u3|e]; cbn; [exists true|exists false]; by repeat split.
  - intros st2 [lock|e] (h & (H1 & H2 & H3) & Hok).
    + cbn. specialize (Hok eq_refl). subst h. by repeat split.
    + cbn -[allowed next]. split; [exact H1|]. intros x. cbn. rewrite Hm, andb_false_r. by repeat split.
Qed.

Lemma quiesce_mwp st c :
  open st = None -> held st = false ->
  mwp st (quiesce c req source)
    (fun st' r => match r with Err _ => idle_as st st' | Ok r => due st r st' end).
Proof.
  intros Ho Hh. unfold quiesce. destruct (decide (Flush req = "")) as [E|E].
  { cbn. unfold due, holds_lock, flush_spec. rewrite decide_True by done. by repeat split. }
  rewrite mwp_try. eapply mwp_mono; [by apply prepareFlush_mwp|].
  intros st' [plan|e] [-> Hplan]; [|by repeat split].
  destruct (Hplan plan eq_refl) as (base & Hb & Hspec & Ht & Hu).
  destruct plan as [spec target creds]. cbn in Hspec, Ht, Hu. rewrite mwp_try.
  assert (mode spec = mode base /\ Marker spec = Marker base) as [Em Emk].
  { destruct Hspec as [->|(argv & -> & _)]; done. }
  apply (mwp_mono _ _ _ _ (fun st' r => match r with Err _ => idle_as st st' | Ok r => due st (Some r) st' end)).
  2: { intros st' [r|e]; done. }
  rewrite Em. pose proof (is_mode_spec ModeSession _ Hb) as Hs. pose proof (is_mode_spec ModePair _ Hb) as Hp.
  destruct (mode base) eqn:Emb; cbn in Hs, Hp.
  - apply quiesceSession_mwp; try done. pose proof (session_is_mysql Hs) as H. rewrite Hb in H.
    injection H as ->. by rewrite Emk.
  - apply quiesceOneShot_mwp; try done. unfold holds_lock. rewrite Hb. by rewrite Emb.
  - destruct Hspec as [->|(argv & _ & Hn)]; [|done]. apply quiescePair_mwp; try done. by apply Hu.
Qed.

Lemma due_set_snap v st0 r st : due st0 r st -> due (set_snap v st0) r (set_snap v st).
Proof. intros (Hk & Hh & Hr). injection Hk as H1 H2 H3 H4. split; [cbn; congruence|]. by split. Qed.

Lemma unlock_mwp st0 r st :
  due st0 r st ->
  mwp st (unlock r false) (fun st' x => idle_as st0 st' /\ (x.2 = true \/ r = None)).
Proof.
  intros Hd. destruct r as [r|]; cbn [unlock].
  - rewrite mwp_bind. eapply mwp_mono; [by apply runRelease_idle|]. intros st' x Hi. cbn. auto.
  - destruct Hd as (Hk & _ & Ho & Hh). cbn. by repeat split; auto.
Qed.

Lemma unlock_again st r b :
  b = true \/ r = None -> mwp st (unlock r b) (fun st' x => st' = st).
Proof. intros [-> | ->]; [by destruct r|done]. Qed.

(** What holds of the state when the snapshot has been dealt with. *)
Definition cut_done (st0 : state) (ok : bool) (st : state) : Prop :=
  open st = None /\ held st = false /\
  (waited st, ready st, has_clone st) = (waited st0, ready st0, has_clone st0) /\
  if ok then snap st = IsCut else snap st = Absent \/ snap st = Removed \/ snap st = IsCut.

Lemma cut_done_err st0 st : cut_done st0 true st -> cut_done st0 false st.
Proof. intros (H1 & H2 & H3 & H4). split; [done|]. split; [done|]. split; [done|]. right. by right. Qed.

Lemma cutSnapshot_mwp st c labels :
  open st = None -> held st = false -> snap st = Absent -> FromSnapshot req = "" ->
  mwp st (cutSnapshot c req source our_snapshot labels) (fun st' r => cut_done st (is_Ok r) st').
Proof.
  intros Ho Hh Hs Hf. unfold cutSnapshot. cbv zeta. rewrite mwp_try.
  eapply mwp_mono; [by apply quiesce_mwp|]. intros st1 [r|e] Hd.
  2: { destruct Hd as (H1 & H2 & Hk). injection Hk as H3 H4 H5 H6. unfold cut_done. cbn. rewrite H3, H4, H5, H6. repeat split; auto. }
  assert (forall st2 e, due (set_snap (snap st2) st) r st2 -> snap st2 = Absent \/ snap st2 = Removed ->
    mwp st2 (unlock r false)
      (fun st3 unlocked => mwp st3 (Ret (match @Err () e, unlocked.1 with
                                           | Ok _, Err e => Err e
                                           | res, _ => res
                                           end)) (fun st' r => cut_done st (is_Ok r) st'))) as Hfail.
  { intros st2 e Hd2 Hv. eapply mwp_mono; [by apply unlock_mwp|].
    intros st3 x [(H1 & H2 & Hk) _]. injection Hk as H3 H4 H5 H6. cbn.
    split; [done|]. split; [done|]. split; [congruence|]. rewrite H3. cbn. tauto. }
  pose proof Hd as (Hk & Hhold & _). injection Hk as Hk1 Hk2 Hk3 Hk4.
  rewrite mwp_bind. cbn [mwp ask].
  split; [split; [done|]; split; [done|]; split; [congruence|done]|].
  intros [u|e].
  - change (next st1 _ _ (Ok u)) with (set_snap Uncut st1). rewrite mwp_bind.
    rewrite mwp_bind. cbn [mwp ask]. split; [by repeat split|].
    intros [u'|e].
    + change (next _ _ _ (Ok u')) with (set_snap IsCut st1).
      eapply mwp_mono; [apply (unlock_mwp (set_snap IsCut st)), due_set_snap, Hd|].
      intros st3 [res b] [(H1 & H2 & H3) Hb]. rewrite mwp_bind.
      eapply mwp_mono; [by apply unlock_again|]. intros st4 x ->. cbn.
      injection H3 as H3 H4 H5 H6.
      assert (cut_done st true st3) as Hc by (split; [done|]; split; [done|]; split; [congruence|done]).
      destruct res; [|by apply cut_done_err]. by destruct x.1; [|apply cut_done_err].
    + change (next _ _ _ (Err e)) with (set_snap Uncut st1). rewrite mwp_bind. cbn [mwp ask].
      split; [split; [done|by left]|]. intros x.
      change (next _ _ _ x) with (set_snap Removed st1). rewrite mwp_bind. apply Hfail; [|by right].
      by apply due_set_snap.
  - change (next st1 _ _ (Err e)) with st1. cbn [mwp io_ret mret].
    rewrite mwp_bind. cbn [mwp]. rewrite mwp_bind. apply Hfail; [|left; congruence].
    destruct Hd as (_ & Hd1 & Hd2). split; [cbn; congruence|done].
Qed.

Lemma New_still c ns name :
  all_calls (fun X e => forall st, allowed st X e /\ forall x, next st X e x = st) (New c ns name).
Proof.
  unfold New, newInfo, findMountedPod, resolveTopology, AllowedNodesFor, volumeNodeSelector, wrap_errf.
  quiet_calls; done.
Qed.

Lemma all_calls_mono {A} (I J : forall X, call X -> Prop) (p : io A) :
  (forall X e, I X e -> J X e) -> all_calls I p -> all_calls J p.
Proof. intros HIJ. induction p as [a|X e k IH]; cbn; [done|]. intros [He Hk]. split; auto. Qed.

(** Without a snapshot of its own, or with one cut, and nothing else yet. *)
Definition ensured (st : state) : Prop :=
  open st = None /\ held st = false /\ waited st = false /\ ready st = false /\ has_clone st = NoClone /\
  snap st = (if decide (FromSnapshot req <> "") then Absent else IsCut).

Lemma ensureSnapshot_mwp c :
  mwp start (ensureSnapshot c req source releaseName)
    (fun st r => match r with
                 | Ok (name, created) => ensured st /\ name = snapshot_read /\
                                         created = bool_decide (FromSnapshot req = "")
                 | Err _ => cut_done start false st
                 end).
Proof.
  unfold ensureSnapshot, snapshot_read, ensured. destruct (decide (FromSnapshot req <> "")) as [E|E].
  { cbn. rewrite bool_decide_eq_false_2 by done. by repeat split. }
  assert (FromSnapshot req = "") as E' by (destruct (decide (FromSnapshot req = "")); [done|by exfalso]).
  rewrite mwp_try. eapply mwp_mono; [by apply cutSnapshot_mwp|].
  intros st [u|e] Hc; [|done]. destruct Hc as (H1 & H2 & H3 & H4). injection H3 as H5 H6 H7.
  cbn. rewrite bool_decide_eq_true_2 by done. by repeat split.
Qed.

(** What a run leaves when it comes to nothing: no clone, and no snapshot but one
    that is kept, or one that was cut and whose lock then failed to be released. *)
Definition taken_back (st : state) : Prop :=
  has_clone st <> HasClone /\
  (snap st = Absent \/ snap st = Removed \/
   (snap st = IsCut /\ (KeepSnapshot req = true \/ waited st = false))).

Definition prepared (st : state) (src : snapshotSource) : Prop :=
  ready st = true /\ has_clone st = HasClone /\
  snap st = (if decide (FromSnapshot req <> "") then Absent else IsCut) /\
  source_namespace src = namespace /\ cloneName src = our_clone /\ snapshotName src = snapshot_read /\
  removeSnapshot src = bool_decide (FromSnapshot req = "") && negb (KeepSnapshot req).

Lemma rollback_mwp st (cloneCreated : bool) :
  open st = None -> held st = false -> waited st = true ->
  snap st = (if decide (FromSnapshot req <> "") then Absent else IsCut) ->
  has_clone st = (if cloneCreated then HasClone else NoClone) ->
  mwp st (rollbackSnapshotSource namespace our_clone snapshot_read cloneCreated
            (bool_decide (FromSnapshot req = "") && negb (KeepSnapshot req)))
    (fun st' _ => open st' = None /\ held st' = false /\ taken_back st').
Proof.
  intros Ho Hh Hw Hs Hc. unfold rollbackSnapshotSource, snapshot_read. rewrite mwp_bind.
  apply (mwp_mono _ _ _ _ (fun st' (_ : result ()) => open st' = None /\ held st' = false /\ snap st' = snap st /\
                                         has_clone st' <> HasClone)).
  { destruct cloneCreated; cbn -[allowed next]; [|by rewrite Hc]. split; [by split|].
    intros x. by repeat split. }
  intros st' _ (H1 & H2 & H3 & H4). rewrite mwp_bind.
  destruct (decide (FromSnapshot req <> "")) as [E|E].
  - rewrite bool_decide_eq_false_2 by done. cbn. repeat split; try done. left. congruence.
  - assert (FromSnapshot req = "") as E' by (destruct (decide (FromSnapshot req = "")); [done|by exfalso]).
    rewrite bool_decide_eq_true_2 by done. destruct (KeepSnapshot req) eqn:Ek; cbn -[allowed next].
    + repeat split; try done. right. right. split; [congruence|]. left. exact Ek.
    + split; [split; [done|]; right; split; [congruence|done]|]. intros x. cbn. repeat split; try done.
      right. by left.
Qed.

Lemma prepare_mwp c :
  mwp start (prepareSnapshotSource c req source releaseName)
    (fun st r => open st = None /\ held st = false /\
                 match r with Ok src => prepared st src | Err _ => taken_back st end).
Proof.
  unfold prepareSnapshotSource. cbv zeta. rewrite mwp_try. cbn [mwp ask]. split; [done|].
  intros [u|e]; [|by repeat split; auto]. change (next start _ _ _) with start. rewrite mwp_try.
  eapply (mwp_mono _ _ _ _ (fun st (_ : result ()) => st = start)).
  { case_decide; [|done]. cbn. by split. }
  intros st [u1|e] ->; [|by repeat split; auto].
  rewrite mwp_try. eapply mwp_mono; [apply ensureSnapshot_mwp|].
  intros st [[name created]|e] He.
  2: { destruct He as (H1 & H2 & H3 & H4). injection H3 as H5 H6 H7. split; [done|]. split; [done|].
       split; [by rewrite H7|]. cbn in H4. rewrite H5. tauto. }
  destruct He as ((H1 & H2 & H3 & H4 & H5 & H6) & -> & ->).
  assert (FromSnapshot req = "" -> snap st = IsCut) as Hcut.
  { intros E. rewrite H6, decide_False; [done|]. by intros []. }
  rewrite mwp_bind. apply (mwp_mono _ _ _ _ (fun st' (body : result Info * bool) =>
    open st' = None /\ held st' = false /\ waited st' = true /\ snap st' = snap st /\
    has_clone st' = (if body.2 then HasClone else NoClone) /\
    (is_Ok body.1 = true -> ready st' = true /\ body.2 = true))).
  - rewrite mwp_bind. cbn [mwp ask]. split; [by repeat split|]. intros [u2|e].
    2: { by repeat split. }
    unfold cloneSnapshot. rewrite mwp_bind. cbn [mwp ask]. split; [by repeat split|]. intros [u3|e].
    2: { by repeat split. }
    rewrite mwp_bind. apply mwp_still; [|by intros [i|e]; cbn; repeat split].
    eapply all_calls_mono; [|apply New_still]. intros X e H. apply H.
  - intros st' [[i|e] cloneCreated] (I1 & I2 & I3 & I4 & I5 & I6); cbn [fst snd is_Ok] in *.
    + destruct (I6 eq_refl) as [I7 ->]. cbn. repeat split; try done. congruence.
    + rewrite mwp_bind. eapply mwp_mono; [apply rollback_mwp; try done; congruence|].
      intros st'' _ (J1 & J2 & J3). split; [done|]. by split.
Qed.

(** The whole life of a source: prepared, and released when the run is over. *)
Definition source_life (c : ClusterClient) (failed : bool) : io (result snapshotSource) :=
  r ← prepareSnapshotSource c req source releaseName;
  match r with
  | Ok src => _ ← releaseSnapshotSource req src failed; Ret r
  | Err e => Ret r
  end.

Definition leaves_source (failed : bool) : bool :=
  Detach req || NoCleanup req || (failed && NoCleanupOnFailure req).

Lemma source_life_mwp c failed :
  mwp start (source_life c failed)
    (fun st r => open st = None /\ held st = false /\
       match r with
       | Ok src => if leaves_source failed then prepared st src
                   else has_clone st = CloneRemoved /\ (KeepSnapshot req = true -> snap st <> Removed)
       | Err _ => taken_back st
       end).
Proof.
  unfold source_life. rewrite mwp_bind. eapply mwp_mono; [apply prepare_mwp|].
  intros st [src|e] (Ho & Hh & Hr); [|by split].
  unfold releaseSnapshotSource, leaves_source. destruct (Detach req); [exact (conj Ho (conj Hh Hr))|]. cbn [orb].
  destruct (NoCleanup req || failed && NoCleanupOnFailure req); [exact (conj Ho (conj Hh Hr))|]. cbn [orb].
  destruct Hr as (H1 & H2 & H3 & H4 & H5 & H6 & H7).
  unfold removeSnapshotSource. rewrite H4, H5, H6, H7.
  rewrite mwp_bind, mwp_bind, mwp_try. cbn [mwp ask]. split; [by split|]. intros [u|e].
  2: { cbn. repeat split; try done. intros _. rewrite H3. by case_decide. }
  unfold snapshot_read. destruct (decide (FromSnapshot req <> "")) as [E|E].
  { rewrite bool_decide_eq_false_2 by done. cbn. repeat split; try done. intros _. by rewrite H3. }
  assert (FromSnapshot req = "") as E' by (destruct (decide (FromSnapshot req = "")); [done|by exfalso]).
  rewrite bool_decide_eq_true_2 by done. destruct (KeepSnapshot req) eqn:Ek; cbn -[allowed next].
  - repeat split; try done. intros _. cbn. by rewrite H3.
  - split; [split; [done|]; by right|]. intros x. cbn. by repeat split.
Qed.
End Protocol.

(** ** Properties *)


Definition flush_request (kind : string) (keep : bool) : Request :=
  mkRequest "ab12" "" "" DirectionBackup "" "" "db" "data" false false false false false false
    "s3" "b" "" "" "" "" "" "" "" "" None "nightly" "" "" "" "" "" "" 0
    true "" "" keep kind "" [] "" "" "" 0 [] [] [] [] false false.

Definition live_info : Info :=
  mkInfo (mkClient "https://a" "db") (mkPVC "db" "data" [ReadWriteOnce] "pv-1" None ∅ None None)
    "node-1" None None "mysql-0" None true false false.

(** A database that takes its lock, and a connection that breaks as the lock
    command exits. *)
Definition broken_exit : handler := fun X n e =>
  match e in call X return X with
  | SessionOpen _ _ _ _ _ => Ok 0
  | SessionClose _ => Err (ErrNew "connection reset by peer")
  | SessionOutput _ => "pv-migrate-fsynclock=1 "
  | e => still (mkClient "https://a" "db") (mkCluster (fun _ _ => Err (ErrNew "")) (fun _ => Ok [])
           (fun _ => ApiErr NotFound (ErrNew "")) (Found [])) _ n e
  end.

(** The commands a trace starts in pods. *)
Definition commands (t : list event) : list (list string) :=
  omap (fun ev => match ev with Ev (SessionOpen _ _ _ _ cmd) _ => Some cmd | _ => None end) t.

(** A database whose unlock fails once the snapshot is cut. *)
Definition broken_unlock : handler := fun X n e =>
  match e in call X return X with
  | SessionOpen _ _ _ _ _ => Ok 0
  | SessionOutput _ => "pv-migrate-server=8.0.36|MySQL Community Server|pv-migrate-end"
  | SessionClose _ => Err (ErrNew "client exited with code 1")
  | e => still (mkClient "https://a" "db") (mkCluster (fun _ _ => Err (ErrNew "")) (fun _ => Ok [])
           (fun _ => ApiErr NotFound (ErrNew "")) (Found [])) _ n e
  end.

