(* ===== verification/BucketPlan.v ===== *)
(** * internal/bucketstorage: planning a backup or restore

    What a run settles before and around its calls to the cluster: the archive
    target and its conflicts, the remote path, the metadata sidecar, the command
    of the Job and the Helm values (archive.go, metadata.go and the pure half of
    bucketstorage.go).  The JSON and YAML libraries and the local filesystem are
    parameters; the two clocks read are arguments. *)
From S2P Require Import Prelude GoStrings Fmt Paths Opid Rclone Archive Stream ArchiveTarget World Pvc.
From S2P Require Import HelmValues BucketRequest SnapshotSource Posix.
From stdpp Require Import options.

Definition rcloneConfigMountPath : string := "/etc/rclone/rclone.conf".
Definition archiveFormat : string := "tar".
Definition archiveSuffixes : list string := [".tar.zst"; ".tzst"; ".tar.gz"; ".tgz"; ".tar"].
Definition metadataSuffix : string := ".meta.yaml".
Definition nonRootUID : Z := 10000.

Definition isArchive (req : Request) : bool := bool_decide (ArchiveFile req <> "").

(** ** The archive target *)

Definition checkArchiveConflicts (req : Request) (target : Target) : result () :=
  let conflicts :=
    [("--bucket", bool_decide (Bucket req <> "")); ("--rclone-config", bool_decide (RcloneConfigFile req <> ""));
     ("--remote", bool_decide (Remote req <> ""));
     ("--prefix", bool_decide (Prefix req <> "") && bool_decide (Prefix req <> DefaultPrefix));
     ("--name", bool_decide (req_Name req <> ""))] in
  _ ← fail_if (InBucket target && bool_decide (Backend req <> "") && bool_decide (Backend req <> BackendS3))
        (Errorf "--archive-file with s3:// is an S3 destination, so --backend %q does not apply" [AStr (Backend req)]);
  let conflicts :=
    if InBucket target then conflicts
    else conflicts ++ [("--backend", bool_decide (Backend req <> ""));
                       ("--rclone-extra-args", bool_decide (RcloneExtraArgs req <> ""))] in
  for_each (fun conflict : string * bool =>
    fail_if conflict.2 (Errorf "%s cannot be combined with --archive-file, which names the destination itself"
                          [AStr conflict.1])) conflicts.

Definition parseArchiveTarget (req : Request) (now : Time) : result Target :=
  target ← ParseTarget (ArchiveFile req) now;
  _ ← checkArchiveConflicts req target;
  _ ← (if decide (CompressionLevel req = 0)%Z then Ok ()
       else if decide (Direction req = DirectionRestore) then
         Err (ErrNew "--compression-level does not apply to a restore")
       else if decide (Compression target = CompressionNone) then
         Err (Errorf "--compression-level does not apply to %q, whose extension asks for no compression"
                [AStr (ArchiveTarget.Path target)])
       else CheckLevel (Compression target) (CompressionLevel req));
  if decide (ArchiveTarget.Claim target = PVCName req) then
    Err (ErrNew "--archive-file names the claim being backed up or restored")
  else Ok target.

Definition archiveFilePath (target : Target) : result string :=
  if negb (InCluster target) then Ok (ArchiveTarget.Path target)
  else claimFilePath (ArchiveTarget.Path target).

Definition archiveDirection (req : Request) : string :=
  if decide (Direction req = DirectionRestore) then Archive.DirectionRestore else Archive.DirectionBackup.

Definition buildArchiveCmd (req : Request) (target : Target) (dataPath : string) : result string :=
  archivePath ← archiveFilePath target;
  Archive.Cmd.Build (Archive.Cmd.mk (archiveDirection req) archivePath dataPath (Compression target)
                       (CompressionLevel req) (DeleteExtraneousFiles req)).

(** ** Placement *)

Definition placementNodes (dataInfo archiveInfo : Info) : option (list string) :=
  IntersectNodes (PinnedNodes dataInfo) (PinnedNodes archiveInfo).

Definition describeNodes (nodes : option (list string)) : string :=
  match nodes with
  | None | Some [] => "no node"
  | Some nodes => GoStrings.Join nodes ", "
  end.

Definition checkSchedulable (dataInfo archiveInfo : Info) : result () :=
  match placementNodes dataInfo archiveInfo with
  | Some [] =>
      Err (Errorf "claim %s can only be used on %s and claim %s only on %s, so one pod cannot mount both; their storage is bound to those nodes"
             [AStr (Name (Claim dataInfo)); AStr (describeNodes (PinnedNodes dataInfo));
              AStr (Name (Claim archiveInfo)); AStr (describeNodes (PinnedNodes archiveInfo))])
  | _ => Ok ()
  end.

Definition archiveAffinity (dataInfo archiveInfo : Info) : option values :=
  match placementNodes dataInfo archiveInfo with
  | Some nodes => RequireNodes (Some nodes)
  | None => match AffinityHelmValues dataInfo with
            | Some affinity => Some affinity
            | None => AffinityHelmValues archiveInfo
            end
  end.

Definition resolveArchiveClaim (c : ClusterClient) (namespace : string) (target : Target) (dataInfo : Info)
  : io (result Info) :=
  archiveInfo ←! World.wrap "failed to get archive PVC info: %w" (New c namespace (ArchiveTarget.Claim target));
  _ ←! Ret (checkSchedulable dataInfo archiveInfo);
  Ret (Ok archiveInfo).

(** ** Remote paths *)

Definition alnum (a : ascii) : bool := is_digit a || is_lower a || is_upper a.
Definition segment_byte (a : ascii) : bool := alnum a || mem_byte ["."; "_"; "-"]%char a.

(** [safeBucketSegment.MatchString]: [^[a-zA-Z0-9][a-zA-Z0-9._-]*$]. *)
Definition safeBucketSegment (value : string) : bool :=
  match value with
  | EmptyString => false
  | String a rest => alnum a && all_bytes segment_byte rest
  end.

Definition validateBucketSegment (value flag : string) : result () :=
  fail_if (negb (safeBucketSegment value))
    (Errorf "--%s %q contains invalid characters (allowed: alphanumeric, hyphens, underscores, dots)"
       [AStr flag; AStr value]).

Definition ValidateName (name : string) : result () := validateBucketSegment name "name".

Definition validatePrefix (prefix : string) : result () :=
  if decide (prefix = "") then Ok ()
  else for_each (fun segment =>
    _ ← fail_if (bool_decide (segment = ""))
          (Errorf "--prefix %q is invalid: must not have leading/trailing '/' or empty path segments" [AStr prefix]);
    match validateBucketSegment segment "prefix" with
    | Ok _ => Ok ()
    | Err _ => Err (Errorf "--prefix %q contains invalid characters (allowed: slash-separated segments of alphanumeric, hyphens, underscores, dots)"
                      [AStr prefix])
    end) (Split prefix slash).

Definition ValidatePrefix (prefix : string) : result () := validatePrefix prefix.

Definition buildRemotePath (req : Request) : result string :=
  if decide (RcloneConfigFile req <> "") then
    if decide (Remote req = "") then Err (ErrNew "--remote is required when using --rclone-config")
    else Ok (BuildRemotePathRaw (Remote req))
  else
    _ ← fail_if (bool_decide (Bucket req = "")) (ErrNew "--bucket is required");
    _ ← fail_if (bool_decide (req_Name req = "")) (ErrNew "--name is required");
    _ ← validateBucketSegment (Bucket req) "bucket";
    _ ← ValidateName (req_Name req);
    _ ← ValidatePrefix (Prefix req);
    Ok (BuildRemotePath (Bucket req) (Prefix req) (req_Name req)).

(** ** Is it a dry run? *)

(** [strings.FieldsSeq]: the maximal runs of text between space runes. *)
Fixpoint fields_from (fuel : nat) (cur s : string) : list string :=
  let flush (rest : list string) := if decide (cur = "") then rest else cur :: rest in
  match fuel, s with
  | O, _ | _, EmptyString => flush []
  | S fuel, String a s' =>
      match first_some (CutPrefix s) space_runes with
      | Some rest => flush (fields_from fuel "" rest)
      | None => fields_from fuel (cur +:+ String a "") s'
      end
  end.

Definition Fields (s : string) : list string := fields_from (String.length s) "" s.

Definition letter (a : ascii) : bool := is_lower a || is_upper a.

(** [shortFlagCluster.MatchString]: [^-[a-zA-Z]+$]; the letters, when it matches. *)
Definition shortFlagCluster (arg : string) : option string :=
  match CutPrefix arg "-" with
  | Some letters => if negb (bool_decide (letters = "")) && all_bytes letter letters then Some letters else None
  | None => None
  end.

(** [strconv.ParseBool] *)
Definition ParseBool (s : string) : option bool :=
  if decide (s ∈ ["1"; "t"; "T"; "true"; "TRUE"; "True"]) then Some true
  else if decide (s ∈ ["0"; "f"; "F"; "false"; "FALSE"; "False"]) then Some false
  else None.

Definition setFromBool (target : bool) (value : string) : bool := default target (ParseBool value).

(** The loop over the letters of a bundle. *)
Fixpoint assign_letters (dryRun : bool) (letters value : string) : bool :=
  match letters with
  | EmptyString => dryRun
  | String a rest =>
      let dryRun := if decide (a <> "n"%char) then dryRun
                    else if decide (rest = "") then setFromBool dryRun value else true in
      assign_letters dryRun rest value
  end.

Definition applyAssignedFlag (dryRun : bool) (name value : string) : bool :=
  if decide (name = "--dry-run") then setFromBool dryRun value
  else match shortFlagCluster name with
       | Some letters => assign_letters dryRun letters value
       | None => dryRun
       end.

(** One round of [hasRcloneDryRun]. *)
Definition apply_arg (dryRun : bool) (arg : string) : bool :=
  match Cut arg "=" with
  | Some (name, value) => applyAssignedFlag dryRun name value
  | None =>
      if bool_decide (arg = "--dry-run")
         || match shortFlagCluster arg with Some _ => Contains arg "n" | None => false end
      then true else dryRun
  end.

Definition hasRcloneDryRun (extraArgs : string) : bool := fold_left apply_arg (Fields extraArgs) false.

Definition shouldUploadMetadata (req : Request) : bool :=
  bool_decide (Direction req = DirectionBackup) && bool_decide (RcloneConfigFile req = "")
  && negb (hasRcloneDryRun (RcloneExtraArgs req)).

(** ** The sidecar *)

Record Metadata : Type := mkMetadata {
  Version : Z;
  BackupTime : Time;
  SourceNamespace : string;
  SourcePVC : string;
  meta_Format : string;
  meta_Compression : string
}.

Record metadataValues : Type := mkMeta { base64 : string; remotePath : string; localPath : string }.

Definition no_metadata : metadataValues := mkMeta "" "" "".

Fixpoint sidecar_from (exts : list string) (archivePath : string) : string :=
  match exts with
  | [] => archivePath +:+ metadataSuffix
  | ext :: exts => match CutSuffix archivePath ext with
                   | Some stem => stem +:+ metadataSuffix
                   | None => sidecar_from exts archivePath
                   end
  end.

Definition sidecarPath (archivePath : string) : string := sidecar_from archiveSuffixes archivePath.

(** [base64.StdEncoding.EncodeToString] *)
Definition base64_char (n : Z) : string :=
  String.substring (Z.to_nat n) 1 "ABCDEFGHIJKLMNOPQRSTUVWXYZabcdefghijklmnopqrstuvwxyz0123456789+/".

Fixpoint EncodeToString (s : string) : string :=
  match s with
  | EmptyString => ""
  | String a EmptyString =>
      let v := (byte a * 65536)%Z in
      base64_char (v / 262144) +:+ base64_char (v / 4096 mod 64) +:+ "=="
  | String a (String b EmptyString) =>
      let v := (byte a * 65536 + byte b * 256)%Z in
      base64_char (v / 262144) +:+ base64_char (v / 4096 mod 64) +:+ base64_char (v / 64 mod 64) +:+ "="
  | String a (String b (String c rest)) =>
      let v := (byte a * 65536 + byte b * 256 + byte c)%Z in
      base64_char (v / 262144) +:+ base64_char (v / 4096 mod 64) +:+ base64_char (v / 64 mod 64)
      +:+ base64_char (v mod 64) +:+ EncodeToString rest
  end.

Example base64_man : EncodeToString "light work" = "bGlnaHQgd29yaw==".
Proof. vm_compute. reflexivity. Qed.

Section Libraries.
(** [os.ReadFile] and [yaml.Marshal]. *)
Variable ReadFile : string -> result string.
Variable Marshal : Metadata -> result string.

Definition ReadConfigFile (path : string) : result string :=
  match ReadFile path with
  | Ok data => Ok data
  | Err e => Err (Errorf "failed to read rclone config file %s: %w" [AStr path; AWrap e])
  end.

Definition buildRcloneConfig (req : Request) : result string :=
  if decide (RcloneConfigFile req <> "") then
    wrap_err "failed to read rclone config file: %w" (ReadConfigFile (RcloneConfigFile req))
  else
    wrap_err "failed to generate rclone config: %w"
      (GenerateConfig
         (mkConfigOptions (Backend req) (S3Provider req) (Endpoint req) (Region req) (AccessKey req)
            (SecretKey req) (StorageAccount req) (StorageKey req) (GCSServiceAccountJSON req)
            (GCSBucketPolicyOnly req))).

(** The request with its backend fixed to S3. *)
Definition with_s3 (req : Request) : Request :=
  mkRequest (ID req) (ImageTag req) (ChartVersion req) (Direction req) (KubeconfigPath req) (Context req)
    (req_Namespace req) (PVCName req) (IgnoreMounted req) (NonRoot req) (Detach req) (NoCleanup req)
    (NoCleanupOnFailure req) (DeleteExtraneousFiles req) BackendS3 (Bucket req) (S3Provider req)
    (Endpoint req) (Region req) (AccessKey req) (SecretKey req) (StorageAccount req) (StorageKey req)
    (GCSServiceAccountJSON req) (GCSBucketPolicyOnly req) (req_Name req) (Prefix req) (Path req)
    (RcloneConfigFile req) (Remote req) (RcloneExtraArgs req) (ArchiveFile req) (CompressionLevel req)
    (Snapshot req) (FromSnapshot req) (SnapshotClass req) (KeepSnapshot req) (Flush req)
    (FlushContainer req) (FlushCommand req) (FlushUser req) (FlushPassword req) (FlushPasswordSecret req)
    (HelmTimeout req) (HelmValuesFiles req) (BucketRequest.HelmValues req) (HelmFileValues req)
    (HelmStringValues req) (StructuredLogs req) (ColorOutput req).

Definition resolveBucketArchive (req : Request) (target : Target) : result (string * string) :=
  rcloneConf ← wrap_err "failed to build rclone config: %w" (buildRcloneConfig (with_s3 req));
  _ ← validateBucketSegment (ArchiveTarget.Bucket target) "bucket";
  Ok (rcloneConf, BuildObjectPath (ArchiveTarget.Bucket target) (ArchiveTarget.Path target)).

(** The rclone config and the path the mover reads or writes. *)
Definition resolveTarget (req : Request) (target : Target) : result (string * string) :=
  if isArchive req then
    if InBucket target then resolveBucketArchive req target
    else (archivePath ← archiveFilePath target; Ok ("", archivePath))
  else
    rcloneConf ← wrap_err "failed to build rclone config: %w" (buildRcloneConfig req);
    remotePath ← buildRemotePath req;
    Ok (rcloneConf, remotePath).

Definition generateMetadataBase64 (stamp : Time) (namespace pvcName format compression : string)
  : result string :=
  data ← wrap_err "failed to marshal backup metadata: %w"
           (Marshal (mkMetadata 1 stamp namespace pvcName format compression));
  Ok (EncodeToString data).

Definition buildMetadata (stamp : Time) (req : Request) (target : Target) (namespace : string)
  : result metadataValues :=
  if decide (Direction req <> DirectionBackup) then Ok no_metadata
  else if isArchive req then
    encoded ← wrap_err "failed to generate backup metadata: %w"
                (generateMetadataBase64 stamp namespace (PVCName req) archiveFormat (Compression target));
    if InBucket target then
      if hasRcloneDryRun (RcloneExtraArgs req) then Ok no_metadata
      else Ok (mkMeta encoded
                 (BuildObjectPath (ArchiveTarget.Bucket target) (sidecarPath (ArchiveTarget.Path target))) "")
    else
      archivePath ← archiveFilePath target;
      Ok (mkMeta encoded "" (sidecarPath archivePath))
  else if shouldUploadMetadata req then
    encoded ← wrap_err "failed to generate backup metadata: %w"
                (generateMetadataBase64 stamp namespace (PVCName req) "" "");
    Ok (mkMeta encoded (BuildMetadataRemotePath (Bucket req) (Prefix req) (req_Name req)) "")
  else Ok no_metadata.
End Libraries.

(** ** The command of the Job *)

Definition buildMoverCmd (req : Request) (target : Target) (localPath remotePath : string) : result string :=
  if isArchive req && InBucket target then
    wrap_err "failed to build streamed tar command: %w"
      (StreamCmd.Build (StreamCmd.mk (archiveDirection req) remotePath localPath rcloneConfigMountPath
         (Compression target) (CompressionLevel req) (RcloneExtraArgs req) (DeleteExtraneousFiles req)))
  else if isArchive req then
    wrap_err "failed to build tar command: %w" (buildArchiveCmd req target localPath)
  else
    wrap_err "failed to build rclone command: %w"
      (Rclone.Cmd.Build (Rclone.Cmd.mk (Direction req) remotePath localPath rcloneConfigMountPath
         (RcloneExtraArgs req) (DeleteExtraneousFiles req))).

(** [jobSuffix] *)
Definition jobSuffix (req : Request) : string := if isArchive req then "tar" else "rclone".

(** ** Helm values *)

Definition rcloneComponent : string := "rclone".

Definition applyNonRootValues (vals : values) : values :=
  update_section vals rcloneComponent (fun section =>
    set (set section "securityContext"
           (VMap [("runAsNonRoot", VBool true); ("runAsUser", VInt nonRootUID);
                  ("runAsGroup", VInt nonRootUID); ("allowPrivilegeEscalation", VBool false)]))
      "podSecurityContext" (VMap [("fsGroup", VInt nonRootUID)])).

Definition claim_mount (info : Info) (mountPath : string) (readOnly : bool) : value :=
  VMap [("name", VStr (Name (Claim info))); ("mountPath", VStr mountPath); ("readOnly", VBool readOnly)].

Definition buildHelmValues (namespace : string) (req : Request) (pvcInfo : Info) (archiveInfo : option Info)
    (rcloneConf cmdStr : string) (readOnly : bool) (meta : metadataValues) : values :=
  let mounts := claim_mount pvcInfo dataMountPath readOnly ::
                match archiveInfo with
                | Some a => [claim_mount a archiveMountPath (negb readOnly)]
                | None => []
                end in
  let affinity := match archiveInfo with
                  | Some a => archiveAffinity pvcInfo a
                  | None => AffinityHelmValues pvcInfo
                  end in
  let rcloneVals : values :=
    [("enabled", VBool true); ("namespace", VStr namespace); ("jobSuffix", VStr (jobSuffix req));
     ("configMount", VBool (bool_decide (rcloneConf <> ""))); ("config", VStr rcloneConf);
     ("command", VStr cmdStr); ("extraArgs", VStr ""); ("pvcMounts", VList mounts);
     ("affinity", opt_map affinity)] in
  let rcloneVals :=
    if decide (base64 meta = "") then rcloneVals
    else set (set (set rcloneVals "metadataBase64" (VStr (base64 meta)))
            "metadataRemotePath" (VStr (remotePath meta))) "metadataLocalPath" (VStr (localPath meta)) in
  let vals : values := [(rcloneComponent, VMap rcloneVals)] in
  if NonRoot req then applyNonRootValues vals else vals.

Definition imageTagValues (req : Request) : list string :=
  if decide (ImageTag req = "") then BucketRequest.HelmValues req
  else ("rclone.image.tag=" +:+ ImageTag req) :: BucketRequest.HelmValues req.

Definition mergeHelmValues (base : values) (req : Request) : io (result values) :=
  user ←! World.wrap "failed to merge helm values: %w"
            (ask (MergeUserValues (HelmValuesFiles req) (imageTagValues req)
                    (HelmStringValues req) (HelmFileValues req)));
  merged ← ask (MergeMaps base user);
  Ret (Ok merged).

(** ** Specification *)

(** The affinity values of a claim allow exactly the nodes it is pinned to, as
    [newInfo] makes them. *)
Definition affinity_of (i : Info) : Prop :=
  forall node, affinity_allows (AffinityHelmValues i) node <-> permits (PinnedNodes i) node.

(** The object path of a managed backup: bucket, prefix segments, name. *)
Definition segments (prefix : string) : list string := if decide (prefix = "") then [] else Split prefix slash.
Definition object_path (req : Request) : list string :=
  Bucket req :: segments (Prefix req) ++ [req_Name req].

(** How rclone's flag library reads the arguments: each one sets the dry-run
    flag some number of times, and the last setting stands. *)
Fixpoint bundle_settings (letters : string) (value : option string) : list bool :=
  match letters with
  | EmptyString => []
  | String a rest =>
      (if decide (a = "n"%char) then
         match value with
         | Some v => if decide (rest = "") then option_list (ParseBool v) else [true]
         | None => [true]
         end
       else []) ++ bundle_settings rest value
  end.

Definition settings (arg : string) : list bool :=
  let '(name, value) := match Cut arg "=" with
                        | Some (name, value) => (name, Some value)
                        | None => (arg, None)
                        end in
  if decide (name = "--dry-run") then
    match value with Some v => option_list (ParseBool v) | None => [true] end
  else match shortFlagCluster name with Some letters => bundle_settings letters value | None => [] end.

Definition flag_value (args : list string) : bool := default false (last (args ≫= settings)).

(** ** Lemmas: dry runs *)

Lemma last_default_app (b : bool) l l' : default b (last (l ++ l')) = default (default b (last l)) (last l').
Proof. rewrite last_app. by destruct (last l'). Qed.

Lemma assign_letters_settings b letters value :
  assign_letters b letters value = default b (last (bundle_settings letters (Some value))).
Proof.
  revert b. induction letters as [|a rest IH]; intros b; [done|]. cbn [assign_letters bundle_settings].
  rewrite IH, last_default_app. f_equal.
  destruct (decide (a = "n"%char)) as [->|Ha]; [rewrite decide_False by tauto|by rewrite decide_True].
  case_decide; [|done]. unfold setFromBool. by destruct (ParseBool value).
Qed.

Lemma bundle_bare letters :
  last (bundle_settings letters None) = if Contains letters "n" then Some true else None.
Proof.
  induction letters as [|a rest IH]; [done|]. cbn [bundle_settings]. rewrite last_app, IH.
  unfold Contains in *. cbn [Cut CutPrefix].
  destruct (decide (a = "n"%char)) as [->|Ha]; [by destruct (Cut rest "n")|].
  rewrite decide_False by done. by destruct (Cut rest "n") as [[]|].
Qed.

Lemma apply_arg_settings b arg : apply_arg b arg = default b (last (settings arg)).
Proof.
  unfold apply_arg, settings, applyAssignedFlag. destruct (Cut arg "=") as [[name value]|].
  - case_decide.
    + unfold setFromBool. by destruct (ParseBool value).
    + destruct (shortFlagCluster name); [apply assign_letters_settings|done].
  - case_decide as Ha.
    + by rewrite bool_decide_eq_true_2.
    + rewrite bool_decide_eq_false_2 by done. cbn [orb].
      unfold shortFlagCluster. destruct (CutPrefix arg "-") as [letters|] eqn:E; [|done].
      apply CutPrefix_Some in E as ->. destruct (_ && _); [|done]. rewrite bundle_bare.
      change (Contains ("-" +:+ letters) "n") with (Contains (String "-" letters) "n").
      unfold Contains. cbn [Cut CutPrefix]. rewrite decide_False by done.
      by destruct (Cut letters "n") as [[]|].
Qed.

Lemma apply_args_settings b args : fold_left apply_arg args b = default b (last (args ≫= settings)).
Proof.
  revert b. induction args as [|arg args IH]; intros b; [done|]. cbn [fold_left].
  rewrite IH, apply_arg_settings. change ((arg :: args) ≫= settings) with (settings arg ++ (args ≫= settings)).
  by rewrite last_default_app.
Qed.

(** Bytes that are themselves in a word of the shell, or separate two words. *)
Definition unquoted (a : ascii) : bool := plain_byte a || blank a.

Lemma plain_no_space a s : plain_byte a = true -> first_some (CutPrefix (String a s)) space_runes = None.
Proof. each_byte a; intros H; vm_compute in H; try discriminate H; reflexivity. Qed.

Lemma blank_space a s : blank a = true -> first_some (CutPrefix (String a s)) space_runes = Some s.
Proof. each_byte a; intros H; vm_compute in H; try discriminate H; reflexivity. Qed.

Definition word_so_far (cur : string) : option string := if decide (cur = "") then None else Some cur.

Lemma lex_plain_step o a r : plain_byte a = true -> lex Plain o (String a r) = lex Plain (push o a) r.
Proof. each_byte a; intros H; vm_compute in H; try discriminate H; reflexivity. Qed.

Lemma lex_blank_step o a r :
  blank a = true -> lex Plain o (String a r) = app (flush o []) <$> lex Plain None r.
Proof. each_byte a; intros H; vm_compute in H; try discriminate H; reflexivity. Qed.

Lemma lex_fields s fuel cur :
  all_bytes unquoted s = true -> String.length s <= fuel ->
  lex Plain (word_so_far cur) s = Some (Word <$> fields_from fuel cur s).
Proof.
  revert fuel cur. induction s as [|a s IH]; intros fuel cur Hs Hf.
  - assert (fields_from fuel cur "" = if decide (cur = "") then [] else [cur]) as -> by (by destruct fuel).
    unfold word_so_far. by case_decide.
  - destruct fuel as [|fuel]; cbn in Hf; [lia|]. cbn in Hs. apply andb_true_iff in Hs as [Ha Hs].
    unfold unquoted in Ha. cbn [fields_from]. destruct (plain_byte a) eqn:Ep.
    + rewrite lex_plain_step, plain_no_space by done.
      rewrite <- IH by (done || lia). f_equal. unfold word_so_far, push.
      rewrite (decide_False (P := cur +:+ String a "" = "")) by (by destruct cur).
      case_decide; by subst.
    + cbn in Ha. rewrite lex_blank_step, blank_space by done.
      pose proof (IH fuel "" Hs ltac:(lia)) as H. unfold word_so_far at 1 in H.
      rewrite decide_True in H by done. rewrite H. unfold word_so_far. by case_decide.
Qed.

Lemma shell_words_Fields s : all_bytes unquoted s = true -> shell_words s = Some (Word <$> Fields s).
Proof. intros H. unfold shell_words, Fields. by apply (lex_fields s _ ""). Qed.

(** ** Lemmas: paths *)

Lemma segment_slash_free s : safeBucketSegment s = true -> free_of slash s.
Proof.
  destruct s as [|a s]; [done|]. cbn. intros [Ha Hs]%andb_true_iff. unfold free_of. cbn.
  apply andb_true_iff. split.
  - destruct (decide (a = slash)) as [->|]; [discriminate Ha|]. by rewrite bool_decide_eq_false_2.
  - eapply all_bytes_impl; [|exact Hs]. intros b Hb.
    destruct (decide (b = slash)) as [->|]; [discriminate Hb|]. by rewrite bool_decide_eq_false_2.
Qed.

Lemma segment_plain s : safeBucketSegment s = true -> plain_seg s.
Proof.
  intros Hs. pose proof (segment_slash_free s Hs) as Hf. repeat split; [..|exact Hf]; by intros ->.
Qed.

Lemma buildRemotePath_Ok req p :
  RcloneConfigFile req = "" -> buildRemotePath req = Ok p ->
  Forall (fun s => safeBucketSegment s = true) (object_path req) /\
  p = remoteName +:+ ":" +:+ GoStrings.Join (object_path req) "/" +:+ "/".
Proof.
  intros Hc H. unfold buildRemotePath in H. rewrite decide_False in H by tauto. unfold object_path, segments.
  apply bind_Ok in H as (_ & _ & H). apply bind_Ok in H as (_ & _ & H).
  apply bind_Ok in H as (_ & Hb%fail_if_Ok & H). apply bind_Ok in H as (_ & Hn%fail_if_Ok & H).
  apply bind_Ok in H as ([] & Hp & H). apply Ok_inj in H as <-. apply negb_false_iff in Hb, Hn.
  unfold ValidatePrefix, validatePrefix in Hp. unfold BuildRemotePath.
  destruct (decide (Prefix req = "")) as [E|E].
  - split; [by repeat constructor|]. cbn [app]. rewrite Join_cons by done.
    cbn [GoStrings.Join]. by rewrite !app_assoc_str.
  - apply for_each_Ok in Hp. split.
    + constructor; [done|]. apply Forall_app. split; [|by repeat constructor].
      eapply Forall_impl; [exact Hp|]. intros s Hs. cbn in Hs.
      apply bind_Ok in Hs as (_ & _ & Hs). unfold validateBucketSegment in Hs.
      by destruct (safeBucketSegment s).
    + rewrite Join_cons by (by destruct (Split (Prefix req) slash)).
      rewrite Join_app by (done || apply Split_not_nil). rewrite Join_Split. cbn [GoStrings.Join].
      by rewrite !app_assoc_str.
Qed.

Lemma segments_inj p q : segments p = segments q -> p = q.
Proof.
  unfold segments. pose proof (Split_not_nil p slash). pose proof (Split_not_nil q slash).
  repeat case_decide; intros Hs; subst; try done.
  rewrite <- (Join_Split p slash), <- (Join_Split q slash). by rewrite Hs.
Qed.

Lemma object_path_inj req req' :
  object_path req = object_path req' ->
  (Bucket req, Prefix req, req_Name req) = (Bucket req', Prefix req', req_Name req').
Proof.
  unfold object_path. intros [= Hb Hs]. apply app_inj_tail in Hs as [Hs Hn].
  apply segments_inj in Hs. congruence.
Qed.

Lemma object_path_slash_free req :
  Forall (fun s => safeBucketSegment s = true) (object_path req) -> Forall (free_of slash) (object_path req).
Proof. intros H. eapply Forall_impl; [exact H|]. apply segment_slash_free. Qed.

(** ** Lemmas: values and placement *)

Lemma get_copy_rclone vals section f :
  get vals rcloneComponent = Some (VMap section) ->
  get (update_section vals rcloneComponent f) rcloneComponent = Some (VMap (f section)).
Proof. intros H. unfold update_section. rewrite H. cbn [as_map]. by rewrite get_set, decide_True. Qed.

Lemma archiveAffinity_allows d a node :
  affinity_of d -> affinity_of a ->
  affinity_allows (archiveAffinity d a) node <-> permits (PinnedNodes d) node /\ permits (PinnedNodes a) node.
Proof.
  intros Hd Ha. rewrite <- permits_IntersectNodes. unfold archiveAffinity, placementNodes.
  destruct (IntersectNodes (PinnedNodes d) (PinnedNodes a)) as [nodes|] eqn:E.
  - apply (RequireNodes_allows (Some nodes)).
  - assert (PinnedNodes d = None /\ PinnedNodes a = None) as [E1 E2]
      by (by destruct (PinnedNodes d), (PinnedNodes a)).
    specialize (Hd node). specialize (Ha node). rewrite E1 in Hd. rewrite E2 in Ha. cbn in Hd, Ha |- *.
    split; [done|]. intros _. destruct (AffinityHelmValues d); [by apply Hd|by apply Ha].
Qed.

Lemma checkSchedulable_Ok d a :
  checkSchedulable d a = Ok () <->
  exists node, permits (PinnedNodes d) node /\ permits (PinnedNodes a) node.
Proof.
  setoid_rewrite <- permits_IntersectNodes. unfold checkSchedulable, placementNodes.
  destruct (IntersectNodes _ _) as [[|n nodes]|]; cbn; split; try done.
  - intros [node Hn]. by apply not_elem_of_nil in Hn.
  - intros _. exists n. set_solver.
  - by exists "".
Qed.

(** What a resolved claim's affinity is made of. *)
Lemma newInfo_affinity h n c ns name reject i :
  (exec h n (newInfo c ns name reject)).2 = Ok i -> affinity_of i.
Proof.
  unfold newInfo. intros H. apply exec_try in H as (claim & k & _ & H).
  destruct (readAccessModes claim) as [[[rwo rox] rwx] rwop].
  apply exec_try in H as ([pod node] & k' & _ & H). destruct (_ && _ && _); [done|].
  apply exec_try in H as ([allowed pinned] & k'' & _ & H). cbn in H. apply Ok_inj in H as <-.
  intros node'. apply buildAffinity_allows.
Qed.

(** A backup request with the fields the examples vary. *)
Definition plain_backup (bucket prefix name archiveFile : string) : Request :=
  mkRequest "ab12" "" "" DirectionBackup "" "" "" "data" false false false false false false
    "s3" bucket "" "" "" "" "" "" "" "" None name prefix "" "" "" "" archiveFile 0
    false "" "" false "" "" [] "" "" "" 0 [] [] [] [] false false.

(** ** Properties *)

(** C27: where a managed backup lives in the bucket.  Bucket, prefix and name, when
    they are accepted, give a path of plain names (none of them empty, [.] or
    [..], or starting with a dash), the data below it and the metadata next to it;
    and two requests accepted with the same path named the same bucket, prefix and
    name. *)
Theorem remote_path_managed (req : Request) (p : string)
    (Hc : RcloneConfigFile req = "") (Hp : buildRemotePath req = Ok p) :
  let parts := object_path req in
  p = remoteName +:+ ":" +:+ GoStrings.Join parts "/" +:+ "/" /\
  BuildMetadataRemotePath (Bucket req) (Prefix req) (req_Name req)
    = remoteName +:+ ":" +:+ GoStrings.Join parts "/" +:+ metadataSuffix /\
  Split (GoStrings.Join parts "/") slash = parts /\
  Forall (fun s => plain_seg s /\ HasPrefix s "-" = false) parts /\
  forall req', RcloneConfigFile req' = "" -> buildRemotePath req' = Ok p ->
    (Bucket req', Prefix req', req_Name req') = (Bucket req, Prefix req, req_Name req).
Proof.
  intros parts. destruct (buildRemotePath_Ok req p Hc Hp) as [Hs ->].
  assert (forall r, Forall (fun s => safeBucketSegment s = true) (object_path r) ->
    Split (GoStrings.Join (object_path r) "/") slash = object_path r) as Hsp.
  { intros r Hr. apply (Split_Join slash); [done|by apply object_path_slash_free]. }
  split; [done|]. split.
  { unfold BuildMetadataRemotePath, parts, object_path, segments. case_decide as E.
    - cbn [app]. rewrite Join_cons by done. cbn [GoStrings.Join]. by rewrite !app_assoc_str.
    - rewrite Join_cons by (by destruct (Split (Prefix req) slash)).
      rewrite Join_app by (done || apply Split_not_nil). rewrite Join_Split. cbn [GoStrings.Join].
      by rewrite !app_assoc_str. }
  split; [by apply Hsp|]. split.
  { eapply Forall_impl; [exact Hs|]. intros s Hseg. split; [by apply segment_plain|].
    destruct s as [|a s]; [done|]. cbn in Hseg. apply andb_true_iff in Hseg as [Ha _].
    unfold HasPrefix. cbn. case_decide; [|done]. by subst. }
  intros req' Hc' Hp'. destruct (buildRemotePath_Ok req' _ Hc' Hp') as [Hs' He].
  apply object_path_inj. injection He as He. apply (app_inj_r_str (String slash "")) in He.
  apply (f_equal (fun s => Split s slash)) in He. 
  change (Split (GoStrings.Join (object_path req) "/") slash = Split (GoStrings.Join (object_path req') "/") slash) in He.
  rewrite (Hsp req Hs), (Hsp req' Hs') in He. done.
Qed.

Lemma remote_path_managed_witness :
  let req := plain_backup "team-a" "nightly/db" "pg.1" "" in
  RcloneConfigFile req = "" /\
  Forall (fun s => plain_seg s /\ HasPrefix s "-" = false) (object_path req).
Proof.
  intros req. split; [reflexivity|].
  refine (proj1 (proj2 (proj2 (proj2 (remote_path_managed req _ _ _))))); vm_compute; reflexivity.
Defined.



(** The metadata sidecar.  One is written only by a backup, to one place: next
    to the archive file, named after it, or next to the managed backup's data; and
    never to a bucket by a run that rclone is asked to make dry. *)
Theorem sidecar_placed (Marshal : Metadata -> result string) (stamp : Time) (req : Request) (target : Target)
    (namespace : string) (meta : metadataValues)
    (Hm : buildMetadata Marshal stamp req target namespace = Ok meta) (Hb : base64 meta <> "") :
  Direction req = DirectionBackup /\
  (exists data, Marshal (mkMetadata 1 stamp namespace (PVCName req)
                   (if isArchive req then archiveFormat else "")
                   (if isArchive req then Compression target else "")) = Ok data /\
                base64 meta = EncodeToString data) /\
  ((localPath meta = "" /\ hasRcloneDryRun (RcloneExtraArgs req) = false /\
    remotePath meta =
      if isArchive req
      then BuildObjectPath (ArchiveTarget.Bucket target) (sidecarPath (ArchiveTarget.Path target))
      else BuildMetadataRemotePath (Bucket req) (Prefix req) (req_Name req)) \/
   (remotePath meta = "" /\ isArchive req = true /\ InBucket target = false /\
    exists path, archiveFilePath target = Ok path /\ localPath meta = sidecarPath path)).
Proof.
  unfold buildMetadata in Hm. destruct (decide (Direction req <> DirectionBackup)) as [|Hd];
    [by apply Ok_inj in Hm; subst|]. apply dec_stable in Hd. split; [done|].
  unfold generateMetadataBase64 in Hm. destruct (isArchive req).
  - apply bind_Ok in Hm as (encoded & He & Hm). apply wrap_err_Ok, bind_Ok in He as (data & Hdata & He).
    apply wrap_err_Ok in Hdata. apply Ok_inj in He. destruct (InBucket target) eqn:Hi.
    + destruct (hasRcloneDryRun _) eqn:Hdry; apply Ok_inj in Hm as <-; [done|].
      split; [by exists data|]. by left.
    + apply bind_Ok in Hm as (path & Hpath & Hm). apply Ok_inj in Hm as <-.
      split; [by exists data|]. right. repeat split; try done. by exists path.
  - unfold shouldUploadMetadata in Hm. destruct (hasRcloneDryRun _) eqn:Hdry.
    { rewrite andb_false_r in Hm. apply Ok_inj in Hm as <-. done. }
    destruct (_ && _); [|apply Ok_inj in Hm as <-; done].
    apply bind_Ok in Hm as (encoded & He & Hm). apply wrap_err_Ok, bind_Ok in He as (data & Hdata & He).
    apply wrap_err_Ok in Hdata. apply Ok_inj in He. apply Ok_inj in Hm as <-.
    split; [by exists data|]. by left.
Qed.

Lemma sidecar_placed_witness :
  let req := plain_backup "team-a" "" "pg" "arch:/daily/pg.tar.zst" in
  let target := mkTarget "arch" "" "/daily/pg.tar.zst" CompressionZstd in
  let Marshal := fun m : Metadata => Ok ("pvc: " +:+ SourcePVC m) in
  exists meta, buildMetadata Marshal (mkTime 2026 1 2 3 4 5) req target "db" = Ok meta /\
    localPath meta = "/archive/daily/pg.meta.yaml" /\ Direction req = DirectionBackup.
Proof.
  intros req target Marshal. eexists. split; [vm_compute; reflexivity|]. split; [reflexivity|].
  refine (proj1 (sidecar_placed Marshal (mkTime 2026 1 2 3 4 5) req target "db" _ _ _));
    [vm_compute; reflexivity|discriminate].
Defined.


