(* ===== verification/Bucket.v ===== *)
(** * internal/bucketstorage: running a backup or restore

    [Run] of bucketstorage.go with the install, the wait for the Job, the report
    of a failure and the two deferred cleanups, the release's and the snapshot
    source's, in their order.  Log lines are left out. *)
From S2P Require Import Prelude GoStrings Fmt Console Paths Opid Rclone Archive ArchiveTarget World Pvc.
From S2P Require Import HelmValues Migrator BucketRequest SnapshotSource BucketPlan.
From stdpp Require Import options.

(** ** Messages *)

Definition upper_byte (a : ascii) : ascii :=
  if is_lower a then ascii_of_N (N_of_ascii a - 32) else a.

(** Directions are ASCII. *)
Definition capitalizedDirection (direction : string) : string :=
  match direction with
  | EmptyString => "Operation"
  | String a rest => String (upper_byte a) rest
  end.

(** [writeFailure], with the diagnostics the cluster gave. *)
Definition failure_report (req : Request) (namespace releaseName : string) (cause : error) (diagnostics : string)
  : report :=
  if StructuredLogs req then
    Records [(LevelError, [("release", releaseName); ("namespace", namespace); ("diagnostics", diagnostics)])]
  else
    let palette := ColorOutput req in
    Text (nl +:+ Failure palette (capitalizedDirection (Direction req) +:+ " failed.") +:+ nl
          +:+ writeIndented (Error cause)
          +:+ nl +:+ Bold palette "What the cluster reported:" +:+ nl +:+ nl
          +:+ "  " +:+ releaseName +:+ " (namespace " +:+ namespace +:+ "):" +:+ nl +:+ diagnostics).

Definition writeFailure (req : Request) (c : ClusterClient) (namespace releaseName : string) (cause : error)
  : io report :=
  diagnostics ← ask (CollectDiagnostics c namespace releaseName);
  Ret (failure_report req namespace releaseName cause diagnostics).

Definition printDetachMessage (req : Request) (operationID : string) : report :=
  Text (nl +:+ Direction req +:+ " " +:+ operationID +:+ " detached. The rclone job is running in the cluster."
        +:+ nl +:+ nl +:+ "To check status:" +:+ nl +:+ "  pv-migrate status " +:+ operationID +:+ nl
        +:+ nl +:+ "To clean up after completion:" +:+ nl +:+ "  pv-migrate cleanup " +:+ operationID +:+ nl).

(** ** The release *)

Definition installHelmChart (pvcInfo : Info) (releaseName : string) (baseValues : values) (req : Request)
  : io (result ()) :=
  let c := Client pvcInfo in
  let ns := Namespace (Claim pvcInfo) in
  _ ←! World.wrap "failed to initialize helm action config: %w" (ask (HelmInit c ns));
  baseValues ← DisableNetworkPoliciesWhereForbidden c baseValues;
  merged ←! mergeHelmValues baseValues req;
  installed ← ask (HelmInstall c ns releaseName false (HelmTimeout req) merged);
  Ret (match installed with
       | Installed => Ok ()
       | InstallDeadline e | InstallFailed e => Err (Errorf "failed to install helm chart: %w" [AWrap e])
       end).

(** The driver's [ErrReleaseNotFound] is an error here like any other. *)
Definition cleanupRelease (pvcInfo : Info) (releaseName : string) (timeout : Z) : io (result ()) :=
  let c := Client pvcInfo in
  let ns := Namespace (Claim pvcInfo) in
  _ ←! World.wrap "failed to initialize helm action config: %w" (ask (HelmInit c ns));
  uninstalled ← ask (HelmUninstall c ns releaseName timeout);
  Ret (match uninstalled with
       | Uninstalled => Ok ()
       | ReleaseNotFound => Err (Errorf "failed to uninstall helm release %s: %w"
                                   [AStr releaseName; AWrap (ErrNew "release: not found")])
       | UninstallFailed e => Err (Errorf "failed to uninstall helm release %s: %w" [AStr releaseName; AWrap e])
       end).

(** Whether the deferred cleanup of [handleJobCompletion] leaves the release. *)
Definition keeps_release (req : Request) (failed : bool) : bool :=
  NoCleanup req || (NoCleanupOnFailure req && failed) || Detach req.

Definition handleJobCompletion (req : Request) (pvcInfo : Info) (releaseName jobName operationID : string)
  : io (result () * report) :=
  let c := Client pvcInfo in
  let namespace := Namespace (Claim pvcInfo) in
  done ← (if Detach req then
            started ← ask (WaitForJobStart c namespace jobName);
            Ret (match started with
                 | Err e => (Err (Errorf "failed to wait for job to start: %w" [AWrap e]), NoReport)
                 | Ok _ => (Ok (), printDetachMessage req operationID)
                 end)
          else
            completed ← ask (WaitForJobCompletion c namespace jobName);
            match completed with
            | Err e => failure ← writeFailure req c namespace releaseName e; Ret (Err e, failure)
            | Ok _ => Ret (Ok (), NoReport)
            end);
  _ ← (if keeps_release req (negb (is_Ok done.1)) then Ret (Ok ())
       else cleanupRelease pvcInfo releaseName (HelmTimeout req));
  Ret done.

(** ** Run *)

(** A step whose failure ends the run without a report. *)
Definition or_fail {A} (p : io (result A)) (f : A -> io (result () * report)) : io (result () * report) :=
  r ← p; match r with Ok a => f a | Err e => Ret (Err e, NoReport) end.
Notation "x ←? p ; q" := (or_fail p (fun x => q))
  (at level 20, p at level 100, q at level 200, right associativity, only parsing) : go_scope.

Section Run.
Variable ReadFile : string -> result string.
Variable Marshal : Metadata -> result string.

(** The zero [archive.Target] of a run that has no archive. *)
Definition no_target : Target := mkTarget "" "" "" "".

(** What is settled before any cluster is contacted: the target, the rclone
    config, the remote path and the path inside the volume. *)
Definition plan (req : Request) (now : Time) : result (Target * string * string * string) :=
  target ← (if isArchive req then parseArchiveTarget req now else Ok no_target);
  _ ← validateSnapshotRequest req;
  resolved ← resolveTarget ReadFile req target;
  localPath ← (if decide (Path req = "") then Ok dataMountPath
               else _ ← wrap_err "invalid --path: %w" (validateSubpath (Path req));
                    Ok (PathJoin [dataMountPath; Path req]));
  Ok (target, resolved.1, resolved.2, localPath).

(** From the resolved source on: what the deferred release of the source follows. *)
Definition runJob (req : Request) (c : ClusterClient) (ns operationID releaseName : string)
    (target : Target) (rcloneConf remotePath localPath : string) (stamp : Time) (pvcInfo : Info)
  : io (result () * report) :=
  archiveInfo ←? (if isArchive req && InCluster target
                  then i ←! resolveArchiveClaim c ns target pvcInfo; Ret (Ok (Some i))
                  else Ret (Ok None));
  cmdStr ←? Ret (buildMoverCmd req target localPath remotePath);
  let readOnly := bool_decide (Direction req = DirectionBackup) in
  meta ←? Ret (buildMetadata Marshal stamp req target ns);
  let helmVals := buildHelmValues ns req pvcInfo archiveInfo rcloneConf cmdStr readOnly meta in
  installed ← installHelmChart pvcInfo releaseName helmVals req;
  match installed with
  | Err e =>
      failure ← writeFailure req (Client pvcInfo) ns releaseName e;
      Ret (Err (Errorf "failed to install helm chart: %w" [AWrap e]), failure)
  | Ok _ => handleJobCompletion req pvcInfo releaseName (releaseName +:+ "-" +:+ jobSuffix req) operationID
  end.

Definition Run (req : Request) (generated : string) (now stamp : Time) : io (result () * report) :=
  let operationID := if decide (ID req = "") then generated else ID req in
  planned ←? Ret (plan req now);
  let '(target, rcloneConf, remotePath, localPath) := planned in
  let releaseName := bucketReleaseName operationID (Direction req) in
  c ←? World.wrap "failed to get cluster client: %w" (ask (GetClusterClient (KubeconfigPath req) (Context req)));
  let ns := if decide (req_Namespace req = "") then NsInContext c else req_Namespace req in
  let lookup := if usesSnapshot req then NewSource else New in
  live ←? World.wrap "failed to get PVC info: %w" (lookup c ns (PVCName req));
  _ ←? World.wrap "failed to load helm chart: %w" (ask (LoadChart (ChartVersion req)));
  source ←? resolveSource c req live releaseName;
  let '(pvcInfo, src) := source in
  done ← runJob req c ns operationID releaseName target rcloneConf remotePath localPath stamp pvcInfo;
  (* deferred: the source is released last *)
  _ ← match src with
      | Some src => releaseSnapshotSource req src (negb (is_Ok done.1))
      | None => Ret ()
      end;
  Ret done.
End Run.

(** ** Specification: the protocol of a run *)

Inductive release_state : Type :=
  | NotInstalled     (* nothing of the release exists yet *)
  | Broken           (* an install that failed *)
  | Up               (* an install that succeeded *)
  | Tidied.          (* and whose removal was attempted *)

Record run_state : Type := mkRun {
  chart_loaded : bool;
  the_release : release_state;
  clone_due : bool     (* the run made a clone and has not asked for its removal *)
}.

Definition at_start : run_state := mkRun false NotInstalled false.

#[export] Instance release_state_eq_dec : EqDecision release_state.
Proof. solve_decision. Defined.

Section Protocol.
Context (req : Request) (operationID : string).

Definition our_release : string := bucketReleaseName operationID (Direction req).
Definition our_job : string := our_release +:+ "-" +:+ jobSuffix req.

(** The request asks for what was made to stay. *)
Definition stays (failed : bool) : bool := Detach req || NoCleanup req || (failed && NoCleanupOnFailure req).

Definition run_allows (st : run_state) X (e : call X) : Prop :=
  match e with
  | LoadChart _ => chart_loaded st = false
  | SessionOpen _ _ _ _ _ | CreateSnapshot _ _ _ _ _ | CloneClaim _ _ _ _ =>
      chart_loaded st = true /\ the_release st = NotInstalled /\ clone_due st = false
  | HelmInstall _ _ release _ _ _ =>
      release = our_release /\ chart_loaded st = true /\ the_release st = NotInstalled /\
      (usesSnapshot req = true -> clone_due st = true)
  | WaitForJobStart _ _ job => job = our_job /\ the_release st = Up /\ Detach req = true
  | WaitForJobCompletion _ _ job => job = our_job /\ the_release st = Up /\ Detach req = false
  | CollectDiagnostics _ _ release => release = our_release /\ the_release st <> Tidied
  | HelmUninstall _ _ release _ => release = our_release /\ the_release st = Up /\ stays false = false
  | DeleteClaim _ _ => clone_due st = true /\ the_release st <> Up /\ stays false = false \/ 
                       clone_due st = true /\ the_release st = NotInstalled
  | DeleteSnapshot _ _ => chart_loaded st = true /\ the_release st <> Up
  | RunLocalMigration _ _ _ _ _ _ => False
  | _ => True
  end.

Definition run_next (st : run_state) X (e : call X) : X -> run_state :=
  match e in call X return X -> run_state with
  | LoadChart _ => fun x => mkRun (is_Ok x) (the_release st) (clone_due st)
  | CloneClaim _ _ _ _ => fun x => if is_Ok x then mkRun (chart_loaded st) (the_release st) true else st
  | DeleteClaim _ _ => fun _ => mkRun (chart_loaded st) (the_release st) false
  | HelmInit _ _ => fun x =>
      if bool_decide (the_release st = Up) && negb (is_Ok x)
      then mkRun (chart_loaded st) Tidied (clone_due st) else st
  | HelmInstall _ _ _ _ _ _ => fun x =>
      mkRun (chart_loaded st) (match x with Installed => Up | _ => Broken end) (clone_due st)
  | HelmUninstall _ _ _ _ => fun _ => mkRun (chart_loaded st) Tidied (clone_due st)
  | _ => fun _ => st
  end.

(** How a run may end. *)
Definition run_ends (st : run_state) (failed : bool) : Prop :=
  (clone_due st = true -> stays failed = true) /\
  match the_release st with
  | NotInstalled | Broken => failed = true
  | Up => stays failed = true
  | Tidied => stays failed = false
  end.

Local Notation mwp := (mwp run_allows run_next).

(** Reads that every state allows and that leave it as it is. *)
Definition harmless X (e : call X) : Prop :=
  match e with
  | GetClusterClient _ _ | GetPVC _ _ _ | ListPods _ _ | GetVolume _ _ | ListNodes _ | GetSecret _ _ _
  | CanCreateNetworkPolicies _ _ | MergeUserValues _ _ _ _ | MergeMaps _ _ | SnapshotNew _ | CheckClass _
  | WaitForCut _ _ _ | WaitReady _ _ _ | SessionWrite _ _ | SessionWriteSecret _ _ | SessionWaitFor _ _ _
  | SessionOutput _ | SessionClose _ => True
  | _ => False
  end.

Lemma harmless_still X (e : call X) st : harmless X e -> run_allows st X e /\ forall x, run_next st X e x = st.
Proof. by destruct e. Qed.

Lemma harmless_mwp {A} st (p : io A) (Q : run_state -> A -> Prop) :
  all_calls harmless p -> (forall a, Q st a) -> mwp st p Q.
Proof.
  intros Hp HQ. apply mwp_still; [|done]. eapply all_calls_mono; [|exact Hp].
  intros X e He. by apply harmless_still.
Qed.

Lemma lookup_harmless c ns name : all_calls harmless (New c ns name) /\ all_calls harmless (NewSource c ns name).
Proof.
  split; unfold New, NewSource, newInfo, findMountedPod, Pvc.resolveTopology, AllowedNodesFor,
    volumeNodeSelector, wrap_errf; quiet_calls; done.
Qed.

(** ** Lemmas: the source *)

(** What the flush and the cut call, all of it before the clone. *)
Definition early X (e : call X) : Prop :=
  match e with
  | SessionOpen _ _ _ _ _ | CreateSnapshot _ _ _ _ _ | DeleteSnapshot _ _ => True
  | _ => harmless X e
  end.

Definition loaded (clone : bool) : run_state := mkRun true NotInstalled clone.

Lemma early_mwp {A} (p : io A) (Q : run_state -> A -> Prop) :
  all_calls early p -> (forall a, Q (loaded false) a) -> mwp (loaded false) p Q.
Proof.
  intros Hp HQ. apply mwp_still; [|done]. eapply all_calls_mono; [|exact Hp].
  intros X e He. destruct e; cbn in *; done.
Qed.

Lemma release_early r : all_calls early (runRelease r).
Proof. destruct r; unfold runRelease, execTarget_run, Flush.Run; quiet_calls; done. Qed.

Lemma unlock_early r b : all_calls early (unlock r b).
Proof.
  destruct r as [r|]; [|done]. cbn [unlock]. destruct b; [done|].
  apply all_calls_bind; [apply release_early|done].
Qed.

Lemma quiesce_early c source : all_calls early (quiesce c req source).
Proof.
  unfold quiesce, prepareFlush, resolveFlushCredentials, readSecretValue, quiesceSession, quiesceOneShot,
    quiescePair, chooseLock, execTarget_run, Flush.Run.
  quiet_calls; done.
Qed.

Lemma ensureSnapshot_early c source release : all_calls early (ensureSnapshot c req source release).
Proof.
  unfold ensureSnapshot. case_decide; [done|]. unfold try_bind at 1. apply all_calls_bind; [|by intros []].
  unfold cutSnapshot. unfold try_bind. apply all_calls_bind; [apply quiesce_early|].
  intros [r|]; [|done]. repeat first [apply unlock_early | progress quiet_calls]; done.
Qed.

Lemma rollback_release_mwp ns cloneName snapshotName removeSnapshot (created : bool) :
  mwp (loaded created) (rollbackSnapshotSource ns cloneName snapshotName created removeSnapshot)
    (fun st _ => st = loaded false).
Proof.
  unfold rollbackSnapshotSource. rewrite mwp_bind.
  assert (forall Q : run_state -> () -> Prop, Q (loaded false) () ->
    mwp (loaded false) (_ ← (if removeSnapshot then ask (DeleteSnapshot ns snapshotName) else Ret (Ok ())); Ret ()) Q)
    as Hs.
  { intros Q HQ. apply early_mwp; [|by intros []]. destruct removeSnapshot; quiet_calls; done. }
  destruct created; cbn [World.mwp ask].
  - split; [by right|]. intros x. by apply Hs.
  - by apply Hs.
Qed.

Lemma resolveSource_mwp c live release :
  mwp (loaded false) (resolveSource c req live release)
    (fun st r => match r with
                 | Err _ => st = loaded false
                 | Ok (_, None) => st = loaded false /\ usesSnapshot req = false
                 | Ok (_, Some _) => st = loaded true
                 end).
Proof.
  unfold resolveSource. destruct (usesSnapshot req) eqn:Hu; cbn [negb].
  2: { cbn. by destruct (handleMounted _ _) as [[]|]. }
  rewrite mwp_try. unfold prepareSnapshotSource.
  rewrite mwp_try. apply harmless_mwp; [by quiet_calls|]. intros [[]|e]; [|done].
  rewrite mwp_try. apply harmless_mwp; [by quiet_calls|]. intros [[]|e]; [|done].
  rewrite mwp_try. apply early_mwp; [apply ensureSnapshot_early|]. intros [[snapshot created]|e]; [|done].
  cbv zeta. rewrite mwp_bind.
  eapply (mwp_mono _ _ _ _ (fun st b => match b with
                            | (Ok _, _) => st = loaded true
                            | (Err _, created) => st = loaded created
                            end)).
  - rewrite mwp_bind. apply harmless_mwp; [by quiet_calls|]. intros [[]|e]; [|done].
    unfold cloneSnapshot. cbn [mbind io_bind io_bind_def ask World.mwp]. split; [by repeat split|].
    intros [[]|e]; [|done]. cbn [io_bind_def is_Ok run_next].
    change (mwp (loaded true) (clone ← New c (Namespace (Claim live)) (release +:+ cloneSuffix);
      Ret (match clone with
           | Err e => (Err (Errorf "failed to get cloned claim: %w" [AWrap e]), true)
           | Ok clone => (Ok (inheritTopology clone live), true)
           end))
      (fun st b => match b with
                   | (Ok _, _) => st = loaded true
                   | (Err _, created) => st = loaded created
                   end)).
    rewrite mwp_bind. apply harmless_mwp; [apply lookup_harmless|]. by intros [].
  - intros st [[clone|e] cloned] ->; [done|]. rewrite mwp_bind.
    eapply mwp_mono; [apply rollback_release_mwp|]. intros st _ ->. done.
Qed.

(** Releasing the source, from any state but one whose release is up. *)
Lemma releaseSource_mwp src failed st :
  chart_loaded st = true -> clone_due st = true -> (the_release st = Up -> stays failed = true) ->
  mwp st (releaseSnapshotSource req src failed)
    (fun st' _ => the_release st' = the_release st /\ (clone_due st' = true -> stays failed = true)).
Proof.
  intros Hch Hc Hup. unfold releaseSnapshotSource, stays in *.
  destruct (Detach req) eqn:Ed; [by cbn|].
  destruct (NoCleanup req || (failed && NoCleanupOnFailure req)) eqn:Ek; [by cbn; rewrite Ek|].
  cbn [orb] in Hup. rewrite Ek in Hup.
  assert (the_release st <> Up) as Hn by (intros Eu; by specialize (Hup Eu)).
  rewrite mwp_bind. unfold removeSnapshotSource. rewrite mwp_try. cbn [World.mwp ask].
  split. { left. split; [done|]. split; [done|]. unfold stays. rewrite Ed. cbn. by destruct (NoCleanup req). }
  intros [[]|e]; cbn [World.mwp run_next]; [|by split].
  destruct (removeSnapshot src); cbn; by repeat split.
Qed.

(** ** Lemmas: the release *)

Lemma stays_keeps failed : keeps_release req failed = stays failed.
Proof.
  unfold keeps_release, stays. destruct (NoCleanup req), (Detach req), (NoCleanupOnFailure req), failed; done.
Qed.

Definition up (clone : bool) : run_state := mkRun true Up clone.

Lemma cleanupRelease_mwp info timeout clone :
  stays false = false ->
  mwp (up clone) (cleanupRelease info our_release timeout) (fun st _ => st = mkRun true Tidied clone).
Proof.
  intros Hk. unfold cleanupRelease. rewrite mwp_try. cbn. split; [done|].
  intros [[]|e]; cbn; [|done]. by repeat split.
Qed.

Definition after_job (clone : bool) (st : run_state) (r : result () * report) : Prop :=
  chart_loaded st = true /\ clone_due st = clone /\
  match the_release st with
  | NotInstalled | Broken => is_Ok r.1 = false
  | Up => stays (negb (is_Ok r.1)) = true
  | Tidied => stays (negb (is_Ok r.1)) = false
  end.

Lemma handleJobCompletion_mwp info clone :
  mwp (up clone) (handleJobCompletion req info our_release our_job operationID) (after_job clone).
Proof.
  unfold handleJobCompletion. rewrite mwp_bind.
  eapply (mwp_mono _ _ _ _ (fun st _ => st = up clone)).
  - destruct (Detach req) eqn:Ed.
    + cbn. split; [done|]. by intros [[]|e].
    + rewrite mwp_bind. cbn. split; [done|]. intros [[]|e]; cbn; [done|]. by split.
  - intros st done ->. rewrite mwp_bind, stays_keeps.
    destruct (stays (negb (is_Ok done.1))) eqn:Ek; cbn [World.mwp].
    + by repeat split.
    + eapply mwp_mono; [apply cleanupRelease_mwp|].
      * unfold stays in *. destruct (Detach req), (NoCleanup req); done.
      * intros st _ ->. by repeat split.
Qed.

Lemma disable_harmless c components cache vals : all_calls harmless (disable_loop c components cache vals).
Proof.
  revert cache vals. induction components as [|k components IH]; intros cache vals; cbn [disable_loop]; [done|].
  destruct (as_map (get vals k)) as [section|]; [|apply IH]. cbv zeta. case_decide; [apply IH|].
  apply all_calls_bind.
  - destruct (assoc_get _ _); [done|]. unfold networkPoliciesAllowed. quiet_calls; done.
  - intros [[] cache']; apply IH.
Qed.

Lemma installHelmChart_mwp info vals clone :
  (usesSnapshot req = true -> clone = true) ->
  mwp (loaded clone) (installHelmChart info our_release vals req)
    (fun st r => match r with
                 | Ok _ => st = up clone
                 | Err _ => st = loaded clone \/ st = mkRun true Broken clone
                 end).
Proof.
  intros Hu. unfold installHelmChart. rewrite mwp_try. cbn. split; [done|]. intros [[]|e]; cbn; [|by left].
  change (mwp (loaded clone) (baseValues ← DisableNetworkPoliciesWhereForbidden (Client info) vals;
    merged ←! mergeHelmValues baseValues req;
    installed ← ask (HelmInstall (Client info) (Namespace (Claim info)) our_release false (HelmTimeout req) merged);
    Ret (match installed with
         | Installed => Ok ()
         | InstallDeadline e | InstallFailed e => Err (Errorf "failed to install helm chart: %w" [AWrap e])
         end))
    (fun st r => match r with
                 | Ok _ => st = up clone
                 | Err _ => st = loaded clone \/ st = mkRun true Broken clone
                 end)).
  rewrite mwp_bind. apply harmless_mwp; [apply disable_harmless|]. intros vals'.
  rewrite mwp_try. apply harmless_mwp; [unfold mergeHelmValues; quiet_calls; done|].
  intros [merged|e]; [|by left]. cbn. split; [by repeat split|]. intros []; cbn; auto.
Qed.

(** ** Lemmas: the run *)

Lemma or_fail_mwp {A} st (p : io (result A)) f Q :
  mwp st (or_fail p f) Q <->
  mwp st p (fun st r => match r with Ok a => mwp st (f a) Q | Err e => Q st (Err e, NoReport) end).
Proof.
  unfold or_fail. rewrite mwp_bind. split; intros H; eapply mwp_mono; try exact H; intros st' []; done.
Qed.

Section WithLibraries.
Context (ReadFile : string -> result string).
Context (Marshal : Metadata -> result string).

Lemma runJob_mwp c ns target conf remote local stamp info clone :
  (usesSnapshot req = true -> clone = true) ->
  mwp (loaded clone)
    (runJob Marshal req c ns operationID our_release target conf remote local stamp info) (after_job clone).
Proof.
  intros Hu. unfold runJob.
  assert (forall e, after_job clone (loaded clone) (Err e, NoReport)) as Hfail by by intros e.
  rewrite or_fail_mwp. apply harmless_mwp.
  { case_match; [|done]. unfold try_bind at 1. apply all_calls_bind; [|by intros []].
    unfold resolveArchiveClaim, World.wrap. unfold try_bind at 1. apply all_calls_bind; [|by intros []; quiet_calls].
    apply all_calls_bind; [apply lookup_harmless|done]. }
  intros [archiveInfo|e]; [|apply Hfail]. rewrite or_fail_mwp. cbn [World.mwp].
  destruct (buildMoverCmd _ _ _ _) as [cmdStr|e]; [|apply Hfail].
  rewrite or_fail_mwp. cbn [World.mwp]. destruct (buildMetadata _ _ _ _ _) as [meta|e]; [|apply Hfail].
  rewrite mwp_bind. eapply mwp_mono; [by apply installHelmChart_mwp|].
  intros st [[]|e].
  - intros ->. apply handleJobCompletion_mwp.
  - intros Hst. rewrite mwp_bind. unfold writeFailure. cbn.
    destruct Hst as [-> | ->]; (split; [by split|]); by repeat split.
Qed.

Lemma Run_mwp generated now stamp :
  (if decide (ID req = "") then generated else ID req) = operationID ->
  mwp at_start (Run ReadFile Marshal req generated now stamp)
    (fun st r => run_ends st (negb (is_Ok r.1))).
Proof.
  intros Hid. unfold Run. rewrite Hid. cbv zeta.
  assert (forall b e, run_ends (mkRun b NotInstalled false) (negb (is_Ok (A := ()) (Err e)))) as Hfail by by split.
  rewrite or_fail_mwp. cbn [World.mwp].
  destruct (plan _ req now) as [[[[target conf] remote] local]|e]; [|apply Hfail].
  rewrite or_fail_mwp. apply harmless_mwp; [by quiet_calls|]. intros [c|e]; [|apply Hfail].
  rewrite or_fail_mwp. apply harmless_mwp.
  { unfold World.wrap. apply all_calls_bind; [|done]. destruct (usesSnapshot req); apply lookup_harmless. }
  intros [live|e]; [|apply Hfail].
  rewrite or_fail_mwp. cbn [World.wrap World.mwp ask mbind io_bind io_bind_def].
  split; [done|]. intros [[]|e]; cbn [wrap_err run_next is_Ok]; [|apply Hfail].
  rewrite or_fail_mwp. fold our_release.
  change (mkRun true (the_release at_start) (clone_due at_start)) with (loaded false).
  eapply mwp_mono; [apply resolveSource_mwp|].
  intros st [[info src]|e]; [|intros ->; apply Hfail]. intros Hst.
  rewrite mwp_bind.
  assert (exists clone, st = loaded clone /\ (usesSnapshot req = true -> clone = true) /\
            (clone = true -> is_Some src) /\ (is_Some src -> clone = true)) as (clone & -> & Hu & Hs & Hs').
  { destruct src as [src|].
    - exists true. by subst.
    - exists false. destruct Hst as [-> Hst]. split; [done|]. rewrite Hst. split; [done|].
      split; [done|]. by intros []. }
  eapply mwp_mono; [by apply runJob_mwp|]. intros st done (Hch & Hc & Hend). rewrite mwp_bind.
  destruct src as [src|].
  - specialize (Hs' ltac:(by exists src)). subst clone.
    eapply mwp_mono; [apply releaseSource_mwp; [done|done|]|].
    + intros Eu. by rewrite Eu in Hend.
    + intros st' _ [Er Hd]. cbn. split; [done|]. rewrite Er.
      destruct (the_release st); try done; by destruct (is_Ok done.1).
  - cbn. split.
    + rewrite Hc. intros Ec. destruct (Hs Ec) as [? [=]].
    + destruct (the_release st); try done; by destruct (is_Ok done.1).
Qed.
End WithLibraries.
End Protocol.

(** ** Properties *)

(** A backup or restore keeps to its protocol, whatever the clusters answer
    and wherever it stops.  A request that cannot be planned contacts no cluster.
    No database is quiesced and no snapshot cut before the chart has loaded; at
    most one release is installed, and for a snapshot-backed run only once the
    clone exists; the Job waited for is the release's; the diagnostics are read
    before the release is removed; and the clone is never removed while the release
    that mounts it is up.  At the end an installed release is up only if the
    request said so, a clone is left only if it said so, and a run that succeeded
    had its install succeed. *)
Theorem Run_keeps_protocol ReadFile Marshal (req : Request) (generated : string) (now stamp : Time)
    (h : handler) n :
  let operationID := if decide (ID req = "") then generated else ID req in
  let run := exec h n (Run ReadFile Marshal req generated now stamp) in
  obeys (run_allows req operationID) run_next at_start run.1 /\
  run_ends req (final run_next at_start run.1) (negb (is_Ok run.2.1)) /\
  match plan ReadFile req now with
  | Err e => run = ([], (Err e, NoReport))
  | Ok _ => True
  end.
Proof.
  intros operationID run. subst run.
  destruct (mwp_exec (run_allows req operationID) run_next at_start
    (Run ReadFile Marshal req generated now stamp)
    (fun st r => run_ends req st (negb (is_Ok r.1))) h n) as [H1 H2]; [by apply Run_mwp|].
  split; [exact H1|]. split; [exact H2|]. unfold Run.
  by destruct (plan ReadFile req now).
Qed.

(** ** A failed install *)

Definition failed_install (ev : event) : bool :=
  match ev with
  | Ev e x => match e in call X return X -> bool with
              | HelmInstall _ _ _ _ _ _ => fun x => match x with Installed => false | _ => true end
              | _ => fun _ => false
              end x
  end.

Lemma obeys_never req id (P : run_state -> Prop) (f : event -> bool) :
  (forall st X (e : call X) x, P st -> run_allows req id st X e -> P (run_next st X e x) /\ f (Ev e x) = false) ->
  forall st t, P st -> obeys (run_allows req id) run_next st t -> existsb f t = false.
Proof.
  intros H st t. revert st. induction t as [|[X e x] t IH]; intros st HP; cbn [obeys existsb]; [done|].
  intros [Ha Ho]. destruct (H st X e x HP Ha) as [HP' ->]. cbn. by eapply IH.
Qed.

(** How a call moves the release. *)
Lemma release_moves req id st X (e : call X) x :
  run_allows req id st X e ->
  (the_release (run_next st X e x) = the_release st /\ uninstalls (Ev e x) = false /\ failed_install (Ev e x) = false) \/
  (the_release st = NotInstalled /\ uninstalls (Ev e x) = false /\
   the_release (run_next st X e x) = if failed_install (Ev e x) then Broken else Up) \/
  (the_release st = Up /\ the_release (run_next st X e x) = Tidied /\ failed_install (Ev e x) = false).
Proof.
  destruct e; intros Ha; cbn in Ha |- *; try (by left; try destruct (is_Ok x)).
  - case_bool_decide; destruct (is_Ok x); cbn; by auto.
  - right; left. destruct Ha as (_ & _ & Hn & _). split; [done|]. split; [done|]. by destruct x.
  - right; right. by destruct Ha as (_ & Hu & _).
Qed.

Lemma failed_install_last req id st t :
  the_release st = NotInstalled -> obeys (run_allows req id) run_next st t ->
  existsb failed_install t = true -> existsb uninstalls t = false.
Proof.
  revert st. induction t as [|[X e x] t IH]; intros st Hn; cbn [obeys existsb]; [done|].
  intros [Ha Ho] Hf.
  destruct (release_moves _ _ _ _ _ x Ha) as [(Er & Eu & Ef)|[(_ & Eu & Er)|(Er & _)]]; [| |congruence];
    rewrite Eu; cbn [orb].
  - rewrite Ef in Hf. apply (IH (run_next st X e x)); [congruence|done|done].
  - destruct (failed_install (Ev e x)).
    + eapply (obeys_never req id (fun st => the_release st = Broken)); [|exact Er|exact Ho].
      intros st' Y e' y Hb Ha'.
      destruct (release_moves _ _ _ _ _ y Ha') as [(? & ? & ?)|[(? & _)|(? & _)]]; [|congruence..].
      split; congruence.
    + exfalso. apply not_false_iff_true in Hf. apply Hf.
      eapply (obeys_never req id (fun st => the_release st = Up \/ the_release st = Tidied));
        [|left; exact Er|exact Ho].
      intros st' Y e' y Hb Ha'.
      destruct (release_moves _ _ _ _ _ y Ha') as [(E & ? & ?)|[(? & _)|(? & E & ?)]];
        [rewrite E; tauto|destruct Hb; congruence|tauto].
Qed.

Definition snapshot_backup (name : string) : Request :=
  mkRequest "ab12" "" "" DirectionBackup "" "" "" "data" false false false false false false
    "s3" "team-a" "" "" "" "" "" "" "" "" None name "" "" "" "" "" "" 0
    true "" "" false "" "" [] "" "" "" 0 [] [] [] [] false false.

(** A cluster whose nodes cannot run the Job, so that installs time out. *)
Definition stuck_install : handler := fun X n e =>
  match e in call X return X with
  | HelmInstall _ _ _ _ _ _ => InstallDeadline (ErrNew "context deadline exceeded")
  | e => still (mkClient "https://a" "db")
           (mkCluster (fun ns name => Ok (mkPVC ns name [ReadWriteOnce] "" None ∅ None None)) (fun _ => Ok [])
              (fun _ => ApiErr NotFound (ErrNew "")) (Found [])) _ n e
  end.

Definition example_run (h : handler) (req : Request) : list event * (result () * report) :=
  exec h 0 (Run (fun _ => Err (ErrNew "no such file")) (fun m => Ok (SourcePVC m)) req "zz"
              (mkTime 2026 1 2 3 4 5) (mkTime 2026 1 2 3 4 5)).

Definition deletes_clone (ev : event) : bool := match ev with Ev (DeleteClaim _ _) _ => true | _ => false end.

(** An install that fails is never undone.  Whatever the request says about
    cleaning up, a run whose release fails to install, a timeout included, does
    not uninstall it; and a snapshot-backed one with no cleanup flag set then
    deletes the clone that the release left behind still mounts. *)
Theorem failed_install_stays ReadFile Marshal (req : Request) (generated : string) (now stamp : Time)
    (h : handler) n :
  let t := (exec h n (Run ReadFile Marshal req generated now stamp)).1 in
  (existsb failed_install t && existsb uninstalls t = false) /\
  exists req', stays req' true = false /\
    let t' := (example_run stuck_install req').1 in
    existsb failed_install t' = true /\ existsb uninstalls t' = false /\ existsb deletes_clone t' = true.
Proof.
  cbv zeta. split.
  - destruct (existsb failed_install _) eqn:Ef; [|done]. cbn.
    destruct (mwp_exec (run_allows req (if decide (ID req = "") then generated else ID req)) run_next at_start
      (Run ReadFile Marshal req generated now stamp)
      (fun st r => run_ends req st (negb (is_Ok r.1))) h n) as [H1 _]; [by apply Run_mwp|].
    by apply (failed_install_last _ _ at_start _ eq_refl H1).
  - exists (snapshot_backup "pg"). vm_compute. done.
Qed.

(** What a backup does on a cluster that works: the release is installed, its Job
    waited for, the release removed and then the clone and the snapshot. *)
Definition milestones (t : list event) : list string :=
  omap (fun ev => match ev with
                  | Ev (CreateSnapshot _ _ _ _ _) _ => Some "snapshot"
                  | Ev (CloneClaim _ _ _ _) _ => Some "clone"
                  | Ev (HelmInstall _ _ _ _ _ _) _ => Some "install"
                  | Ev (WaitForJobCompletion _ _ _) _ => Some "wait"
                  | Ev (HelmUninstall _ _ _ _) _ => Some "uninstall"
                  | Ev (DeleteClaim _ _) _ => Some "delete clone"
                  | Ev (DeleteSnapshot _ _) _ => Some "delete snapshot"
                  | _ => None
                  end) t.

Example backup_milestones :
  milestones (example_run (still (mkClient "https://a" "db")
    (mkCluster (fun ns name => Ok (mkPVC ns name [ReadWriteOnce] "" None ∅ None None)) (fun _ => Ok [])
       (fun _ => ApiErr NotFound (ErrNew "")) (Found []))) (snapshot_backup "pg")).1
  = ["snapshot"; "clone"; "install"; "wait"; "uninstall"; "delete clone"; "delete snapshot"].
Proof. vm_compute. reflexivity. Qed.
