(* ===== verification/JobScript.v ===== *)
(** * internal/helm/pv-migrate/templates: the scripts of the Jobs

    What runs in the pod of a Job is not the data mover alone but a shell script of
    the chart around it (rsync/job.yaml, rclone/job.yaml): it repeats a failed
    attempt, takes some exit statuses for a success, uploads the metadata of a
    backup, and its exit status is that of the container, which the client judges
    the run by (Jobs.v).  The values it is rendered with are those of HelmValues.v
    and BucketPlan.v over the defaults of values.yaml.  The script is translated
    here with the exit status of the n-th attempt as a function; what one attempt
    does is in Mover.v, Archive.v and Rclone.v. *)
From S2P Require Import Prelude GoStrings Decimal World Pvc Migration Mover HelmValues BucketRequest BucketPlan.
From stdpp Require Import options.
Local Open Scope Z_scope.

(** ** Shell and templates *)

(** [case "$code" in pattern)], for a pattern of words and bars. *)
Definition case_matches (pattern : string) (code : Z) : bool := bool_decide (Itoa code ∈ Split pattern "|").

(** A value over the default of values.yaml. *)
Definition str_value (section : values) (k d : string) : string :=
  match get section k with Some (VStr s) => s | _ => d end.
Definition int_value (section : values) (k : string) (d : Z) : Z :=
  match get section k with Some (VInt z) => z | _ => d end.

(** ** The loop *)

(** What becomes of an attempt. *)
Inductive verdict : Type := Succeeded | Tolerated (marker : string) | Final | Failed.

Section Loop.
(** The name in the messages, the verdict of an exit status, and the number of
    attempts and the seconds between two. *)
Context (label : string) (judge : Z -> verdict) (code : nat -> Z) (total period : Z).

Definition waiting (n : nat) : string :=
  label +:+ " attempt " +:+ Itoa (Z.of_nat n) +:+ "/" +:+ Itoa total +:+ " failed, waiting " +:+ Itoa period +:+
  " seconds before trying again".

(** [while \[ "$n" -le "$retries" \]], with [left] rounds of it left; [rc] is the
    status so far.  The result is the status and the lines printed. *)
Fixpoint attempts (n left : nat) (rc : Z) : Z * list string :=
  match left with
  | O => (rc, [])
  | S left' =>
      let rc := code n in
      match judge rc with
      | Succeeded => (0, [])
      | Tolerated marker => (0, [marker])
      | Final => (rc, [])
      | Failed =>
          match left' with
          | O => (rc, [])
          | S _ => let '(rc, log) := attempts (S n) left' rc in (rc, waiting (S n) :: log)
          end
      end
  end.
End Loop.

(** ** rsync/job.yaml *)

(** What the script of a transfer is rendered with. *)
Record transfer_script : Type := mkTransferScript {
  maxRetries : Z;
  retryPeriodSeconds : Z;
  toleratedExitCodes : string;
  toleratedMarker : string;
  noRetryExitCodes : string
}.

Definition transfer_script_of (section : values) : transfer_script :=
  mkTransferScript (int_value section "maxRetries" 10) (int_value section "retryPeriodSeconds" 5)
    (str_value section "toleratedExitCodes" "24")
    (str_value section "toleratedMarker"
       "pv-migrate: some source files vanished during the transfer; treated as success")
    (str_value section "noRetryExitCodes" "1").

(** The two [case]s; an empty pattern renders none. *)
Definition transfer_judge (s : transfer_script) (rc : Z) : verdict :=
  if decide (rc = 0) then Succeeded
  else if bool_decide (toleratedExitCodes s <> "") && case_matches (toleratedExitCodes s) rc
  then Tolerated (toleratedMarker s)
  else if bool_decide (noRetryExitCodes s <> "") && case_matches (noRetryExitCodes s) rc then Final
  else Failed.

Definition failed_line (what : string) (rc : Z) : list string :=
  if decide (rc = 0) then [] else [what +:+ " failed with exit code " +:+ Itoa rc].

Definition transfer_job (s : transfer_script) (code : nat -> Z) : Z * list string :=
  let '(rc, log) := attempts "rsync" (transfer_judge s) code (maxRetries s + 1) (retryPeriodSeconds s)
                      0 (Z.to_nat (maxRetries s + 1)) 1 in
  (rc, log ++ failed_line "rsync job" rc).

(** ** rclone/job.yaml *)

Record bucket_script : Type := mkBucketScript {
  bucket_maxRetries : Z;
  bucket_period : Z;
  metadataBase64 : string;
  metadataLocalPath : string
}.

Definition bucket_script_of (section : values) : bucket_script :=
  mkBucketScript (int_value section "maxRetries" 3) (int_value section "retryPeriodSeconds" 5)
    (str_value section "metadataBase64" "") (str_value section "metadataLocalPath" "").

Definition bucket_judge (rc : Z) : verdict := if decide (rc = 0) then Succeeded else Failed.

(** [copied] is the status of [cp], [uploaded] those of the uploads. *)
Definition metadata_step (s : bucket_script) (copied : Z) (uploaded : nat -> Z) : Z * list string :=
  if decide (metadataLocalPath s <> "") then (copied, [])
  else attempts "metadata upload" bucket_judge uploaded (bucket_maxRetries s + 1) (bucket_period s)
         0 (Z.to_nat (bucket_maxRetries s + 1)) 0.

Definition bucket_job (s : bucket_script) (code : nat -> Z) (copied : Z) (uploaded : nat -> Z) : Z * list string :=
  let '(rc, log) := attempts "rclone" bucket_judge code (bucket_maxRetries s + 1) (bucket_period s)
                      0 (Z.to_nat (bucket_maxRetries s + 1)) 1 in
  if decide (metadataBase64 s <> "" /\ rc = 0) then
    let '(metadata_rc, log') := metadata_step s copied uploaded in
    if decide (metadata_rc = 0) then (0, log ++ log')
    else (metadata_rc, log ++ log' ++
            ["data synced OK, but the metadata upload failed, so restore would not find this backup"] ++
            failed_line "metadata upload" metadata_rc)
  else (rc, log ++ failed_line "rclone job" rc).

(** ** Lemmas *)

(** An attempt after which the loop goes on. *)
Definition goes_on (v : verdict) : bool := match v with Failed => true | _ => false end.
Definition status_of (v : verdict) (rc : Z) : Z := match v with Succeeded | Tolerated _ => 0 | _ => rc end.
Definition said (v : verdict) : list string := match v with Tolerated marker => [marker] | _ => [] end.

(** The loop stops at the first attempt that settles it, or at the last. *)
Lemma attempts_stop label judge code total period left : forall n rc, (0 < left)%nat ->
  exists k, (n <= k < n + left)%nat /\ (forall j, (n <= j < k)%nat -> goes_on (judge (code j)) = true) /\
    (goes_on (judge (code k)) = false \/ k = (n + left - 1)%nat) /\
    attempts label judge code total period n left rc =
      (status_of (judge (code k)) (code k),
       (waiting label total period <$> seq (S n) (k - n)) ++ said (judge (code k))).
Proof.
  induction left as [|left IH]; intros n rc Hl; [lia|]. cbn [attempts].
  destruct (goes_on (judge (code n))) eqn:E.
  - destruct left as [|left].
    + exists n. split; [lia|]. split; [lia|]. split; [right; lia|]. rewrite Nat.sub_diag.
      destruct (judge (code n)); try discriminate E. done.
    + destruct (IH (S n) (code n) ltac:(lia)) as (k & Hk & Hj & Hs & Ha). exists k. split; [lia|].
      split; [|split].
      * intros j Hj'. destruct (decide (j = n)) as [->|]; [done|]. apply Hj. lia.
      * destruct Hs as [Hs| ->]; [by left|right; lia].
      * destruct (judge (code n)); try discriminate E. rewrite Ha.
        replace (k - n)%nat with (S (k - S n)) by lia. done.
  - exists n. split; [lia|]. split; [lia|]. split; [by left|]. rewrite Nat.sub_diag.
    by destruct (judge (code n)).
Qed.

(** The pattern of a list of codes matches these codes. *)
Lemma shellPattern_matches codes rc : Forall (Z.le 0) codes -> 0 <= rc ->
  bool_decide (shellPattern codes <> "") && case_matches (shellPattern codes) rc = bool_decide (rc ∈ codes).
Proof.
  intros Hc Hrc. destruct codes as [|z codes]; [reflexivity|]. unfold case_matches, shellPattern.
  rewrite Split_Join; [|done|].
  2:{ apply Forall_fmap. eapply Forall_impl; [exact Hc|]. intros x Hx. by apply Itoa_free_of. }
  apply Forall_cons in Hc as [Hz Hc].
  assert (Join (Itoa <$> z :: codes) "|" <> "") as Hne.
  { destruct (Itoa_digits z Hz) as (_ & Hn & _). cbn. destruct (Itoa <$> codes); [done|]. by destruct (Itoa z). }
  rewrite bool_decide_true by done. cbn [andb]. apply bool_decide_ext. rewrite list_elem_of_fmap.
  split; [|by exists rc]. intros (y & E & Hy).
  assert (0 <= y) by (apply elem_of_cons in Hy as [->|Hy]; [done|rewrite Forall_forall in Hc; auto]).
  by rewrite (Itoa_inj rc y).
Qed.

(** A text cannot contain one that has a byte it is free of. *)
Lemma Contains_needs c s sub : free_of c s -> any_byte (fun a => bool_decide (a = c)) sub = true -> Contains s sub = false.
Proof.
  intros Hs Hsub. destruct (Contains s sub) eqn:E; [|done]. apply Contains_spec in E as (b & r & ->).
  unfold free_of in Hs. rewrite !all_bytes_app, !andb_true_iff in Hs. destruct Hs as (_ & Hs & _).
  rewrite any_byte_all, negb_true_iff in Hsub. congruence.
Qed.

(** What the lines beside the marker are. *)
Lemma waiting_unmarked label total period n :
  free_of ":" label -> 0 <= total -> 0 <= period -> Contains (waiting label total period n) RsyncExit.VanishedFilesMarker = false.
Proof.
  intros Hl Ht Hp. apply (Contains_needs ":"); [|reflexivity]. unfold waiting.
  repeat (apply free_of_app; split); try done; apply Itoa_free_of; done || lia.
Qed.
Lemma failed_unmarked rc : 0 <= rc -> Forall (fun line => Contains line RsyncExit.VanishedFilesMarker = false) (failed_line "rsync job" rc).
Proof.
  intros Hr. unfold failed_line. case_decide; [done|]. apply Forall_singleton. apply (Contains_needs ":"); [|reflexivity].
  repeat (apply free_of_app; split); try done. by apply Itoa_free_of.
Qed.

(** ** The values a transfer's Job is rendered with *)

(** The section runs this mover. *)
Definition carries (section : values) (m : moverCommand) : Prop :=
  forall k v, (k, v) ∈ mover_values m -> get section k = Some v.

Lemma copy_into_carries dst m : carries (copy_into dst (mover_values m)) m.
Proof.
  intros k v Hin. unfold copy_into, mover_values in *. cbn.
  repeat (apply elem_of_cons in Hin as [[= -> ->]|Hin]; [by rewrite !get_set|]). by apply elem_of_nil in Hin.
Qed.

(** What the strategies add beside it leaves it. *)
Lemma carries_set section m k v : k ∉ (mover_values m).*1 -> carries section m -> carries (set section k v) m.
Proof.
  intros Hk Hc k' v' Hin. rewrite get_set. case_decide as E; [|by apply Hc].
  subst. exfalso. apply Hk. apply list_elem_of_fmap. by exists (k, v').
Qed.

Lemma script_of_mover section m : carries section m ->
  let s := transfer_script_of section in
  toleratedExitCodes s = shellPattern (tolerated (policy m)) /\ toleratedMarker s = marker (policy m) /\
  noRetryExitCodes s = shellPattern (noRetry (policy m)).
Proof.
  intros Hc. cbn. unfold str_value.
  rewrite (Hc "toleratedExitCodes" (VStr (shellPattern (tolerated (policy m))))) by (unfold mover_values; set_solver).
  rewrite (Hc "toleratedMarker" (VStr (marker (policy m)))) by (unfold mover_values; set_solver).
  by rewrite (Hc "noRetryExitCodes" (VStr (shellPattern (noRetry (policy m))))) by (unfold mover_values; set_solver).
Qed.

(** The script judges a status by the policy of the mover. *)
Lemma transfer_judge_policy section m rc : carries section m -> 0 <= rc ->
  Forall (Z.le 0) (tolerated (policy m)) -> Forall (Z.le 0) (noRetry (policy m)) ->
  transfer_judge (transfer_script_of section) rc =
    if decide (rc = 0) then Succeeded else if tolerates (policy m) rc then Tolerated (marker (policy m))
    else if bool_decide (rc ∈ noRetry (policy m)) then Final else Failed.
Proof.
  intros Hc Hrc Ht Hn. destruct (script_of_mover section m Hc) as (E1 & E2 & E3). unfold transfer_judge.
  by rewrite E1, E2, E3, !shellPattern_matches.
Qed.

Definition rsync_or_tar (m : moverCommand) : Prop := policy m = rsyncPolicy \/ policy m = tarPolicy.

Lemma policy_codes m : rsync_or_tar m ->
  Forall (Z.le 0) (tolerated (policy m)) /\ Forall (Z.le 0) (noRetry (policy m)).
Proof. intros [-> | ->]; cbn; split; repeat constructor; done. Qed.

(** The marker of each mover, and which of them the client scans for. *)
Lemma marker_scanned m : rsync_or_tar m ->
  Contains (marker (policy m)) RsyncExit.VanishedFilesMarker = bool_decide (tolerated (policy m) = [24]).
Proof. intros [-> | ->]; vm_compute; reflexivity. Qed.

Lemma existsb_app_last {A} (p : A -> bool) (a b c : list A) :
  Forall (fun x => p x = false) a -> Forall (fun x => p x = false) c -> existsb p ((a ++ b) ++ c) = existsb p b.
Proof.
  intros Ha Hc. rewrite !existsb_app.
  assert (forall l, Forall (fun x => p x = false) l -> existsb p l = false) as H.
  { induction 1 as [|x l Hx _ IH]; [done|]. cbn. by rewrite Hx, IH. }
  rewrite (H a Ha), (H c Hc). by rewrite orb_false_r.
Qed.

(** What the script says of a status. *)
Lemma judged_said p m rc :
  existsb p (said (if decide (rc = 0) then Succeeded else if tolerates m rc then Tolerated (marker m)
                   else if bool_decide (rc ∈ noRetry m) then Final else Failed)) =
  bool_decide (rc <> 0) && bool_decide (rc ∈ tolerated m) && p (marker m).
Proof.
  unfold tolerates. repeat case_decide; repeat case_bool_decide; cbn; try done; by rewrite ?orb_false_r.
Qed.

(** The loop of a Job of rclone ends well exactly when an attempt did. *)
Lemma attempts_succeed label code total period left n rc : (0 < left)%nat ->
  (attempts label bucket_judge code total period n left rc).1 = 0 <-> exists k, (n <= k < n + left)%nat /\ code k = 0.
Proof.
  intros Hl. destruct (attempts_stop label bucket_judge code total period left n rc Hl) as (k & Hk & Hgo & Hstop & ->).
  assert (forall x, status_of (bucket_judge x) x = 0 <-> x = 0) as Hs by (intros x; unfold bucket_judge; by case_decide).
  assert (forall x, goes_on (bucket_judge x) = true <-> x <> 0) as Hg by (intros x; unfold bucket_judge; by case_decide).
  cbn [fst]. rewrite Hs. split; [intros H; by exists k|]. intros (j & Hj & H0).
  destruct (decide (j < k)%nat) as [Hlt|Hge]; [by apply Hg in H0; [|apply Hgo; lia]|].
  destruct Hstop as [Hst| ->]; [|replace j with (n + left - 1)%nat in H0 by lia; done].
  destruct (decide (code k = 0)) as [|Hn]; [done|]. apply Hg in Hn. congruence.
Qed.

(** * The properties *)

(** C31: the exit of a transfer's Job.  Rendered with the values of a mover, the
    script runs attempts until one settles it, at most one more than the retries:
    it goes on after a status only if that is no success, not one the mover
    documents as such, and not one it does not retry.  The Job succeeds exactly if
    the last attempt did, or ended with a status that the local strategy, which
    does not run the script, takes for a success too; otherwise its status is that
    of the attempt.  The log has the line the client scans it for exactly when
    rsync's files vanished: after a tolerated status of tar it never has. *)
Theorem transfer_job_judged (exitStatus : error -> option Z) (section : values) (m : moverCommand) (code : nat -> Z) :
  carries section m -> rsync_or_tar m -> (forall n, 0 <= code n) ->
  let s := transfer_script_of section in
  0 <= maxRetries s -> 0 <= retryPeriodSeconds s ->
  let job := transfer_job s code in
  exists k : nat, Z.of_nat k <= maxRetries s /\
    (forall j, (j < k)%nat -> code j ∉ 0 :: tolerated (policy m) ++ noRetry (policy m)) /\
    (code k ∈ 0 :: tolerated (policy m) ++ noRetry (policy m) \/ Z.of_nat k = maxRetries s) /\
    (job.1 = 0 \/ job.1 = code k) /\
    (forall e, exitStatus e = Some (code k) -> (job.1 = 0 <-> code k = 0 \/ isToleratedExit exitStatus (policy m) e = true)) /\
    (existsb (fun line => Contains line RsyncExit.VanishedFilesMarker) job.2 = true <->
       policy m = rsyncPolicy /\ code k = RsyncExit.VanishedFilesExitCode).
Proof.
  intros Hc Hm Hcode s Hr Hp job. destruct (policy_codes m Hm) as [Ht Hn].
  pose proof (fun n => transfer_judge_policy section m (code n) Hc (Hcode n) Ht Hn) as Hj. fold s in Hj.
  destruct (attempts_stop "rsync" (transfer_judge s) code (maxRetries s + 1) (retryPeriodSeconds s) (Z.to_nat (maxRetries s + 1)) 0 1
    ltac:(lia)) as (k & Hk & Hgo & Hstop & E).
  assert (forall n, goes_on (transfer_judge s (code n)) = true <-> code n ∉ 0 :: tolerated (policy m) ++ noRetry (policy m)) as Hgoes.
  { intros n. rewrite Hj. unfold tolerates. repeat case_decide; repeat case_bool_decide; set_solver. }
  exists k. split; [lia|]. split; [intros j Hlt; apply Hgoes, Hgo; lia|]. split.
  { destruct Hstop as [Hs| ->]; [left|right; lia]. destruct (decide (code k ∈ 0 :: tolerated (policy m) ++ noRetry (policy m))); [done|].
    rewrite (proj2 (Hgoes k)) in Hs by done. done. }
  assert (job = (status_of (transfer_judge s (code k)) (code k),
    ((waiting "rsync" (maxRetries s + 1) (retryPeriodSeconds s) <$> seq 1 (k - 0)) ++ said (transfer_judge s (code k))) ++
    failed_line "rsync job" (status_of (transfer_judge s (code k)) (code k)))) as ->.
  { unfold job, transfer_job. by rewrite E. }
  cbn [fst snd]. rewrite existsb_app_last.
  2:{ apply Forall_fmap, Forall_forall. intros n _. apply waiting_unmarked; done || lia. }
  2:{ apply failed_unmarked. rewrite Hj. repeat case_match; cbn; done || apply Hcode. }
  rewrite Hj. split; [|split].
  - repeat case_match; cbn; auto.
  - intros e He. unfold isToleratedExit. rewrite He. unfold tolerates. repeat case_decide; repeat case_bool_decide; cbn; naive_solver.
  - rewrite judged_said. destruct Hm as [E'|E'].
    + rewrite E'. change (Contains _ _) with true. change (tolerated rsyncPolicy) with [24].
      unfold RsyncExit.VanishedFilesExitCode.
      rewrite andb_true_r, andb_true_iff, !bool_decide_eq_true, list_elem_of_singleton. intuition lia.
    + rewrite E'. change (Contains _ _) with false. rewrite andb_false_r. split; [done|]. intros [E1 _].
      by apply (f_equal tolerated) in E1.
Qed.

(** A Job of the clusterip strategy whose first attempt loses the connection and
    whose second finds files gone. *)
Lemma transfer_job_judged_witness :
  let c := mkClient "https://a" "default" in
  let side := mkSide (mkInfo c (mkPVC "db" "a" [] "" None ∅ None None) "" None None "" None true false false) "/source" true in
  let section := buildRsyncHelmValues side (rsyncMover "rsync -av /source/ /dest/") "key" "/tmp/id_ed25519" in
  let code n := match n with O => 12 | _ => 24 end in
  let status (e : error) := Some 24 in
  transfer_job (transfer_script_of section) code =
    (0, ["rsync attempt 1/11 failed, waiting 5 seconds before trying again";
         "pv-migrate: some source files vanished during the transfer; treated as success"]) /\
  exists k : nat, (k <= 10)%nat /\ code k = 24 /\ isToleratedExit status rsyncPolicy (ErrNew "exit status 24") = true.
Proof.
  intros c side section code status. split; [vm_compute; reflexivity|].
  destruct (transfer_job_judged status section (rsyncMover "rsync -av /source/ /dest/") code) as (k & H1 & H2 & H3 & H4 & H5 & H6).
  - apply copy_into_carries.
  - by left.
  - intros []; vm_compute; discriminate.
  - vm_compute. discriminate.
  - vm_compute. discriminate.
  - exists k. assert (code k = 24) as Hk by (apply H6; vm_compute; reflexivity).
    split; [|by split]. change (maxRetries _) with 10 in H1. lia.
Defined.

(** The section of a backup or restore, whatever the security context. *)
Lemma metadata_in_values ns req info archiveInfo conf cmd readOnly meta : exists section,
  get (buildHelmValues ns req info archiveInfo conf cmd readOnly meta) rcloneComponent = Some (VMap section) /\
  str_value section "metadataBase64" "" = base64 meta /\
  (base64 meta <> "" -> str_value section "metadataLocalPath" "" = localPath meta).
Proof.
  unfold buildHelmValues. set (section0 := if decide (base64 meta = "") then _ else _).
  assert (str_value section0 "metadataBase64" "" = base64 meta /\
    (base64 meta <> "" -> str_value section0 "metadataLocalPath" "" = localPath meta)) as H0.
  { unfold section0, str_value. destruct (decide (base64 meta = "")) as [E|E]; rewrite ?get_set; cbn; [by rewrite E|done]. }
  destruct (NonRoot req).
  - eexists. split; [apply get_copy_rclone; cbn; by rewrite decide_True|].
    unfold str_value in *. by rewrite !get_set, !decide_False.
  - exists section0. split; [|done]. cbn. by rewrite decide_True.
Qed.

(** C32: the exit of a backup's or restore's Job.  With any number of retries, the
    Job succeeds exactly if some attempt did and, where there is metadata, it was
    written too - to the volume by one copy, to the bucket by an attempt of its own
    number - so a backup that a restore would not find is no success; and a failed
    Job says so on its last line, with the status it exits with. *)
Theorem bucket_job_judged ns req info archiveInfo conf cmd readOnly meta (retries : Z) (code : nat -> Z)
    (copied : Z) (uploaded : nat -> Z) : 0 <= retries ->
  exists section,
    get (buildHelmValues ns req info archiveInfo conf cmd readOnly meta) rcloneComponent = Some (VMap section) /\
    let job := bucket_job (bucket_script_of (set section "maxRetries" (VInt retries))) code copied uploaded in
    (job.1 = 0 <->
       (exists k : nat, Z.of_nat k <= retries /\ code k = 0) /\
       (base64 meta <> "" -> if decide (localPath meta = "") then exists k : nat, Z.of_nat k <= retries /\ uploaded k = 0
                             else copied = 0)) /\
    (job.1 <> 0 -> exists what, last job.2 = Some (what +:+ " failed with exit code " +:+ Itoa job.1)).
Proof.
  intros Hr. destruct (metadata_in_values ns req info archiveInfo conf cmd readOnly meta) as (section & Hg & Hb & Hl).
  exists section. split; [done|]. intros job.
  set (s := bucket_script_of (set section "maxRetries" (VInt retries))) in job.
  assert (bucket_maxRetries s = retries) as Er by (cbn; unfold int_value; by rewrite get_set, decide_True).
  assert (metadataBase64 s = base64 meta) as Eb.
  { cbn. unfold str_value in *. by rewrite get_set, decide_False. }
  assert (base64 meta <> "" -> metadataLocalPath s = localPath meta) as El.
  { intros H. specialize (Hl H). cbn. unfold str_value in *. by rewrite get_set, decide_False. }
  assert (forall label c period rc, (attempts label bucket_judge c (retries + 1) period 0 (Z.to_nat (retries + 1)) rc).1 = 0 <->
    exists k : nat, Z.of_nat k <= retries /\ c k = 0) as Ha.
  { intros label c period rc. rewrite attempts_succeed by lia. split; intros (k & Hk & H0); exists k; (split; [lia|done]). }
  assert (forall (l : list string) what rc, rc <> 0 -> last (l ++ failed_line what rc) = Some (what +:+ " failed with exit code " +:+ Itoa rc)) as Hlast.
  { intros l what rc Hrc. unfold failed_line. by rewrite decide_False, last_app. }
  unfold job, bucket_job. rewrite Er, Eb.
  pose proof (Ha "rclone" code (bucket_period s) 1) as Hc.
  destruct (attempts _ _ _ _ _ _ _ _) as [rc log]. cbn [fst] in Hc.
  destruct (decide (base64 meta <> "" /\ rc = 0)) as [[Hm Hrc]|Hno].
  - unfold metadata_step. rewrite El, Er by done. pose proof (Ha "metadata upload" uploaded (bucket_period s) 0) as Hu.
    destruct (attempts "metadata upload" _ _ _ _ _ _ _) as [up log']. cbn [fst] in Hu. rewrite <- Hc.
    destruct (decide (localPath meta = "")) as [Ep|Ep].
    + rewrite decide_False by tauto. rewrite <- Hu. destruct (decide (up = 0)); cbn [fst snd].
      * split; [tauto|done].
      * split; [tauto|]. intros _. rewrite !app_assoc. eexists. by apply Hlast.
    + rewrite decide_True by done. destruct (decide (copied = 0)); cbn [fst snd].
      * split; [tauto|done].
      * split; [tauto|]. intros _. rewrite !app_assoc. eexists. by apply Hlast.
  - cbn [fst snd]. rewrite <- Hc. split; [destruct (decide (base64 meta = "")); tauto|].
    intros Hrc. eexists. by apply Hlast.
Qed.

(** A backup whose data is there at the second attempt, and whose metadata never. *)
Lemma bucket_job_judged_witness :
  let info := mkInfo (mkClient "https://a" "db") (mkPVC "db" "data" [ReadWriteOnce] "" None ∅ None None) "" None None "" None
                true false false in
  exists section,
    get (buildHelmValues "db" (plain_backup "b" "" "n" "") info None "" "rclone" true (mkMeta "e30=" "b:n.yaml" ""))
      rcloneComponent = Some (VMap section) /\
    let job := bucket_job (bucket_script_of (set section "maxRetries" (VInt 1)))
                 (fun n => match n with O => 5 | _ => 0 end) 0 (fun _ => 4) in
    job.1 <> 0.
Proof.
  intros info.
  destruct (bucket_job_judged "db" (plain_backup "b" "" "n" "") info None "" "rclone" true (mkMeta "e30=" "b:n.yaml" "") 1
    (fun n => match n with O => 5 | _ => 0 end) 0 (fun _ => 4) ltac:(lia)) as (section & Hg & Hjob).
  exists section. split; [exact Hg|]. destruct Hjob as [Hjob _]. intros job Hz. apply Hjob in Hz as [_ Hm].
  destruct (Hm ltac:(discriminate)) as (k & _ & Hk). discriminate Hk.
Defined.
