(* ===== verification/ChartValues.v ===== *)
(** * The values of every release fit the chart

    Chart.v says what the chart takes; here the values that the strategies and the
    backup build (HelmValues.v, BucketPlan.v) are shown to fit it, in every run,
    and to go on fitting it through the adjustments before an install. *)
From S2P Require Import Prelude GoStrings World Pvc Migration Mover HelmValues Strategy BucketRequest BucketPlan SnapshotSource Bucket Chart.
From stdpp Require Import options.

(** ** The adjustments *)

Lemma update_fits vals c f :
  (forall s, section_fits c s -> section_fits c (f s)) -> chart_fits vals -> chart_fits (update_section vals c f).
Proof.
  intros Hf Hv. unfold update_section. destruct (get vals c) as [v|] eqn:E; [|done]. destruct v; try done. cbn [as_map].
  destruct (chart_fits_section vals c m Hv E) as [Hc Hs]. apply chart_fits_set; auto.
Qed.

(** Setting a value the chart has, of its type. *)
Ltac sets := repeat (apply section_fits_set; [|reflexivity]).

Lemma nonroot_fits vals req : chart_fits vals -> chart_fits (HelmValues.applyNonRootValues vals req).
Proof.
  intros H. unfold HelmValues.applyNonRootValues. destruct (negb _); [done|].
  repeat (apply update_fits; [intros s Hs; sets; exact Hs|]). exact H.
Qed.

(** The policy map a section has is one of the chart's. *)
Lemma policy_fits c section : c ∈ ["sshd"; "rsync"; "rclone"] -> section_fits c section -> section_fits c (policy_off section).
Proof.
  intros Hc Hs. unfold policy_off. apply section_fits_set; [done|].
  destruct (policy_field c Hc) as [Hf Hu].
  apply (entry_fits_field _ _ policy_shape); [done|]. apply (Fields_set _ _ _ _ Bool); [|by left|done].
  destruct (get section keyNetworkPolicy) as [[| | | | |m]|] eqn:E; try done. cbn [as_map default].
  apply get_in in E. unfold section_fits in Hs. rewrite Forall_forall in Hs. exact (fits_entry _ _ _ _ Hf Hu (Hs _ E)).
Qed.

Lemma policy_off_fits vals c section :
  as_map (get vals c) = Some section -> chart_fits vals -> chart_fits (set vals c (VMap (policy_off section))).
Proof.
  intros E Hv. destruct (get vals c) as [[| | | | |m]|] eqn:Eg; try discriminate E. injection E as ->.
  destruct (chart_fits_section vals c section Hv Eg) as [Hc Hs]. apply chart_fits_set; [done|done|]. by apply policy_fits.
Qed.

(** ** The strategies *)

Lemma mover_entries_fit m : Forall (entry_fits "rsync") (mover_values m).
Proof. repeat constructor. Qed.

Lemma sshd_fits side publicKey : section_fits "sshd" (buildSshdHelmValues side publicKey).
Proof. unfold buildSshdHelmValues, opt_map. destruct (AffinityHelmValues _); repeat constructor. Qed.

Lemma rsync_fits side mover key path : section_fits "rsync" (buildRsyncHelmValues side mover key path).
Proof.
  unfold buildRsyncHelmValues. apply (Forall_copy_into (fun kv => entry_fits "rsync" kv)); [|apply mover_entries_fit].
  unfold opt_map. destruct (AffinityHelmValues _); repeat constructor.
Qed.

Lemma single_fits c section vals : c ∈ ["sshd"; "rsync"; "rclone"] -> section_fits c section -> chart_fits vals ->
  chart_fits ((c, VMap section) :: vals).
Proof. intros Hc Hs Hv. constructor; [|done]. by exists section. Qed.

#[export] Instance chart_safe mig : SafeValues mig chart_fits.
Proof.
  assert (forall c section, c ∈ ["sshd"; "rsync"; "rclone"] -> section_fits c section -> chart_fits [(c, VMap section)]) as Hone.
  { intros c section Hc Hs. apply single_fits; [done|done|constructor]. }
  split; intros.
  - by apply nonroot_fits.
  - by apply policy_off_fits.
  - apply Hone; [set_solver|].
    apply (Forall_copy_into (fun kv => entry_fits "rsync" kv)); [|apply mover_entries_fit].
    unfold opt_map. destruct (AffinityHelmValues _); repeat constructor.
  - apply single_fits; [set_solver|apply rsync_fits|]. apply Hone; [set_solver|apply sshd_fits].
  - apply Hone; [set_solver|]. sets. apply sshd_fits.
  - assert (section_fits "rsync" vals) by (apply section_fits_set; [apply rsync_fits|reflexivity]).
    split; [|intros port]; (apply Hone; [set_solver|]); [done|]. by apply section_fits_set.
  - apply Hone; [set_solver|]. sets. apply sshd_fits.
  - apply Hone; [set_solver|]. apply sshd_fits.
Qed.

(** ** Backup and restore *)

Lemma bucket_fits ns req info archiveInfo conf cmd readOnly meta :
  chart_fits (buildHelmValues ns req info archiveInfo conf cmd readOnly meta).
Proof.
  unfold buildHelmValues. set (section := if decide (base64 meta = "") then _ else _).
  assert (section_fits "rclone" section) as Hs.
  { unfold section. assert (forall vals, section_fits "rclone" vals -> section_fits "rclone" (if decide (base64 meta = "") then vals else
      set (set (set vals "metadataBase64" (VStr (base64 meta))) "metadataRemotePath" (VStr (remotePath meta)))
        "metadataLocalPath" (VStr (localPath meta)))) as H by (intros vals Hv; case_decide; [done|]; by sets).
    apply H. unfold opt_map.
    destruct archiveInfo as [a|]; [destruct (archiveAffinity info a)|destruct (AffinityHelmValues info)]; repeat constructor. }
  assert (chart_fits [(rcloneComponent, VMap section)]) as Hv by (apply single_fits; [set_solver|done|constructor]).
  destruct (NonRoot req); [|exact Hv]. apply update_fits; [|exact Hv]. intros s Hs'. by sets.
Qed.

(** What an event says about the values handed to Helm. *)
Definition fits_event (e : event) : Prop :=
  match e with Ev (MergeMaps base _) _ => chart_fits base | _ => True end.

Lemma disable_fits {A} c components (f : values -> io A) : (forall v, chart_fits v -> all_events fits_event (f v)) ->
  forall cache vals, chart_fits vals -> all_events fits_event (disable_loop c components cache vals ≫= f).
Proof.
  intros Hf. induction components as [|comp components IH]; intros cache vals Hv; [by apply Hf|]. cbn [disable_loop].
  destruct (as_map (get vals comp)) as [s|] eqn:E; [|by apply IH]. case_decide; [by apply IH|].
  pose proof (policy_off_fits _ _ _ E Hv) as Hv'.
  destruct (assoc_get cache _) as [[]|]; [by apply IH..|]. intros [[]|]; (split; [exact I|]); by apply IH.
Qed.

Lemma bucket_install_fits info release vals req : chart_fits vals -> all_events fits_event (installHelmChart info release vals req).
Proof.
  intros Hv. unfold installHelmChart, try_bind. apply all_events_bind; [quiet|]. intros [[]|e]; [|exact I].
  apply disable_fits; [|done]. intros v Hv'. unfold mergeHelmValues. quiet. exact Hv'.
Qed.

(** * The property *)

(** C33: the values of every release fit the chart.  Whatever strategy runs, and
    however the clusters answer, the values handed to Helm - those the strategy
    built, adjusted for a non-root run and for policies it may not create - set
    nothing but fields of the chart's components, each to a value of the type that
    values.yaml gives it; and so do those of a backup or restore.  The exceptions
    are the two of [undeclared], which no template reads. *)
Theorem values_fit_chart :
  (forall s a h n, ReleaseNames a = [] -> Detached a = false -> Forall fits_event (exec h n (Strategy.Run s a)).1) /\
  (forall ns req info archiveInfo conf cmd readOnly meta release h n,
     Forall fits_event (exec h n (installHelmChart info release
       (buildHelmValues ns req info archiveInfo conf cmd readOnly meta) req)).1).
Proof.
  split.
  - intros s a h n Hr Hd. set (mig := Attempt_Migration a).
    assert (fresh a mig) as Ha by (split; [done|]; split; [done|congruence]).
    destruct (wp_exec _ _ _ h n (Run_ok chart_fits mig s a Ha)) as [Hev _].
    eapply Forall_impl; [exact Hev|]. by intros [X []].
  - intros. apply (wp_exec _ [] (fun t _ => Forall fits_event t)). apply wp_all_events; [constructor|].
    apply bucket_install_fits, bucket_fits.
Qed.

(** The first install of a run of the nodeport strategy as another user. *)
Lemma values_fit_chart_witness :
  let a := plain_attempt "tar" true in
  let run := exec (still (mkClient "https://a" "default") (mkCluster (fun _ _ => Err (ErrNew ""))
                     (fun _ => Ok []) (fun _ => ApiErr NotFound (ErrNew "")) (Found []))) 0 (Strategy.Run NodePort a) in
  exists base user x, Ev (MergeMaps base user) x ∈ run.1 /\ get base "sshd" <> None /\ chart_fits base.
Proof.
  intros a run.
  assert (exists base user x, run.1 !! 4%nat = Some (Ev (MergeMaps base user) x) /\ get base "sshd" <> None)
    as (base & user & x & Hi & Hg).
  { eexists _, _, _. split; [vm_compute; reflexivity|]. vm_compute. discriminate. }
  apply list_elem_of_lookup_2 in Hi. exists base, user, x. split; [exact Hi|]. split; [exact Hg|].
  pose proof (proj1 values_fit_chart NodePort a (still (mkClient "https://a" "default") (mkCluster (fun _ _ => Err (ErrNew ""))
    (fun _ => Ok []) (fun _ => ApiErr NotFound (ErrNew "")) (Found []))) 0 eq_refl eq_refl) as Hev.
  exact (proj1 (Forall_forall _ _) Hev _ Hi).
Defined.
