(* ===== verification/Jobs.v ===== *)
(** * internal/k8s: waiting for a Job and explaining its failure

    job.go, exitcode.go and the choice of a progress parser in internal/jobprogress:
    finding the Job and its pod, following the pod's log while waiting for it to
    end, the tail of a failed pod's log and the explanation of its exit.  The
    goroutine that follows the log is a pair of calls, one that starts it and one
    that cancels and joins it; what is printed meanwhile is the concern of the
    protocol at the end.  Narration is left out. *)
From S2P Require Import Prelude GoStrings Fmt Console Mover Workload World.
From stdpp Require Import options.

Definition jobLogTailLines : Z := 100.

(** ** The data mover behind a Job's name *)

Definition rsyncJobSuffix : string := "-rsync".
Definition rcloneJobSuffix : string := "-rclone".
Definition tarJobSuffix : string := "-tar".
Definition jobSuffixes : list string := [rsyncJobSuffix; rcloneJobSuffix; tarJobSuffix].

Definition dataMoverContainer (jobName : string) : string :=
  if HasSuffix jobName rsyncJobSuffix then "rsync"
  else if HasSuffix jobName rcloneJobSuffix || HasSuffix jobName tarJobSuffix then "rclone"
  else "".

Definition interpretExitCode (jobName : string) (code : Z) : string :=
  if HasSuffix jobName rsyncJobSuffix then RsyncExit.Interpret code
  else if HasSuffix jobName rcloneJobSuffix then RcloneExit.Interpret code
  else if HasSuffix jobName tarJobSuffix then ArchiveExit.Interpret code
  else "".

(** [jobprogress.Description] *)
Definition Description (jobName : string) : string :=
  if HasSuffix jobName rsyncJobSuffix then "rsync"
  else if HasSuffix jobName rcloneJobSuffix then "rclone"
  else if HasSuffix jobName tarJobSuffix then "tar"
  else "job".

(** ** Finding a Job and its pods *)

Definition FindJobPod (c : ClusterClient) (job : Job) : io (result JobPod) :=
  pods ← ask (ListJobPods c (job_Namespace job) (job_Name job));
  Ret (match pods with
       | Err e => Err (Errorf "failed to list pods for job %s: %w" [AStr (job_Name job); AWrap e])
       | Ok pods =>
           match List.find (fun pod => bool_decide (pod_Phase pod = PodRunning)) pods, pods with
           | Some pod, _ => Ok pod
           | None, pod :: _ => Ok pod
           | None, [] => Err (Errorf "no pods found for job %s" [AStr (job_Name job)])
           end
       end).

Definition is_mover_job (releasePrefix : string) (job : Job) : bool :=
  HasPrefix (job_Name job) releasePrefix && existsb (HasSuffix (job_Name job)) jobSuffixes.

(** One call of [FindDataMoverJob], less its retry. *)
Definition find_in (c : ClusterClient) (ns releasePrefix : string) : io (result (option Job)) :=
  jobs ← ask (ListJobs c ns);
  Ret (match jobs with
       | Err e => Err (Errorf "failed to list jobs: %w" [AWrap e])
       | Ok jobs => Ok (List.find (is_mover_job releasePrefix) jobs)
       end).

(** The call on itself is with the empty namespace, which does not retry. *)
Definition FindDataMoverJob (c : ClusterClient) (ns releasePrefix : string) : io (result Job) :=
  let none : io (result Job) := Ret (Err (Errorf "no job found for migration %s" [AStr releasePrefix])) in
  found ←! find_in c ns releasePrefix;
  match found with
  | Some job => Ret (Ok job)
  | None =>
      if decide (ns = "") then none
      else found ←! find_in c "" releasePrefix;
           match found with Some job => Ret (Ok job) | None => none end
  end.

Definition JobImage (c : ClusterClient) (ns name : string) : io string :=
  job ← ask (GetJob c ns name);
  Ret (match job with
       | Ok job => match ContainerImages job with image :: _ => image | [] => "unknown" end
       | Err _ => "unknown"
       end).

Definition WaitForJobStart (c : ClusterClient) (ns name : string) : io (result JobPod) :=
  ask (WaitForJobPod c ns name).

(** The loop over the pods: the terminal one to report, or that one is not yet
    terminal, which ends the loop. *)
Fixpoint terminal_loop (terminal : option JobPod) (pods : list JobPod) : option (option JobPod) :=
  match pods with
  | [] => Some terminal
  | pod :: pods =>
      if decide (pod_Phase pod = PodPending \/ pod_Phase pod = PodRunning) then None
      else if decide (pod_Phase pod = PodSucceeded) then terminal_loop (Some pod) pods
      else if decide (pod_Phase pod = PodFailed) then
        terminal_loop (match terminal with Some t => Some t | None => Some pod end) pods
      else terminal_loop terminal pods
  end.

(** The terminal pod, and whether there is any pod. *)
Definition findTerminalJobPod (c : ClusterClient) (ns jobName : string)
  : io (result (option JobPod * bool)) :=
  pods ← ask (ListJobPods c ns jobName);
  Ret (match pods with
       | Err e => Err (Errorf "failed to list pods for job %s: %w" [AStr jobName; AWrap e])
       | Ok pods =>
           match terminal_loop None pods with
           | None => Ok (None, true)
           | Some terminal => Ok (terminal, negb (bool_decide (pods = [])))
           end
       end).

(** ** Explaining an exit *)

Definition genericTerminationReason : string := "Error".

(** The parts [describeTerminated] and [describeTerminatedBriefly] have in common. *)
Definition reason_parts (reason message : string) : list string :=
  (if decide (reason = "" \/ reason = genericTerminationReason) then [] else ["reason: " +:+ reason])
  ++ (if decide (TrimSpace message = "") then [] else ["message: " +:+ TrimSpace message]).

Definition describeTerminated (jobName : string) (t : Terminated) : string :=
  let parts := ["the data mover exited with code " +:+ Itoa (ExitCode t)]
               ++ (if decide (Signal t = 0)%Z then [] else ["killed by signal " +:+ Itoa (Signal t)])
               ++ reason_parts (term_Reason t) (term_Message t) in
  let joined := Join parts ", " in
  let meaning := interpretExitCode jobName (ExitCode t) in
  if decide (meaning = "") then joined else joined +:+ " (" +:+ meaning +:+ ")".

Definition podStatusDetail (pod : JobPod) : string :=
  let parts := (if decide (pod_Reason pod = "") then [] else ["reason: " +:+ pod_Reason pod])
               ++ (if decide (TrimSpace (pod_Message pod) = "") then []
                   else ["message: " +:+ TrimSpace (pod_Message pod)]) in
  if decide (parts = []) then "" else ": " +:+ Join parts ", ".

Definition terminatedContainerState (pod : JobPod) (jobName : string) : option Terminated :=
  let name := dataMoverContainer jobName in
  first_some (fun status =>
    if decide (name = "" \/ cs_Name status = name) then cs_Terminated status else None)
    (ContainerStatuses pod).

Definition failedPodError (c : ClusterClient) (jobName : string) (pod : JobPod) : io error :=
  seen ← (match terminatedContainerState pod jobName with
          | Some t => Ret (pod, Some t)
          | None =>
              fresh ← ask (GetJobPod c (pod_Namespace pod) (pod_Name pod));
              Ret (match fresh with
                   | Ok fresh => (fresh, terminatedContainerState fresh jobName)
                   | Err _ => (pod, None)
                   end)
          end);
  let '(pod, terminated) := seen : JobPod * option Terminated in
  Ret (match terminated with
       | None => Errorf "pod %s/%s failed%s"
                   [AStr (pod_Namespace pod); AStr (pod_Name pod); AStr (podStatusDetail pod)]
       | Some t => Errorf "pod %s/%s failed: %s"
                     [AStr (pod_Namespace pod); AStr (pod_Name pod); AStr (describeTerminated jobName t)]
       end).

(** ** The tail of a log *)

(** [strings.ReplaceAll(data, "\r\n", "\n")] *)
Fixpoint crlf_to_lf (s : string) : string :=
  match s with
  | String a (String b rest as s') =>
      if decide (a = cr /\ b = lf) then String lf (crlf_to_lf rest) else String a (crlf_to_lf s')
  | s => s
  end.

Definition recentPodLogs (c : ClusterClient) (pod : JobPod) : io string :=
  data ← ask (TailPodLogs c (pod_Namespace pod) (pod_Name pod) jobLogTailLines);
  Ret (match data with
       | Err _ => ""
       | Ok data => ReplaceAll (crlf_to_lf data) cr nl
       end).

Definition is_lf (a : ascii) : bool := bool_decide (a = lf).

(** [strings.Count] of a text that is not empty; each round shortens the string. *)
Fixpoint count_from (fuel : nat) (s sub : string) : nat :=
  match fuel with
  | O => 0
  | S fuel => match Cut s sub with Some (_, rest) => S (count_from fuel rest sub) | None => 0 end
  end.
Definition Count (s sub : string) : nat := count_from (String.length s) s sub.

Definition vanishedMessage : string :=
  "🔶 completed with a warning: some source files vanished during the transfer and were skipped. Re-run the migration, or copy from a source that is not being written to".

Definition warnIfSourceFilesVanished (tail : string) : io () :=
  if negb (Contains tail RsyncExit.VanishedFilesMarker) then Ret ()
  else
    let count := Count tail "file has vanished:" in
    ask (Log WARN vanishedMessage
           (if decide (count = 0) then [] else [("vanished_files", Itoa (Z.of_nat count))])).

Section Tail.
(** [json.Unmarshal] of a line into a record's level and message. *)
Variable Unmarshal : string -> option (string * string).

Definition mapRcloneRecord (line : string) : string :=
  match Unmarshal line with
  | None => line
  | Some (level, msg) =>
      if decide (msg = "") then line
      else if decide (level = "") then msg else level +:+ ": " +:+ msg
  end.

(** The loop over the lines: each is printed where it first occurs. *)
Fixpoint render_loop (counts : gmap string nat) (seen : gset string) (lines : list string) : list string :=
  match lines with
  | [] => []
  | line :: lines =>
      if decide (line ∈ seen) then render_loop counts seen lines
      else
        let repeat := default 0 (counts !! line) in
        (if bool_decide (1 < repeat) && negb (bool_decide (TrimSpace line = ""))
         then line +:+ " (x" +:+ Itoa (Z.of_nat repeat) +:+ ")" else line)
        :: render_loop counts ({[line]} ∪ seen) lines
  end.

(** [counts[line]++] over the lines. *)
Definition count_lines (lines : list string) : gmap string nat :=
  fold_left (fun counts line => <[line := S (default 0 (counts !! line))]> counts) lines ∅.

Definition tail_lines (jobName tail : string) : list string :=
  let lines := Split (TrimRight tail is_lf) lf in
  if HasSuffix jobName rcloneJobSuffix then mapRcloneRecord <$> lines else lines.

Definition renderTail (jobName tail : string) : string :=
  let lines := tail_lines jobName tail in
  Join (render_loop (count_lines lines) ∅ lines) nl +:+ nl.

(** How the output of a run is to look. *)
Record output : Type := mkOutput { ShowProgressBar : bool; Structured : bool; Colors : Palette }.

Definition writeTail (out : output) (pod : JobPod) (jobName tail : string) : io () :=
  if decide (tail = "") then Ret ()
  else ask (Print (nl +:+ "   " +:+ Dim (Colors out) ("Last log lines of pod " +:+ pod_Namespace pod +:+ "/" +:+ pod_Name pod +:+ ":") +:+ nl
              +:+ String.concat "" ((fun line => "     " +:+ line +:+ nl)
                                      <$> Split (TrimRight (renderTail jobName tail) is_lf) lf)
              +:+ nl)).

Definition writeFailureTail (c : ClusterClient) (out : output) (jobName : string) (pod : JobPod) : io () :=
  tail ← recentPodLogs c pod;
  if decide (tail = "") then Ret ()
  else if Structured out then
    ask (Log WARN "📝 last log lines of the failed job pod"
           [("pod", pod_Namespace pod +:+ "/" +:+ pod_Name pod); ("tail", tail)])
  else writeTail out pod jobName tail.

(** ** Waiting *)

Definition showBar (requested structuredLogs : bool) : bool := requested && negb structuredLogs.

Definition finishTerminalPod (c : ClusterClient) (out : output) (jobName : string) (pod : JobPod)
  : io (result ()) :=
  if decide (pod_Phase pod <> PodSucceeded) then
    _ ← writeFailureTail c out jobName pod;
    e ← failedPodError c jobName pod;
    Ret (Err e)
  else
    tail ← recentPodLogs c pod;
    _ ← warnIfSourceFilesVanished tail;
    Ret (Ok ()).

Definition failed_condition (job : Job) : option string :=
  cond_Message <$> List.find (fun cond => cond_Failed cond && cond_True cond
                                         && negb (bool_decide (cond_Message cond = ""))) (Conditions job).

(** [None]: not finished, or unreadable. *)
Definition finishedJobWithoutPods (c : ClusterClient) (ns name : string) : io (option (result ())) :=
  job ← ask (GetJob c ns name);
  Ret (match job with
       | Err _ => None
       | Ok job =>
           if decide (0 < job_Succeeded job)%Z then Some (Ok ())
           else if decide (0 < job_Failed job)%Z then
             Some (Err (Errorf "job %s/%s failed and its pod is gone%s"
                          [AStr ns; AStr name;
                           AStr (match failed_condition job with Some m => ": " +:+ m | None => "" end)]))
           else None
       end).

(** [inl]: the wait is over; [inr]: the pod is running and can be followed. *)
Definition resolveRunningJobPod (c : ClusterClient) (out : output) (ns name : string)
  : io (result () + JobPod) :=
  found ← findTerminalJobPod c ns name;
  match found with
  | Err e => Ret (inl (Err e))
  | Ok (Some pod, _) => r ← finishTerminalPod c out name pod; Ret (inl r)
  | Ok (None, anyPods) =>
      gone ← (if anyPods : bool then Ret None else finishedJobWithoutPods c ns name);
      match gone with
      | Some r => Ret (inl r)
      | None =>
          pod ← WaitForJobStart c ns name;
          match pod with
          | Err e => Ret (inl (Err e))
          | Ok pod =>
              if decide (pod_Phase pod <> PodRunning)
              then r ← finishTerminalPod c out name pod; Ret (inl r)
              else Ret (inr pod)
          end
      end
  end.

(** [errors.Join] of two errors that may be nil. *)
Definition errors_Join (a b : result ()) : result () :=
  match a, b with
  | Err e, Err e' => Err (Errorf ("%w" +:+ nl +:+ "%w") [AWrap e; AWrap e'])
  | Err e, Ok _ | Ok _, Err e => Err e
  | Ok _, Ok _ => Ok ()
  end.

(** [stopFollower], with the flags it captures: what it returns and whether the
    follower is stopped after it. *)
Definition stopFollower (stopped barOpen : bool) : io (result () * bool) :=
  if stopped then Ret (Ok (), true)
  else
    followErr ← ask StopFollower;
    rendered ← (if barOpen then ask BarRendered else Ret false);
    _ ← (if rendered : bool then ask (Print nl) else Ret ());
    Ret (followErr, true).

(** From the follower's start to the end of the body: the error to return, with
    the flags the deferred stop sees. *)
Definition follow (c : ClusterClient) (out : output) (name : string) (pod : JobPod)
  : io (result () * bool * bool) :=
  let barOpen := ShowProgressBar out in
  _ ← ask (FollowLogs c (pod_Namespace pod) (pod_Name pod));
  finalPod ← ask (WaitForPodTermination c (pod_Namespace pod) (pod_Name pod));
  match finalPod with
  | Err e => Ret (Err e, false, barOpen)
  | Ok finalPod =>
      if decide (pod_Phase finalPod <> PodSucceeded) then
        followerErr ← stopFollower false barOpen;
        _ ← writeFailureTail c out name finalPod;
        e ← failedPodError c name finalPod;
        Ret (errors_Join (Err e) followerErr.1, followerErr.2, barOpen)
      else
        marked ← ask MarkAsComplete;
        match marked with
        | Err e => Ret (Err (Errorf "failed to mark progress logger as complete: %w" [AWrap e]), false, barOpen)
        | Ok _ =>
            followerErr ← stopFollower false false;
            match followerErr.1 with
            | Err e => Ret (Err e, followerErr.2, false)
            | Ok _ =>
                _ ← ask FinishBar;
                tail ← recentPodLogs c finalPod;
                _ ← warnIfSourceFilesVanished tail;
                Ret (Ok (), followerErr.2, false)
            end
        end
  end.

Definition WaitForJobCompletion (c : ClusterClient) (requested : output) (ns name : string) : io (result ()) :=
  let out := mkOutput (showBar (ShowProgressBar requested) (Structured requested))
               (Structured requested) (Colors requested) in
  resolved ← resolveRunningJobPod c out ns name;
  match resolved with
  | inl r => Ret r
  | inr pod =>
      done ← follow c out name pod;
      let '(retErr, stopped, barOpen) := done : result () * bool * bool in
      (* deferred *)
      followErr ← stopFollower stopped barOpen;
      Ret (errors_Join retErr followErr.1)
  end.

(** ** For the status command *)

Definition DescribeJobFailure (c : ClusterClient) (job : Job) : io string :=
  found ← findTerminalJobPod c (job_Namespace job) (job_Name job);
  match found with
  | Ok (Some pod, _) =>
      if decide (pod_Phase pod <> PodFailed) then Ret ""
      else e ← failedPodError c (job_Name job) pod; Ret (Error e)
  | _ => Ret ""
  end.

Definition release_of (job : Job) : string := fold_left TrimSuffix jobSuffixes (job_Name job).

Definition WriteJobFailureEvidence (c : ClusterClient) (out : output) (job : Job) : io () :=
  found ← findTerminalJobPod c (job_Namespace job) (job_Name job);
  _ ← match found with
      | Ok (Some pod, _) => writeFailureTail c out (job_Name job) pod
      | _ => Ret ()
      end;
  let release := release_of job in
  diagnostics ← ask (CollectDiagnostics c (job_Namespace job) release);
  if Structured out then
    ask (Log ERROR "❌ What the cluster reported"
           [("release", release); ("namespace", job_Namespace job); ("diagnostics", diagnostics)])
  else
    ask (Print (nl +:+ Bold (Colors out) "What the cluster reported:" +:+ nl +:+ nl +:+ "  " +:+ release
                +:+ " (namespace " +:+ job_Namespace job +:+ "):" +:+ nl +:+ diagnostics)).
End Tail.

(** ** Specification: the writer and the follower *)

Inductive follower : Type := NotYet | Live | Joined (r : result ()).

Record wait_state : Type := mkWait {
  the_follower : follower;
  seen_success : bool      (* a pod of the Job, or the Job, was read as succeeded *)
}.

Definition unobserved : wait_state := mkWait NotYet false.

Definition is_success (pod : JobPod) : bool := bool_decide (pod_Phase pod = PodSucceeded).
Definition pod_success (r : result JobPod) : bool := match r with Ok pod => is_success pod | Err _ => false end.

(** Only the follower writes while it is live: it is started once, joined once,
    and nothing else prints or logs in between. *)
Definition wait_allows (st : wait_state) X (e : call X) : Prop :=
  match e with
  | FollowLogs _ _ _ => the_follower st = NotYet
  | StopFollower => the_follower st = Live
  | Print _ | Log _ _ _ | FinishBar => the_follower st <> Live
  | HelmInstall _ _ _ _ _ _ | HelmUninstall _ _ _ _ => False
  | _ => True
  end.

Definition wait_next (st : wait_state) X (e : call X) : X -> wait_state :=
  let saw (b : bool) := mkWait (the_follower st) (seen_success st || b) in
  match e in call X return X -> wait_state with
  | FollowLogs _ _ _ => fun _ => mkWait Live (seen_success st)
  | StopFollower => fun r => mkWait (Joined r) (seen_success st)
  | ListJobPods _ _ _ => fun r => saw (match r with Ok pods => existsb is_success pods | Err _ => false end)
  | WaitForJobPod _ _ _ => fun r => saw (pod_success r)
  | WaitForPodTermination _ _ _ => fun r => saw (pod_success r)
  | GetJob _ _ _ => fun r => saw (match r with Ok job => bool_decide (0 < job_Succeeded job)%Z | Err _ => false end)
  | _ => fun _ => st
  end.

(** How a wait may end. *)
Definition wait_ends (st : wait_state) (r : result ()) : Prop :=
  (is_Ok r = true -> seen_success st = true) /\
  match the_follower st with
  | NotYet => True
  | Live => False
  | Joined (Ok _) => True
  | Joined (Err e) => exists e', r = Err e' /\ forall p, error_has p e = true -> error_has p e' = true
  end.

Local Notation mwp := (mwp wait_allows wait_next).

(** ** Lemmas: reading and reporting *)

(** Calls that every state without a live follower allows, and that leave it. *)
Definition reports X (e : call X) : Prop :=
  match e with
  | Print _ | Log _ _ _ | FinishBar | TailPodLogs _ _ _ _ | GetJobPod _ _ _ => True
  | _ => False
  end.

Lemma reports_mwp {A} st (p : io A) (Q : wait_state -> A -> Prop) :
  the_follower st <> Live -> all_calls reports p -> (forall a, Q st a) -> mwp st p Q.
Proof.
  intros Hst Hp HQ. apply mwp_still; [|done]. induction p as [a|X e k IH]; cbn in *; [done|].
  destruct Hp as [He Hk]. split; [by destruct e|]. intros x. by apply IH.
Qed.

Section Waiting.
Context (Unmarshal : string -> option (string * string)).

Lemma tail_reports c out name pod : all_calls reports (writeFailureTail Unmarshal c out name pod).
Proof. unfold writeFailureTail, recentPodLogs, writeTail. quiet_calls; done. Qed.

Lemma warn_reports tail : all_calls reports (warnIfSourceFilesVanished tail).
Proof. unfold warnIfSourceFilesVanished. quiet_calls; done. Qed.

Lemma failed_reports c name pod : all_calls reports (failedPodError c name pod).
Proof. unfold failedPodError. quiet_calls; done. Qed.

Lemma logs_reports c pod : all_calls reports (recentPodLogs c pod).
Proof. unfold recentPodLogs. quiet_calls; done. Qed.

Lemma finishTerminalPod_mwp c out name pod st :
  the_follower st <> Live ->
  mwp st (finishTerminalPod Unmarshal c out name pod)
    (fun st' r => st' = st /\ (is_Ok r = true -> pod_Phase pod = PodSucceeded)).
Proof.
  intros Hst. unfold finishTerminalPod. destruct (decide (pod_Phase pod <> PodSucceeded)) as [Hp|Hp].
  - rewrite mwp_bind. apply reports_mwp; [done|apply tail_reports|]. intros _.
    rewrite mwp_bind. apply reports_mwp; [done|apply failed_reports|]. by intros e.
  - rewrite mwp_bind. apply reports_mwp; [done|apply logs_reports|]. intros tail.
    rewrite mwp_bind. apply reports_mwp; [done|apply warn_reports|]. intros _. cbn. split; [done|].
    intros _. by apply dec_stable.
Qed.

(** ** Lemmas: the terminal pod *)

Definition live_pod (pod : JobPod) : bool := bool_decide (pod_Phase pod = PodPending \/ pod_Phase pod = PodRunning).
Definition is_failed (pod : JobPod) : bool := bool_decide (pod_Phase pod = PodFailed).

(** The pod a finished Job is judged by: a succeeded one if there is one, else
    the first failed one. *)
Definition terminal_of (pods : list JobPod) : option (option JobPod) :=
  if existsb live_pod pods then None
  else Some (match last (List.filter is_success pods) with
             | Some pod => Some pod
             | None => head (List.filter is_failed pods)
             end).

Lemma terminal_loop_spec terminal pods :
  terminal_loop terminal pods =
  if existsb live_pod pods then None
  else Some (match last (List.filter is_success pods), terminal with
             | Some pod, _ => Some pod
             | None, Some t => Some t
             | None, None => head (List.filter is_failed pods)
             end).
Proof.
  revert terminal. induction pods as [|pod pods IH]; intros terminal; [by destruct terminal|].
  cbn [terminal_loop existsb List.filter]. unfold live_pod at 1, is_success at 1, is_failed at 1.
  destruct (decide (pod_Phase pod = PodPending \/ pod_Phase pod = PodRunning)) as [Hl|Hl].
  { by rewrite bool_decide_eq_true_2. }
  rewrite (bool_decide_eq_false_2 _ Hl). cbn [orb].
  destruct (decide (pod_Phase pod = PodSucceeded)) as [Hs|Hs].
  - rewrite IH, (bool_decide_eq_true_2 _ Hs). destruct (existsb live_pod pods); [done|]. f_equal.
    rewrite last_cons. by destruct (last (List.filter is_success pods)).
  - rewrite (bool_decide_eq_false_2 _ Hs).
    destruct (decide (pod_Phase pod = PodFailed)) as [Hf|Hf].
    + rewrite IH, (bool_decide_eq_true_2 _ Hf). destruct (existsb live_pod pods); [done|]. f_equal.
      destruct (last (List.filter is_success pods)); [done|]. by destruct terminal.
    + by rewrite IH, (bool_decide_eq_false_2 _ Hf).
Qed.

Lemma terminal_loop_of pods : terminal_loop None pods = terminal_of pods.
Proof. rewrite terminal_loop_spec. unfold terminal_of. by destruct (last _). Qed.

Lemma terminal_of_In pods pod :
  terminal_of pods = Some (Some pod) -> pod ∈ pods.
Proof.
  unfold terminal_of. destruct (existsb live_pod pods); [done|]. intros [= H].
  destruct (last (List.filter is_success pods)) as [p|] eqn:E.
  - injection H as ->. apply last_Some in E as [l E].
    assert (pod ∈ List.filter is_success pods) as Hin by (rewrite E; set_solver).
    by apply list_elem_of_In, List.filter_In in Hin as [Hin%list_elem_of_In _].
  - assert (pod ∈ List.filter is_failed pods) as Hin.
    { destruct (List.filter is_failed pods); [done|]. injection H as ->. set_solver. }
    by apply list_elem_of_In, List.filter_In in Hin as [Hin%list_elem_of_In _].
Qed.

(** ** Lemmas: the wait *)

Lemma findTerminalJobPod_mwp c ns name :
  mwp unobserved (findTerminalJobPod c ns name)
    (fun st r => the_follower st = NotYet /\
       forall pod any, r = Ok (Some pod, any) -> pod_Phase pod = PodSucceeded -> seen_success st = true).
Proof.
  unfold findTerminalJobPod. cbn. split; [done|]. intros [pods|e]; cbn; [|done].
  destruct (terminal_loop None pods) as [terminal|] eqn:E; cbn; (split; [done|]); [|done].
  intros pod any [= -> _] Hp. rewrite terminal_loop_of in E. apply terminal_of_In in E.
  apply existsb_exists. exists pod. split; [by apply list_elem_of_In|].
  unfold is_success. by apply bool_decide_eq_true_2.
Qed.

Lemma wait_ends_early st r :
  the_follower st = NotYet -> (is_Ok r = true -> seen_success st = true) -> wait_ends st r.
Proof. intros Hf Hr. split; [done|]. by rewrite Hf. Qed.

Lemma resolveRunningJobPod_mwp c out ns name :
  mwp unobserved (resolveRunningJobPod Unmarshal c out ns name)
    (fun st r => the_follower st = NotYet /\
       match r with inl r => is_Ok r = true -> seen_success st = true | inr _ => True end).
Proof.
  unfold resolveRunningJobPod. rewrite mwp_bind.
  eapply mwp_mono; [apply findTerminalJobPod_mwp|].
  intros st [[[pod|] any]|e] [Hst Hpod]; [| |by cbn].
  - rewrite mwp_bind. eapply mwp_mono; [apply finishTerminalPod_mwp; by rewrite Hst|].
    intros st' r [-> Hr]. cbn. split; [done|]. intros Hok. by eapply Hpod; [|apply Hr].
  - rewrite mwp_bind.
    eapply (mwp_mono _ _ _ _ (fun st r => the_follower st = NotYet /\
      forall res, r = Some res -> is_Ok res = true -> seen_success st = true)).
    + destruct any; [by cbn|]. unfold finishedJobWithoutPods. cbn. split; [done|].
      intros [job|e]; cbn; [|by split]. split; [done|].
      destruct (decide (0 < job_Succeeded job)%Z) as [Hs|Hs]; [by rewrite bool_decide_eq_true_2, orb_true_r|].
      case_decide; [|done]. by intros res [= <-].
    + intros st1 [res|] [Hst1 Hres]; [cbn; split; [done|]; by apply Hres|].
      unfold WaitForJobStart. cbn. split; [done|]. intros [pod|e]; cbn; [|done].
      case_decide as Hp; [|done].
      change (mwp (mkWait (the_follower st1) (seen_success st1 || is_success pod))
        (r ← finishTerminalPod Unmarshal c out name pod; Ret (inl r : result () + JobPod))
        (fun st r => the_follower st = NotYet /\
           match r with inl r => is_Ok r = true -> seen_success st = true | inr _ => True end)).
      rewrite mwp_bind. eapply mwp_mono; [apply finishTerminalPod_mwp; cbn; by rewrite Hst1|].
      intros st2 r [-> Hr]. cbn. split; [done|]. intros Hok. unfold is_success.
      by rewrite (bool_decide_eq_true_2 _ (Hr Hok)), orb_true_r.
Qed.

(** The follower's error, if it has one, is in the error returned. *)
Definition reported (f r : result ()) : Prop :=
  match f with
  | Ok _ => True
  | Err e => exists e', r = Err e' /\ forall p, error_has p e = true -> error_has p e' = true
  end.

Lemma join_reported a b :
  reported a (errors_Join a b) /\ reported b (errors_Join a b) /\
  (is_Ok (errors_Join a b) = true -> is_Ok a = true).
Proof.
  unfold reported.
  destruct a as [[]|e], b as [[]|e']; cbn [errors_Join is_Ok]; (split; [|split]);
    first [done | eexists; split; [reflexivity|]; intros p Hp;
      first [exact Hp | eapply error_has_wrapped; [|exact Hp]; rewrite !elem_of_cons; auto]].
Qed.

(** What the body of the wait leaves to the deferred stop. *)
Definition body_done (st : wait_state) (r : result ()) (stopped : bool) : Prop :=
  if stopped
  then (exists f, the_follower st = Joined f /\ reported f r) /\ (is_Ok r = true -> seen_success st = true)
  else the_follower st = Live /\ is_Ok r = false.

Lemma stopFollower_mwp seen barOpen (Q : wait_state -> result () * bool -> Prop) :
  (forall f, Q (mkWait (Joined f) seen) (f, true)) -> mwp (mkWait Live seen) (stopFollower false barOpen) Q.
Proof.
  intros HQ. unfold stopFollower. cbn. split; [done|]. intros f.
  change (wait_next (mkWait Live seen) (result ()) StopFollower f) with (mkWait (Joined f) seen).
  destruct barOpen; cbn; [|apply HQ]. split; [done|]. intros []; cbn; [|apply HQ]. split; [done|]. intros _. apply HQ.
Qed.

Lemma follow_mwp c out name pod seen :
  mwp (mkWait NotYet seen) (follow Unmarshal c out name pod)
    (fun st r => body_done st r.1.1 r.1.2).
Proof.
  unfold follow. cbn [World.mwp mbind io_bind io_bind_def ask]. split; [done|]. intros []. split; [done|].
  intros final. cbn [wait_next the_follower seen_success].
  destruct final as [final|e]; [|by split]. cbn [pod_success].
  destruct (decide (pod_Phase final <> PodSucceeded)) as [Hp|Hp].
  - change (mwp (mkWait Live (seen || is_success final))
      (followerErr ← stopFollower false (ShowProgressBar out);
       _ ← writeFailureTail Unmarshal c out name final;
       e ← failedPodError c name final;
       Ret (errors_Join (Err e) followerErr.1, followerErr.2, ShowProgressBar out))
      (fun st r => body_done st r.1.1 r.1.2)).
    rewrite mwp_bind. apply stopFollower_mwp. intros f.
    rewrite mwp_bind. apply reports_mwp; [done|apply tail_reports|]. intros _.
    rewrite mwp_bind. apply reports_mwp; [done|apply failed_reports|]. intros e.
    cbn [World.mwp fst snd body_done]. destruct (join_reported (Err e) f) as (_ & Hf & Hok).
    split; [by exists f|]. intros H. discriminate (Hok H).
  - apply dec_stable in Hp. cbn [World.mwp io_bind_def]. split; [done|]. intros [[]|e]; [|by split].
    change (mwp (mkWait Live (seen || is_success final))
      (followerErr ← stopFollower false false;
       match followerErr.1 with
       | Err e => Ret (Err e, followerErr.2, false)
       | Ok _ =>
           _ ← ask FinishBar;
           tail ← recentPodLogs c final;
           _ ← warnIfSourceFilesVanished tail;
           Ret (Ok (), followerErr.2, false)
       end)
      (fun st r => body_done st r.1.1 r.1.2)).
    rewrite mwp_bind. apply stopFollower_mwp. intros f. cbn [fst snd].
    assert (seen || is_success final = true) as Hs
      by (unfold is_success; by rewrite (bool_decide_eq_true_2 _ Hp), orb_true_r).
    rewrite Hs. destruct f as [u|e].
    + rewrite mwp_bind. apply reports_mwp; [done|by quiet_calls|]. intros _.
      rewrite mwp_bind. apply reports_mwp; [done|apply logs_reports|]. intros tail.
      rewrite mwp_bind. apply reports_mwp; [done|apply warn_reports|]. intros _.
      cbn. split; [|done]. by exists (Ok u).
    + cbn. split; [|done]. exists (Err e). split; [done|]. by exists e.
Qed.

Lemma WaitForJobCompletion_mwp c requested ns name :
  mwp unobserved (WaitForJobCompletion Unmarshal c requested ns name) wait_ends.
Proof.
  unfold WaitForJobCompletion. cbv zeta. rewrite mwp_bind.
  eapply mwp_mono; [apply resolveRunningJobPod_mwp|].
  intros [fl seen] [r|pod] [Hf Hr]; cbn in Hf; subst fl; [by apply wait_ends_early|].
  rewrite mwp_bind. eapply mwp_mono; [apply follow_mwp|].
  intros st [[r stopped] barOpen] Hb. cbn [fst snd] in Hb. rewrite mwp_bind. destruct stopped.
  - destruct Hb as [(f & Hf & Hrep) Hok]. cbn.
    destruct r as [[]|e]; (split; [exact Hok|]); rewrite Hf; destruct f; exact Hrep.
  - destruct st as [fl seen']. destruct Hb as [Hf Hr']. cbn in Hf. subst fl.
    apply stopFollower_mwp. intros f. cbn [World.mwp fst]. destruct (join_reported r f) as (_ & Hrep & Hok).
    split; [|by destruct f].
    intros H. apply Hok in H. congruence.
Qed.
End Waiting.

(** ** Lemmas: the tail *)

(** Each line where it first occurs. *)
Fixpoint firsts (lines : list string) : list string :=
  match lines with
  | [] => []
  | line :: lines => line :: filter (fun l => l <> line) (firsts lines)
  end.

Definition occurrences (line : string) (lines : list string) : nat := length (filter (fun l => l = line) lines).

(** A line with how often it occurs, when that is more than once and it is not blank. *)
Definition annotate (lines : list string) (line : string) : string :=
  if decide (1 < occurrences line lines /\ TrimSpace line <> "")
  then line +:+ " (x" +:+ Itoa (Z.of_nat (occurrences line lines)) +:+ ")" else line.

Lemma count_lines_lookup lines counts line :
  default 0 (fold_left (fun counts line => <[line := S (default 0 (counts !! line))]> counts) lines counts !! line)
  = occurrences line lines + default 0 ((counts : gmap string nat) !! line).
Proof.
  unfold occurrences. revert counts. induction lines as [|l lines IH]; intros counts; [done|]. cbn [fold_left].
  rewrite IH. destruct (decide (l = line)) as [->|Hl].
  - rewrite lookup_insert_eq, filter_cons_True by done. cbn. lia.
  - rewrite lookup_insert_ne, filter_cons_False by done. done.
Qed.

Lemma count_lines_default lines line : default 0 (count_lines lines !! line) = occurrences line lines.
Proof. unfold count_lines. rewrite count_lines_lookup, lookup_empty. cbn. lia. Qed.

Lemma elem_of_firsts lines line : line ∈ firsts lines <-> line ∈ lines.
Proof.
  induction lines as [|l lines IH]; [done|]. cbn [firsts].
  rewrite !elem_of_cons, list_elem_of_filter, IH. destruct (decide (line = l)); tauto.
Qed.

Lemma NoDup_firsts lines : NoDup (firsts lines).
Proof.
  induction lines as [|l lines IH]; cbn; constructor.
  - rewrite list_elem_of_filter. tauto.
  - by apply NoDup_filter.
Qed.

Lemma render_loop_firsts all seen lines :
  render_loop (count_lines all) seen lines = annotate all <$> filter (fun l => l ∉ seen) (firsts lines).
Proof.
  revert seen. induction lines as [|l lines IH]; intros seen; [done|]. cbn [render_loop firsts].
  destruct (decide (l ∈ seen)) as [Hl|Hl].
  - rewrite filter_cons_False by tauto. rewrite IH. f_equal. rewrite list_filter_filter.
    apply list_filter_iff. intros x. split; [|tauto]. intros Hx. split; [done|]. by intros ->.
  - rewrite filter_cons_True by done. cbn [fmap list_fmap]. f_equal.
    + cbv zeta. rewrite count_lines_default. unfold annotate.
      destruct (decide (1 < occurrences l all)) as [H1|H1], (decide (TrimSpace l = "")) as [H2|H2];
        rewrite ?(bool_decide_eq_true_2 _ H1), ?(bool_decide_eq_false_2 _ H1),
          ?(bool_decide_eq_true_2 _ H2), ?(bool_decide_eq_false_2 _ H2); cbn [negb andb];
        destruct (decide _); done || tauto.
    + rewrite IH. f_equal. rewrite list_filter_filter. apply list_filter_iff. set_solver.
Qed.

Lemma render_firsts lines :
  render_loop (count_lines lines) ∅ lines = annotate lines <$> firsts lines.
Proof.
  rewrite render_loop_firsts. f_equal. induction (firsts lines) as [|l ls IH]; [done|].
  rewrite filter_cons_True by set_solver. by rewrite IH.
Qed.

(** ** Lemmas: suffixes *)

Lemma other_suffix s x y :
  y <> "" -> x <> "" -> last_byte x <> last_byte y -> HasSuffix (s +:+ x) y = false.
Proof.
  intros Hy Hx Hl. apply not_true_iff_false. intros [r Hr]%HasSuffix_spec.
  apply (f_equal last_byte) in Hr. rewrite !last_byte_app in Hr by done. done.
Qed.

(** ** Properties *)


(** Which pod a finished Job is judged by.  While any pod is pending or running
    there is none; otherwise it is the last succeeded pod, and only without one the
    first failed pod, so a retried Job that succeeded is not reported as failed. *)
Theorem terminal_pod_judged (c : ClusterClient) (ns jobName : string) (h : handler) n :
  (exec h n (findTerminalJobPod c ns jobName)).2 =
  match h _ n (ListJobPods c ns jobName) with
  | Err e => Err (Errorf "failed to list pods for job %s: %w" [AStr jobName; AWrap e])
  | Ok pods => Ok (default None (terminal_of pods), negb (bool_decide (pods = [])))
  end.
Proof.
  unfold findTerminalJobPod. cbn [exec mbind io_bind io_bind_def ask snd].
  destruct (h _ n (ListJobPods c ns jobName)) as [pods|e]; [|done]. rewrite terminal_loop_of.
  unfold terminal_of. destruct pods as [|p pods]; [done|]. by destruct (existsb _ _).
Qed.

(** What a rendered tail keeps.  It is the lines, rclone's records reduced to
    level and message, each printed once, where it first occurs, with its count
    when it is repeated and not blank: every line is there and none is made up.
    A blank line that is repeated loses its count, so two different tails can read
    the same. *)
Theorem renderTail_collapses Unmarshal (jobName tail : string) :
  let lines := tail_lines Unmarshal jobName tail in
  renderTail Unmarshal jobName tail = Join (annotate lines <$> firsts lines) nl +:+ nl /\
  NoDup (firsts lines) /\ (forall line, line ∈ firsts lines <-> line ∈ lines) /\
  exists t t', t <> t' /\ tail_lines Unmarshal "x" t <> tail_lines Unmarshal "x" t' /\
               renderTail Unmarshal "x" t = renderTail Unmarshal "x" t'.
Proof.
  intros lines. unfold renderTail. rewrite render_firsts. split; [done|].
  split; [apply NoDup_firsts|]. split; [intros line; apply elem_of_firsts|].
  exists ("a" +:+ nl +:+ nl +:+ nl +:+ "b"), ("a" +:+ nl +:+ nl +:+ "b").
  split; [done|]. split; [done|]. reflexivity.
Qed.

