(* ===== verification/Diagnostics.v ===== *)
(** * internal/k8s/diagnostics.go: what the cluster says about a release

    [WriteWorkloadDiagnostics]: the facts of each resource, the rows dropped
    because the pods below them say the same, and the warning events.  The six
    list requests are independent reads, so their answers are an argument; the
    slice that [dropShadowedQuietFacts] filters in place is kept as the array it
    is, read and written by the same loop. *)
From S2P Require Import Prelude GoStrings Console Workload Jobs.
From stdpp Require Import options.

Definition instanceLabel : string := "app.kubernetes.io/instance".
Definition maxEventsPerObject : nat := 3.

Definition InstanceLabelSelector (release : string) : string := instanceLabel +:+ "=" +:+ release.

Record workloadFacts : Type := mkFacts {
  uid : string;
  kind : string;
  name : string;
  title : string;
  details : list string;
  quiet : bool;
  bareTitle : string
}.

(** ** The facts of each kind *)

Definition colorPhase (phase : string) (palette : Palette) : string :=
  if decide (phase = PodFailed) then Bad palette phase
  else if decide (phase = PodPending \/ phase = PodUnknown) then Warn palette phase
  else if decide (phase = PodRunning \/ phase = PodSucceeded) then Good palette phase
  else phase.

Definition describeWaiting (waiting : Waiting) : string :=
  let message := TrimSpace (wait_Message waiting) in
  if decide (message = "") then wait_Reason waiting else wait_Reason waiting +:+ ": " +:+ message.

Definition describeTerminatedBriefly (t : Terminated) : string :=
  Join (["exit code " +:+ Itoa (ExitCode t)]
        ++ (if decide (Signal t = 0)%Z then [] else ["signal " +:+ Itoa (Signal t)])
        ++ reason_parts (term_Reason t) (term_Message t)) ", ".

(** The lines of one container. *)
Definition container_details (palette : Palette) (status : ContainerStatus) : list string :=
  match cs_Waiting status with
  | Some waiting =>
      Warn palette ("container " +:+ cs_Name status +:+ " waiting: " +:+ describeWaiting waiting)
      :: match cs_LastTerminated status with
         | Some t => [Warn palette ("container " +:+ cs_Name status +:+ " previously terminated: "
                                    +:+ describeTerminatedBriefly t)]
         | None => []
         end
  | None =>
      match cs_Terminated status with
      | Some t =>
          let line := "container " +:+ cs_Name status +:+ " terminated: " +:+ describeTerminatedBriefly t in
          [if decide (ExitCode t <> 0)%Z then Bad palette line else Dim palette line]
      | None => []
      end
  end.

Definition podFacts (pod : JobPod) (palette : Palette) : workloadFacts :=
  mkFacts (pod_UID pod) "pod" (pod_Name pod)
    ("pod " +:+ pod_Name pod +:+ ": " +:+ colorPhase (pod_Phase pod) palette)
    (ContainerStatuses pod ≫= container_details palette) false "".

Record Service : Type := mkService {
  svc_UID : string;
  svc_Name : string;
  svc_Type : string;
  svc_Ingress : list (string * string)   (* IP and hostname *)
}.

Definition addresses (ingress : list (string * string)) : list string :=
  ingress ≫= fun i => (if decide (i.1 = "") then [] else [i.1]) ++ (if decide (i.2 = "") then [] else [i.2]).

Definition serviceFacts (service : Service) (palette : Palette) : workloadFacts :=
  mkFacts (svc_UID service) "service" (svc_Name service)
    (Dim palette ("service " +:+ svc_Name service +:+ ": " +:+ svc_Type service))
    (if decide (svc_Type service = "LoadBalancer") then
       [if decide (addresses (svc_Ingress service) = []) then Bad palette "no external address assigned"
        else Good palette ("external address: " +:+ Join (addresses (svc_Ingress service)) ", ")]
     else [])
    false "".

Definition jobFacts (job : Job) (palette : Palette) : workloadFacts :=
  let title := "job " +:+ job_Name job +:+ ": " +:+ Itoa (job_Active job) +:+ " active, "
               +:+ Itoa (job_Succeeded job) +:+ " succeeded, " +:+ Itoa (job_Failed job) +:+ " failed" in
  let title := if decide (0 < job_Failed job)%Z then Bad palette title
               else if decide (0 < job_Succeeded job)%Z then Good palette title
               else Dim palette title in
  mkFacts (job_UID job) "job" (job_Name job) title []
    (bool_decide (job_Succeeded job = 0)%Z && bool_decide (job_Failed job = 0)%Z)
    (Dim palette ("job " +:+ job_Name job +:+ ":")).

(** A Deployment or a ReplicaSet. *)
Record Scaled : Type := mkScaled { sc_UID : string; sc_Name : string; sc_Ready : Z; sc_Replicas : Z }.

Definition colorReadiness (line : string) (ready desired : Z) (palette : Palette) : string :=
  if decide (0 < desired /\ ready < desired)%Z then Warn palette line
  else if decide (0 < desired)%Z then Good palette line
  else Dim palette line.

Definition scaledFacts (kind : string) (s : Scaled) (palette : Palette) : workloadFacts :=
  mkFacts (sc_UID s) kind (sc_Name s)
    (colorReadiness (kind +:+ " " +:+ sc_Name s +:+ ": " +:+ Itoa (sc_Ready s) +:+ "/" +:+ Itoa (sc_Replicas s) +:+ " ready")
       (sc_Ready s) (sc_Replicas s) palette)
    [] false "".

Definition deploymentFacts (deployment : Scaled) (palette : Palette) : workloadFacts :=
  scaledFacts "deployment" deployment palette.
Definition replicaSetFacts (replicaSet : Scaled) (palette : Palette) : workloadFacts :=
  scaledFacts "replicaset" replicaSet palette.

(** ** Events *)

Record Event : Type := mkEvent {
  ev_UID : string;
  ev_Type : string;
  ev_Reason : string;
  ev_Message : string;
  ev_Count : Z
}.

Definition formatEvent (event : Event) : string :=
  let message := TrimPrefix (TrimSpace (ev_Message event)) "Error: " in
  let line := "warning " +:+ ev_Reason event +:+ ": " +:+ message in
  if decide (1 < ev_Count event)%Z then line +:+ " (x" +:+ Itoa (ev_Count event) +:+ ")" else line.

(** A read of a map of slices: the empty slice when the key is missing. *)
Definition lines_of (byUID : gmap string (list string)) (u : string) : list string := default [] (byUID !! u).

Definition add_event (byUID : gmap string (list string)) (event : Event) : gmap string (list string) :=
  let u := ev_UID event in
  if decide (ev_Type event <> "Warning" \/ u = "" \/ maxEventsPerObject <= length (lines_of byUID u)) then byUID
  else <[u := lines_of byUID u ++ [formatEvent event]]> byUID.

(** [None]: the list could not be read, and the map is nil. *)
Definition warningEventsByUID (events : result (list Event)) : gmap string (list string) :=
  match events with
  | Err _ => ∅
  | Ok events => fold_left add_event events ∅
  end.

(** ** Rows that add nothing *)

Definition hasPodOfWorkload (facts : list workloadFacts) (workloadName : string) : bool :=
  existsb (fun fact => bool_decide (kind fact = "pod") && HasPrefix (name fact) (workloadName +:+ "-")) facts.

Definition bare (fact : workloadFacts) : workloadFacts :=
  mkFacts (uid fact) (kind fact) (name fact) (bareTitle fact) (details fact) (quiet fact) (bareTitle fact).

(** One round of the loop: what becomes of [fact], given the array as it stands. *)
Definition keep_fact (array : list workloadFacts) (events : gmap string (list string)) (fact : workloadFacts)
  : option workloadFacts :=
  if quiet fact && bool_decide (lines_of events (uid fact) = []) && hasPodOfWorkload array (name fact) then None
  else if quiet fact && negb (bool_decide (lines_of events (uid fact) = [])) && negb (bool_decide (bareTitle fact = ""))
       then Some (bare fact) else Some fact.

(** [kept] shares the array of [facts]: appending to it overwrites the array at
    [k], while [range] reads it at [i].  [fuel] is the number of rounds left. *)
Fixpoint drop_loop (fuel : nat) (array : list workloadFacts) (events : gmap string (list string)) (i k : nat)
  : list workloadFacts * nat :=
  match fuel with
  | O => (array, k)
  | S fuel =>
      match array !! i with
      | None => (array, k)
      | Some fact =>
          match keep_fact array events fact with
          | None => drop_loop fuel array events (S i) k
          | Some fact' => drop_loop fuel (<[k := fact']> array) events (S i) (S k)
          end
      end
  end.

Definition dropShadowedQuietFacts (facts : list workloadFacts) (events : gmap string (list string))
  : list workloadFacts :=
  let '(array, k) := drop_loop (length facts) facts events 0 0 in take k array.

(** ** The block *)

(** The answers to the list requests. *)
Record Lists : Type := mkLists {
  Pods : result (list JobPod);
  Services : result (list Service);
  Jobs_ : result (list Job);
  Deployments : result (list Scaled);
  ReplicaSets : result (list Scaled);
  Events : result (list Event)
}.

Definition listed {A} (r : result (list A)) (f : A -> Palette -> workloadFacts) (palette : Palette)
  : list workloadFacts * bool :=
  match r with Ok l => ((fun x => f x palette) <$> l, true) | Err _ => ([], false) end.

Definition listRuntimeWorkloads (l : Lists) (palette : Palette) : list workloadFacts * bool :=
  let p := listed (Pods l) podFacts palette in
  let s := listed (Services l) serviceFacts palette in
  (p.1 ++ s.1, p.2 || s.2).

Definition listOwnerWorkloads (l : Lists) (palette : Palette) : list workloadFacts * bool :=
  let j := listed (Jobs_ l) jobFacts palette in
  let d := listed (Deployments l) deploymentFacts palette in
  let r := listed (ReplicaSets l) replicaSetFacts palette in
  (j.1 ++ d.1 ++ r.1, j.2 || d.2 || r.2).

Definition listWorkloads (l : Lists) (palette : Palette) : list workloadFacts * bool :=
  let runtime := listRuntimeWorkloads l palette in
  let owners := listOwnerWorkloads l palette in
  (runtime.1 ++ owners.1, runtime.2 || owners.2).

Definition block (palette : Palette) (events : gmap string (list string)) (object : workloadFacts) : string :=
  "    " +:+ title object +:+ nl
  +:+ String.concat "" ((fun detail => "      " +:+ detail +:+ nl) <$> details object)
  +:+ String.concat "" ((fun event => "      " +:+ Warn palette event +:+ nl) <$> lines_of events (uid object)).

Definition WriteWorkloadDiagnostics (l : Lists) (palette : Palette) : string :=
  let '(objects, listedAny) := listWorkloads l palette in
  if negb listedAny then "    " +:+ Warn palette "Could not read the cluster's resources" +:+ nl
  else if decide (objects = []) then "    " +:+ Dim palette "no resources found" +:+ nl
  else
    let events := warningEventsByUID (Events l) in
    String.concat "" (block palette events <$> dropShadowedQuietFacts objects events).


(** * Theorems *)

(** ** The in-place filter *)

(** The pods of a listing as [hasPodOfWorkload] sees them. *)
Definition pod_names (facts : list workloadFacts) : list string :=
  name <$> List.filter (fun fact => bool_decide (kind fact = "pod")) facts.

Lemma hasPod_names facts w :
  hasPodOfWorkload facts w = existsb (fun n => HasPrefix n (w +:+ "-")) (pod_names facts).
Proof.
  unfold hasPodOfWorkload, pod_names. induction facts as [|f facts IH]; [done|].
  cbn [existsb List.filter]. destruct (bool_decide (kind f = "pod")); cbn [existsb fmap list_fmap andb orb];
    by rewrite IH.
Qed.

Lemma pod_names_app f g : pod_names (f ++ g) = pod_names f ++ pod_names g.
Proof. unfold pod_names. by rewrite List.filter_app, fmap_app. Qed.

Lemma existsb_sub {A} (p : A -> bool) l l' :
  (forall x, x ∈ l -> x ∈ l') -> existsb p l = true -> existsb p l' = true.
Proof.
  intros H (x & Hx & Hp)%existsb_exists. apply existsb_exists. exists x. split; [|done].
  apply list_elem_of_In, H, list_elem_of_In, Hx.
Qed.

(** What is kept of a fact depends on the pods present, not on their order. *)
Lemma keep_fact_pods array array' events fact :
  (forall n, n ∈ pod_names array <-> n ∈ pod_names array') ->
  keep_fact array events fact = keep_fact array' events fact.
Proof.
  intros H. unfold keep_fact. rewrite !hasPod_names.
  set (p := fun n => HasPrefix n (name fact +:+ "-")).
  assert (existsb p (pod_names array) = existsb p (pod_names array')) as ->; [|done].
  apply eq_true_iff_eq. split; apply existsb_sub; intros x; apply H.
Qed.

(** The facts that can be dropped are not pods, which is what makes it safe to
    ask for the pods of an array that is being overwritten. *)
Definition quiet_is_owner (facts : list workloadFacts) : Prop :=
  Forall (fun fact => quiet fact = true -> kind fact <> "pod") facts.

Lemma kept_pod_names array events f :
  (quiet f = true -> kind f <> "pod") ->
  pod_names (omap (keep_fact array events) [f]) = pod_names [f].
Proof.
  intros Hq. cbn [omap list_omap]. unfold keep_fact.
  destruct (quiet f) eqn:Eq; cbn [andb]; [|done].
  assert (bool_decide (kind f = "pod") = false) as Ek by (apply bool_decide_eq_false; auto).
  assert (pod_names [f] = []) as -> by (unfold pod_names; cbn [List.filter]; by rewrite Ek).
  unfold pod_names.
  destruct (bool_decide (lines_of events (uid f) = [])); cbn [andb negb];
    [destruct (hasPodOfWorkload array (name f))|destruct (bool_decide (bareTitle f = ""))];
    cbn [andb negb list_fmap fmap List.filter kind bare]; rewrite ?Ek; done.
Qed.

Lemma kept_pods array events facts :
  quiet_is_owner facts -> pod_names (omap (keep_fact array events) facts) = pod_names facts.
Proof.
  induction 1 as [|f facts Hf _ IH]; [done|].
  change (f :: facts) with ([f] ++ facts). rewrite omap_app, !pod_names_app, IH. f_equal.
  by apply kept_pod_names.
Qed.

Section filter_in_place.
Context (facts : list workloadFacts) (events : gmap string (list string)).
Hypothesis owners : quiet_is_owner facts.

Notation kept := (omap (keep_fact facts events)).

(** The array after some rounds: the facts kept of those read, the cells of
    the others, and the facts not read yet. *)
Definition partway (read stale rest array : list workloadFacts) : Prop :=
  facts = read ++ rest /\ array = kept read ++ stale ++ rest
  /\ length (kept read ++ stale) = length read
  /\ forall n, n ∈ pod_names stale -> n ∈ pod_names read.

Lemma partway_pods read stale rest array n :
  partway read stale rest array -> n ∈ pod_names array <-> n ∈ pod_names facts.
Proof using owners.
  intros (Hf & -> & _ & Hs).
  assert (quiet_is_owner read) as Hq by (by rewrite Hf in owners; apply Forall_app in owners as []).
  pose proof (kept_pods facts events read Hq) as Hk.
  rewrite !pod_names_app, Hk. rewrite Hf, pod_names_app. set_solver.
Qed.

Lemma partway_reads read stale fact rest array :
  partway read stale (fact :: rest) array -> array !! length read = Some fact.
Proof using owners.
  intros (_ & -> & Hl & _). rewrite app_assoc, lookup_app_r by lia. by rewrite Hl, Nat.sub_diag.
Qed.

Lemma partway_drops read stale fact rest array :
  partway read stale (fact :: rest) array -> keep_fact facts events fact = None ->
  partway (read ++ [fact]) (stale ++ [fact]) rest array /\ kept (read ++ [fact]) = kept read.
Proof using owners.
  intros (Hf & -> & Hl & Hs) E.
  assert (kept (read ++ [fact]) = kept read) as Eo
    by (rewrite omap_app; cbn [omap list_omap]; by rewrite E, app_nil_r).
  unfold partway. rewrite Eo, !length_app in *. cbn [length]. split_and!; [|by rewrite <- !app_assoc|lia| |done].
  - by rewrite <- app_assoc.
  - intros n. rewrite !pod_names_app. set_solver.
Qed.

Lemma partway_keeps read stale fact fact' rest array :
  partway read stale (fact :: rest) array -> keep_fact facts events fact = Some fact' ->
  partway (read ++ [fact]) (match stale with [] => [] | _ :: s => s ++ [fact] end) rest
    (<[length (kept read) := fact']> array)
  /\ kept (read ++ [fact]) = kept read ++ [fact'].
Proof using owners.
  intros (Hf & -> & Hl & Hs) E.
  assert (kept (read ++ [fact]) = kept read ++ [fact']) as Eo
    by (rewrite omap_app; cbn [omap list_omap]; by rewrite E).
  unfold partway. rewrite Eo, !length_app in *. cbn [length]. split_and!; [| | | |done].
  - by rewrite <- app_assoc.
  - rewrite insert_app_r_alt, Nat.sub_diag by lia.
    destruct stale as [|x s]; cbn; by rewrite <- ?app_assoc.
  - destruct stale; cbn in *; rewrite ?length_app; cbn; lia.
  - intros n. destruct stale as [|x s]; [set_solver|]. change (x :: s) with ([x] ++ s) in Hs.
    rewrite !pod_names_app in *. set_solver.
Qed.

Lemma drop_loop_spec fuel : forall read stale rest array,
  partway read stale rest array -> length rest <= fuel ->
  let '(array', k) := drop_loop fuel array events (length read) (length (kept read)) in
  take k array' = kept facts.
Proof using owners.
  induction fuel as [|fuel IH]; intros read stale [|fact rest] array H Hl; cbn [length] in Hl; try lia;
    cbn [drop_loop].
  - destruct H as (-> & -> & _ & _). rewrite app_nil_r. apply take_app_length.
  - assert (array !! length read = None) as ->
      by (destruct H as (_ & -> & Hn & _); apply lookup_ge_None_2; rewrite app_nil_r, Hn; done).
    destruct H as (-> & -> & _ & _). rewrite app_nil_r. apply take_app_length.
  - rewrite (partway_reads _ _ _ _ _ H), (keep_fact_pods array facts)
      by (intros n; apply (partway_pods _ _ _ _ _ H)).
    assert (S (length read) = length (read ++ [fact])) as -> by (rewrite length_app; cbn; lia).
    destruct (keep_fact facts events fact) as [fact'|] eqn:E.
    + destruct (partway_keeps _ _ _ _ _ _ H E) as [H' Ek].
      assert (S (length (kept read)) = length (kept (read ++ [fact]))) as ->
        by (rewrite Ek, length_app; cbn; lia).
      eapply IH; [exact H'|lia].
    + destruct (partway_drops _ _ _ _ _ H E) as [H' Ek]. rewrite <- Ek.
      eapply IH; [exact H'|lia].
Qed.

Lemma dropShadowedQuietFacts_filter : dropShadowedQuietFacts facts events = kept facts.
Proof using owners.
  unfold dropShadowedQuietFacts.
  assert (partway [] [] facts facts) as H by (unfold partway; cbn; set_solver).
  pose proof (drop_loop_spec (length facts) [] [] facts facts H (le_n _)) as Hd.
  cbn [length omap list_omap] in Hd. by destruct (drop_loop _ _ _ _ _).
Qed.
End filter_in_place.

(** Only Jobs are quiet in a listing. *)
Lemma listed_quiet_is_owner {A} (r : result (list A)) f palette :
  (forall x, quiet (f x palette) = true -> kind (f x palette) <> "pod") -> quiet_is_owner (listed r f palette).1.
Proof.
  intros H. unfold listed, quiet_is_owner. destruct r as [l|e]; [|constructor].
  apply Forall_fmap, Forall_true. exact H.
Qed.

Lemma listWorkloads_quiet_is_owner l palette : quiet_is_owner (listWorkloads l palette).1.
Proof.
  unfold listWorkloads, listRuntimeWorkloads, listOwnerWorkloads, quiet_is_owner. cbn [fst].
  repeat rewrite Forall_app. split_and!; apply listed_quiet_is_owner; done.
Qed.

(** ** The events of an object *)

(** The warnings about [u], as printed. *)
Definition warnings_about (u : string) (events : list Event) : list string :=
  formatEvent <$> List.filter (fun e => bool_decide (ev_Type e = "Warning") && bool_decide (ev_UID e = u)) events.

Lemma warnings_about_app u es es' : warnings_about u (es ++ es') = warnings_about u es ++ warnings_about u es'.
Proof. unfold warnings_about. by rewrite List.filter_app, fmap_app. Qed.

Lemma lines_of_insert byUID u u' l : lines_of (<[u := l]> byUID) u' = if decide (u = u') then l else lines_of byUID u'.
Proof. unfold lines_of. destruct (decide (u = u')) as [->|?]; by rewrite ?lookup_insert_eq, ?lookup_insert_ne. Qed.

(** Room is left for as many lines as are missing to three. *)
Lemma take_snoc_cap {A} n (l : list A) x :
  take n (l ++ [x]) = if decide (n <= length (take n l)) then take n l else take n l ++ [x].
Proof.
  rewrite length_take. destruct (decide _) as [H|H].
  - apply take_app_le. lia.
  - rewrite (take_ge l) by lia. apply take_ge. rewrite length_app. cbn. lia.
Qed.

Lemma add_event_cap es byUID e u :
  (forall u, u <> "" -> lines_of byUID u = take maxEventsPerObject (warnings_about u es)) ->
  u <> "" -> lines_of (add_event byUID e) u = take maxEventsPerObject (warnings_about u (es ++ [e])).
Proof.
  intros IH Hu. rewrite warnings_about_app. unfold add_event.
  destruct (decide (ev_Type e = "Warning" /\ ev_UID e = u)) as [[Ht <-]|Hn].
  - assert (warnings_about (ev_UID e) [e] = [formatEvent e]) as ->
      by (unfold warnings_about; cbn [List.filter]; by rewrite !bool_decide_true).
    rewrite take_snoc_cap, <- IH by done.
    destruct (decide (maxEventsPerObject <= length (lines_of byUID (ev_UID e)))) as [Hc|Hc].
    + by rewrite decide_True by auto.
    + rewrite decide_False by (intros [?|[?|?]]; auto). rewrite lines_of_insert. by rewrite decide_True.
  - assert (warnings_about u [e] = []) as ->.
    { unfold warnings_about. cbn [List.filter].
      destruct (bool_decide_reflect (ev_Type e = "Warning")), (bool_decide_reflect (ev_UID e = u)); cbn; auto.
      exfalso. auto. }
    rewrite app_nil_r, <- IH by done.
    destruct (decide (_ \/ _ \/ _)) as [|Hc]; [done|]. rewrite lines_of_insert.
    destruct (decide (ev_UID e = u)) as [Eu|]; [|done].
    exfalso. apply Hc. left. intros Ht. by apply Hn.
Qed.

Lemma warningEvents_first_three events u :
  u <> "" -> lines_of (warningEventsByUID (Ok events)) u = take maxEventsPerObject (warnings_about u events).
Proof.
  revert u. cbn [warningEventsByUID].
  induction events as [|e es IH] using rev_ind; intros u Hu; [done|].
  rewrite fold_left_app. cbn [fold_left]. by apply add_event_cap.
Qed.

(** ** The block as a whole *)

(** An object with no UID is about nothing: an event is filed under the UID of
    an object, never under the empty one. *)
Lemma no_uid_no_events r : lines_of (warningEventsByUID r) "" = [].
Proof.
  destruct r as [events|e]; [|done]. cbn [warningEventsByUID].
  induction events as [|e es IH] using rev_ind; [done|].
  rewrite fold_left_app. cbn [fold_left]. unfold add_event at 1.
  destruct (decide (_ \/ _ \/ _)) as [|Hc]; [done|]. rewrite lines_of_insert.
  destruct (decide (ev_UID e = "")); [|done]. exfalso. auto.
Qed.

(** What is printed below an object: the first three warnings about it. *)
Definition warnings_shown (events : result (list Event)) (u : string) : list string :=
  match events with
  | Ok events => if decide (u = "") then [] else take 3 (warnings_about u events)
  | Err _ => []
  end.

Lemma lines_are_warnings_shown events u : lines_of (warningEventsByUID events) u = warnings_shown events u.
Proof.
  unfold warnings_shown. destruct (decide (u = "")) as [->|Hu].
  - rewrite no_uid_no_events. by destruct events.
  - destruct events; [by apply warningEvents_first_three|done].
Qed.

(** What becomes of a fact, read off the listing and the events. *)
Inductive row_of (objects : list workloadFacts) (events : result (list Event)) (fact : workloadFacts)
  : option workloadFacts -> Prop :=
| row_whole : quiet fact = false -> row_of objects events fact (Some fact)
| row_alone : quiet fact = true -> warnings_shown events (uid fact) = [] ->
    (forall pod, pod ∈ objects -> kind pod = "pod" -> HasPrefix (name pod) (name fact +:+ "-") = false) ->
    row_of objects events fact (Some fact)
| row_shadowed pod : quiet fact = true -> warnings_shown events (uid fact) = [] ->
    pod ∈ objects -> kind pod = "pod" -> HasPrefix (name pod) (name fact +:+ "-") = true ->
    row_of objects events fact None
| row_bare : quiet fact = true -> warnings_shown events (uid fact) <> [] -> bareTitle fact <> "" ->
    row_of objects events fact (Some (bare fact))
| row_no_title : quiet fact = true -> warnings_shown events (uid fact) <> [] -> bareTitle fact = "" ->
    row_of objects events fact (Some fact).

Lemma hasPodOfWorkload_spec facts w :
  hasPodOfWorkload facts w = true
  <-> exists pod, pod ∈ facts /\ kind pod = "pod" /\ HasPrefix (name pod) (w +:+ "-") = true.
Proof.
  unfold hasPodOfWorkload. rewrite existsb_exists. split.
  - intros (f & Hf%list_elem_of_In & (Hk%bool_decide_eq_true & Hp)%andb_true_iff). eauto.
  - intros (f & Hf & Hk & Hp). exists f. split; [by apply list_elem_of_In|].
    by rewrite bool_decide_true, Hp.
Qed.

Lemma keep_fact_row objects events fact :
  row_of objects events fact (keep_fact objects (warningEventsByUID events) fact).
Proof.
  unfold keep_fact. rewrite lines_are_warnings_shown.
  destruct (quiet fact) eqn:Eq; cbn [andb]; [|by constructor].
  destruct (bool_decide_reflect (warnings_shown events (uid fact) = [])) as [He|He]; cbn [andb negb].
  - destruct (hasPodOfWorkload objects (name fact)) eqn:Ep.
    + apply hasPodOfWorkload_spec in Ep as (pod & ? & ? & ?). by apply row_shadowed with pod.
    + apply row_alone; [done..|]. intros pod Hp Hk. apply not_true_is_false. intros Hx.
      assert (hasPodOfWorkload objects (name fact) = true); [|congruence].
      apply hasPodOfWorkload_spec. eauto.
  - destruct (bool_decide_reflect (bareTitle fact = "")); cbn [negb]; by constructor.
Qed.

(** The lines of a row. *)
Definition row_lines (palette : Palette) (events : result (list Event)) (row : workloadFacts) : string :=
  "    " +:+ title row +:+ nl
  +:+ String.concat "" ((fun detail => "      " +:+ detail +:+ nl) <$> details row)
  +:+ String.concat "" ((fun event => "      " +:+ Warn palette event +:+ nl) <$> warnings_shown events (uid row)).

Lemma block_row palette events row : block palette (warningEventsByUID events) row = row_lines palette events row.
Proof. unfold block. by rewrite lines_are_warnings_shown. Qed.

Lemma Forall2_rows objects events facts :
  Forall2 (row_of objects events) facts (keep_fact objects (warningEventsByUID events) <$> facts).
Proof. induction facts; constructor; [apply keep_fact_row|done]. Qed.

Lemma omap_omap_id {A B} (f : A -> option B) (l : list A) : omap f l = omap id (f <$> l).
Proof. induction l as [|x l IH]; [done|]. cbn. unfold id at 1. by destruct (f x); rewrite IH. Qed.

Definition nothing_read (l : Lists) : Prop :=
  is_Ok (Pods l) = false /\ is_Ok (Services l) = false /\ is_Ok (Jobs_ l) = false
  /\ is_Ok (Deployments l) = false /\ is_Ok (ReplicaSets l) = false.

Lemma listed_read {A} (r : result (list A)) f palette : (listed r f palette).2 = is_Ok r.
Proof. by destruct r. Qed.

Lemma listedAny_spec l palette : (listWorkloads l palette).2 = false <-> nothing_read l.
Proof.
  unfold listWorkloads, listRuntimeWorkloads, listOwnerWorkloads, nothing_read. cbn [snd].
  rewrite !listed_read, !orb_false_iff. tauto.
Qed.

(** What is written about a release.  When no list could be read it says
    so, and says that nothing exists only when something was read; otherwise
    the rows follow the listing in order, each as [row_of] says - a Job with no
    outcome and no warning of its own is left out exactly when a pod of the
    listing carries its name - and below each row are the first three warnings
    about it.  The slice filtered in place while it is ranged over gives the
    rows the plain filter gives. *)
Theorem diagnostics_rows l palette :
  let objects := (listWorkloads l palette).1 in
  (nothing_read l ->
    WriteWorkloadDiagnostics l palette = "    " +:+ Warn palette "Could not read the cluster's resources" +:+ nl)
  /\ (~ nothing_read l -> objects = [] ->
    WriteWorkloadDiagnostics l palette = "    " +:+ Dim palette "no resources found" +:+ nl)
  /\ (~ nothing_read l -> objects <> [] -> exists rows,
    Forall2 (row_of objects (Events l)) objects rows
    /\ WriteWorkloadDiagnostics l palette
       = String.concat "" (row_lines palette (Events l) <$> omap id rows)).
Proof.
  pose proof (listedAny_spec l palette) as Hr. pose proof (listWorkloads_quiet_is_owner l palette) as Hq.
  unfold WriteWorkloadDiagnostics. destruct (listWorkloads l palette) as [objects any]. cbn [fst snd] in *.
  split_and!.
  - intros ->%Hr. done.
  - intros Hn ->. destruct any; [done|]. exfalso. tauto.
  - intros Hn Ho. destruct any; [|exfalso; tauto]. cbn [negb]. rewrite decide_False by done.
    eexists. split; [apply Forall2_rows|].
    rewrite (dropShadowedQuietFacts_filter _ _ Hq), omap_omap_id. f_equal.
    apply list_fmap_ext. intros _ row _. apply block_row.
Qed.

(** ** Examples *)

Definition failed_pod : JobPod := mkJobPod "p1" "x-rclone-abcde" "ns" PodFailed "" "" [].
Definition its_job : Job := mkJob "j1" "x-rclone" "ns" 1 0 0 [] [] None None.
Definition a_release (events : list Event) : Lists :=
  mkLists (Ok [failed_pod]) (Ok []) (Ok [its_job]) (Err (ErrNew "forbidden")) (Ok []) (Ok events).

(** The Job row adds nothing to its pod's, and is left out; a warning about the
    Job brings it back without its lagging counters. *)
Example job_row_left_out :
  WriteWorkloadDiagnostics (a_release []) false = "    pod x-rclone-abcde: Failed" +:+ nl.
Proof. vm_compute. reflexivity. Qed.

Example job_row_bare :
  WriteWorkloadDiagnostics (a_release [mkEvent "j1" "Warning" "BackOff" "Error: no" 4]) false
  = "    pod x-rclone-abcde: Failed" +:+ nl +:+ "    job x-rclone:" +:+ nl
    +:+ "      warning BackOff: no (x4)" +:+ nl.
Proof. vm_compute. reflexivity. Qed.

Lemma diagnostics_rows_witness :
  let l := a_release [] in
  let objects := (listWorkloads l false).1 in
  ~ nothing_read l /\ objects <> [] /\ exists rows,
    Forall2 (row_of objects (Events l)) objects rows
    /\ WriteWorkloadDiagnostics l false = String.concat "" (row_lines false (Events l) <$> omap id rows).
Proof.
  cbv zeta.
  assert (~ nothing_read (a_release [])) as H1 by (intros (H & _); discriminate H).
  assert ((listWorkloads (a_release []) false).1 <> []) as H2 by discriminate.
  split; [exact H1|]. split; [exact H2|]. exact (proj2 (proj2 (diagnostics_rows (a_release []) false)) H1 H2).
Defined.
