(* ===== verification/Regex.v ===== *)
(** * Go's [regexp]: leftmost match, first alternative first

    The subset of patterns the source uses, as a syntax, with the matcher that
    package documents: among the matches that start leftmost, the one a
    backtracking search would find first.  Groups are captured by name.  All the
    classes are of ASCII bytes, so matching bytes and matching runes agree.

    [consumes] says, without an order of search, which texts a pattern can stand
    for; the matcher answers exactly when there is one. *)
From S2P Require Import Prelude GoStrings.
From stdpp Require Import options.

Inductive regex : Type :=
  | Class (p : ascii -> bool)
  | Empty
  | Seq (r1 r2 : regex)
  | Alt (r1 r2 : regex)
  | Star (r : regex)
  | Group (name : string) (r : regex)
  | WordEnd.   (* [\b] after a word character *)

Definition captures : Type := list (string * string).

Definition is_word (a : ascii) : bool := is_digit a || is_lower a || is_upper a || bool_decide (byte a = 95)%Z.

(** What stands before [rest] in [s]. *)
Definition consumed (s rest : string) : string  := String.substring 0 (String.length s - String.length rest) s.

(** [k] is the rest of the search: a failure of it backtracks into [r].  A round
    of [Star] has to consume something, so the length of the text is fuel enough. *)
Fixpoint run {X} (r : regex) (s : string) (c : captures) (k : string -> captures -> option X) {struct r} : option X :=
  match r with
  | Class p => match s with String a s' => if p a then k s' c else None | EmptyString => None end
  | Empty => k s c
  | Seq r1 r2 => run r1 s c (fun s' c' => run r2 s' c' k)
  | Alt r1 r2 => match run r1 s c k with Some x => Some x | None => run r2 s c k end
  | Star r =>
      (fix loop (fuel : nat) (s : string) (c : captures) : option X :=
         match fuel with
         | O => k s c
         | S fuel =>
             match run r s c (fun s' c' => if String.length s' <? String.length s then loop fuel s' c' else None) with
             | Some x => Some x
             | None => k s c
             end
         end) (String.length s) s c
  | Group n r => run r s c (fun s' c' => k s' ((n, consumed s s') :: c'))
  | WordEnd => match s with
               | String a _ => if is_word a then None else k s c
               | EmptyString => k s c
               end
  end.

(** The match at the start of [s]: the text matched, its groups and what follows. *)
Definition match_here (r : regex) (s : string) : option (string * captures * string) :=
  run r s [] (fun rest c => Some (consumed s rest, c, rest)).

(** [FindStringSubmatch], with what follows the match. *)
Fixpoint find_match (r : regex) (s : string) : option (string * captures * string) :=
  match match_here r s with
  | Some x => Some x
  | None => match s with String _ s' => find_match r s' | EmptyString => None end
  end.

(** The text of a group; the last round's when the group is repeated. *)
Fixpoint group (c : captures) (n : string) : string :=
  match c with
  | [] => ""
  | (n', t) :: c => if decide (n' = n) then t else group c n
  end.

(** [FindAllString(s, -1)], for a pattern that matches no empty text. *)
Fixpoint find_all_from (fuel : nat) (r : regex) (s : string) : list string :=
  match fuel with
  | O => []
  | S fuel => match find_match r s with Some (t, _, rest) => t :: find_all_from fuel r rest | None => [] end
  end.
Definition find_all (r : regex) (s : string) : list string := find_all_from (String.length s) r s.

(** ** Patterns *)

Definition lit (a : ascii) : regex := Class (fun b => bool_decide (b = a)).
Fixpoint text (s : string) : regex := match s with "" => Empty | String a s => Seq (lit a) (text s) end.
Definition Plus (r : regex) : regex := Seq r (Star r).
Definition Opt (r : regex) : regex := Alt r Empty.

(** [\s] *)
Definition is_blank (a : ascii) : bool := bool_decide (byte a ∈ [9; 10; 12; 13; 32]%Z).

(** * Specification *)

(** [consumes r t rest c c']: [r] can stand for [t] in front of [rest], turning
    the captures [c] into [c']. *)
Inductive consumes : regex -> string -> string -> captures -> captures -> Prop :=
  | c_class p a rest c : p a = true -> consumes (Class p) (String a "") rest c c
  | c_empty rest c : consumes Empty "" rest c c
  | c_seq r1 r2 t1 t2 rest c c1 c2 :
      consumes r1 t1 (t2 +:+ rest) c c1 -> consumes r2 t2 rest c1 c2 ->
      consumes (Seq r1 r2) (t1 +:+ t2) rest c c2
  | c_left r1 r2 t rest c c' : consumes r1 t rest c c' -> consumes (Alt r1 r2) t rest c c'
  | c_right r1 r2 t rest c c' : consumes r2 t rest c c' -> consumes (Alt r1 r2) t rest c c'
  | c_stop r rest c : consumes (Star r) "" rest c c
  | c_round r t1 t2 rest c c1 c2 :
      t1 <> "" -> consumes r t1 (t2 +:+ rest) c c1 -> consumes (Star r) t2 rest c1 c2 ->
      consumes (Star r) (t1 +:+ t2) rest c c2
  | c_group n r t rest c c' : consumes r t rest c c' -> consumes (Group n r) t rest c ((n, t) :: c')
  | c_word_end rest c :
      match rest with String a _ => is_word a = false | "" => True end -> consumes WordEnd "" rest c c.

(** * Lemmas *)

Lemma substring_app t rest : String.substring 0 (String.length t) (t +:+ rest) = t.
Proof. induction t as [|a t IH]; cbn; [by destruct rest|]. by rewrite IH. Qed.

Lemma consumed_app t rest : consumed (t +:+ rest) rest = t.
Proof.
  unfold consumed. rewrite length_app_str.
  replace (String.length t + String.length rest - String.length rest) with (String.length t) by lia.
  apply substring_app.
Qed.

(** The loop of [Star], named. *)
Definition star_loop {X} (r : regex) (k : string -> captures -> option X) : nat -> string -> captures -> option X :=
  fix loop (fuel : nat) (s : string) (c : captures) : option X :=
    match fuel with
    | O => k s c
    | S fuel =>
        match run r s c (fun s' c' => if String.length s' <? String.length s then loop fuel s' c' else None) with
        | Some x => Some x
        | None => k s c
        end
    end.

Lemma run_star {X} r s c (k : string -> captures -> option X) :
  run (Star r) s c k = star_loop r k (String.length s) s c.
Proof. done. Qed.

Lemma star_loop_S {X} r (k : string -> captures -> option X) fuel s c :
  star_loop r k (S fuel) s c =
  match run r s c (fun s' c' => if String.length s' <? String.length s then star_loop r k fuel s' c' else None) with
  | Some x => Some x
  | None => k s c
  end.
Proof. done. Qed.

Lemma run_sound {X} r : forall s c (k : string -> captures -> option X) x,
  run r s c k = Some x ->
  exists t rest c', s = t +:+ rest /\ consumes r t rest c c' /\ k rest c' = Some x.
Proof.
  induction r as [p| |r1 IH1 r2 IH2|r1 IH1 r2 IH2|r IH|n r IH|]; intros s c k x H.
  - cbn in H. destruct s as [|a s]; [done|]. destruct (p a) eqn:E; [|done].
    exists (String a ""), s, c. split_and!; [done|by constructor|done].
  - exists "", s, c. split_and!; [done|constructor|done].
  - cbn in H. apply IH1 in H as (t1 & r1' & c1 & -> & H1 & H).
    apply IH2 in H as (t2 & rest & c2 & -> & H2 & H).
    exists (t1 +:+ t2), rest, c2. split_and!; [by rewrite app_assoc_str|by econstructor|done].
  - cbn in H. destruct (run r1 s c k) as [y|] eqn:E.
    + injection H as ->. apply IH1 in E as (t & rest & c' & -> & Hc & Hk). exists t, rest, c'.
      split_and!; [done|by apply c_left|done].
    + apply IH2 in H as (t & rest & c' & -> & Hc & Hk). exists t, rest, c'.
      split_and!; [done|by apply c_right|done].
  - rewrite run_star in H. revert H. generalize (String.length s) as fuel. intros fuel. revert s c.
    induction fuel as [|fuel IHf]; intros s c H.
    + exists "", s, c. split_and!; [done|constructor|done].
    + rewrite star_loop_S in H. destruct (run r s c _) as [y|] eqn:E.
      * injection H as ->. apply IH in E as (t1 & s' & c1 & -> & H1 & Hk).
        destruct (Nat.ltb_spec (String.length s') (String.length (t1 +:+ s'))) as [Hl|]; [|done].
        apply IHf in Hk as (t2 & rest & c2 & -> & H2 & Hk).
        exists (t1 +:+ t2), rest, c2. split_and!; [by rewrite app_assoc_str| |done].
        apply c_round with c1; [|done..]. intros ->. cbn in Hl. lia.
      * exists "", s, c. split_and!; [done|constructor|done].
  - cbn in H. apply IH in H as (t & rest & c' & -> & Hc & Hk). rewrite consumed_app in Hk.
    exists t, rest, ((n, t) :: c'). split_and!; [done|by constructor|done].
  - cbn in H. exists "", s, c. destruct s as [|a s].
    + split_and!; [done|by constructor|done].
    + destruct (is_word a) eqn:E; [done|]. split_and!; [done|by constructor|done].
Qed.

Lemma run_ext {X} r : forall s c (k1 k2 : string -> captures -> option X),
  (forall s c, k1 s c = k2 s c) -> run r s c k1 = run r s c k2.
Proof.
  induction r as [p| |r1 IH1 r2 IH2|r1 IH1 r2 IH2|r IH|n r IH|]; intros s c k1 k2 Hk; cbn [run].
  - destruct s; [done|]. by destruct (p _).
  - done.
  - apply IH1. intros s' c'. by apply IH2.
  - by rewrite (IH1 s c k1 k2), (IH2 s c k1 k2).
  - fold (star_loop r k1) (star_loop r k2). generalize (String.length s) as fuel. intros fuel. revert s c.
    induction fuel as [|fuel IHf]; intros s c; [apply Hk|].
    rewrite !star_loop_S, Hk.
    assert (forall s' c', (if String.length s' <? String.length s then star_loop r k1 fuel s' c' else None)
                          = (if String.length s' <? String.length s then star_loop r k2 fuel s' c' else None)) as He
      by (intros; by rewrite IHf).
    by rewrite (IH s c _ _ He).
  - by apply IH.
  - destruct s; [apply Hk|]. destruct (is_word _); [done|apply Hk].
Qed.

Lemma star_loop_enough {X} r (k : string -> captures -> option X) fuel : forall s c,
  String.length s <= fuel -> star_loop r k fuel s c = star_loop r k (String.length s) s c.
Proof.
  induction (lt_wf fuel) as [fuel _ IH]. intros s c Hs.
  destruct fuel as [|fuel]; [by destruct s; cbn in Hs; [|lia]|].
  destruct s as [|a s].
  - rewrite star_loop_S. destruct (run r "" c _) as [x|] eqn:E; [|done].
    apply run_sound in E as (t & rest & c' & _ & _ & Hk). by destruct (Nat.ltb_spec (String.length rest) 0); [lia|].
  - cbn [String.length]. rewrite !star_loop_S.
    rewrite (run_ext r _ c _ (fun s' c' => if String.length s' <? S (String.length s)
                                      then star_loop r k (String.length s) s' c' else None)); [done|].
    intros s' c'. cbn [String.length] in *. destruct (Nat.ltb_spec (String.length s') (S (String.length s))); [|done].
    rewrite (IH fuel) by lia. destruct (decide (String.length s = fuel)) as [->|]; [by rewrite (IH fuel) by lia|].
    by rewrite (IH (String.length s)) by lia.
Qed.

(** A text the pattern can stand for, after which the search goes through, makes
    the matcher answer - if not with it, with one that comes before it. *)
Lemma run_complete {X} r t rest c c' :
  consumes r t rest c c' ->
  forall (k : string -> captures -> option X), is_Some (k rest c') -> is_Some (run r (t +:+ rest) c k).
Proof.
  intros H. induction H as [p a rest c Hp| |r1 r2 t1 t2 rest c c1 c2 _ IH1 _ IH2|r1 r2 t rest c c' _ IH
    |r1 r2 t rest c c' _ IH|r rest c|r t1 t2 rest c c1 c2 Hn _ IH1 _ IH2|n r t rest c c' _ IH|rest c Hw]; intros k Hk.
  - cbn. by rewrite Hp.
  - done.
  - rewrite app_assoc_str. cbn. by apply IH1, IH2.
  - cbn. destruct (IH k Hk) as [x ->]. done.
  - cbn. destruct (run r1 _ _ _); [done|]. by apply IH.
  - rewrite run_star. destruct (String.length _) as [|fuel]; [done|].
    rewrite star_loop_S. by destruct (run r _ _ _).
  - specialize (IH2 k Hk). rewrite run_star in IH2. rewrite run_star, app_assoc_str.
    assert (0 < String.length t1) as Hl by (destruct t1; [done|cbn; lia]).
    destruct (String.length (t1 +:+ t2 +:+ rest)) as [|fuel] eqn:Ef; [rewrite length_app_str in Ef; lia|].
    rewrite star_loop_S, Ef. rewrite length_app_str in Ef.
    destruct (run r _ c _) as [y|] eqn:E; [done|]. exfalso.
    assert (is_Some (run r (t1 +:+ t2 +:+ rest) c (fun s' c' =>
      if String.length s' <? S fuel then star_loop r k fuel s' c' else None))) as [x Hx]; [|congruence].
    apply IH1. destruct (Nat.ltb_spec (String.length (t2 +:+ rest)) (S fuel)); [|lia].
    by rewrite star_loop_enough by lia.
  - cbn. apply IH. by rewrite consumed_app.
  - cbn. destruct rest as [|a rest]; [done|]. by rewrite Hw.
Qed.

(** ** The matcher against the specification *)

(** What [FindStringSubmatch] answers is a part of the text the pattern can stand
    for, with that reading's captures. *)
Lemma match_here_sound r s t c rest :
  match_here r s = Some (t, c, rest) -> s = t +:+ rest /\ consumes r t rest [] c.
Proof.
  unfold match_here. intros H. apply run_sound in H as (t1 & r1 & c1 & Hs & Hc & H). injection H as <- <- <-.
  by rewrite Hs, consumed_app.
Qed.

Lemma find_match_sound r s t c rest :
  find_match r s = Some (t, c, rest) -> exists before, s = before +:+ t +:+ rest /\ consumes r t rest [] c.
Proof.
  induction s as [|a s IH]; intros H; cbn [find_match] in H;
    (destruct (match_here r _) as [x|] eqn:E;
       [injection H as ->; apply match_here_sound in E as [-> Hc]; by exists ""|]); [done|].
  apply IH in H as (before & -> & Hc). by exists (String a before).
Qed.

(** No answer means that no part of the text has the form. *)
Lemma find_match_none r s before t rest c :
  find_match r s = None -> s = before +:+ t +:+ rest -> ~ consumes r t rest [] c.
Proof.
  revert before. induction s as [|a s IH]; intros before H Hs Hc; cbn [find_match] in H.
  - destruct before; [|done]. destruct t; [|done]. destruct rest; [|done].
    apply (run_complete (X := string * captures * string)) with (k := fun rest c => Some (consumed "" rest, c, rest)) in Hc as [x Hx]; [|done].
    unfold match_here in H. cbn in Hx, H. by rewrite Hx in H.
  - destruct (match_here r _) eqn:E; [done|]. destruct before as [|b before]; [|injection Hs as _ Hs; by apply (IH before)].
    cbn in Hs. unfold match_here in E.
    apply (run_complete (X := string * captures * string)) with (k := fun rest c => Some (consumed (String a s) rest, c, rest)) in Hc as [x Hx]; [|done].
    rewrite <- Hs in Hx. by rewrite Hx in E.
Qed.

Lemma find_match_form r s : is_Some (find_match r s) <-> exists before t rest c, s = before +:+ t +:+ rest /\ consumes r t rest [] c.
Proof.
  split.
  - intros [[[t c] rest] H]. apply find_match_sound in H as (before & Hs & Hc). eauto 6.
  - intros (before & t & rest & c & Hs & Hc). destruct (find_match r s) eqn:E; [done|].
    by apply (find_match_none _ _ _ _ _ _ E Hs) in Hc.
Qed.
