(* ===== verification/Float64.v ===== *)
(** * Go's [float64] on the values the progress parsers meet

    Every float here is zero or a positive number far from the largest and the
    smallest exponents, so IEEE 754's binary64 is: the exact result, rounded to
    53 significant bits, ties to even.  A float is the rational number it stands
    for; [round] is correct rounding ([round_nearest]) and the arithmetic of the
    parsers is [round] after an exact operation. *)
From S2P Require Import Prelude.
From Stdlib Require Import QArith Qround Qpower Lqa.
From stdpp Require Import options.
Local Open Scope Q_scope.

Definition pow2 (e : Z) : Q := 2 ^ e.

(** The exponent of the binade of a positive number. *)
Definition floor_log2 (x : Q) : Z :=
  let k := (Z.log2 (Qnum x) - Z.log2 (Zpos (Qden x)))%Z in
  if Qle_bool (pow2 k) x then k else (k - 1)%Z.

(** The nearest integer, the even one of two. *)
Definition half_even (x : Q) : Z :=
  let q := Qfloor x in
  match Qcompare (x - inject_Z q) (1 # 2) with
  | Lt => q
  | Gt => (q + 1)%Z
  | Eq => if Z.even q then q else (q + 1)%Z
  end.

(** The weight of the last of 53 bits. *)
Definition ulp_exponent (x : Q) : Z := (floor_log2 x - 52)%Z.

Definition round (x : Q) : Q :=
  if Qle_bool x 0 then 0
  else let e := ulp_exponent x in Qred (inject_Z (half_even (x / pow2 e)) * pow2 e).

(** [float64(n)], [x / y], [x * y] and [int64(x)] of a float in range. *)
Definition of_int (n : Z) : Q := round (inject_Z n).
Definition div (x y : Q) : Q := round (x / y).
Definition mul (x y : Q) : Q := round (x * y).
Definition to_int (x : Q) : Z := Qfloor x.

(** * Lemmas *)

Lemma pow2_pos e : 0 < pow2 e.
Proof. apply Qpower_0_lt. reflexivity. Qed.

Lemma pow2_add a b : pow2 (a + b) == pow2 a * pow2 b.
Proof. apply Qpower_plus. discriminate. Qed.

Lemma pow2_mono a b : (a <= b)%Z -> pow2 a <= pow2 b.
Proof. intros H. apply Qpower_le_compat_l; [done|discriminate]. Qed.

Lemma pow2_int a : (0 <= a)%Z -> pow2 a == inject_Z (2 ^ a).
Proof. intros H. unfold pow2. by rewrite Zpower_Qpower. Qed.

Lemma Q_num_den x : x == inject_Z (Qnum x) / inject_Z (Zpos (Qden x)).
Proof. destruct x as [n d]. exact (Qmake_Qdiv n d). Qed.

(** ** The binade *)

Lemma floor_log2_spec x : 0 < x -> pow2 (floor_log2 x) <= x /\ x < pow2 (floor_log2 x + 1).
Proof.
  intros Hx. unfold floor_log2. set (a := Z.log2 (Qnum x)). set (b := Z.log2 (Zpos (Qden x))).
  assert (0 < Qnum x)%Z as Hn by (unfold Qlt in Hx; cbn in Hx; lia).
  pose proof (Z.log2_nonneg (Qnum x)) as Ha0. pose proof (Z.log2_nonneg (Zpos (Qden x))) as Hb0. fold a b in Ha0, Hb0.
  pose proof (Z.log2_spec _ Hn) as [Ha1 Ha2]. fold a in Ha1, Ha2.
  pose proof (Z.log2_spec (Zpos (Qden x)) ltac:(done)) as [Hb1 Hb2]. fold b in Hb1, Hb2.
  assert (0 < inject_Z (Zpos (Qden x))) as Hd by (unfold Qlt; cbn; lia).
  assert (x < pow2 (a - b + 1)) as Hup.
  { rewrite (Q_num_den x) at 1. apply Qlt_shift_div_r; [done|].
    assert (pow2 (a - b + 1) * pow2 b == pow2 (a + 1)) as E by (rewrite <- pow2_add; f_equiv; lia).
    assert (inject_Z (Qnum x) < pow2 (a + 1)) by (rewrite pow2_int by lia; by rewrite <- Zlt_Qlt).
    assert (pow2 b <= inject_Z (Zpos (Qden x))) by (rewrite pow2_int by lia; by rewrite <- Zle_Qle).
    pose proof (pow2_pos (a - b + 1)). nra. }
  assert (pow2 (a - b - 1) <= x) as Hlow.
  { rewrite (Q_num_den x) at 1. apply Qle_shift_div_l; [done|].
    assert (pow2 (a - b - 1) * pow2 (b + 1) == pow2 a) as E by (rewrite <- pow2_add; f_equiv; lia).
    assert (pow2 a <= inject_Z (Qnum x)) by (rewrite pow2_int by lia; by rewrite <- Zle_Qle).
    assert (inject_Z (Zpos (Qden x)) < pow2 (b + 1)) by (rewrite pow2_int by lia; by rewrite <- Zlt_Qlt).
    pose proof (pow2_pos (a - b - 1)). nra. }
  destruct (Qle_bool (pow2 (a - b)) x) eqn:E.
  - apply Qle_bool_iff in E. done.
  - split; [done|]. replace (a - b - 1 + 1)%Z with (a - b)%Z by lia.
    apply Qnot_le_lt. intros H%Qle_bool_iff. congruence.
Qed.

(** ** The nearest integer *)

Lemma half_even_bounds x : (Qfloor x <= half_even x <= Qfloor x + 1)%Z.
Proof. unfold half_even. destruct (Qcompare _ _); [destruct (Z.even _)|..]; lia. Qed.

Lemma half_even_ge x m : inject_Z m <= x -> (m <= half_even x)%Z.
Proof.
  intros H. apply Qfloor_resp_le in H. rewrite Qfloor_Z in H. pose proof (half_even_bounds x). lia.
Qed.

Lemma half_even_le x m : x <= inject_Z m -> (half_even x <= m)%Z.
Proof.
  intros H. pose proof (Qfloor_resp_le _ _ H) as Hf. rewrite Qfloor_Z in Hf.
  destruct (Z.eq_dec (Qfloor x) m) as [E|E]; [|pose proof (half_even_bounds x); lia].
  unfold half_even. rewrite E. pose proof (Qfloor_le x) as Hl. rewrite E in Hl.
  destruct (Qcompare_spec (x - inject_Z m) (1 # 2)); (lia || (exfalso; lra)).
Qed.

Lemma half_even_mono x y : x <= y -> (half_even x <= half_even y)%Z.
Proof.
  intros H. pose proof (Qfloor_resp_le _ _ H) as Hf.
  destruct (Z.eq_dec (Qfloor x) (Qfloor y)) as [E|E];
    [|pose proof (half_even_bounds x); pose proof (half_even_bounds y); lia].
  unfold half_even. rewrite E. set (f := Qfloor y).
  destruct (Qcompare_spec (x - inject_Z f) (1 # 2)), (Qcompare_spec (y - inject_Z f) (1 # 2));
    (destruct (Z.even f); lia) || (exfalso; lra).
Qed.

Lemma half_even_near x : inject_Z (half_even x) - x <= 1 # 2 /\ x - inject_Z (half_even x) <= 1 # 2.
Proof.
  pose proof (Qfloor_le x) as H1. pose proof (Qlt_floor x) as H2. rewrite inject_Z_plus in H2.
  unfold half_even. set (f := Qfloor x) in *. change (inject_Z 1) with 1 in H2.
  destruct (Qcompare_spec (x - inject_Z f) (1 # 2)); [destruct (Z.even f)|..];
    rewrite ?inject_Z_plus; change (inject_Z 1) with 1; lra.
Qed.

(** ** Rounding *)

Lemma round_pos x : 0 < x ->
  round x == inject_Z (half_even (x / pow2 (ulp_exponent x))) * pow2 (ulp_exponent x).
Proof.
  intros H. unfold round. destruct (Qle_bool x 0) eqn:E; [apply Qle_bool_iff in E; exfalso; lra|].
  apply Qred_correct.
Qed.

Lemma round_0 x : x <= 0 -> round x == 0.
Proof. intros H. unfold round. by apply Qle_bool_iff in H as ->. Qed.

(** The significand: 2^52 <= x / ulp < 2^53. *)
Lemma significand x : 0 < x ->
  inject_Z (2 ^ 52) <= x / pow2 (ulp_exponent x) /\ x / pow2 (ulp_exponent x) < inject_Z (2 ^ 53).
Proof.
  intros H. destruct (floor_log2_spec x H) as [Hl Hu]. unfold ulp_exponent.
  set (e := (floor_log2 x - 52)%Z). pose proof (pow2_pos e).
  rewrite <- !pow2_int by lia. split.
  - apply Qle_shift_div_l; [done|]. rewrite <- pow2_add. by replace (52 + e)%Z with (floor_log2 x) by lia.
  - apply Qlt_shift_div_r; [done|]. rewrite <- pow2_add. by replace (53 + e)%Z with (floor_log2 x + 1)%Z by lia.
Qed.

(** A number of 53 bits that is not below [x] is not below the rounded one. *)
Lemma round_le_grid x m f :
  0 < x -> (0 <= m <= 2 ^ 53)%Z -> x <= inject_Z m * pow2 f -> round x <= inject_Z m * pow2 f.
Proof.
  intros Hx Hm H. rewrite (round_pos x Hx). destruct (significand x Hx) as [Hl Hu].
  set (e := ulp_exponent x) in *. pose proof (pow2_pos e) as He.
  assert (x == x / pow2 e * pow2 e) as Ex by (field; intros E; rewrite E in He; lra).
  destruct (Z_le_gt_dec e f) as [Hef|Hef].
  - assert (pow2 f == inject_Z (2 ^ (f - e)) * pow2 e) as Ef
      by (rewrite <- pow2_int by lia; rewrite <- pow2_add; f_equiv; lia).
    rewrite Ef, Qmult_assoc, <- inject_Z_mult in H |- *. apply Qmult_le_compat_r; [|lra].
    rewrite <- Zle_Qle. apply half_even_le. apply Qle_shift_div_r; done.
  - (* then [m * 2^f] is at most [2^52 * 2^e], and [x] is that *)
    assert (inject_Z m * pow2 f <= inject_Z (2 ^ 52) * pow2 e) as Hg.
    { assert (pow2 (f + 1) <= pow2 e) as Hp by (apply pow2_mono; lia).
      assert (pow2 (f + 1) == 2 * pow2 f) as Hp' by (rewrite pow2_add; change (pow2 1) with 2; ring).
      assert (inject_Z m <= inject_Z (2 ^ 53)) as Hm' by (rewrite <- Zle_Qle; lia).
      change (inject_Z (2 ^ 53)) with (inject_Z (2 * 2 ^ 52)) in Hm'. rewrite inject_Z_mult in Hm'.
      change (inject_Z 2) with 2 in Hm'. pose proof (pow2_pos f).
      assert (0 <= inject_Z (2 ^ 52)) by (change 0 with (inject_Z 0); rewrite <- Zle_Qle; lia). nra. }
    assert (half_even (x / pow2 e) <= 2 ^ 52)%Z as Hh.
    { apply half_even_le. apply Qle_shift_div_r; [done|]. lra. }
    assert (inject_Z (half_even (x / pow2 e)) <= inject_Z (2 ^ 52)) as Hh' by (by rewrite <- Zle_Qle).
    assert (inject_Z (2 ^ 52) * pow2 e <= x) by (rewrite Ex; apply Qmult_le_compat_r; lra). nra.
Qed.

Lemma round_le_int x m : 0 < x -> (0 <= m <= 2 ^ 53)%Z -> x <= inject_Z m -> round x <= inject_Z m.
Proof.
  intros Hx Hm H. pose proof (round_le_grid x m 0 Hx Hm) as Hg. change (pow2 0) with 1 in Hg. lra.
Qed.

Lemma round_nonneg x : 0 <= round x.
Proof.
  destruct (Qlt_le_dec 0 x) as [H|H]; [|rewrite round_0 by done; lra].
  rewrite round_pos by done. destruct (significand x H) as [Hl _]. apply half_even_ge in Hl.
  apply Qmult_le_0_compat; [|pose proof (pow2_pos (ulp_exponent x)); lra].
  change 0 with (inject_Z 0). rewrite <- Zle_Qle. lia.
Qed.

Lemma round_mono x y : x <= y -> round x <= round y.
Proof.
  intros H. destruct (Qlt_le_dec 0 x) as [Hx|Hx]; [|rewrite round_0 by done; apply round_nonneg].
  assert (0 < y) as Hy by lra. rewrite (round_pos y Hy). destruct (significand y Hy) as [Hl _].
  destruct (floor_log2_spec x Hx) as [Hx1 Hx2]. destruct (floor_log2_spec y Hy) as [Hy1 Hy2].
  destruct (Z_lt_le_dec (floor_log2 y) (floor_log2 x)) as [Hc|Hc].
  { exfalso. assert (pow2 (floor_log2 y + 1) <= pow2 (floor_log2 x)) by (apply pow2_mono; lia). lra. }
  set (e := ulp_exponent y) in *. pose proof (pow2_pos e) as He.
  destruct (Z.eq_dec (floor_log2 x) (floor_log2 y)) as [E|E].
  - rewrite (round_pos x Hx). assert (ulp_exponent x = e) as -> by (unfold e, ulp_exponent; lia).
    apply Qmult_le_compat_r; [|lra]. rewrite <- Zle_Qle. apply half_even_mono.
    apply Qmult_le_compat_r; [done|]. apply Qlt_le_weak, Qinv_lt_0_compat, He.
  - apply Qle_trans with (inject_Z (2 ^ 53) * pow2 (e - 1)).
    + apply round_le_grid; [done|lia|].
      assert (x <= pow2 (53 + (e - 1))) as Hb
        by (apply Qlt_le_weak, Qlt_le_trans with (1 := Hx2), pow2_mono; unfold e, ulp_exponent; lia).
      by rewrite pow2_add, (pow2_int 53) in Hb by lia.
    + apply half_even_ge in Hl. rewrite Zle_Qle in Hl.
      assert (inject_Z (2 ^ 53) * pow2 (e - 1) == inject_Z (2 ^ 52) * pow2 e) as ->.
      { rewrite <- !pow2_int, <- !pow2_add by lia. f_equiv. lia. }
      apply Qmult_le_compat_r; [done|lra].
Qed.

(** Correct rounding: no more than half a unit in the last place away. *)
Lemma round_nearest x : 0 < x ->
  round x - x <= (1 # 2) * pow2 (ulp_exponent x) /\ x - round x <= (1 # 2) * pow2 (ulp_exponent x).
Proof.
  intros Hx. rewrite (round_pos x Hx). set (e := ulp_exponent x). pose proof (pow2_pos e) as He.
  assert (x == x / pow2 e * pow2 e) as Ex by (field; intros E; rewrite E in He; lra).
  destruct (half_even_near (x / pow2 e)) as [H1 H2]. set (h := inject_Z (half_even (x / pow2 e))) in *.
  set (q := x / pow2 e) in *. rewrite Ex. split; nra.
Qed.

Lemma to_int_nonneg x : 0 <= x -> (0 <= to_int x)%Z.
Proof. intros H. apply (Qfloor_resp_le 0). done. Qed.

Lemma to_int_le x m : x <= inject_Z m -> (to_int x <= m)%Z.
Proof. intros H. apply Qfloor_resp_le in H. by rewrite Qfloor_Z in H. Qed.

Lemma to_int_lt x m : x < inject_Z m -> (to_int x < m)%Z.
Proof.
  intros H. rewrite Zlt_Qlt. apply Qle_lt_trans with x; [apply Qfloor_le|done].
Qed.

(** The percentage of a part in a whole is one. *)
Lemma percentage_bounds b t : (0 <= b <= t)%Z -> (0 < t)%Z ->
  (0 <= to_int (mul (div (of_int b) (of_int t)) (inject_Z 100)) <= 100)%Z.
Proof.
  intros Hb Ht. split; [apply to_int_nonneg, round_nonneg|].
  assert (of_int b <= of_int t) as Hle by (apply round_mono; rewrite <- Zle_Qle; lia).
  pose proof (round_nonneg (inject_Z b)) as Hb0. fold (of_int b) in Hb0.
  assert (0 < of_int t) as Ht0.
  { apply Qlt_le_trans with (of_int 1); [vm_compute; reflexivity|].
    apply round_mono. rewrite <- Zle_Qle. lia. }
  assert (div (of_int b) (of_int t) <= 1) as H1.
  { unfold div. destruct (Qlt_le_dec 0 (of_int b / of_int t)) as [H|H]; [|rewrite round_0 by done; lra].
    apply (round_le_int _ 1); [done|lia|]. apply Qle_shift_div_r; [done|]. change (inject_Z 1) with 1. lra. }
  apply to_int_le. unfold mul. set (d := div (of_int b) (of_int t)) in *.
  destruct (Qlt_le_dec 0 (d * inject_Z 100)) as [H|H]; [|rewrite round_0 by done; discriminate].
  apply round_le_int; [done|lia|]. change (inject_Z 100) with 100 in *. lra.
Qed.
