(* ===== verification/Progress.v ===== *)
(** * Progress: reading a data mover's log and driving the bar

    internal/progresslog/logger.go, the three parsers of internal/rsync/progress,
    internal/rclone/progress and internal/archive/progress, and the choice between
    them in internal/jobprogress.  A parser that remembers something carries it as
    a state.  Lines are cut out of the pieces [Read] hands over, as [bufio.Scanner]
    does it.  JSON decoding is a parameter, and so is what the processor makes of a
    float too large for an int64, which Go leaves open. *)
From S2P Require Import Prelude GoStrings Regex Float64 Archive Jobs.
From Stdlib Require Import QArith Qround Lqa.
From stdpp Require Import options.
Local Open Scope nat_scope.

Record Update : Type := mkUpdate {
  Line : string;
  Percentage : Z;
  Transferred : Z;
  Total : Z
}.
Definition no_update : Update := mkUpdate "" 0 0 0.

(** [ParseLineFunc], with the state of its closure. *)
Definition ParseLineFunc : Type := Z -> string -> Z * result Update.

(** ** internal/progresslog: cutting lines *)

Definition is_crlf (a : ascii) : bool := bool_decide (a = cr \/ a = lf).

(** The text before the first CR or LF, and what follows it. *)
Fixpoint cut_crlf (s : string) : option (string * ascii * string) :=
  match s with
  | EmptyString => None
  | String a s => if is_crlf a then Some ("", a, s)
                  else match cut_crlf s with Some (t, b, r) => Some (String a t, b, r) | None => None end
  end.

(** The token and what is left; [None] asks for more data. *)
Definition scanCRLF (data : string) (atEOF : bool) : option (string * string) :=
  if atEOF && bool_decide (data = "") then None
  else match cut_crlf data with
       | Some (token, a, rest) =>
           match rest with
           | String b rest' => if decide (a = cr /\ b = lf) then Some (token, rest') else Some (token, rest)
           | EmptyString => Some (token, "")
           end
       | None => if atEOF then Some (data, "") else None
       end.

(** The tokens that can be had from the buffer, and what stays in it.  A token
    takes a byte or more, so the length of the data is fuel enough. *)
Fixpoint drain (fuel : nat) (data : string) (atEOF : bool) : list string * string :=
  match fuel with
  | O => ([], data)
  | S fuel =>
      match scanCRLF data atEOF with
      | Some (token, rest) => let '(tokens, kept) := drain fuel rest atEOF in (token :: tokens, kept)
      | None => ([], data)
      end
  end.

Definition MaxScanTokenSize : nat := 64 * 1024.

(** [Scanner.Scan] until it stops, over what [Read] returns one call after the
    other; [false] is [ErrTooLong]. *)
Fixpoint scan (data : string) (reads : list string) : list string * bool :=
  let '(tokens, kept) := drain (String.length data) data false in
  if decide (MaxScanTokenSize <= String.length kept) then (tokens, false)
  else match reads with
       | [] => (tokens ++ (drain (String.length kept) kept true).1, true)
       | read :: reads => let '(more, ok) := scan (kept +:+ read) reads in (tokens ++ more, ok)
       end.

(** [progresslog.FindLast] *)
Definition FindLast (reads : list string) (parseLine : string -> result Update) : Update :=
  fold_left (fun latest token => match parseLine token with Ok progress => progress | Err _ => latest end)
    (scan "" reads).1 no_update.

(** ** internal/progresslog: the bar *)

Definition barMaximum : Z := 100.
Definition barStreamedMaximum : Z := barMaximum - 1.

Record Logger : Type := mkLogger {
  ShowProgressBar : bool;      (* the bar exists from the first stream on *)
  barTransferred : Z;
  barFinished : bool
}.

(** What a step does to the bar: [Set64] and [Finish] of the library. *)
Inductive bar_call : Type := Set64 (n : Z) | Finish.

Definition Rendered (l : Logger) : bool := bool_decide (0 < barTransferred l)%Z || barFinished l.

Definition updateProgressBar (percentage : Z) : bar_call := Set64 (Z.min percentage barStreamedMaximum).

(** [handleLine]; [parsed] is what the parser made of the line. *)
Definition handleLine (l : Logger) (parsed : result Update) : Logger * list bar_call :=
  match parsed with
  | Err _ => (l, [])
  | Ok progress =>
      if negb (ShowProgressBar l) then (l, [])
      else if decide (Transferred progress < barTransferred l)%Z then (l, [])
      else (mkLogger true (Transferred progress) (barFinished l), [updateProgressBar (Percentage progress)])
  end.

(** The success signal read by [handleLogs]. *)
Definition handleSuccess (l : Logger) : Logger * list bar_call :=
  if ShowProgressBar l && negb (barFinished l)
  then (mkLogger true (barTransferred l) true, [Finish]) else (l, []).

Definition FinishBar (l : Logger) : Logger * list bar_call :=
  if negb (ShowProgressBar l) || barFinished l || bool_decide (barTransferred l = 0)%Z then (l, [])
  else (mkLogger true (barTransferred l) true, [Finish]).

(** ** internal/progresslog: retrying the stream *)

Definition logRetryInitialDelay : Z := 250000000.
Definition logRetryMaxDelay : Z := 5000000000.

(** How one [startSingle] ended: nil, cancelled, the stream's end or a failure. *)
Inductive attempt_end : Type := Ended | Canceled | EndOfStream | Failed (e : error).

(** One round of [Start]: whether it was told to stop before the attempt, how the
    attempt ended, and whether it was told to stop during the delay. *)
Record round_of_start : Type := mkRound { stop_before : bool; attempt : attempt_end; stop_during : bool }.

(** The delays waited. *)
Fixpoint Start_from (retryDelay : Z) (rounds : list round_of_start) : list Z :=
  match rounds with
  | [] => []
  | r :: rounds =>
      if stop_before r then []
      else match attempt r with
           | Ended | Canceled => []
           | EndOfStream | Failed _ =>
               retryDelay :: (if stop_during r then []
                              else Start_from (if decide (logRetryMaxDelay < retryDelay * 2)%Z
                                               then logRetryMaxDelay else retryDelay * 2)%Z rounds)
           end
  end.
Definition Start (rounds : list round_of_start) : list Z := Start_from logRetryInitialDelay rounds.

(** ** internal/rsync/progress *)

Definition blank : regex := Class is_blank.
Definition digit : regex := Class is_digit.

(** [[0-9]+(,[0-9]+)*] *)
Definition number : regex := Regex.Seq (Plus digit) (Star (Group "" (Regex.Seq (lit ",") (Plus digit)))).

Definition progressRegex : regex :=
  Regex.Seq (Star blank) (Regex.Seq (Group "bytes" number) (Regex.Seq (Plus blank)
    (Regex.Seq (Group "percentage" (Alt (Regex.text "100") (Regex.Seq digit (Opt digit)))) (lit "%")))).

Definition rsyncEndRegex : regex :=
  Regex.Seq (Star blank) (Regex.Seq (Regex.text "total size is ") (Group "bytes" number)).

(** What [strconv] says of a number too large for an int64. *)
Definition range_error (s : string) : error := Errorf "strconv.ParseInt: parsing %q: value out of range" [AStr s].

Definition parseNumBytes (numBytes : string) : result Z :=
  let s := ReplaceAll numBytes "," "" in
  match ParseInt s with
  | Some n => Ok n
  | None => Err (Errorf "cannot parse number of bytes: %w" [AWrap (range_error s)])
  end.

Definition estimateTotal (transferred percentage : Z) : Z :=
  if decide (percentage <= 0)%Z then transferred
  else
    let scaled := mul (div (of_int transferred) (of_int percentage)) (inject_Z 100) in
    if Qle_bool (of_int max_int64) scaled then transferred
    else Z.max transferred (to_int scaled).

Definition rsync_ParseLine (line : string) : result Update :=
  match find_match rsyncEndRegex line with
  | Some (_, c, _) =>
      total ← parseNumBytes (group c "bytes");
      Ok (mkUpdate line 100%Z total total)
  | None =>
      match find_match progressRegex line with
      | None => Err (ErrNew "no match")
      | Some (_, c, _) =>
          match ParseInt (group c "percentage") with
          | None => Err (Errorf "cannot parse percentage: %w" [AWrap (range_error (group c "percentage"))])
          | Some percentage =>
              if decide (percentage = 0)%Z then Ok (mkUpdate line 0 0 0)
              else
                transferred ← parseNumBytes (group c "bytes");
                Ok (mkUpdate line percentage transferred (estimateTotal transferred percentage))
          end
      end
  end.

(** ** internal/rclone/progress *)

Section Rclone.
(** [json.Unmarshal] of a line: its stats, when it has them, as the two counts. *)
Variable Unmarshal : string -> result (option (Z * Z)).

Definition rclone_ParseLine (line : string) : result Update :=
  let line := TrimSpace line in
  if decide (line = "") then Err (ErrNew "empty line")
  else
    entry ← wrap_err "cannot parse JSON log line: %w" (Unmarshal line);
    match entry with
    | None => Err (ErrNew "no stats in log line")
    | Some (Bytes, TotalBytes) =>
        if decide (Bytes < 0 \/ TotalBytes < 0)%Z then Err (ErrNew "negative byte count in log line")
        else
          let percentage :=
            if decide (0 < TotalBytes)%Z then
              if decide (TotalBytes <= Bytes)%Z then 100%Z
              else to_int (mul (div (of_int Bytes) (of_int TotalBytes)) (inject_Z 100))
            else 0%Z in
          Ok (mkUpdate line percentage Bytes (Z.max Bytes TotalBytes))
    end.
End Rclone.

(** ** internal/archive/progress *)

Definition readLine : regex :=
  Regex.Seq (Regex.text "Read:") (Regex.Seq (Plus blank)
    (Regex.Seq (Group "1" (Plus (Class (fun a => is_digit a || bool_decide (a = "."%char)))))
      (Regex.Seq (Star blank)
        (Regex.Seq (Group "2" (Regex.Seq (Opt (Class (mem_byte ["K"%char; "M"%char; "G"%char; "T"%char])))
                                 (Regex.Seq (Opt (lit "i")) (lit "B")))) WordEnd)))).

Definition totalLine : regex :=
  Regex.Seq (Regex.text TotalMarker) (Regex.Seq (Star blank) (Group "1" (Plus digit))).

Definition ErrNoMatch : error := ErrNew "line carries no progress".

Definition units : list (string * Z) :=
  [("B", 1); ("KiB", 2 ^ 10); ("MiB", 2 ^ 20); ("GiB", 2 ^ 30); ("TiB", 2 ^ 40)]%Z.

(** [strconv.ParseFloat] of digits and dots: [None] when it is not a number or is
    beyond the largest float. *)
Definition ParseFloat (s : string) : option Q :=
  let '(whole, fraction) := default (s, "") (Cut s ".") in
  match unsigned_digits (whole +:+ fraction) with
  | None => None
  | Some n =>
      let value := round (inject_Z n / inject_Z (10 ^ Z.of_nat (String.length fraction))) in
      if Qle_bool (pow2 1024) value then None else Some value
  end.


Section Archive.
(** [int64(x)] of a float out of range. *)
Variable out_of_range : Q -> Z.

Definition int64 (x : Q) : Z := if Qle_bool (pow2 63) x then out_of_range x else to_int x.

Definition parseRead (line : string) (total : Z) : result Update :=
  match find_match readLine line with
  | None => Err ErrNoMatch
  | Some (_, c, _) =>
      match List.find (fun u => bool_decide (u.1 = group c "2")) units with
      | None => Err (Errorf "%w: unknown unit %q" [AWrap ErrNoMatch; AStr (group c "2")])
      | Some (_, scale) =>
          match ParseFloat (group c "1") with
          | None => Err (Errorf "unreadable byte count %q: %w" [AStr (group c "1"); AWrap (ErrNew "strconv.ParseFloat")])
          | Some value =>
              if negb (Qle_bool 0 value)
              then Err (Errorf "%w: negative byte count %q" [AWrap ErrNoMatch; AStr (group c "1")])
              else
                let transferred := int64 (mul value (of_int scale)) in
                let total := if decide (total < transferred)%Z then transferred else total in
                let percentage :=
                  if decide (0 < total)%Z then Z.quot (wrap_int64 (transferred * 100)) total else 0%Z in
                Ok (mkUpdate (TrimSpace line) percentage transferred total)
          end
      end
  end.

(** The closure [NewParser] returns; its [total] starts at 0. *)
Definition NewParser : ParseLineFunc := fun total line =>
  match find_match totalLine line with
  | Some (_, c, _) =>
      match ParseInt (group c "1") with
      | None => (total, Err (Errorf "unreadable total %q: %w" [AStr (group c "1"); AWrap (range_error (group c "1"))]))
      | Some parsed => (parsed, Err ErrNoMatch)
      end
  | None => (total, parseRead line total)
  end.

(** [strconv.ParseInt] of digits whose error is not looked at: the largest int64
    stands for what does not fit. *)
Definition parse_saturating (s : string) : Z := default max_int64 (ParseInt s).

Definition archive_FindLast (text : string) : option Update :=
  let total := match find_match totalLine text with Some (_, c, _) => parse_saturating (group c "1") | None => 0%Z end in
  first_some (fun m => match parseRead m total with Ok update => Some update | Err _ => None end)
    (reverse (find_all readLine text)).

(** ** internal/jobprogress *)

Definition stateless (parse : string -> result Update) : ParseLineFunc := fun total line => (total, parse line).

(** A second parser is only asked about a line the first one refused. *)
Fixpoint firstMatch (parsers : list ParseLineFunc) : ParseLineFunc := fun total line =>
  match parsers with
  | [] => (total, Ok no_update)
  | [parse] => parse total line
  | parse :: parsers =>
      match parse total line with
      | (total, Ok update) => (total, Ok update)
      | (total, Err _) => firstMatch parsers total line
      end
  end.

Variable Unmarshal : string -> result (option (Z * Z)).

(** [NewLogger]: the parser and the source of a Job's records. *)
Definition NewLogger (jobName : string) : option (ParseLineFunc * string) :=
  if HasSuffix jobName rsyncJobSuffix then Some (firstMatch [stateless rsync_ParseLine; NewParser], "rsync")
  else if HasSuffix jobName rcloneJobSuffix then Some (stateless (rclone_ParseLine Unmarshal), "rclone")
  else if HasSuffix jobName tarJobSuffix then
    Some (firstMatch [stateless (rclone_ParseLine Unmarshal); NewParser], "tar")
  else None.

(** [jobprogress.FindLast]; [reads] is the text as a reader of it hands it over. *)
Definition job_FindLast (jobName text : string) (reads : list string) : option Update :=
  if HasSuffix jobName rsyncJobSuffix then
    match archive_FindLast text with Some update => Some update | None => Some (FindLast reads rsync_ParseLine) end
  else if HasSuffix jobName rcloneJobSuffix || HasSuffix jobName tarJobSuffix then
    match archive_FindLast text with
    | Some update => Some update
    | None => Some (FindLast reads (rclone_ParseLine Unmarshal))
    end
  else None.
End Archive.


(** * Theorems *)

(** ** What the patterns capture *)

Fixpoint names (r : regex) : list string :=
  match r with
  | Class _ | Regex.Empty | WordEnd => []
  | Regex.Seq r1 r2 | Alt r1 r2 => names r1 ++ names r2
  | Star r => names r
  | Group n r => n :: names r
  end.

Lemma group_other r t rest c c' n : consumes r t rest c c' -> n ∉ names r -> group c' n = group c n.
Proof.
  induction 1; cbn [names]; intros Hn; rewrite ?elem_of_app, ?elem_of_cons in Hn; try done.
  - rewrite IHconsumes2, IHconsumes1; tauto.
  - apply IHconsumes. tauto.
  - apply IHconsumes. tauto.
  - rewrite IHconsumes2, IHconsumes1; done.
  - cbn [group]. rewrite decide_False by (intros ->; tauto). apply IHconsumes. tauto.
Qed.

Lemma consumes_seq r1 r2 t rest c c' :
  consumes (Regex.Seq r1 r2) t rest c c' ->
  exists t1 t2 c1, t = t1 +:+ t2 /\ consumes r1 t1 (t2 +:+ rest) c c1 /\ consumes r2 t2 rest c1 c'.
Proof. inversion 1; subst; eauto 10. Qed.

Lemma consumes_group n r t rest c c' :
  consumes (Group n r) t rest c c' -> exists c1, consumes r t rest c c1 /\ c' = (n, t) :: c1.
Proof. inversion 1; subst; eauto. Qed.

Lemma consumes_class p t rest c c' :
  consumes (Class p) t rest c c' -> exists a, t = String a "" /\ p a = true /\ c' = c.
Proof. inversion 1; subst; eauto. Qed.

Lemma consumes_all p t rest c c' r :
  (forall t rest c c', consumes r t rest c c' -> all_bytes p t = true) ->
  consumes (Star r) t rest c c' -> all_bytes p t = true.
Proof.
  intros Hr H. remember (Star r) as sr eqn:E. revert E.
  induction H; intros E; try discriminate E; [done|]. injection E as ->.
  rewrite all_bytes_app, (Hr _ _ _ _ H0). cbn. by apply IHconsumes2.
Qed.

Lemma consumes_plus p t rest c c' r :
  (forall t rest c c', consumes r t rest c c' -> all_bytes p t = true) ->
  consumes (Plus r) t rest c c' -> all_bytes p t = true.
Proof.
  intros Hr H. apply consumes_seq in H as (t1 & t2 & c1 & -> & H1 & H2).
  rewrite all_bytes_app, (Hr _ _ _ _ H1). cbn. by eapply consumes_all.
Qed.

Lemma consumes_text s t rest c c' : consumes (Regex.text s) t rest c c' -> t = s.
Proof.
  revert t rest c c'. induction s as [|a s IH]; intros t rest c c' H; [by inversion H|].
  apply consumes_seq in H as (t1 & t2 & c1 & -> & H1 & H2).
  apply consumes_class in H1 as (b & -> & ->%bool_decide_eq_true & ->). by rewrite (IH _ _ _ _ H2).
Qed.

Lemma digit_is t rest c c' : consumes digit t rest c c' -> all_bytes is_digit t = true /\ String.length t = 1.
Proof. intros (a & -> & Ha & _)%consumes_class. cbn. by rewrite Ha. Qed.

Definition numeric (a : ascii) : bool := is_digit a || bool_decide (a = ","%char).

Lemma number_numeric t rest c c' : consumes number t rest c c' -> all_bytes numeric t = true.
Proof.
  assert (forall t rest c c', consumes (Plus digit) t rest c c' -> all_bytes numeric t = true) as Hp.
  { intros ? ? ? ?. apply consumes_plus. intros ? ? ? ? [Hd _]%digit_is.
    revert Hd. apply all_bytes_impl. unfold numeric. by intros a ->. }
  intros (t1 & t2 & c1 & -> & H1 & H2)%consumes_seq. rewrite all_bytes_app, (Hp _ _ _ _ H1). cbn.
  revert H2. apply consumes_all. clear -Hp.
  intros t rest c c' (c1 & (t1 & t2 & c2 & -> & H1 & H2)%consumes_seq & _)%consumes_group.
  apply consumes_class in H1 as (a & -> & ->%bool_decide_eq_true & _).
  rewrite all_bytes_app, (Hp _ _ _ _ H2). done.
Qed.

(** ** Numbers read *)

Lemma digits_value_bounds s acc v :
  digits_value acc s = Some v -> (0 <= acc)%Z ->
  (0 <= v < (acc + 1) * 10 ^ Z.of_nat (String.length s))%Z.
Proof.
  revert acc. induction s as [|a s IH]; intros acc H Ha; cbn [digits_value] in H.
  - injection H as <-. cbn. lia.
  - destruct (is_digit a) eqn:Ed; [|done]. unfold is_digit in Ed. apply bool_decide_eq_true in Ed.
    apply IH in H; [|lia]. cbn [String.length]. rewrite Nat2Z.inj_succ, Z.pow_succ_r by lia.
    pose proof (Z.pow_pos_nonneg 10 (Z.of_nat (String.length s)) ltac:(lia) ltac:(lia)). nia.
Qed.

Lemma ParseInt_digits s v :
  all_bytes is_digit s = true -> ParseInt s = Some v ->
  (0 <= v <= max_int64)%Z /\ (v < 10 ^ Z.of_nat (String.length s))%Z.
Proof.
  intros Hd H. unfold ParseInt in H. destruct s as [|a s]; [done|].
  assert (is_digit a = true) as Ha by (cbn in Hd; by apply andb_true_iff in Hd as [? _]).
  assert (forall p, p = "-" \/ p = "+" -> CutPrefix (String a s) p = None) as Hs.
  { intros p Hp. destruct (CutPrefix (String a s) p) as [r|] eqn:E; [|done]. apply CutPrefix_Some in E.
    destruct Hp as [-> | ->]; injection E as -> ->; discriminate Ha. }
  rewrite !Hs in H by auto. unfold unsigned_digits in H.
  destruct (digits_value 0 (String a s)) as [w|] eqn:E; [|done]. cbn in H.
  apply digits_value_bounds in E; [|lia]. unfold in_int64 in H. case_bool_decide as Hw; [|done].
  injection H as <-. split; lia.
Qed.

Lemma ReplaceAll_commas t : all_bytes numeric t = true -> all_bytes is_digit (ReplaceAll t "," "") = true.
Proof.
  induction t as [|a t IH]; [done|]. cbn [all_bytes ReplaceAll]. intros [Ha Ht]%andb_true_iff.
  destruct (decide (a = ","%char)) as [->|Hn]; [by apply IH|].
  cbn [all_bytes]. rewrite (IH Ht). unfold numeric in Ha. rewrite bool_decide_eq_false_2 in Ha by done.
  by rewrite orb_false_r in Ha; rewrite Ha.
Qed.

Lemma parseNumBytes_bounds t n : all_bytes numeric t = true -> parseNumBytes t = Ok n -> (0 <= n <= max_int64)%Z.
Proof.
  intros Ht H. unfold parseNumBytes in H. destruct (ParseInt _) as [v|] eqn:E; [|done]. injection H as <-.
  apply ParseInt_digits in E; [tauto|]. by apply ReplaceAll_commas.
Qed.

(** ** The updates *)

(** What the bar and the status line rely on. *)
Definition usable (u : Update) : Prop :=
  (0 <= Percentage u <= 100)%Z /\ (0 <= Transferred u <= Total u)%Z /\ (Total u <= max_int64)%Z.

Lemma of_max_int64 : Qeq (of_int max_int64) (inject_Z (2 ^ 63)).
Proof. vm_compute. reflexivity. Qed.

Lemma estimateTotal_bounds transferred percentage :
  (0 <= transferred <= max_int64)%Z ->
  (transferred <= estimateTotal transferred percentage <= max_int64)%Z.
Proof.
  intros Ht. unfold estimateTotal. destruct (decide (percentage <= 0)%Z); [lia|].
  set (scaled := mul _ _). destruct (Qle_bool (of_int max_int64) scaled) eqn:E; [lia|].
  assert (Qlt scaled (inject_Z (2 ^ 63))) as Hs.
  { apply Qnot_le_lt. intros H. assert (Qle_bool (of_int max_int64) scaled = true); [|congruence].
    apply Qle_bool_iff. by rewrite of_max_int64. }
  apply to_int_lt in Hs. unfold max_int64 in *. lia.
Qed.

(** The captures of a progress line. *)
Lemma progress_captures t rest c :
  consumes progressRegex t rest [] c ->
  all_bytes numeric (group c "bytes") = true /\
  (group c "percentage" = "100" \/
   all_bytes is_digit (group c "percentage") = true /\ String.length (group c "percentage") <= 2).
Proof.
  intros (t1 & t2 & c1 & -> & _ & (t3 & t4 & c2 & -> & (c3 & Hn & ->)%consumes_group
    & (t5 & t6 & c4 & -> & H5 & (t7 & t8 & c5 & -> & (c6 & Hp & ->)%consumes_group
    & (a & -> & _ & ->)%consumes_class)%consumes_seq)%consumes_seq)%consumes_seq)%consumes_seq.
  pose proof (group_other _ _ _ _ _ "bytes" Hp ltac:(cbn; set_solver)) as Hb.
  rewrite (group_other _ _ _ _ _ "bytes" H5) in Hb by (cbn; set_solver).
  cbn [group] in *. rewrite decide_False by done. rewrite Hb, !decide_True by done.
  split; [by eapply number_numeric|].
  inversion Hp as [| | |r1 r2 t rest' c' c'' H|r1 r2 t rest' c' c'' H| | | |]; subst; [left; by eapply consumes_text|].
  right. apply consumes_seq in H as (u1 & u2 & c7 & -> & [H1 L1]%digit_is & H2).
  inversion H2 as [| | |r1 r2 t' rest'' c' c'' H|r1 r2 t' rest'' c' c'' H| | | |]; subst.
  - apply digit_is in H as [H3 L3]. rewrite all_bytes_app, H1, H3, length_app_str. split; [done|lia].
  - inversion H; subst. rewrite all_bytes_app, H1, length_app_str. split; [done|cbn; lia].
Qed.

Lemma end_captures t rest c : consumes rsyncEndRegex t rest [] c -> all_bytes numeric (group c "bytes") = true.
Proof.
  intros (t1 & t2 & c1 & -> & _ & (t3 & t4 & c2 & -> & _ & (c3 & Hn & ->)%consumes_group)%consumes_seq)%consumes_seq.
  cbn [group]. rewrite decide_True by done. by eapply number_numeric.
Qed.

Lemma rsync_usable line u : rsync_ParseLine line = Ok u -> usable u.
Proof.
  unfold rsync_ParseLine, usable.
  destruct (find_match rsyncEndRegex line) as [[[t c] rest]|] eqn:Ee.
  - apply find_match_sound in Ee as (_ & _ & Hc%end_captures). intros H. go_inv. cbn.
    apply parseNumBytes_bounds in E; [lia|done].
  - destruct (find_match progressRegex line) as [[[t c] rest]|] eqn:Ep; [|done].
    apply find_match_sound in Ep as (_ & _ & [Hb Hp]%progress_captures).
    destruct (ParseInt (group c "percentage")) as [p|] eqn:Epp; [|done].
    assert (0 <= p <= 100)%Z as Hp'.
    { destruct Hp as [Hp|[Hd Hl]].
      - rewrite Hp in Epp. vm_compute in Epp. injection Epp as <-. lia.
      - apply (ParseInt_digits _ _ Hd) in Epp as [? Hlt]. split; [lia|].
        assert (10 ^ Z.of_nat (String.length (group c "percentage")) <= 10 ^ 2)%Z by (apply Z.pow_le_mono_r; lia). lia. }
    destruct (decide (p = 0)%Z); [intros [= <-]; cbn; unfold max_int64; lia|].
    intros H. go_inv. cbn.
    apply parseNumBytes_bounds in E; [|done]. pose proof (estimateTotal_bounds r p E). lia.
Qed.

Lemma rclone_usable Unmarshal line u :
  (forall l b t, Unmarshal l = Ok (Some (b, t)) -> in_int64 b = true /\ in_int64 t = true) ->
  rclone_ParseLine Unmarshal line = Ok u -> usable u.
Proof.
  intros HU. unfold rclone_ParseLine. destruct (decide _); [done|]. intros H. go_inv.
  destruct r as [[b t]|]; [|done]. destruct (HU _ _ _ E) as [Hb Ht].
  unfold in_int64 in Hb, Ht. apply bool_decide_eq_true in Hb, Ht.
  destruct (decide _) as [|Hn]; [done|]. go_inv. unfold usable. cbn [Percentage Transferred Total].
  assert (0 <= b /\ 0 <= t)%Z as [Hb0 Ht0] by lia. split; [|lia].
  destruct (decide (0 < t)%Z); [|lia]. destruct (decide (t <= b)%Z); [lia|]. apply percentage_bounds; lia.
Qed.

Lemma archive_usable out_of_range line total u :
  (0 <= total <= max_int64)%Z -> parseRead out_of_range line total = Ok u ->
  (0 <= Transferred u)%Z -> (Transferred u * 100 <= max_int64)%Z -> usable u.
Proof.
  intros Ht H. unfold parseRead in H. destruct (find_match readLine line) as [[[t c] rest]|]; [|done].
  destruct (List.find _ _) as [[un scale]|]; [|done]. destruct (ParseFloat _) as [value|]; [|done].
  destruct (Qle_bool 0 value); [|done]. cbn [negb] in H. set (tr := int64 _ _) in H.
  go_inv. unfold usable. cbn [Percentage Transferred Total]. intros H0 Hm.
  set (T := if decide (total < tr)%Z then tr else total).
  assert (tr <= T <= max_int64)%Z as HT by (unfold T; destruct (decide (total < tr)%Z); lia).
  split; [|lia]. destruct (decide (0 < T)%Z); [|lia].
  assert (wrap_int64 (tr * 100) = tr * 100)%Z as ->.
  { unfold wrap_int64, max_int64 in *. rewrite Z.mod_small; lia. }
  split; [apply Z.quot_pos; lia|]. apply Z.quot_le_upper_bound; lia.
Qed.

(** ** Lines *)

Definition nonempty (s : string) : list string := if decide (s = "") then [] else [s].

(** The runs of bytes between line breaks, without the empty ones. *)
Fixpoint pieces_from (cur s : string) : list string :=
  match s with
  | EmptyString => nonempty cur
  | String a s => if is_crlf a then nonempty cur ++ pieces_from "" s else pieces_from (cur +:+ String a "") s
  end.
Definition pieces (s : string) : list string := pieces_from "" s.

Definition is_nonempty (s : string) : bool := negb (bool_decide (s = "")).

Lemma filter_nonempty s : List.filter is_nonempty [s] = nonempty s.
Proof. unfold nonempty, is_nonempty. cbn. destruct (decide (s = "")) as [->|H]; [done|]. by rewrite bool_decide_false. Qed.

Lemma cut_crlf_Some s t a r :
  cut_crlf s = Some (t, a, r) -> s = t +:+ String a r /\ is_crlf a = true /\ cut_crlf t = None.
Proof.
  revert t. induction s as [|b s IH]; intros t H; cbn in H; [done|]. destruct (is_crlf b) eqn:E.
  - injection H as <- <- <-. done.
  - destruct (cut_crlf s) as [[[t' a'] r']|]; [|done]. injection H as <- -> ->.
    destruct (IH t' eq_refl) as (-> & Ha & Ht). cbn. by rewrite E, Ht.
Qed.

(** A run without a line break goes into the piece at hand. *)
Lemma pieces_run cur t s : cut_crlf t = None -> pieces_from cur (t +:+ s) = pieces_from (cur +:+ t) s.
Proof.
  revert cur. induction t as [|a t IH]; intros cur H; cbn in *; [by rewrite app_nil_r_str|].
  destruct (is_crlf a); [done|]. destruct (cut_crlf t) as [[[]]|] eqn:E; [done|].
  rewrite IH by done. by rewrite app_assoc_str.
Qed.

Lemma pieces_break t a s :
  cut_crlf t = None -> is_crlf a = true -> pieces (t +:+ String a s) = nonempty t ++ pieces s.
Proof. intros Ht Ha. unfold pieces. rewrite pieces_run by done. cbn. by rewrite Ha. Qed.

Lemma pieces_lf s : pieces (String lf s) = pieces s.
Proof. done. Qed.

(** A token and the rest have the pieces of the data, whatever is read next. *)
Lemma scanCRLF_pieces data token rest more :
  scanCRLF data false = Some (token, rest) ->
  nonempty token ++ pieces (rest +:+ more) = pieces (data +:+ more) /\ String.length rest < String.length data.
Proof.
  unfold scanCRLF. cbn [andb]. destruct (cut_crlf data) as [[[t a] r]|] eqn:E; [|done].
  apply cut_crlf_Some in E as (-> & Ha & Ht). rewrite app_assoc_str, app_cons_str, (pieces_break t a) by done.
  destruct r as [|b r]; [intros [= <- <-]; split; [done|rewrite length_app_str; cbn; lia]|].
  destruct (decide (a = cr /\ b = lf)) as [[-> ->]|_]; intros [= <- <-]; split;
    rewrite ?length_app_str; cbn [String.length]; (done || lia).
Qed.

Lemma drain_pieces fuel data tokens kept more :
  String.length data <= fuel -> drain fuel data false = (tokens, kept) ->
  cut_crlf kept = None /\ List.filter is_nonempty tokens ++ pieces (kept +:+ more) = pieces (data +:+ more).
Proof.
  revert data tokens. induction fuel as [|fuel IH]; intros data tokens Hf H; cbn [drain] in H.
  - destruct data; [|cbn in Hf; lia]. by injection H as <- <-.
  - destruct (scanCRLF data false) as [[token rest]|] eqn:E.
    + destruct (scanCRLF_pieces _ _ _ more E) as [Hp Hl].
      destruct (drain fuel rest false) as [tokens' kept'] eqn:Ed. injection H as <- <-.
      destruct (IH rest tokens' ltac:(lia) Ed) as [Hk Hp']. split; [done|].
      change (token :: tokens') with ([token] ++ tokens').
      rewrite List.filter_app, filter_nonempty, <- app_assoc, Hp'. done.
    + injection H as <- <-. unfold scanCRLF in E. cbn [andb] in E.
      destruct (cut_crlf data) as [[[t a] r]|]; [|done]. exfalso.
      destruct r; [done|]. by destruct (decide _).
Qed.

Lemma drain_end kept : cut_crlf kept = None -> (drain (String.length kept) kept true).1 = nonempty kept.
Proof.
  intros H. destruct kept as [|a s]; [done|]. cbn [String.length drain]. unfold scanCRLF.
  rewrite bool_decide_false by done. cbn [andb]. rewrite H.
  unfold nonempty. rewrite decide_False by done.
  by destruct (String.length s).
Qed.

(** What is kept is the start of a piece. *)
Lemma kept_short kept more :
  cut_crlf kept = None -> Forall (fun p => String.length p < MaxScanTokenSize) (pieces (kept +:+ more)) ->
  String.length kept < MaxScanTokenSize.
Proof.
  intros Hk Hp. destruct kept as [|a s] eqn:E; [unfold MaxScanTokenSize; change (String.length "") with 0; lia|]. rewrite <- E in *.
  assert (kept <> "") as Hne by (by subst). clear E a s.
  unfold pieces in Hp. rewrite pieces_run in Hp by done. 
  assert (forall cur, cur <> "" -> exists p ps, pieces_from cur more = p :: ps /\ String.length cur <= String.length p)
    as H.
  { clear. induction more as [|a s IH]; intros cur Hc; cbn [pieces_from].
    - unfold nonempty. rewrite decide_False by done. eauto.
    - destruct (is_crlf a).
      + unfold nonempty. rewrite decide_False by done. cbn. eauto.
      + destruct (IH (cur +:+ String a "")) as (p & ps & -> & Hl); [by destruct cur|].
        exists p, ps. split; [done|]. rewrite length_app_str in Hl. lia. }
  destruct (H kept Hne) as (p & ps & E & Hl). change ("" +:+ kept) with kept in Hp. rewrite E in Hp.
  apply Forall_cons in Hp as [Hp _]. lia.
Qed.

Lemma scan_pieces reads : forall data,
  Forall (fun p => String.length p < MaxScanTokenSize) (pieces (data +:+ String.concat "" reads)) ->
  (scan data reads).2 = true /\
  List.filter is_nonempty (scan data reads).1 = pieces (data +:+ String.concat "" reads).
Proof.
  assert (forall r l, String.concat "" (r :: l) = r +:+ String.concat "" l) as Hc
    by (intros r [|x l]; [by cbn; rewrite app_nil_r_str|done]).
  induction reads as [|read reads IH]; intros data Hs; cbn [scan];
    destruct (drain (String.length data) data false) as [tokens kept] eqn:Ed.
  - destruct (drain_pieces _ _ _ _ "" (le_n _) Ed) as [Hk Hp]. cbn [String.concat] in *. rewrite <- Hp in *.
    apply Forall_app in Hs as [_ Hs]. apply kept_short in Hs; [|done].
    rewrite decide_False by lia. cbn [fst snd]. split; [done|].
    rewrite List.filter_app, drain_end by done. f_equal.
    unfold pieces. rewrite pieces_run by done. cbn [pieces_from]. change ("" +:+ kept) with kept.
    unfold nonempty. destruct (decide (kept = "")) as [->|Hn]; [done|].
    change [kept] with ([kept]). rewrite filter_nonempty. unfold nonempty. by rewrite decide_False.
  - rewrite Hc in *. destruct (drain_pieces _ _ _ _ (read +:+ String.concat "" reads) (le_n _) Ed) as [Hk Hp].
    rewrite <- Hp in *. apply Forall_app in Hs as [_ Hs]. pose proof (kept_short _ _ Hk Hs) as Hl.
    rewrite decide_False by lia. rewrite <- app_assoc_str in *. destruct (IH _ Hs) as [Ho Hf].
    destruct (scan (kept +:+ read) reads) as [more ok]. cbn [fst snd] in *. split; [done|].
    by rewrite List.filter_app, Hf.
Qed.

Definition accepted (parseLine : string -> result Update) (line : string) : option Update :=
  match parseLine line with Ok u => Some u | Err _ => None end.

Lemma latest_app parseLine tokens u :
  fold_left (fun latest token => match parseLine token with Ok progress => progress | Err _ => latest end) tokens u
  = default u (last (omap (accepted parseLine) tokens)).
Proof.
  induction tokens as [|x l IH] using rev_ind; [done|]. rewrite fold_left_app, omap_app. cbn [fold_left].
  assert (omap (accepted parseLine) [x] = match parseLine x with Ok u => [u] | Err _ => [] end) as ->
    by (cbn [omap list_omap]; unfold accepted; by destruct (parseLine x)).
  destruct (parseLine x); [by rewrite last_snoc|by rewrite app_nil_r].
Qed.

Lemma omap_nonempty parseLine tokens :
  is_Ok (parseLine "") = false ->
  omap (accepted parseLine) tokens = omap (accepted parseLine) (List.filter is_nonempty tokens).
Proof.
  intros H. induction tokens as [|x l IH]; [done|]. cbn [List.filter]. unfold is_nonempty at 1.
  destruct (bool_decide_reflect (x = "")) as [->|Hn]; cbn [negb].
  - cbn [omap list_omap]. unfold accepted at 1. destruct (parseLine ""); [done|]. exact IH.
  - cbn [omap list_omap]. by rewrite IH.
Qed.

(** ** The bar *)

Inductive log_event : Type := ALine (parsed : result Update) | ASuccess | AFinish.

Definition bar_step (l : Logger) (e : log_event) : Logger * list bar_call :=
  match e with
  | ALine parsed => handleLine l parsed
  | ASuccess => handleSuccess l
  | AFinish => FinishBar l
  end.

Fixpoint bar_run (l : Logger) (events : list log_event) : Logger * list bar_call :=
  match events with
  | [] => (l, [])
  | e :: events => let '(l, calls) := bar_step l e in
                   let '(l', calls') := bar_run l events in (l', calls ++ calls')
  end.

Definition event_usable (e : log_event) : Prop :=
  match e with ALine (Ok u) => usable u | _ => True end.

Definition is_finish (c : bar_call) : bool := match c with Finish => true | Set64 _ => false end.
Definition finishes (calls : list bar_call) : nat := length (List.filter is_finish calls).

(** The counts of the updates that reached the bar. *)
Definition in_range (c : bar_call) : Prop := match c with Set64 n => (0 <= n <= 99)%Z | Finish => True end.

Lemma finishes_app a b : finishes (a ++ b) = finishes a + finishes b.
Proof. unfold finishes. by rewrite List.filter_app, length_app. Qed.

(** One step: what it may ask of the bar, and what it leaves. *)
Lemma bar_step_spec l e :
  event_usable e -> (0 <= barTransferred l)%Z ->
  let '(l', calls) := bar_step l e in
  Forall in_range calls
  /\ ShowProgressBar l' = ShowProgressBar l
  /\ (barTransferred l <= barTransferred l')%Z
  /\ (if barFinished l then 1 else 0) + finishes calls = (if barFinished l' then 1 else 0)
  /\ (ShowProgressBar l = false -> calls = [] /\ l' = l).
Proof.
  intros He Hl. destruct l as [show tr fin]. unfold finishes.
  destruct e as [[u|err]| |]; cbn [bar_step event_usable] in *;
    unfold handleLine, handleSuccess, FinishBar; cbn [ShowProgressBar barTransferred barFinished] in *.
  - destruct show; cbn [negb]; [|split_and!; cbn; try done; try lia; by destruct fin].
    destruct (decide (Transferred u < tr)%Z); split_and!; cbn; try done; try lia; try (by destruct fin).
    constructor; [|done]. destruct He as (Hp & Ht & _). unfold updateProgressBar, in_range, barStreamedMaximum, barMaximum. lia.
  - split_and!; cbn; try done; try lia; by destruct fin.
  - destruct show, fin; split_and!; cbn; try done; try lia; by repeat constructor.
  - destruct show, fin; cbn [negb orb]; try destruct (bool_decide _); split_and!; cbn; try done; try lia;
      by repeat constructor.
Qed.

Lemma bar_run_spec events : forall l,
  Forall event_usable events -> (0 <= barTransferred l)%Z ->
  let '(l', calls) := bar_run l events in
  Forall in_range calls
  /\ ShowProgressBar l' = ShowProgressBar l
  /\ (barTransferred l <= barTransferred l')%Z
  /\ (if barFinished l then 1 else 0) + finishes calls = (if barFinished l' then 1 else 0)
  /\ (ShowProgressBar l = false -> calls = [] /\ l' = l).
Proof.
  induction events as [|e events IH]; intros l H Hl; cbn [bar_run].
  - split_and!; [constructor|done|lia|unfold finishes; cbn; lia|done].
  - apply Forall_cons in H as [He H]. pose proof (bar_step_spec l e He Hl) as Hs.
    destruct (bar_step l e) as [l1 calls]. destruct Hs as (Hr & Hw & Ht & Hf & Hn).
    pose proof (IH l1 H ltac:(lia)) as Hrun. destruct (bar_run l1 events) as [l2 calls'].
    destruct Hrun as (Hr' & Hw' & Ht' & Hf' & Hn'). split_and!.
    + by apply Forall_app.
    + congruence.
    + lia.
    + rewrite finishes_app. lia.
    + intros Hs. destruct (Hn Hs) as [-> ->]. destruct (Hn' Hs) as [-> ->]. done.
Qed.

Lemma bar_run_app events events' : forall l,
  bar_run l (events ++ events') =
  let '(l1, calls) := bar_run l events in let '(l2, calls') := bar_run l1 events' in (l2, calls ++ calls').
Proof.
  induction events as [|e events IH]; intros l; cbn [app bar_run]; [by destruct (bar_run l events')|].
  destruct (bar_step l e) as [l1 c1]. rewrite IH. destruct (bar_run l1 events) as [l2 c2].
  destruct (bar_run l2 events') as [l3 c3]. by rewrite app_assoc.
Qed.

(** A bar that was drawn and not finished is finished by [FinishBar]. *)
Lemma FinishBar_finishes l :
  (0 <= barTransferred l)%Z -> ShowProgressBar l = true -> Rendered l = true ->
  barFinished (FinishBar l).1 = true /\ finishes (FinishBar l).2 = (if barFinished l then 0 else 1).
Proof.
  intros Ht Hs Hr. destruct l as [show tr fin]. cbn in *. subst show. unfold FinishBar, Rendered in *. cbn in *.
  destruct fin; [done|]. rewrite orb_false_r in Hr. apply bool_decide_eq_true in Hr.
  cbn. rewrite bool_decide_false by lia. done.
Qed.

(** ** The retries *)

(** The delay doubles from a quarter of a second up to five seconds. *)
Lemma Start_delays rounds k d :
  Start rounds !! k = Some d -> d = Z.min (logRetryInitialDelay * 2 ^ Z.of_nat k) logRetryMaxDelay.
Proof.
  unfold Start. assert (forall d0 rounds k, (0 < d0 <= logRetryMaxDelay)%Z -> Start_from d0 rounds !! k = Some d ->
    d = Z.min (d0 * 2 ^ Z.of_nat k) logRetryMaxDelay) as H; [|apply H; unfold logRetryInitialDelay, logRetryMaxDelay; lia].
  clear. intros d0 rounds. revert d0. induction rounds as [|r rounds IH]; intros d0 k Hd H; [done|].
  cbn [Start_from] in H. destruct (stop_before r); [done|].
  assert ((d0 :: (if stop_during r then [] else Start_from (if decide (logRetryMaxDelay < d0 * 2)%Z
      then logRetryMaxDelay else (d0 * 2)%Z) rounds)) !! k = Some d) as H' by (by destruct (attempt r)). clear H.
  destruct k as [|k]; [injection H' as <-; lia|]. cbn in H'. destruct (stop_during r); [done|].
  apply IH in H'; [|destruct (decide _); lia]. rewrite Nat2Z.inj_succ, Z.pow_succ_r by lia.
  pose proof (Z.pow_pos_nonneg 2 (Z.of_nat k) ltac:(lia) ltac:(lia)).
  destruct (decide _); subst d; nia.
Qed.

(** ** Parsers, as the bar relies on them *)

(** What a parser promises to the bar it feeds: its state stays a total, and what
    it reads is usable as long as the bytes stay below a hundredth of the range. *)
Class LawfulParser (parse : ParseLineFunc) : Prop := {
  parser_state total line : (0 <= total <= max_int64)%Z -> (0 <= (parse total line).1 <= max_int64)%Z;
  parser_usable total line u : (0 <= total <= max_int64)%Z -> (parse total line).2 = Ok u ->
    (0 <= Transferred u)%Z -> (Transferred u * 100 <= max_int64)%Z -> usable u
}.

Lemma total_capture t rest c : consumes totalLine t rest [] c -> all_bytes is_digit (group c "1") = true.
Proof.
  intros (t1 & t2 & c1 & -> & _ & (t3 & t4 & c2 & -> & _ & (c3 & Hd & ->)%consumes_group)%consumes_seq)%consumes_seq.
  cbn [group]. rewrite decide_True by done. revert Hd. apply consumes_plus. by intros ? ? ? ? [? _]%digit_is.
Qed.

#[export] Instance rsync_lawful : LawfulParser (stateless rsync_ParseLine).
Proof. split; [done|]. intros total line u _ H _ _. by apply (rsync_usable line). Qed.

Section Lawful.
Context (out_of_range : Q -> Z) (Unmarshal : string -> result (option (Z * Z))).
Context (HU : forall l b t, Unmarshal l = Ok (Some (b, t)) -> in_int64 b = true /\ in_int64 t = true).

#[local] Instance rclone_lawful : LawfulParser (stateless (rclone_ParseLine Unmarshal)).
Proof using HU. split; [done|]. intros total line u _ H _ _. by apply (rclone_usable Unmarshal line). Qed.

#[local] Instance archive_lawful : LawfulParser (NewParser out_of_range).
Proof.
  split; intros total line; unfold NewParser.
  - intros Ht. destruct (find_match totalLine line) as [[[t c] rest]|] eqn:E; [|done].
    destruct (ParseInt (group c "1")) as [parsed|] eqn:Ep; [|done].
    apply find_match_sound in E as (_ & _ & Hd%total_capture). by apply (ParseInt_digits _ _ Hd) in Ep as [? _].
  - intros u Ht H. destruct (find_match totalLine line) as [[[t c] rest]|]; [by destruct (ParseInt _)|].
    by apply (archive_usable out_of_range line total).
Qed.

#[local] Instance firstMatch_lawful parse parsers :
  LawfulParser parse -> LawfulParser (firstMatch parsers) -> LawfulParser (firstMatch (parse :: parsers)).
Proof.
  intros [Hs Hu] [Hs' Hu']. destruct parsers as [|parse' parsers]; [by split|].
  assert (forall total line, firstMatch (parse :: parse' :: parsers) total line =
    match parse total line with
    | (total, Ok update) => (total, Ok update)
    | (total, Err _) => firstMatch (parse' :: parsers) total line
    end) as E by done.
  split.
  - intros total line Ht. rewrite E. specialize (Hs total line Ht).
    destruct (parse total line) as [total' [u'|e]]; cbn [fst snd] in *; auto.
  - intros total line u Ht. rewrite E. specialize (Hs total line Ht). pose proof (Hu total line) as Hu1.
    destruct (parse total line) as [total' [u'|e]]; cbn [fst snd] in *; eauto.
Qed.

#[local] Instance firstMatch_one parse : LawfulParser parse -> LawfulParser (firstMatch [parse]).
Proof. by intros [Hs Hu]; split. Qed.

#[local] Typeclasses Opaque stateless firstMatch NewParser rsync_ParseLine rclone_ParseLine.

(** Every parser a Job's log is read with keeps the promise. *)
Lemma NewLogger_lawful jobName parse source :
  NewLogger out_of_range Unmarshal jobName = Some (parse, source) -> LawfulParser parse.
Proof using HU.
  unfold NewLogger. destruct (HasSuffix jobName rsyncJobSuffix); [intros [<- _]%(inj Some)%pair_equal_spec; apply _|].
  destruct (HasSuffix jobName rcloneJobSuffix); [intros [<- _]%(inj Some)%pair_equal_spec; apply _|].
  destruct (HasSuffix jobName tarJobSuffix); [intros [<- _]%(inj Some)%pair_equal_spec; apply _|done].
Qed.
End Lawful.

(** The lines of a log, parsed one after the other. *)
Fixpoint parse_lines (parse : ParseLineFunc) (total : Z) (lines : list string) : list (result Update) :=
  match lines with
  | [] => []
  | line :: lines => let '(total, parsed) := parse total line in parsed :: parse_lines parse total lines
  end.

Definition below_limit (parsed : result Update) : Prop :=
  match parsed with Ok u => (0 <= Transferred u)%Z /\ (Transferred u * 100 <= max_int64)%Z | Err _ => True end.

Lemma parse_lines_usable parse `{LawfulParser parse} lines : forall total,
  (0 <= total <= max_int64)%Z -> Forall below_limit (parse_lines parse total lines) ->
  Forall event_usable (ALine <$> parse_lines parse total lines).
Proof.
  induction lines as [|line lines IH]; intros total Ht; cbn [parse_lines]; [constructor|].
  pose proof (parser_state total line Ht) as Hs. pose proof (fun u => parser_usable total line u Ht) as Hu.
  destruct (parse total line) as [total' parsed]. cbn [fst snd] in *. intros [Hb Hl]%Forall_cons.
  constructor; [|by apply IH]. destruct parsed as [u|e]; [|done]. cbn. destruct Hb. by apply Hu.
Qed.

(** * The properties *)

(** C21: what a parsed line is worth.  Whatever a data mover prints, an update that
    leaves a parser has a percentage between 0 and 100, counts that are not
    negative and fit 64 bits, and a total that is not below what has been
    transferred, the floating-point estimates included.  For the reader of zstd's
    counter this holds up to 2^63/100 bytes; beyond, the percentage is computed
    with an overflow and can be negative. *)
Theorem parsed_progress_usable (out_of_range : Q -> Z) (Unmarshal : string -> result (option (Z * Z))) line u :
  (forall l b t, Unmarshal l = Ok (Some (b, t)) -> in_int64 b = true /\ in_int64 t = true) ->
  (rsync_ParseLine line = Ok u -> usable u) /\
  (rclone_ParseLine Unmarshal line = Ok u -> usable u) /\
  (forall total, (0 <= total <= max_int64)%Z -> parseRead out_of_range line total = Ok u ->
     (0 <= Transferred u)%Z -> (Transferred u * 100 <= max_int64)%Z -> usable u) /\
  exists line' u', parseRead out_of_range line' 0 = Ok u' /\ (Percentage u' < 0)%Z.
Proof.
  intros HU. split_and!.
  - apply rsync_usable.
  - by apply rclone_usable.
  - intros total. apply archive_usable.
  - exists "Read: 100000 TiB", (mkUpdate "Read: 100000 TiB" (-67) 109951162777600000 109951162777600000).
    split; [vm_compute; reflexivity|done].
Qed.

Lemma parsed_progress_usable_witness :
  let decode := fun _ : string => Ok (Some (30, 40)%Z) in
  usable (mkUpdate "  52,428,800  35%" 35 52428800 149796571) /\
  usable (mkUpdate "{}" 75 30 40).
Proof.
  intros decode.
  assert (forall l b t, decode l = Ok (Some (b, t)) -> in_int64 b = true /\ in_int64 t = true) as HU
    by (intros l b t [= <- <-]; split; vm_compute; reflexivity).
  split.
  - apply (proj1 (parsed_progress_usable (fun _ => 0%Z) decode "  52,428,800  35%" _ HU)). vm_compute. reflexivity.
  - apply (proj1 (proj2 (parsed_progress_usable (fun _ => 0%Z) decode "{}" _ HU))). vm_compute. reflexivity.
Defined.

(** C22: reading a log in chunks.  As long as no line reaches the 64 KiB at which
    the scanner gives up, the last progress found in a log is the last line of it a
    parser accepts, lines being what stands between carriage returns and line
    feeds, however the text was split between the reads - a split CRLF included. *)
Theorem FindLast_any_reads parseLine (reads : list string) :
  let text := String.concat "" reads in
  is_Ok (parseLine "") = false ->
  Forall (fun p => String.length p < MaxScanTokenSize) (pieces text) ->
  (scan "" reads).2 = true /\
  FindLast reads parseLine = default no_update (last (omap (accepted parseLine) (pieces text))).
Proof.
  intros text He Hs. unfold text in *. destruct (scan_pieces reads "" Hs) as [Ho Hf]. split; [done|].
  unfold FindLast. by rewrite latest_app, omap_nonempty, Hf.
Qed.

Lemma FindLast_any_reads_witness :
  FindLast [" 1,000  10%" +:+ String cr ""; nl +:+ " 5,0"; "00  50%" +:+ nl +:+ "done"] rsync_ParseLine
  = mkUpdate " 5,000  50%" 50 5000 10000.
Proof.
  assert (Forall (fun p => String.length p < MaxScanTokenSize)
    (pieces (String.concat "" [" 1,000  10%" +:+ String cr ""; nl +:+ " 5,0"; "00  50%" +:+ nl +:+ "done"]))) as Hs.
  { assert (forall p : string, String.length p <= 100 -> String.length p < MaxScanTokenSize) as Hb
      by (unfold MaxScanTokenSize; intros; lia).
    eapply Forall_impl; [|intros p; exact (Hb p)].
    vm_compute. repeat (constructor; [lia|]). constructor. }
  pose proof (FindLast_any_reads rsync_ParseLine _ eq_refl Hs) as [_ H]. cbv zeta in H.
  rewrite H. vm_compute. reflexivity.
Defined.

(** What becomes of the bar.  Whatever lines arrive, and wherever success and
    the final finish fall among them, the streamed positions stay between 0 and
    99, the count behind the bar never goes back, the bar is finished once at most
    - exactly when the logger says so - and nothing is done to a bar that is not
    shown. *)
Theorem bar_moves (show : bool) (events : list log_event) :
  Forall event_usable events ->
  let '(l, calls) := bar_run (mkLogger show 0 false) events in
  Forall in_range calls /\ (0 <= barTransferred l)%Z /\
  finishes calls = (if barFinished l then 1 else 0) /\
  (show = false -> calls = [] /\ Rendered l = false) /\
  (forall l' calls', bar_run (mkLogger show 0 false) (events ++ [AFinish]) = (l', calls') ->
     Rendered l = true -> show = true -> finishes calls' = 1).
Proof.
  intros He. pose proof (bar_run_spec events (mkLogger show 0 false) He (Z.le_refl 0)) as H.
  pose proof (bar_run_app events [AFinish] (mkLogger show 0 false)) as Ha.
  destruct (bar_run _ events) as [l calls]. cbn in H. destruct H as (Hr & Hs & Ht & Hf & Hn). split_and!; try done.
  - intros ->. by destruct Hn as [-> ->].
  - intros l' calls'. rewrite Ha. cbn [bar_run bar_step]. intros E Hrend ->.
    destruct (FinishBar_finishes l Ht Hs Hrend) as [Hb Hc]. destruct (FinishBar l) as [l2 c2]. injection E as <- <-.
    rewrite app_nil_r, finishes_app, Hf. cbn [snd] in Hc. rewrite Hc. by destruct (barFinished l).
Qed.

Definition seen_line (transferred : Z) : log_event := ALine (Ok (mkUpdate "" 40 transferred 100)).

Lemma bar_moves_witness :
  bar_run (mkLogger true 0 false) [seen_line 40; seen_line 30; AFinish; ASuccess]
  = (mkLogger true 40 true, [Set64 40; Finish]) /\ finishes [Set64 40; Finish] = 1.
Proof.
  assert (Forall event_usable [seen_line 40; seen_line 30; AFinish; ASuccess]) as He.
  { repeat constructor; cbn; unfold max_int64; lia. }
  assert (bar_run (mkLogger true 0 false) [seen_line 40; seen_line 30; AFinish; ASuccess]
          = (mkLogger true 40 true, [Set64 40; Finish])) as E by reflexivity.
  split; [exact E|]. pose proof (bar_moves true _ He) as H. rewrite E in H. destruct H as (_ & _ & H & _). exact H.
Defined.

(** The bar of a Job, whichever parser its name selects: over any lines that keep
    the transferred bytes below the limit, its streamed positions are in range and
    it is finished once at most. *)
Theorem job_bar_in_range out_of_range Unmarshal (jobName : string) parse source (lines : list string) :
  (forall l b t, Unmarshal l = Ok (Some (b, t)) -> in_int64 b = true /\ in_int64 t = true) ->
  NewLogger out_of_range Unmarshal jobName = Some (parse, source) ->
  let parsed := parse_lines parse 0 lines in
  Forall below_limit parsed ->
  let '(l, calls) := bar_run (mkLogger true 0 false) ((ALine <$> parsed) ++ [ASuccess]) in
  Forall in_range calls /\ (finishes calls <= 1)%nat.
Proof.
  intros HU HN parsed Hb. apply (NewLogger_lawful _ _ HU) in HN. unfold parsed in *.
  assert (Forall event_usable ((ALine <$> parse_lines parse 0 lines) ++ [ASuccess])) as He.
  { apply Forall_app. split; [|by repeat constructor]. apply parse_lines_usable; [apply HN|unfold max_int64; lia|done]. }
  pose proof (bar_run_spec _ (mkLogger true 0 false) He (Z.le_refl 0)) as H.
  destruct (bar_run _ _) as [l calls]. cbn in H. destruct H as (Hr & _ & _ & Hf & _). split; [done|].
  destruct (barFinished l); lia.
Qed.
