(* ===== verification/Session.v ===== *)
(** * internal/strategy/local.go, linetail.go: the local strategy's session

    What runs between the machine and the source pod once both port-forwards are
    up: the ssh client, the reverse tunnel, the session that runs the mover, what
    is recorded of its output and how its end is reported.  The goroutines beside
    the mover (the watcher that closes the session of a cancelled run, the tunnel's
    copies, the progress logger) are joined by one call, which answers with an
    error of theirs that came before the mover's; Follower.v has their steps. *)
From S2P Require Import Prelude GoStrings Fmt Mover Migration Pvc Workload World Progress.
From stdpp Require Import options.
Local Open Scope nat_scope.

(** ** linetail.go *)

Definition sessionTailLines : nat := 20.

Record lineTail : Type := mkTail { limit : nat; partial : string; lines : list string }.

(** [t.record]: at the limit the slice is shifted by one. *)
Definition record (t : lineTail) (line : string) : lineTail :=
  let kept := if decide (length (lines t) = limit t) then tail (lines t) else lines t in
  mkTail (limit t) (partial t) (kept ++ [line]).

(** The loop of [Write]; each round takes a byte or more off [partial]. *)
Fixpoint write_loop (fuel : nat) (t : lineTail) : lineTail :=
  match fuel with
  | O => t
  | S fuel =>
      match cut_crlf (partial t) with
      | None => t
      | Some (before, _, rest) =>
          let t := mkTail (limit t) rest (lines t) in
          write_loop fuel (if decide (TrimSpace before = "") then t else record t (TrimSpace before))
      end
  end.

Definition Write (t : lineTail) (data : string) : lineTail :=
  let t := mkTail (limit t) (partial t +:+ data) (lines t) in
  write_loop (String.length (partial t)) t.

Definition Lines (t : lineTail) : list string :=
  lines t ++ (if decide (TrimSpace (partial t) = "") then [] else [TrimSpace (partial t)]).

(** ** local.go *)

Definition hasHelmOverrides (req : Request) : bool :=
  negb (bool_decide (HelmValues req = [])) || negb (bool_decide (HelmValuesFiles req = []))
  || negb (bool_decide (HelmFileValues req = [])) || negb (bool_decide (HelmStringValues req = [])).

Section Session.
Variable exitStatus : error -> option Z.

(** [errors.AsType[*moverRunError]], and its [err]. *)
Definition is_run_error (e : error) : bool := error_has (of_type "*moverRunError") e.

Definition vanishedWarning : string :=
  "🔶 Completed with a warning: some source files vanished during the transfer and were skipped. Re-run the migration, or copy from a source that is not being written to".

(** [inl]: the mover's session failed; [inr]: something else did. *)
Definition finishMoverSession (waitErr : option (error + error)) (p : moverPolicy) (vanished : bool)
    (tail : lineTail) : io (result ()) :=
  match waitErr with
  | Some (inl runErr) => Ret (Err (moverSessionError exitStatus p runErr (Lines tail)))
  | Some (inr e) => Ret (Err e)
  | None =>
      _ ← ask World.FinishBar;
      _ ← (if vanished then ask (Log WARN vanishedWarning []) else Ret ());
      Ret (Ok ())
  end.

Definition runMoverSession (mover : moverCommand) : io (result ()) :=
  ran ← ask (SshRun (command mover));
  let '(runErr, chunks) := ran : option error * list string in
  let tail := fold_left Write chunks (mkTail sessionTailLines "" []) in
  let failed := match runErr with Some e => negb (isToleratedExit exitStatus (policy mover) e) | None => false end in
  marked ← (if failed then Ret (Ok ()) else ask MarkAsComplete);
  let '(err, vanished) := completeMoverSession exitStatus runErr (policy mover) marked in
  (* the mover goroutine's deferred calls *)
  _ ← ask (SshClose TunnelListener);
  _ ← ask (SshClose PipeWriter);
  other ← ask JoinSession;
  let waitErr : option (error + error) :=
    match other, err, runErr with
    | Some e, _, _ => Some (inr e)
    | None, Err e, Some runErr => Some (if failed then inl runErr else inr e)
    | None, Err e, None => Some (inr e)
    | None, Ok _, _ => None
    end in
  finishMoverSession waitErr (policy mover) vanished tail.

Definition runMoverOverSSH (req : Request) (privateKey : string) (srcFwdPort : Z) : io (result ()) :=
  _ ←! World.wrap "failed to parse private key: %w" (ask (SshParseKey privateKey));
  _ ←! World.wrap "failed to connect to source pod: %w" (ask (SshDial srcFwdPort (sshUser req)));
  done ← (listening ← ask (SshListen (SSHReverseTunnelPort req));
          match listening with
          | Err e => Ret (Err (Errorf "failed to open reverse tunnel on port %d: %w"
                                 [AInt (SSHReverseTunnelPort req); AWrap e]))
          | Ok _ =>
              match buildMoverCmdSSHSession req with
              | Err e =>
                  _ ← ask (SshClose TunnelListener);
                  Ret (Err (Errorf "failed to build the data mover command: %w" [AWrap e]))
              | Ok mover =>
                  session ← ask SshNewSession;
                  match session with
                  | Err e =>
                      _ ← ask (SshClose TunnelListener);
                      Ret (Err (Errorf "failed to create SSH session: %w" [AWrap e]))
                  | Ok _ =>
                      r ← runMoverSession mover;
                      _ ← ask (SshClose SshSession);
                      Ret r
                  end
              end
          end);
  _ ← ask (SshClose SshClient);
  Ret done.

Definition waitAndRunMover (req : Request) (privateKey : string) : io (result ()) :=
  srcFwdPort ←! World.wrap "waiting for source port-forward: %w" (ask (AwaitPort true));
  _ ←! World.wrap "waiting for dest port-forward: %w" (ask (AwaitPort false));
  runMoverOverSSH req privateKey srcFwdPort.
End Session.

(** ** Specification: what is open when *)

Record session_state : Type := mkSession {
  client_open : bool;
  listener_open : bool;
  session_open : bool;
  writer_open : bool;      (* the pipe the session writes its output into *)
  joined : bool;           (* every goroutine has stopped *)
  ended_well : bool        (* the mover ended, with a status that counts as success *)
}.

Definition nothing_open (st : session_state) : Prop :=
  client_open st = false /\ listener_open st = false /\ session_open st = false /\ writer_open st = false.

Section Protocol.
Context (exitStatus : error -> option Z) (req : Request).

(** The exit of the mover counts as success. *)
Definition good_exit (runErr : option error) : bool :=
  match runErr, buildMoverCmdSSHSession req with
  | None, _ => true
  | Some e, Ok mover => isToleratedExit exitStatus (policy mover) e
  | Some _, Err _ => false
  end.

Definition session_allows (st : session_state) X (e : call X) : Prop :=
  match e with
  | AwaitPort _ | SshParseKey _ | SshDial _ _ => nothing_open st
  | SshListen port => port = SSHReverseTunnelPort req /\ client_open st = true /\ listener_open st = false
  | SshNewSession => client_open st = true /\ listener_open st = true /\ session_open st = false
  | SshRun cmd =>
      (exists mover, buildMoverCmdSSHSession req = Ok mover /\ cmd = command mover) /\
      client_open st = true /\ listener_open st = true /\ session_open st = true
  | MarkAsComplete => ended_well st = true /\ joined st = false
  | SshClose SshClient => client_open st = true /\ listener_open st = false /\ session_open st = false
  | SshClose TunnelListener => listener_open st = true
  | SshClose SshSession => session_open st = true
  | SshClose PipeWriter => writer_open st = true
  | JoinSession => listener_open st = false /\ writer_open st = false
  | World.FinishBar | Log _ _ _ => joined st = true
  | _ => False
  end.

Definition session_next (st : session_state) X (e : call X) : X -> session_state :=
  let 'mkSession c l s w j g := st in
  match e in call X return X -> session_state with
  | SshDial _ _ => fun x => mkSession (is_Ok x) l s w j g
  | SshListen _ => fun x => mkSession c (is_Ok x) s w j g
  | SshNewSession => fun x => mkSession c l (is_Ok x) w j g
  | SshRun _ => fun x => mkSession c l s true j (good_exit x.1)
  | SshClose SshClient => fun _ => mkSession false l s w j g
  | SshClose TunnelListener => fun _ => mkSession c false s w j g
  | SshClose SshSession => fun _ => mkSession c l false w j g
  | SshClose PipeWriter => fun _ => mkSession c l s false j g
  | JoinSession => fun _ => mkSession c l s w true g
  | _ => fun _ => st
  end.

Definition session_ends (st : session_state) (r : result ()) : Prop :=
  nothing_open st /\ (is_Ok r = true -> joined st = true /\ ended_well st = true).

Local Notation mwp := (mwp session_allows session_next).

Lemma runMoverSession_mwp mover :
  buildMoverCmdSSHSession req = Ok mover ->
  mwp (mkSession true true true false false false) (runMoverSession exitStatus mover)
    (fun st r => exists well, st = mkSession true false true false true well /\ (is_Ok r = true -> well = true)).
Proof.
  intros Hm. unfold runMoverSession. cbn [World.mwp mbind io_bind io_bind_def ask].
  split; [split; [by exists mover|done]|]. intros [runErr chunks]. cbn [session_next fst].
  assert (forall well, well = true -> mwp (mkSession true true true true false well) (ask MarkAsComplete)
    (fun st _ => st = mkSession true true true true false true)) as Hmark by (intros ? ->; cbn; eauto).
  remember (match runErr with Some e => negb (isToleratedExit exitStatus (policy mover) e) | None => false end)
    as failed eqn:Ef.
  assert (good_exit runErr = negb failed) as ->.
  { unfold good_exit. rewrite Hm, Ef. destruct runErr; [by rewrite negb_involutive|done]. }
  rewrite mwp_bind.
  eapply (mwp_mono _ _ _ _ (fun st marked => st = mkSession true true true true false (negb failed))).
  { destruct failed; cbn; eauto. }
  intros st marked ->. unfold completeMoverSession.
  assert (forall (err : result ()) vanished,
    mwp (mkSession true true true true false (negb failed))
      (_ ← ask (SshClose TunnelListener);
       _ ← ask (SshClose PipeWriter);
       other ← ask JoinSession;
       finishMoverSession exitStatus (match other, err, runErr with
          | Some e, _, _ => Some (inr e)
          | None, Err e, Some runErr => Some (if failed then inl runErr else inr e)
          | None, Err e, None => Some (inr e)
          | None, Ok _, _ => None
          end) (policy mover) vanished
          (fold_left Write chunks (mkTail sessionTailLines "" [])))
      (fun st r => exists well, st = mkSession true false true false true well /\
         (is_Ok r = true -> well = true)) \/ (failed = true /\ is_Ok err = true)) as H.
  { intros err vanished. destruct (decide (failed = true /\ is_Ok err = true)) as [|Hn]; [by right|left].
    cbn [World.mwp mbind io_bind io_bind_def ask]. split; [done|]. intros []. cbn [session_next].
    split; [done|]. intros []. cbn [session_next]. split; [done|]. intros other. cbn [session_next].
    unfold finishMoverSession. destruct other as [e|]; [cbn; by eexists|].
    destruct err as [u|e].
    - cbn [World.mwp mbind io_bind io_bind_def ask]. split; [done|]. intros [].
      destruct vanished; cbn; [split; [done|]; intros []|]; (exists (negb failed); split; [done|]; intros _;
        destruct failed; [exfalso; by apply Hn|done]).
    - destruct runErr; [destruct failed|]; cbn; by eexists. }
  destruct runErr as [e|].
  - rewrite <- Ef. destruct failed.
    + destruct (H (Err (Errorf "%w" [AType "*moverRunError"; AWrap e])) false) as [Hd|[_ Hx]]; [exact Hd|done].
    + destruct (H marked true) as [Hd|[Hx _]]; [exact Hd|done].
  - destruct (H marked false) as [Hd|[Hx _]]; [exact Hd|by subst].
Qed.

Lemma waitAndRunMover_mwp privateKey :
  mwp (mkSession false false false false false false) (waitAndRunMover exitStatus req privateKey) session_ends.
Proof.
  unfold waitAndRunMover, runMoverOverSSH, World.wrap, try_bind.
  cbn [World.mwp mbind io_bind io_bind_def ask]. split; [done|]. intros [port|e]; [|cbn; by repeat split].
  cbn [World.mwp mbind io_bind io_bind_def ask wrap_err]. split; [done|]. intros [port'|e]; [|cbn; by repeat split].
  cbn [World.mwp mbind io_bind io_bind_def ask wrap_err]. split; [done|]. intros [[]|e]; [|cbn; by repeat split].
  cbn [World.mwp mbind io_bind io_bind_def ask wrap_err]. split; [done|]. intros [[]|e]; [|cbn; by repeat split].
  cbn [World.mwp mbind io_bind io_bind_def ask wrap_err session_next is_Ok]. split; [done|].
  intros [[]|e]; cbn [session_next is_Ok].
  - destruct (buildMoverCmdSSHSession req) as [mover|e] eqn:Em.
    + cbn [World.mwp mbind io_bind io_bind_def ask session_next is_Ok]. split; [done|].
      intros [[]|e]; cbn [session_next is_Ok].
      * change (io_bind_def ?f (io_bind_def ?g ?p)) with (p ≫= g ≫= f).
        rewrite !mwp_bind. eapply mwp_mono; [by apply runMoverSession_mwp|].
        intros st r (well & -> & Hr). cbn. split; [done|]. intros []. split; [done|]. intros [].
        split; [done|]. cbn. auto.
      * cbn. by repeat split.
    + cbn. by repeat split.
  - cbn. by repeat split.
Qed.
End Protocol.

(** ** Specification: what the tail keeps *)

(** A log cut at its last line break: the text up to it, and what follows. *)
Fixpoint complete_lines (cur s : string) : list string :=
  match s with
  | EmptyString => []
  | String a s => if is_crlf a then cur :: complete_lines "" s else complete_lines (cur +:+ String a "") s
  end.
Fixpoint unfinished (cur s : string) : string :=
  match s with
  | EmptyString => cur
  | String a s => if is_crlf a then unfinished "" s else unfinished (cur +:+ String a "") s
  end.

(** The lines worth keeping, stripped. *)
Definition worth (l : list string) : list string := List.filter is_nonempty (TrimSpace <$> l).

Definition last_n {A} (n : nat) (l : list A) : list A := drop (length l - n) l.

Lemma last_n_snoc {A} n (l : list A) x :
  0 < n -> last_n n (l ++ [x]) = (if decide (length (last_n n l) = n) then tail (last_n n l) else last_n n l) ++ [x].
Proof.
  intros Hn. unfold last_n. rewrite length_drop, length_app. cbn [length].
  destruct (decide (length l - (length l - n) = n)) as [H|H].
  - rewrite drop_app_le by lia. f_equal.
    assert (length l + 1 - n = S (length l - n)) as -> by lia.
    generalize (length l - n) as k. clear. intros k. revert k.
    induction l as [|y l IH]; intros [|k]; cbn; done || apply IH.
  - assert (length l - n = 0) as -> by lia. assert (length l + 1 - n = 0) as -> by lia. by rewrite !drop_0.
Qed.

Lemma complete_run cur t s : cut_crlf t = None -> complete_lines cur (t +:+ s) = complete_lines (cur +:+ t) s.
Proof.
  revert cur. induction t as [|a t IH]; intros cur H; cbn in *; [by rewrite app_nil_r_str|].
  destruct (is_crlf a); [done|]. destruct (cut_crlf t) as [[[]]|] eqn:E; [done|].
  rewrite IH by done. by rewrite app_assoc_str.
Qed.

Lemma unfinished_run cur t s : cut_crlf t = None -> unfinished cur (t +:+ s) = unfinished (cur +:+ t) s.
Proof.
  revert cur. induction t as [|a t IH]; intros cur H; cbn in *; [by rewrite app_nil_r_str|].
  destruct (is_crlf a); [done|]. destruct (cut_crlf t) as [[[]]|] eqn:E; [done|].
  rewrite IH by done. by rewrite app_assoc_str.
Qed.

Lemma worth_snoc l x :
  worth (l ++ [x]) = worth l ++ (if decide (TrimSpace x = "") then [] else [TrimSpace x]).
Proof.
  unfold worth. rewrite fmap_app, List.filter_app. f_equal. cbn. unfold is_nonempty.
  destruct (decide (TrimSpace x = "")) as [->|H]; [done|]. by rewrite bool_decide_false.
Qed.

(** The tail has seen [log] up to its last break, [seen] being its lines. *)
Definition tracks (n : nat) (seen : list string) (t : lineTail) : Prop :=
  limit t = n /\ lines t = last_n n (worth seen).

Lemma write_loop_tracks fuel n seen t :
  0 < n -> String.length (partial t) <= fuel -> tracks n seen t ->
  tracks n (seen ++ complete_lines "" (partial t)) (write_loop fuel t)
  /\ partial (write_loop fuel t) = unfinished "" (partial t) /\ cut_crlf (partial (write_loop fuel t)) = None.
Proof.
  intros Hn. revert t seen. induction fuel as [|fuel IH]; intros t seen Hf (Hl & Ht); cbn [write_loop].
  - destruct (partial t) eqn:E; [|cbn in Hf; lia]. cbn. by rewrite app_nil_r.
  - destruct (cut_crlf (partial t)) as [[[before a] rest]|] eqn:E.
    + apply cut_crlf_Some in E as (Ep & Ha & Hb). rewrite Ep in *.
      rewrite complete_run, unfinished_run by done. cbn [complete_lines unfinished]. rewrite Ha.
      change ("" +:+ before) with before. rewrite length_app_str in Hf. cbn [String.length] in Hf.
      set (t' := if decide (TrimSpace before = "") then _ else _).
      assert (partial t' = rest) as Hp by (unfold t'; by destruct (decide _)).
      assert (tracks n (seen ++ [before]) t') as Ht'.
      { unfold tracks. rewrite worth_snoc. unfold t'. destruct (decide (TrimSpace before = "")) as [|Hne]; cbn [limit lines record].
        - by rewrite app_nil_r.
        - split; [done|]. by rewrite last_n_snoc, <- Ht, Hl. }
      destruct (IH t' (seen ++ [before]) ltac:(rewrite Hp; lia) Ht') as (H1 & H2 & H3). rewrite Hp in H1, H2.
      split_and!; [|done..]. by rewrite <- app_assoc in H1.
    + assert (partial t = partial t +:+ "") as Ep by (by rewrite app_nil_r_str).
      rewrite Ep, complete_run, unfinished_run by done. cbn. rewrite app_nil_r. rewrite app_nil_r_str in *. done.
Qed.

Lemma Write_tracks n seen t data :
  0 < n -> tracks n seen t -> cut_crlf (partial t) = None ->
  tracks n (seen ++ complete_lines (partial t) data) (Write t data)
  /\ partial (Write t data) = unfinished (partial t) data /\ cut_crlf (partial (Write t data)) = None.
Proof.
  intros Hn Ht Hp. unfold Write.
  destruct (write_loop_tracks _ n seen (mkTail (limit t) (partial t +:+ data) (lines t)) Hn (le_n _) Ht) as (H1 & H2 & H3).
  cbn [partial] in *. rewrite complete_run in H1 by done. rewrite unfinished_run in H2 by done. done.
Qed.

Lemma complete_app cur s t : complete_lines cur (s +:+ t) = complete_lines cur s ++ complete_lines (unfinished cur s) t.
Proof.
  revert cur. induction s as [|a s IH]; intros cur; [done|]. cbn. destruct (is_crlf a); rewrite IH; done.
Qed.

Lemma unfinished_app cur s t : unfinished cur (s +:+ t) = unfinished (unfinished cur s) t.
Proof. revert cur. induction s as [|a s IH]; intros cur; [done|]. cbn. by destruct (is_crlf a). Qed.

Lemma writes_track n chunks : forall seen t,
  0 < n -> tracks n seen t -> cut_crlf (partial t) = None ->
  tracks n (seen ++ complete_lines (partial t) (String.concat "" chunks)) (fold_left Write chunks t)
  /\ partial (fold_left Write chunks t) = unfinished (partial t) (String.concat "" chunks).
Proof.
  assert (forall r l, String.concat "" (r :: l) = r +:+ String.concat "" l) as Hc
    by (intros r [|x l]; [by cbn; rewrite app_nil_r_str|done]).
  induction chunks as [|chunk chunks IH]; intros seen t Hn Ht Hp; [cbn; by rewrite app_nil_r|].
  rewrite Hc, complete_app, unfinished_app. cbn [fold_left].
  destruct (Write_tracks n seen t chunk Hn Ht Hp) as (H1 & H2 & H3).
  destruct (IH _ _ Hn H1 H3) as [H4 H5]. rewrite H2 in H4, H5. by rewrite <- app_assoc in H4.
Qed.

(** * The properties *)

(** What is kept of a session's output.  However the output was split between
    the writes, the tail is the last twenty lines that are not blank, carriage
    returns ending a line as line feeds do, followed by the line that was not
    finished when the mover died. *)
Theorem tail_keeps_the_end (chunks : list string) :
  let output := String.concat "" chunks in
  Lines (fold_left Write chunks (mkTail sessionTailLines "" []))
  = last_n 20 (worth (complete_lines "" output)) ++ worth [unfinished "" output].
Proof.
  intros output.
  destruct (writes_track 20 chunks [] (mkTail sessionTailLines "" []) ltac:(lia) (conj eq_refl eq_refl) eq_refl)
    as [[_ H1] H2].
  unfold Lines. cbn [partial] in H1, H2. cbn [app] in H1. rewrite H1, H2. f_equal.
  exact (eq_sym (worth_snoc [] _)).
Qed.

