(* ===== verification/Evidence.v ===== *)
(** * What a wait saw: the evidence behind its success

    [Jobs.WaitForJobCompletion] and [Session.waitAndRunMover] are called by the
    strategies and by the backup and restore workflow.  Here is the trace each must
    have left when it succeeds - an answer of the API server that shows a pod of the
    Job, or the Job, as succeeded; a run of the mover over ssh that ended well - and
    what neither ever does, so that WholeMigration and WholeBucket can put these
    programs in the place of the calls. *)
From S2P Require Import Prelude GoStrings Workload World Link Migration Mover Jobs Session.
From stdpp Require Import options.

(** A property of a trace that what follows cannot undo. *)
Class Grows (P : list event -> Prop) : Prop := grows t t' : P t -> P (t ++ t').

#[export] Instance Exists_grows P : Grows (Exists P).
Proof. intros t t' H. apply Exists_app. by left. Qed.
#[export] Instance True_grows : Grows (fun _ => True).
Proof. done. Qed.
#[export] Instance impl_grows (H : Prop) P `{!Grows P} : Grows (fun t => H -> P t).
Proof. intros t t' Ht Hh. by apply grows, Ht. Qed.

Lemma wp_grows {A} (P : list event -> Prop) `{!Grows P} (p : io A) t : P t -> wp p t (fun t' _ => P t').
Proof. rewrite wp_yields. intros H t' a _. by apply grows. Qed.

(** ** What a release delivers, as its client sees it *)

Definition was_installed (release : string) (ev : event) : Prop :=
  match ev with
  | Ev e x =>
      match e in call X return X -> Prop with
      | HelmInstall _ _ name _ _ _ => fun r => name = release /\ r = Installed
      | _ => fun _ => False
      end x
  end.

(** A wait that ended well, for a Job of the release, or for the local session. *)
Definition delivers (detach : bool) (job : string) (ev : event) : Prop :=
  match ev with
  | Ev e x =>
      match e in call X return X -> Prop with
      | World.WaitForJobCompletion _ _ name => fun r => detach = false /\ name = job /\ r = Ok ()
      | World.WaitForJobStart _ _ name => fun r => detach = true /\ name = job /\ r = Ok ()
      | RunLocalMigration _ _ _ _ _ _ => fun r => detach = false /\ r = Ok ()
      | _ => fun _ => False
      end x
  end.

(** The release was installed, and then what its Job, named after it, was to do was
    waited for. *)
Definition delivered (detach : bool) (suffix : string) (t : list event) : Prop :=
  exists before ev after release, t = before ++ ev :: after /\
    delivers detach (release +:+ suffix) ev /\ Exists (was_installed release) before.

#[export] Instance delivered_grows detach suffix : Grows (delivered detach suffix).
Proof. intros t t' (b & ev & a & r & -> & H). exists b, ev, (a ++ t'), r. by rewrite <- app_assoc. Qed.

(** ** A Job that succeeded *)

Section Job.
Context (c : ClusterClient) (ns job : string).

(** A pod the API server gave as one of the Job's. *)
Definition found_pod (pod : JobPod) (ev : event) : Prop :=
  match ev with
  | Ev e x =>
      match e in call X return X -> Prop with
      | WaitForJobPod c' ns' job' => fun r => (c', ns', job') = (c, ns, job) /\ r = Ok pod
      | _ => fun _ => False
      end x
  end.

(** The API server shows the Job, or one of its pods, as succeeded; [t] is what came
    before, for a pod that is read again by its own name. *)
Definition shows_success (t : list event) (ev : event) : Prop :=
  match ev with
  | Ev e x =>
      match e in call X return X -> Prop with
      | ListJobPods c' ns' job' => fun r => (c', ns', job') = (c, ns, job) /\
          exists pods pod, r = Ok pods /\ pod ∈ pods /\ pod_Phase pod = PodSucceeded
      | GetJob c' ns' job' => fun r => (c', ns', job') = (c, ns, job) /\
          exists j, r = Ok j /\ (0 < job_Succeeded j)%Z
      | WaitForJobPod c' ns' job' => fun r => (c', ns', job') = (c, ns, job) /\
          exists pod, r = Ok pod /\ pod_Phase pod = PodSucceeded
      | WaitForPodTermination c' ns' name => fun r => c' = c /\
          (exists pod, Exists (found_pod pod) t /\ (ns', name) = (pod_Namespace pod, pod_Name pod)) /\
          exists pod, r = Ok pod /\ pod_Phase pod = PodSucceeded
      | _ => fun _ => False
      end x
  end.

Definition job_succeeded (t : list event) : Prop :=
  exists before ev after, t = before ++ ev :: after /\ shows_success before ev.

#[export] Instance job_succeeded_grows : Grows job_succeeded.
Proof. intros t t' (b & ev & a & -> & H). exists b, ev, (a ++ t'). by rewrite <- app_assoc. Qed.

Lemma job_succeeded_snoc t ev : shows_success t ev -> job_succeeded (t ++ [ev]).
Proof. intros H. by exists t, ev, []. Qed.

Context (Unmarshal : string -> option (string * string)).

Section Reporting.
Context (out : output).

(** The report on a pod that ended succeeds for a succeeded pod only. *)
Lemma finishTerminalPod_succeeded (P : list event -> Prop) `{!Grows P} pod t : P t ->
  wp (finishTerminalPod Unmarshal c out job pod) t (fun t' r => P t' /\ (is_Ok r = true -> pod_Phase pod = PodSucceeded)).
Proof.
  intros Ht. apply wp_and; [exact (wp_grows P _ t Ht)|]. unfold finishTerminalPod. case_decide as Hp.
  - rewrite wp_bind. eapply wp_mono; [apply wp_true|]. intros t1 [] _.
    rewrite wp_bind. eapply wp_mono; [apply wp_true|]. intros t2 e ?. by cbn.
  - eapply wp_mono; [apply wp_true|]. by intros t' r _ _.
Qed.

Lemma terminal_loop_in pods pod : forall terminal,
  terminal_loop terminal pods = Some (Some pod) -> terminal = Some pod \/ pod ∈ pods.
Proof.
  induction pods as [|p pods IH]; intros terminal H; cbn in H; [injection H as ->; by left|].
  repeat case_decide; [done| | |];
    (apply IH in H as [H|H]; [|right; by right]).
  - injection H as ->. right. by left.
  - destruct terminal; [by left|]. injection H as ->. right. by left.
  - by left.
Qed.

Lemma pod_resolves pod t : (pod_Phase pod = PodSucceeded -> job_succeeded t) ->
  wp (r ← finishTerminalPod Unmarshal c out job pod; Ret (inl r : result () + JobPod)) t (fun t r =>
    match r with inl r => is_Ok r = true -> job_succeeded t | inr pod => Exists (found_pod pod) t end).
Proof.
  intros Hp. rewrite wp_bind.
  eapply wp_mono; [apply (finishTerminalPod_succeeded (fun t => pod_Phase pod = PodSucceeded -> job_succeeded t))|].
  - exact Hp.
  - intros t1 r [H Hr] Hok. auto.
Qed.

Lemma resolve_succeeded :
  wp (resolveRunningJobPod Unmarshal c out ns job) [] (fun t r =>
    match r with inl r => is_Ok r = true -> job_succeeded t | inr pod => Exists (found_pod pod) t end).
Proof.
  unfold resolveRunningJobPod. rewrite wp_bind. unfold findTerminalJobPod. cbn [wp ask mbind io_bind io_bind_def app].
  intros pods. destruct pods as [pods|e]; [|done].
  assert (forall anyPods : bool, wp (gone ← (if anyPods : bool then Ret None else finishedJobWithoutPods c ns job);
      match gone with
      | Some r => Ret (inl r)
      | None => pod ← WaitForJobStart c ns job;
          match pod with
          | Err e => Ret (inl (Err e))
          | Ok pod => if decide (pod_Phase pod <> PodRunning)
              then r ← finishTerminalPod Unmarshal c out job pod; Ret (inl r) else Ret (inr pod)
          end
      end) [Ev (ListJobPods c ns job) (Ok pods)] (fun t r =>
    match r with inl r => is_Ok r = true -> job_succeeded t | inr pod => Exists (found_pod pod) t end)) as Hgo.
  { intros anyPods. rewrite wp_bind.
    eapply (wp_mono _ _ (fun t gone => match gone with Some r => is_Ok r = true -> job_succeeded t | None => True end)).
    - destruct anyPods; [done|]. unfold finishedJobWithoutPods. cbn [wp ask mbind io_bind io_bind_def]. intros [j|e]; [|done].
      repeat case_decide; [|done..]. intros _. apply job_succeeded_snoc. cbn. split; [done|]. by exists j.
    - intros t [r|] Hr; [exact Hr|]. rewrite wp_bind. unfold WaitForJobStart. cbn [wp ask]. intros [pod|e]; [|done].
      case_decide.
      + apply pod_resolves. intros Hp. apply job_succeeded_snoc. cbn. split; [done|]. by exists pod.
      + cbn [wp]. apply Exists_app. right. by repeat constructor. }
  destruct (terminal_loop None pods) as [[pod|]|] eqn:E; [|exact (Hgo (negb (bool_decide (pods = []))))|exact (Hgo true)].
  apply pod_resolves. intros Hp. apply (job_succeeded_snoc []). cbn. split; [done|].
  exists pods, pod. split; [done|]. split; [|done]. by destruct (terminal_loop_in _ _ _ E).
Qed.

Lemma follow_succeeded pod t : Exists (found_pod pod) t ->
  wp (follow Unmarshal c out job pod) t (fun t r => is_Ok r.1.1 = true -> job_succeeded t).
Proof.
  intros Ht. unfold follow. rewrite wp_bind. cbn [wp ask]. intros [].
  rewrite wp_bind. cbn [wp ask]. intros [final|e]; [|done]. case_decide as Hp.
  - rewrite wp_bind. eapply wp_mono; [apply wp_true|]. intros t1 [f st] _.
    rewrite wp_bind. eapply wp_mono; [apply wp_true|]. intros t2 [] _.
    rewrite wp_bind. eapply wp_mono; [apply wp_true|]. intros t3 e _. cbn. by destruct f.
  - eapply wp_mono; [apply (wp_grows job_succeeded)|by auto]. apply job_succeeded_snoc. cbn. split; [done|]. split.
    + exists pod. split; [|done]. by apply Exists_grows.
    + by exists final.
Qed.

End Reporting.

(** A wait that succeeds was shown a success. *)
Lemma WaitForJobCompletion_succeeded requested :
  wp (WaitForJobCompletion Unmarshal c requested ns job) [] (fun t r => is_Ok r = true -> job_succeeded t).
Proof.
  unfold WaitForJobCompletion. cbv zeta. rewrite wp_bind. eapply wp_mono; [apply resolve_succeeded|].
  intros t [r|pod] Hr; [exact Hr|]. rewrite wp_bind. eapply wp_mono; [by apply follow_succeeded|].
  intros t1 [[r stopped] barOpen] H1. rewrite wp_bind. cbn [fst] in H1.
  eapply wp_mono; [exact (wp_grows (fun t => is_Ok r = true -> job_succeeded t) _ _ H1)|]. intros t2 [f b] H2 Hok. apply H2.
  by destruct r as [|], f as [|].
Qed.
End Job.

(** The wait for a start as its callers use it: the pod is only told of. *)
Definition started (c : ClusterClient) (ns job : string) : io (result ()) :=
  r ← WaitForJobStart c ns job; Ret (match r with Ok _ => Ok () | Err e => Err e end).

Lemma started_found c ns job t : yields (started c ns job) t (Ok ()) -> exists pod, Exists (found_pod c ns job pod) t.
Proof. intros (x & t' & -> & -> & E). destruct x as [pod|e]; [|done]. exists pod. by repeat constructor. Qed.

(** ** A mover that ran over ssh *)

Section Local.
Context (exitStatus : error -> option Z) (req : Request) (privateKey : string).

(** The session ran the mover's command, and it exited well: with status zero, or a
    status its policy tolerates. *)
Definition mover_ran (ev : event) : Prop :=
  match ev with
  | Ev e x =>
      match e in call X return X -> Prop with
      | SshRun cmd => fun r => good_exit exitStatus req r.1 = true /\
          exists mover, buildMoverCmdSSHSession req = Ok mover /\ cmd = command mover
      | _ => fun _ => False
      end x
  end.

Lemma ended_well_ran t : forall st, obeys (session_allows req) (session_next exitStatus req) st t ->
  ended_well (final (session_next exitStatus req) st t) = true -> ended_well st = true \/ Exists mover_ran t.
Proof.
  induction t as [|[X e x] t IH]; intros st Ho Hw; cbn in *; [by left|]. destruct Ho as [He Ho].
  apply IH in Hw as [Hw|Hw]; [|right; by right|done].
  destruct st as [c l s w j g]. destruct e; try (by left); cbn in *; try (by left).
  - right. left. destruct He as [Hm _]. by split.
  - destruct r; by left.
Qed.

(** A session that succeeds ran the mover to a good end. *)
Lemma waitAndRunMover_ran t :
  yields (waitAndRunMover exitStatus req privateKey) t (Ok ()) -> Exists mover_ran t.
Proof.
  intros Hy. destruct (mwp_yields _ _ _ _ _ _ _ (waitAndRunMover_mwp exitStatus req privateKey) Hy) as [Ho [_ Hw]].
  destruct (Hw eq_refl) as [_ Hg]. by destruct (ended_well_ran t _ Ho Hg).
Qed.
End Local.

(** ** What the two may do *)

(** Reads of a Job, its pods and their logs, and output. *)
Definition wait_call X (e : call X) : Prop :=
  match e with
  | ListJobPods _ _ _ | GetJob _ _ _ | WaitForJobPod _ _ _ | WaitForPodTermination _ _ _ | GetJobPod _ _ _
  | TailPodLogs _ _ _ _ | FollowLogs _ _ _ | StopFollower | BarRendered | MarkAsComplete | FinishBar
  | Print _ | Log _ _ _ => True
  | _ => False
  end.

Lemma wait_calls Unmarshal c requested ns job : all_calls wait_call (WaitForJobCompletion Unmarshal c requested ns job).
Proof.
  unfold WaitForJobCompletion, resolveRunningJobPod, findTerminalJobPod, finishedJobWithoutPods, WaitForJobStart,
    finishTerminalPod, follow, stopFollower, failedPodError, writeFailureTail, recentPodLogs, writeTail,
    warnIfSourceFilesVanished.
  quiet_calls; done.
Qed.

Lemma start_calls c ns job : all_calls wait_call (started c ns job).
Proof. unfold started, WaitForJobStart. quiet_calls; done. Qed.

(** ** What the two never do *)

Definition touches_releases (ev : event) : bool :=
  match ev with Ev (HelmInstall _ _ _ _ _ _) _ | Ev (HelmUninstall _ _ _ _) _ => true | _ => false end.
Definition leaves_releases (ev : event) : Prop := touches_releases ev = false.

Lemma obeys_leaves {S} (allowed : S -> forall X, call X -> Prop) next :
  (forall s X e, allowed s X e -> forall x, leaves_releases (Ev e x)) ->
  forall t s, obeys allowed next s t -> Forall leaves_releases t.
Proof.
  intros Ha t. induction t as [|[X e x] t IH]; intros s Ho; [constructor|]. destruct Ho as [He Ho].
  constructor; [by eapply Ha|by eapply IH].
Qed.

Lemma wait_leaves Unmarshal c requested ns job t r :
  yields (WaitForJobCompletion Unmarshal c requested ns job) t r -> Forall leaves_releases t.
Proof.
  intros Hy. destruct (mwp_yields _ _ _ _ _ _ _ (WaitForJobCompletion_mwp Unmarshal c requested ns job) Hy) as [Ho _].
  eapply obeys_leaves; [|exact Ho]. by intros s X [].
Qed.

Lemma start_leaves c ns job t r : yields (started c ns job) t r -> Forall leaves_releases t.
Proof. intros (x & t' & -> & -> & _). by repeat constructor. Qed.

Lemma session_leaves exitStatus req privateKey t r :
  yields (waitAndRunMover exitStatus req privateKey) t r -> Forall leaves_releases t.
Proof.
  intros Hy. destruct (mwp_yields _ _ _ _ _ _ _ (waitAndRunMover_mwp exitStatus req privateKey) Hy) as [Ho _].
  eapply obeys_leaves; [|exact Ho]. by intros s X [].
Qed.
