(* ===== verification/WholeMigration.v ===== *)
(** * A whole migration: the components linked together

    The strategies of internal/strategy call the wait for a Job (internal/k8s/job.go)
    and the session of the local strategy (internal/strategy/local.go); Strategy and
    Migrator have these as calls.  Here the programs of Jobs and Session are put in
    their place ([Link.link]), so that what is proved is about the run the user
    asked for, from the request down to the reads of the API server and what the
    session does on its connections. *)
From S2P Require Import Prelude GoStrings Opid Workload World Link Pvc Migration Mover HelmValues Strategy Migrator Jobs Session Evidence.
From stdpp Require Import options.

(** ** Steps of an attempt *)

Section Attempts.
Context (mig : Migration).

(** From a trace with [P], for an attempt at this migration, the step leads to one
    with [Q] if it succeeds. *)
Definition triple {A} (P : list event -> Prop) (m : act A) (Q : A -> list event -> Prop) : Prop := forall a t,
  Attempt_Migration a = mig -> P t ->
  wp (m a) t (fun t' ra => Attempt_Migration ra.2 = mig /\ match ra.1 with Ok x => Q x t' | Err _ => True end).

Lemma triple_bind {A B} P Q R (m : act A) (f : A -> act B) :
  triple P m Q -> (forall x, triple (Q x) (f x) R) -> triple P (act_bind m f) R.
Proof.
  intros Hm Hf a t Ha Ht. rewrite wp_act_bind. eapply wp_mono; [by apply Hm|].
  intros t' [[x|e] a'] [Ha' Hx]; cbn in *; [by apply Hf|done].
Qed.

Lemma triple_read {A} P Q (f : Attempt -> act A) :
  (forall a, Attempt_Migration a = mig -> triple P (f a) Q) -> triple P (fun a => f a a) Q.
Proof. intros Hf a t Ha Ht. by apply Hf. Qed.

Lemma triple_wrap {A} P Q fmt (m : act A) : triple P m Q -> triple P (act_wrap fmt m) Q.
Proof.
  intros Hm a t Ha Ht. rewrite wp_act_wrap. eapply wp_mono; [by apply Hm|].
  by intros t' [[x|e] a'] [H1 H2].
Qed.

Lemma triple_lift {A} P `{!Grows P} (p : io (result A)) : triple P (lift p) (fun _ => P).
Proof. intros a t Ha Ht. rewrite wp_lift. eapply wp_mono; [by apply wp_grows|]. intros t' [x|e] H; by split. Qed.

Lemma triple_modify P f : (forall a, Attempt_Migration (f a) = Attempt_Migration a) -> triple P (modify f) (fun _ => P).
Proof. intros Hf a t Ha Ht. cbn. by rewrite Hf. Qed.

Lemma triple_weaken {A} P P' Q (m : act A) : (forall t, P t -> P' t) -> triple P' m Q -> triple P m Q.
Proof. intros HP Hm a t Ha Ht. apply Hm; auto. Qed.

Lemma triple_failed {A} P Q e : triple P (failed e : act A) Q.
Proof. intros a t Ha Ht. by cbn. Qed.

Lemma installHelmChart_installs P info name vals : 
  triple P (Strategy.installHelmChart info name vals) (fun _ => Exists (was_installed name)).
Proof.
  apply (triple_weaken _ (fun _ => True)); [done|]. unfold Strategy.installHelmChart.
  eapply triple_bind; [by apply triple_modify|intros ?; cbv beta].
  eapply triple_bind; [by apply triple_wrap, triple_lift|intros ?; cbv beta].
  apply (triple_read _ _ (fun attempt => _)). intros a Ha. cbv zeta.
  eapply (triple_bind _ (fun _ _ => True)).
  { intros a' t Ha' Ht. rewrite wp_bind. eapply wp_mono; [apply wp_true|]. intros t' v _. cbn. by split. }
  intros v. cbv beta. eapply triple_bind; [by apply triple_wrap, triple_lift|intros merged; cbv beta].
  intros a' t Ha' _. rewrite wp_lift, wp_bind. cbn [wp ask]. intros [| |]; cbn [wp]; try by split.
  eapply wp_mono; [apply (wp_grows (Exists (was_installed name)))|].
  - apply Exists_app. right. by repeat constructor.
  - intros t' [u|e] H; by split.
Qed.

(** ** The strategies *)

Local Notation req := (migration_Request mig).

Lemma waitForRsyncJob_delivers info release :
  triple (Exists (was_installed release)) (waitForRsyncJob info release)
    (fun _ => delivered (Detach req) "-rsync").
Proof.
  intros a t Ha Ht. unfold waitForRsyncJob. rewrite Ha.
  assert (forall ev t', delivers (Detach req) (release +:+ "-rsync") ev -> t' = t ++ [ev] -> delivered (Detach req) "-rsync" t')
    as Hd by (intros ev t' Hev ->; by exists t, ev, [], release).
  destruct (Detach req) eqn:E.
  - rewrite wp_act_bind, wp_act_wrap, wp_lift. cbn. intros [[]|e]; cbn; [|done].
    split; [done|]. by eapply Hd; [|reflexivity].
  - rewrite wp_lift. cbn. intros [[]|e]; cbn; [|done]. split; [done|]. by eapply Hd; [|reflexivity].
Qed.

Lemma runMount_delivers P : triple P runMount (fun _ => delivered (Detach req) "-rsync").
Proof.
  intros a t Ha _. unfold runMount. cbv zeta. rewrite Ha.
  case_decide; [by cbn|].
  refine (triple_bind (fun _ => True) _ _ _ _ _ _ a t Ha I); [by apply triple_wrap, triple_lift|intros mover; cbv beta].
  eapply triple_bind; [by apply triple_modify|intros ?; cbv beta].
  eapply triple_bind; [apply installHelmChart_installs|intros ?; cbv beta]. apply waitForRsyncJob_delivers.
Qed.

Lemma runClusterIP_delivers P : triple P runClusterIP (fun _ => delivered (Detach req) "-rsync").
Proof.
  intros a t Ha _. unfold runClusterIP. cbv zeta. rewrite Ha.
  case_decide; [by cbn|].
  refine (triple_bind (fun _ => True) _ _ _ _ _ _ a t Ha I); [by apply triple_modify|intros ?; cbv beta].
  eapply triple_bind; [by apply triple_wrap, triple_lift|intros vals; cbv beta].
  eapply triple_bind; [apply installHelmChart_installs|intros ?; cbv beta].
  eapply triple_bind; [|intros ?; apply waitForRsyncJob_delivers].
  case_decide; [by apply triple_modify|]. intros a' t1 Ha' Ht. by cbn.
Qed.

Lemma runTwoRelease_delivers P serviceType resolveTarget :
  triple P (runTwoReleaseStrategy serviceType resolveTarget) (fun _ => delivered (Detach req) "-rsync").
Proof.
  intros a t Ha _. unfold runTwoReleaseStrategy. cbv zeta. rewrite Ha.
  refine (triple_bind (fun _ => True) _ _ _ _ _ _ a t Ha I); [by apply triple_lift|intros [[publicKey privateKey] path]; cbv beta].
  destruct (releaseNames _ _) as [sshdRelease rsyncRelease].
  eapply triple_bind; [by apply triple_modify|intros ?; cbv beta].
  eapply (triple_bind _ (fun _ _ => True)); [|intros ?; cbv beta].
  { apply triple_wrap. intros a' t1 Ha' Ht. eapply wp_mono; [by apply (installHelmChart_installs (fun _ => True))|].
    intros t' [[y|e] a''] [H1 H2]; by split. }
  eapply triple_bind; [by apply triple_lift|intros target; cbv beta].
  eapply triple_bind; [|intros ?; apply waitForRsyncJob_delivers].
  apply triple_wrap. unfold installRsyncJob. apply (triple_read _ _ (fun attempt => _)). intros a' Ha'. cbv zeta.
  eapply triple_bind; [by apply triple_lift|intros mover; cbv beta]. apply installHelmChart_installs.
Qed.

Lemma runLocal_delivers P : triple P runLocal (fun _ => delivered (Detach req) "-rsync").
Proof.
  intros a t Ha _. unfold runLocal. cbv zeta. rewrite Ha.
  destruct (Detach req) eqn:E; [by cbn|].
  refine (triple_bind (fun _ => True) _ _ _ _ _ _ a t Ha I); [by apply triple_lift|intros [[publicKey privateKey] path]; cbv beta].
  eapply triple_bind; [by apply triple_modify|intros ?; cbv beta].
  eapply triple_bind; [apply triple_wrap, (installHelmChart_installs (fun _ => True))|intros ?; cbv beta].
  set (P' := Exists _). assert (Grows P') by apply Exists_grows. eapply (triple_bind _ (fun _ => P')); [|intros ?; cbv beta].
  { apply triple_wrap. intros a' t1 Ha' Ht. eapply wp_mono.
    - apply wp_and; [by apply (installHelmChart_installs (fun _ => True))|exact (wp_grows P' _ t1 Ht)].
    - intros t' [[y|e] a''] [[H1 H2] H3]; by split. }
  eapply triple_bind; [by apply triple_wrap, triple_lift|intros srcPod; cbv beta].
  eapply triple_bind; [by apply triple_wrap, triple_lift|intros destPod; cbv beta].
  intros a' t1 Ha' Ht. rewrite wp_lift. cbn. intros [[]|e]; cbn; [|done]. split; [done|].
  eexists t1, _, [], _. split; [reflexivity|]. by split; [|exact Ht].
Qed.

Lemma Run_delivers s P : triple P (Strategy.Run s) (fun _ => delivered (Detach req) "-rsync").
Proof.
  destruct s; cbn [Strategy.Run].
  - apply runMount_delivers.
  - apply runClusterIP_delivers.
  - apply runTwoRelease_delivers.
  - apply runLocal_delivers.
  - apply runTwoRelease_delivers.
Qed.
End Attempts.

(** ** The ladder *)

Lemma runAttempt_delivers mig s a t : Attempt_Migration a = mig ->
  wp (runAttempt s a) t (fun t' ra => is_Ok ra.1 = true -> delivered (Detach (migration_Request mig)) "-rsync" t').
Proof.
  intros Ha. unfold runAttempt. rewrite wp_bind. eapply wp_mono; [by apply (Run_delivers mig s (fun _ => True))|].
  intros t' [[[]|e] a'] [_ Hd]; cbn [fst snd] in *.
  - rewrite wp_bind. cbn [wp]. rewrite wp_bind. eapply wp_mono; [exact (wp_grows _ _ _ Hd)|].
    intros t2 ? H. by cbn.
  - rewrite wp_bind. eapply wp_mono; [apply wp_true|]. intros t2 a2 _.
    rewrite wp_bind. eapply wp_mono; [apply wp_true|]. by cbn.
Qed.

Lemma ladder_delivers req id mig m todo outcomes t :
  migration_Request mig = req ->
  wp (ladder req id mig m todo outcomes) t (fun t' r => is_Ok r.1 = true -> delivered (Detach req) "-rsync" t').
Proof.
  intros <-. revert outcomes t. induction todo as [|name todo IH]; intros outcomes t; cbn [ladder]; [done|].
  destruct (strategy_lookup m name) as [s|]; [|done]. rewrite wp_bind.
  eapply wp_mono; [by apply (runAttempt_delivers mig s)|]. intros t' [[u|e] a'] Hd; cbn [fst snd] in *; [by cbn; auto|].
  cbn [wp ask mbind io_bind io_bind_def]. intros [|]; [by cbn|apply IH].
Qed.

Lemma run_delivers req generated :
  wp (Migrator_Run req generated) [] (fun t r => is_Ok r.1 = true -> delivered (Detach req) "-rsync" t).
Proof.
  unfold Migrator_Run. destruct (preflight req) as [m|e]; [|done]. cbv zeta.
  rewrite wp_bind. eapply wp_mono; [apply wp_true|]. intros t [[source dest]|e] _; [|done].
  rewrite wp_bind. eapply wp_mono; [apply wp_frame, buildMigration_request|].
  intros t' [mig|e] (t2 & -> & Hm); [|done]. by apply ladder_delivers, Hm.
Qed.

(** ** The linked program *)

Section Whole.
Context (Unmarshal : string -> option (string * string)) (exitStatus : error -> option Z).

(** The wait prints where the request says. *)
Definition output_of (req : Request) : output :=
  mkOutput (Migration.ShowProgressBar req) (StructuredLogs req) (ColorOutput req).

Definition migration_parts (req : Request) : implementation := fun X e =>
  match e in call X return option (io X) with
  | World.WaitForJobStart c ns job => Some (started c ns job)
  | World.WaitForJobCompletion c ns job => Some (Jobs.WaitForJobCompletion Unmarshal c (output_of req) ns job)
  | RunLocalMigration _ _ privateKey _ _ _ => Some (waitAndRunMover exitStatus req privateKey)
  | _ => None
  end.

Definition Migration_run (req : Request) (generated : string) : io (result () * report) :=
  link (migration_parts req) (Migrator_Run req generated).

(** ** Lemmas *)

Lemma part_leaves req X (e : call X) q u x :
  migration_parts req X e = Some q -> yields q u x -> Forall leaves_releases u.
Proof.
  destruct e; try discriminate; intros [= <-]; [apply start_leaves|apply wait_leaves|apply session_leaves].
Qed.

Lemma leaves_neutral ev : leaves_releases ev -> installs_nothing ev /\ uninstalls_nothing ev.
Proof. destruct ev as [X []]; intros H; first [discriminate H|done]. Qed.

Lemma expands_uninstalls req t client :
  Forall uninstalls_nothing client -> expands (migration_parts req) t client -> Forall uninstalls_nothing t.
Proof.
  apply expands_Forall. intros u [X e x] Hev Hu. unfold stands_for in Hu.
  destruct (migration_parts req X e) as [q|] eqn:E; [|subst u; by repeat constructor].
  eapply Forall_impl; [by eapply part_leaves|]. intros ev. apply leaves_neutral.
Qed.

Lemma expands_installed req t release client :
  Exists (was_installed release) client -> expands (migration_parts req) t client -> Exists (was_installed release) t.
Proof.
  apply expands_Exists. intros u [X e x] Hev Hu. cbn in Hu.
  destruct e; try done. cbn in Hu. subst u. by apply Exists_cons_hd.
Qed.

Lemma expands_cleaned req t client : cleaned client -> expands (migration_parts req) t client -> cleaned t.
Proof.
  revert t. induction client as [|[X e x] client IH]; intros t Hc Ht; cbn [expands] in Ht; [by subst t|].
  destruct Ht as (u & rest & -> & Hu & Hr), Hc as [He Hc]. unfold stands_for in Hu. specialize (IH rest Hc Hr).
  destruct (migration_parts req X e) as [q|] eqn:E.
  - apply cleaned_app; [|done]. apply cleaned_quiet. eapply Forall_impl; [by eapply part_leaves|]. intros ev. apply leaves_neutral.
  - subst u. split; [|exact IH]. destruct (installed (Ev e x)) as [r|]; [|done].
    eapply expands_Exists; [|exact He|exact Hr]. intros u [Y e' y] Hev Hu. cbn in Hu.
    destruct e'; try done; cbn in Hu; subst u; by apply Exists_cons_hd.
Qed.

(** What is known of a run that reports success. *)
Definition earned (req : Request) (t : list event) : Prop := exists before u after release,
  t = before ++ u ++ after /\ Exists (was_installed release) before /\
  if Detach req then exists c ns pod, Exists (found_pod c ns (release +:+ "-rsync") pod) u
  else (exists c ns, job_succeeded c ns (release +:+ "-rsync") u) \/ Exists (mover_ran exitStatus req) u.

Lemma delivered_earned req t client :
  delivered (Detach req) "-rsync" client -> expands (migration_parts req) t client -> earned req t.
Proof.
  intros (b & [X e x] & a & release & -> & Hd & Hi) (t1 & u & t2 & -> & H1 & Hu & H2)%expands_at.
  exists t1, u, t2, release. split; [done|]. split; [by eapply expands_installed|].
  destruct e; try done; cbn in Hd.
  - destruct Hd as (-> & -> & ->). destruct (started_found c ns (release +:+ "-rsync") u Hu) as [pod Hp]. by exists c, ns, pod.
  - destruct Hd as (-> & -> & ->). left. exists c, ns.
    pose proof (WaitForJobCompletion_succeeded c ns (release +:+ "-rsync") Unmarshal (output_of req)) as Hw.
    rewrite wp_yields in Hw. by apply (Hw u (Ok ()) Hu).
  - destruct Hd as (-> & ->). right. exact (waitAndRunMover_ran _ _ _ _ Hu).
Qed.

(** C1: what a whole migration promises, from the request down to the reads of the
    API server and the calls of the ssh session.  When it reports success, a release
    was installed, and after that the API server showed that release's Job, or a pod
    of it, as succeeded, or the data mover was run over ssh with the command built
    for the request and exited with a status its policy counts as success; with
    --detach, a pod of the Job was found.  And whatever the outcome, every release
    installed is uninstalled or its uninstall was attempted, unless the flags ask
    to keep it. *)
Theorem migration_succeeds_with_its_mover req generated h n :
  let run := exec h n (Migration_run req generated) in
  (is_Ok run.2.1 = true -> earned req run.1) /\
  (NoCleanup req = false -> Detach req = false -> NoCleanupOnFailure req = false -> cleaned run.1) /\
  (NoCleanup req = true -> Forall uninstalls_nothing run.1).
Proof.
  intros run. pose proof (exec_yields h n (Migration_run req generated)) as Hy. fold run in Hy.
  apply (wp_link _ _ _ _ _ (wp_and _ _ _ _ (run_delivers req generated) (run_fate req generated))) in Hy
    as (client & Ht & Hd & Hc & Hk).
  split; [intros Hok; by eapply delivered_earned; [apply Hd|]|].
  split; [intros; by eapply expands_cleaned; [apply Hc|]|intros; by eapply expands_uninstalls; [apply Hk|]].
Qed.
End Whole.

(** ** Two migrations *)

Definition quiet_cluster : handler :=
  still (mkClient "https://a" "default")
    (mkCluster (fun ns name => Ok (mkPVC ns name [ReadWriteOnce] "" None ∅ None None)) (fun _ => Ok [])
       (fun _ => ApiErr NotFound (ErrNew "gone")) (Found [])).

(** From claim a to claim b of one namespace. *)
Definition request_with (strategies : list string) : Request :=
  mkRequest "ab12" "" "" (mkPVCInfo "" "" "" "a" "") (mkPVCInfo "" "" "" "b" "") false
    false false false false false false false false false "ed25519" 50000 0 [] [] [] [] strategies "" 0
    false false "" "" false false.

Definition names_of (t : list event) : list string :=
  omap (fun ev => match ev with
                  | Ev (HelmInstall _ _ r _ _ _) _ => Some ("install " +:+ r)
                  | Ev (HelmUninstall _ _ r _) _ => Some ("uninstall " +:+ r)
                  | Ev (World.WaitForJobCompletion _ _ _) _ | Ev (RunLocalMigration _ _ _ _ _ _) _ => Some "a component"
                  | Ev (WaitForJobPod _ _ job) _ => Some ("pod of " +:+ job)
                  | Ev (SshRun _) _ => Some "mover"
                  | Ev (SshClose _) _ => Some "close"
                  | _ => None
                  end) t.

(** No call to a component is left in the linked run. *)
Example mount_run :
  names_of (exec quiet_cluster 0 (Migration_run (fun _ => None) (fun _ => None) (request_with ["mount"]) "zz")).1 =
  ["install pv-migrate-ab12-mount"; "pod of pv-migrate-ab12-mount-rsync";
   "uninstall pv-migrate-ab12-mount"; "uninstall pv-migrate-ab12-mount"].
Proof. vm_compute. reflexivity. Qed.

Example local_run :
  names_of (exec quiet_cluster 0 (Migration_run (fun _ => None) (fun _ => None) (request_with ["local"]) "zz")).1 =
  ["install pv-migrate-ab12-local-src"; "install pv-migrate-ab12-local-dest"; "mover"; "close"; "close"; "close"; "close";
   "uninstall pv-migrate-ab12-local-src"; "uninstall pv-migrate-ab12-local-dest";
   "uninstall pv-migrate-ab12-local-src"; "uninstall pv-migrate-ab12-local-dest"].
Proof. vm_compute. reflexivity. Qed.

Lemma migration_succeeds_with_its_mover_witness :
  let req := request_with ["mount"] in
  let run := exec quiet_cluster 0 (Migration_run (fun _ => None) (fun _ => None) req "zz") in
  is_Ok run.2.1 = true /\ earned (fun _ => None) req run.1 /\ cleaned run.1.
Proof.
  intros req run. assert (is_Ok run.2.1 = true) as Hok by (vm_compute; reflexivity).
  destruct (migration_succeeds_with_its_mover (fun _ => None) (fun _ => None) req "zz" quiet_cluster 0) as (H1 & H2 & _).
  split; [exact Hok|]. split; [exact (H1 Hok)|]. apply H2; reflexivity.
Defined.
