(* ===== verification/WholeBucket.v ===== *)
(** * A whole backup or restore: the components linked together

    [Bucket.Run] (internal/bucketstorage) calls the waits of internal/k8s/job.go;
    here the programs of Jobs are put in the place of these calls, as WholeMigration
    does for a migration.  The protocol of a run, which Bucket proves of the calls,
    is then one of the run with everything a wait does in it. *)
From S2P Require Import Prelude GoStrings Opid Workload World Link Evidence Jobs ArchiveTarget Pvc Migration Strategy Migrator BucketRequest SnapshotSource BucketPlan Bucket.
From stdpp Require Import options.

Section Whole.
Context (ReadFile : string -> result string) (Marshal : Metadata -> result string).
Context (Unmarshal : string -> option (string * string)).

(** [bar] is what [shouldShowProgressBar] says of the writer. *)
Definition bucket_parts (bar : bool) (req : Request) : implementation := fun X e =>
  match e in call X return option (io X) with
  | World.WaitForJobStart c ns job => Some (started c ns job)
  | World.WaitForJobCompletion c ns job =>
      Some (Jobs.WaitForJobCompletion Unmarshal c (mkOutput bar (StructuredLogs req) (ColorOutput req)) ns job)
  | _ => None
  end.

Definition Bucket_run (bar : bool) (req : Request) (generated : string) (now stamp : Time) : io (result () * report) :=
  link (bucket_parts bar req) (Run ReadFile Marshal req generated now stamp).

(** ** Lemmas: what the client sees *)

Lemma wp_or_fail {A} (p : io (result A)) f t Q :
  wp (or_fail p f) t Q <->
  wp p t (fun t r => match r with Ok a => wp (f a) t Q | Err e => Q t (Err e, NoReport) end).
Proof.
  unfold or_fail. rewrite wp_bind. split; intros H; (eapply wp_mono; [exact H|]); by intros t' [].
Qed.

Definition waited (req : Request) (job : string) (t : list event) : Prop := Exists (delivers (Detach req) job) t.
#[export] Instance waited_grows req job : Grows (waited req job).
Proof. apply Exists_grows. Qed.

Lemma handleJobCompletion_waits req info release job id t :
  wp (handleJobCompletion req info release job id) t (fun t r => is_Ok r.1 = true -> waited req job t).
Proof.
  unfold handleJobCompletion. rewrite wp_bind.
  eapply (wp_mono _ _ (fun t r => is_Ok r.1 = true -> waited req job t)).
  - destruct (Detach req) eqn:E.
    + rewrite wp_bind. cbn [wp ask]. intros [[]|e]; cbn; [|done]. intros _. apply Exists_app. right.
      apply Exists_cons_hd. cbn. by rewrite E.
    + rewrite wp_bind. cbn [wp ask]. intros [[]|e].
      * cbn. intros _. apply Exists_app. right. apply Exists_cons_hd. cbn. by rewrite E.
      * rewrite wp_bind. eapply wp_mono; [apply wp_true|]. by cbn.
  - intros t1 [r rep] H1. rewrite wp_bind.
    eapply wp_mono; [exact (wp_grows (fun t => is_Ok r = true -> waited req job t) _ _ H1)|]. intros t2 ? H2. exact H2.
Qed.

Lemma runJob_waits req c ns id release target conf remote local stamp info t :
  wp (runJob Marshal req c ns id release target conf remote local stamp info) t
    (fun t r => is_Ok r.1 = true -> waited req (release +:+ "-" +:+ jobSuffix req) t).
Proof.
  unfold runJob. rewrite wp_or_fail. eapply wp_mono; [apply wp_true|]. intros t1 [archiveInfo|e] _; [|done].
  rewrite wp_or_fail. cbn [wp]. destruct (buildMoverCmd _ _ _ _) as [cmd|e]; [|done].
  rewrite wp_or_fail. cbn [wp]. destruct (buildMetadata _ _ _ _ _) as [meta|e]; [|done].
  rewrite wp_bind. eapply wp_mono; [apply wp_true|]. intros t2 [u|e] _.
  - apply handleJobCompletion_waits.
  - rewrite wp_bind. eapply wp_mono; [apply wp_true|]. by cbn.
Qed.

Lemma Run_waits req generated now stamp :
  let operationID := if decide (ID req = "") then generated else ID req in
  wp (Run ReadFile Marshal req generated now stamp) []
    (fun t r => is_Ok r.1 = true -> waited req (our_job req operationID) t).
Proof.
  cbv zeta. unfold Run. cbv zeta. set (operationID := if decide _ then _ else _).
  rewrite wp_or_fail. cbn [wp]. destruct (plan _ _ _) as [[[[target conf] remote] local]|e]; [|done].
  do 4 (rewrite wp_or_fail; eapply wp_mono; [apply wp_true|]; intros ? [?|?] _; [|done]).
  match goal with x : Info * _ |- _ => destruct x as [info src] end.
  rewrite wp_bind. eapply wp_mono; [apply runJob_waits|]. intros t' [r rep] H1. rewrite wp_bind.
  eapply wp_mono; [exact (wp_grows (fun t => is_Ok r = true -> waited req (our_job req operationID) t) _ _ H1)|].
  intros t9 ? H2. exact H2.
Qed.

(** ** Lemmas: the linked program *)

Lemma part_calls bar req X (e : call X) q :
  bucket_parts bar req X e = Some q -> all_calls wait_call q /\ (forall st x, run_next st X e x = st).
Proof. destruct e; try discriminate; intros [= <-]; (split; [apply start_calls || apply wait_calls|done]). Qed.

Lemma bucket_obeys bar req id client st t :
  obeys (run_allows req id) run_next st client -> expands (bucket_parts bar req) t client ->
  obeys (run_allows req id) run_next st t /\ final run_next st t = final run_next st client.
Proof.
  apply obeys_expands. intros s X e q u x E Hy _. destruct (part_calls _ _ _ _ _ E) as [Hc Hn]. rewrite Hn.
  apply still_trace. eapply Forall_impl; [by eapply all_calls_yields|]. intros [Y e' y] He. by destruct e'.
Qed.

Lemma up_was_installed req id t : forall st, obeys (run_allows req id) run_next st t ->
  the_release (final run_next st t) = Up -> the_release st = Up \/ Exists (was_installed (our_release req id)) t.
Proof.
  induction t as [|[X e x] t IH]; intros st Ho Hu; cbn in *; [by left|]. destruct Ho as [He Ho].
  destruct (IH _ Ho Hu) as [H|H]; [|right; by right].
  destruct e; try (by left; exact H); cbn in H, He; try (by left; destruct (is_Ok x)).
  - destruct (bool_decide _ && _); [done|by left].
  - destruct x; [|done..]. right. apply Exists_cons_hd. cbn. by destruct He as [-> _].
  - done.
Qed.

(** What is known of a run that reports success. *)
Definition bucket_earned (req : Request) (operationID : string) (t : list event) : Prop :=
  exists before u after c ns, t = before ++ u ++ after /\
    Exists (was_installed (our_release req operationID)) before /\
    if Detach req then exists pod, Exists (found_pod c ns (our_job req operationID) pod) u
    else job_succeeded c ns (our_job req operationID) u.

Lemma waited_earned bar req id client t :
  obeys (run_allows req id) run_next at_start client -> waited req (our_job req id) client ->
  expands (bucket_parts bar req) t client -> bucket_earned req id t.
Proof.
  intros Ho (ev & (b & a & ->)%list_elem_of_split & Hd)%Exists_exists (t1 & u & t2 & -> & H1 & Hu & H2)%expands_at.
  destruct ev as [X e x]. apply obeys_app in Ho as [Hb [Ha _]].
  assert (the_release (final run_next at_start b) = Up -> Exists (was_installed (our_release req id)) t1) as Hi.
  { intros Hup. destruct (up_was_installed _ _ _ _ Hb Hup) as [Hx|Hx]; [done|].
    eapply expands_Exists; [|exact Hx|exact H1]. intros u' [Y e' y] Hev Hu'. cbn in Hu'.
    destruct e'; try done. cbn in Hu'. subst u'. by apply Exists_cons_hd. }
  destruct e; try done; cbn in Hd, Ha.
  - destruct Ha as (_ & Hup & _), Hd as (E & -> & ->). exists t1, u, t2, c, ns. rewrite E.
    split; [done|]. split; [by apply Hi|]. exact (started_found c ns (our_job req id) u Hu).
  - destruct Ha as (_ & Hup & _), Hd as (E & -> & ->). exists t1, u, t2, c, ns. rewrite E.
    split; [done|]. split; [by apply Hi|].
    pose proof (WaitForJobCompletion_succeeded c ns (our_job req id) Unmarshal
      (mkOutput bar (StructuredLogs req) (ColorOutput req))) as Hw.
    rewrite wp_yields in Hw. by apply (Hw u (Ok ()) Hu).
Qed.

End Whole.

(** ** A snapshot-backed backup *)

