(* ===== verification/Follower.v ===== *)
(** * The goroutines of the local session

    Two files at once, because the way they meet is the point: the follower of
    internal/progresslog/logger.go - [Start] with its retries, and the two
    goroutines of one [startSingle] - and the group of four goroutines that
    [runMoverSession] of internal/strategy/local.go joins - the watcher of the
    context, the acceptor of tunnel connections, the follower, and the runner of
    the mover.  They share a pipe, a channel of capacity one and a context; the
    model is an interleaving of their atomic steps.  A select is resolved by the
    label, so where two cases are ready either may be taken.

    Session.v has the calls around the group, Progress.v what the lines do to the
    bar.  What the far side does is a label too: the mover writes and exits,
    connections come and end, the caller's context is cancelled.  One connection
    is a number here: the goroutines copying its bytes are not modelled. *)
From S2P Require Import Prelude GoStrings Fmt Interleaving Progress Mover.
From stdpp Require Import relations options.
Local Open Scope nat_scope.

(** ** The state *)

Inductive ctx_end : Type := CtxCanceled | CtxDeadline.

Definition DeadlineExceeded : error := ErrNew "context deadline exceeded".
Definition ErrClosedPipe : error := ErrNew "io: read/write on closed pipe".
Definition ErrTooLong : error := ErrNew "bufio.Scanner: token too long".

(** [ctx.Err()], as an error and as the end of an attempt. *)
Definition ctx_Err (e : ctx_end) : error :=
  match e with CtxCanceled => ErrNew "context canceled" | CtxDeadline => DeadlineExceeded end.
Definition ctx_attempt (e : ctx_end) : attempt_end :=
  match e with CtxCanceled => Canceled | CtxDeadline => Failed DeadlineExceeded end.

(** The pipe between the session's output and the follower. *)
Record Pipe : Type := mkPipe {
  in_flight : option string;      (* what a blocked write has left *)
  writer_closed : bool;
  reader_closed : bool;
  copy_failed : bool              (* a write of the session's output failed *)
}.

Inductive tail_pc : Type :=
  | Scanning
  | SendingLine (line : string)
  | AtEnd                         (* [Scan] stopped without an error *)
  | TailReturned (r : attempt_end)
  | TailDone (r : attempt_end).   (* its deferred [cancel] has run *)

Inductive handle_pc : Type :=
  | Selecting
  | Handling (line : string)
  | Finishing                     (* took the success signal *)
  | HandleReturned
  | HandleDone.

(** One [startSingle]. *)
Record single : Type := mkSingle {
  tail : tail_pc;
  handle : handle_pc;
  sub : option ctx_end;           (* its own context *)
  buffered : string               (* the scanner's buffer *)
}.

Inductive start_pc : Type :=
  | Checking
  | Following (a : single)
  | ClosingStream (r : attempt_end)
  | Deciding (r : attempt_end)
  | Delaying
  | Stopped.                      (* [Start] has returned nil *)

Record Follower : Type := mkFollower {
  at_ : start_pc;
  retryDelay : Z;
  successCh : bool                (* the channel's buffer is full *)
}.

(** The goroutine that runs the mover; [vanished] is the flag it reports. *)
Inductive runner_pc : Type :=
  | Running
  | Ran (runErr : option error)
  | Marking (runErr : option error)
  | ClosingListener (r : result ()) (vanished : bool)
  | ClosingWriter (r : result ()) (vanished : bool)
  | SignallingDone (r : result ()) (vanished : bool)
  | RunnerDone (r : result ()) (vanished : bool).

Inductive watcher_pc : Type := Watching | ClosingSession | WatcherDone.
Inductive forwarder_pc : Type := Accepting | JoiningConns | ForwarderDone.

Record Group : Type := mkGroup {
  ctx : option ctx_end;           (* the group's context *)
  waitErr : option error;         (* the first error *)
  runner : runner_pc;
  moverDone : bool;
  watcher : watcher_pc;
  forwarder : forwarder_pc;
  listener_closed : bool;
  conns : nat
}.

Record config : Type := mkConfig {
  pipe : Pipe;
  follower : Follower;
  group : Group;
  joined : option (option error)  (* what [eg.Wait] returned *)
}.

Definition start : config :=
  mkConfig (mkPipe None false false false) (mkFollower Checking logRetryInitialDelay false)
    (mkGroup None None Running false Watching Accepting false 0) None.

(** Which case of a select is taken; [Other] is its default. *)
Inductive pick : Type := Ctx | Success | Other.

(** ** One attempt *)

(** A derived context is done when it or its parent is. *)
Definition done_of (parent own : option ctx_end) : option ctx_end :=
  match own with Some e => Some e | None => parent end.

Definition cancel (parent : option ctx_end) (a : single) : single :=
  mkSingle (tail a) (handle a) (Some (default CtxCanceled (done_of parent (sub a)))) (buffered a).
Definition set_tail (t : tail_pc) (a : single) : single := mkSingle t (handle a) (sub a) (buffered a).
Definition set_handle (h : handle_pc) (a : single) : single := mkSingle (tail a) h (sub a) (buffered a).

Definition scan_error (e : error) : attempt_end := Failed (Errorf "scan log stream: %w" [AWrap e]).

(** A step of [tailLogs]; [bytes] is what a read of the pipe returns. *)
Definition tailLogs (bytes : string) (parent : option ctx_end) (p : Pipe) (a : single) : option (Pipe * single) :=
  match tail a with
  | Scanning =>
      match scanCRLF (buffered a) false with
      | Some (token, rest) => Some (p, mkSingle (SendingLine token) (handle a) (sub a) rest)
      | None =>
          if decide (MaxScanTokenSize <= String.length (buffered a))
          then Some (p, set_tail (TailReturned (scan_error ErrTooLong)) a)
          else if reader_closed p || writer_closed p then
            match scanCRLF (buffered a) true with
            | Some (token, rest) => Some (p, mkSingle (SendingLine token) (handle a) (sub a) rest)
            | None =>
                Some (p, set_tail (if reader_closed p then TailReturned (scan_error ErrClosedPipe) else AtEnd) a)
            end
          else
            match in_flight p with
            | Some w =>
                match CutPrefix w bytes with
                | Some rest =>
                    if decide (bytes = "") then None
                    else Some (mkPipe (Some rest) (writer_closed p) (reader_closed p) (copy_failed p),
                               mkSingle Scanning (handle a) (sub a) (buffered a +:+ bytes))
                | None => None
                end
            | None => None
            end
      end
  | SendingLine _ =>
      match done_of parent (sub a) with
      | Some e => Some (p, set_tail (TailReturned (ctx_attempt e)) a)
      | None => None
      end
  | AtEnd =>
      Some (p, set_tail (TailReturned (match done_of parent (sub a) with Some e => ctx_attempt e | None => EndOfStream end)) a)
  | TailReturned r => Some (p, cancel parent (set_tail (TailDone r) a))
  | TailDone _ => None
  end.

(** A step of [handleLogs], given whether the success signal is there; whether it
    still is afterwards is answered too. *)
Definition handleLogs (k : pick) (parent : option ctx_end) (success : bool) (a : single) : option (single * bool) :=
  match handle a with
  | Selecting =>
      match k with
      | Ctx => match done_of parent (sub a) with Some _ => Some (set_handle HandleReturned a, success) | None => None end
      | Success => if success then Some (set_handle Finishing a, false) else None
      | Other => None
      end
  | Handling _ => Some (set_handle Selecting a, success)
  | Finishing => Some (set_handle HandleReturned a, success)
  | HandleReturned => Some (cancel parent (set_handle HandleDone a), success)
  | HandleDone => None
  end.

(** The line that passes between them, over a channel without a buffer. *)
Definition deliver (a : single) : option single :=
  match tail a, handle a with
  | SendingLine line, Selecting => Some (mkSingle Scanning (Handling line) (sub a) (buffered a))
  | _, _ => None
  end.

(** What [startSingle] makes of the error of its two goroutines: the tail's, since
    the other returns none. *)
Definition wait_error (r : attempt_end) : attempt_end :=
  match r with Failed e => Failed (Errorf "failed to wait for log tailing: %w" [AWrap e]) | _ => r end.

(** ** The follower *)

(** A step of [Start]. *)
Definition Start (k : pick) (parent : option ctx_end) (p : Pipe) (f : Follower) : option (Pipe * Follower) :=
  let go pc := Some (p, mkFollower pc (retryDelay f) (successCh f)) in
  match at_ f with
  | Checking =>
      match k, parent, successCh f with
      | Ctx, Some _, _ => go Stopped
      | Success, _, true => Some (p, mkFollower Stopped (retryDelay f) false)
      | Other, None, false => go (Following (mkSingle Scanning Selecting None ""))
      | _, _, _ => None
      end
  | Following a =>
      match tail a, handle a with TailDone r, HandleDone => go (ClosingStream (wait_error r)) | _, _ => None end
  | ClosingStream r =>
      Some (mkPipe (in_flight p) (writer_closed p) true (copy_failed p), mkFollower (Deciding r) (retryDelay f) (successCh f))
  | Deciding r => match r with Ended | Canceled => go Stopped | EndOfStream | Failed _ => go Delaying end
  | Delaying =>
      match k, parent, successCh f with
      | Ctx, Some _, _ => go Stopped
      | Success, _, true => Some (p, mkFollower Stopped (retryDelay f) false)
      | _, _, _ => None
      end
  | Stopped => None
  end.

(** The delay is over. *)
Definition elapsed (f : Follower) : option Follower :=
  match at_ f with
  | Delaying =>
      Some (mkFollower Checking (if decide (logRetryMaxDelay < retryDelay f * 2)%Z then logRetryMaxDelay
                                 else retryDelay f * 2)%Z (successCh f))
  | _ => None
  end.

Definition MarkAsComplete (k : pick) (parent : option ctx_end) (success : bool) : option (result () * bool) :=
  match k, parent with
  | Ctx, Some e => Some (Err (ctx_Err e), success)
  | Success, _ => if success then None else Some (Ok (), true)
  | _, _ => None
  end.

(** ** The group of runMoverSession *)

(** A goroutine of the group returned [e]: the first error is kept, and cancels. *)
Definition group_fail (e : error) (g : Group) : Group :=
  match waitErr g with
  | Some _ => g
  | None => mkGroup (Some (default CtxCanceled (ctx g))) (Some e) (runner g) (moverDone g) (watcher g) (forwarder g)
              (listener_closed g) (conns g)
  end.

Definition set_runner (r : runner_pc) (g : Group) : Group :=
  mkGroup (ctx g) (waitErr g) r (moverDone g) (watcher g) (forwarder g) (listener_closed g) (conns g).
Definition set_watcher (w : watcher_pc) (g : Group) : Group :=
  mkGroup (ctx g) (waitErr g) (runner g) (moverDone g) w (forwarder g) (listener_closed g) (conns g).
Definition set_forwarder (w : forwarder_pc) (g : Group) : Group :=
  mkGroup (ctx g) (waitErr g) (runner g) (moverDone g) (watcher g) w (listener_closed g) (conns g).
Definition set_conns (n : nat) (g : Group) : Group :=
  mkGroup (ctx g) (waitErr g) (runner g) (moverDone g) (watcher g) (forwarder g) (listener_closed g) n.

Section Group.
Context (exitStatus : error -> option Z) (policy : moverPolicy).

(** A step of the mover's runner, up to its deferred calls. *)
Definition run_mover (k : pick) (p : Pipe) (f : Follower) (g : Group) : option (Pipe * Follower * Group) :=
  match runner g with
  | Running | RunnerDone _ _ => None
  | Ran runErr =>
      if match runErr with Some e => negb (isToleratedExit exitStatus policy e) | None => false end
      then let '(r, vanished) := completeMoverSession exitStatus runErr policy (Ok ()) in
           Some (p, f, set_runner (ClosingListener r vanished) g)
      else Some (p, f, set_runner (Marking runErr) g)
  | Marking runErr =>
      match MarkAsComplete k (ctx g) (successCh f) with
      | Some (marked, success) =>
          let '(r, vanished) := completeMoverSession exitStatus runErr policy marked in
          Some (p, mkFollower (at_ f) (retryDelay f) success, set_runner (ClosingListener r vanished) g)
      | None => None
      end
  | ClosingListener r vanished =>
      Some (p, f, mkGroup (ctx g) (waitErr g) (ClosingWriter r vanished) (moverDone g) (watcher g) (forwarder g) true (conns g))
  | ClosingWriter r vanished =>
      Some (mkPipe (in_flight p) true (reader_closed p) (copy_failed p), f, set_runner (SignallingDone r vanished) g)
  | SignallingDone r vanished =>
      let g := mkGroup (ctx g) (waitErr g) (RunnerDone r vanished) true (watcher g) (forwarder g) (listener_closed g) (conns g) in
      Some (p, f, match r with Ok _ => g | Err e => group_fail e g end)
  end.

(** The watcher closes the ssh session when the context ends. *)
Definition watch (k : pick) (g : Group) : option Group :=
  match watcher g, k with
  | Watching, Ctx => match ctx g with Some _ => Some (set_watcher ClosingSession g) | None => None end
  | Watching, Other => if moverDone g then Some (set_watcher WatcherDone g) else None
  | ClosingSession, _ => Some (set_watcher WatcherDone g)
  | _, _ => None
  end.

(** What [Accept] answers when it does not block for good. *)
Inductive accepted : Type :=
  | Conn
  | AcceptClosed                  (* [net.ErrClosed] or [io.EOF] *)
  | AcceptError (e : error).

Definition forwardTunnelConnections (answer : option accepted) (g : Group) : option Group :=
  match forwarder g, answer with
  | Accepting, Some Conn => if listener_closed g then None else Some (set_conns (S (conns g)) g)
  | Accepting, Some AcceptClosed => Some (set_forwarder JoiningConns g)
  | Accepting, Some (AcceptError e) =>
      if listener_closed g then None
      else Some (group_fail (Errorf "tunnel listener accept error: %w" [AWrap e]) (set_forwarder ForwarderDone g))
  | Accepting, None => if listener_closed g then Some (set_forwarder JoiningConns g) else None
  | JoiningConns, None => if decide (conns g = 0) then Some (set_forwarder ForwarderDone g) else None
  | _, _ => None
  end.

(** ** Everything together *)

Inductive label : Type :=
  (* the goroutines *)
  | Starts (k : pick) | Tails (bytes : string) | Delivers | Handles (k : pick)
  | Runs (k : pick) | Watches (k : pick) | Forwards | Joins
  (* the clock *)
  | Elapses
  (* the far side, and the caller *)
  | Outputs (text : string) | Copied | Exits (runErr : option error)
  | Accepts (answer : accepted) | ConnEnds | Outer (e : ctx_end).

(** The steps of the program's own goroutines that nothing outside decides. *)
Definition own (l : label) : bool :=
  match l with
  | Starts _ | Tails _ | Delivers | Handles _ | Runs _ | Watches _ | Forwards | Joins => true
  | _ => false
  end.
Definition is_outer (l : label) : bool := match l with Outer _ => true | _ => false end.

Definition with_single (c : config) (p : Pipe) (a : single) (success : bool) : config :=
  mkConfig p (mkFollower (Following a) (retryDelay (follower c)) success) (group c) (joined c).
Definition with_group (c : config) (g : Group) : config := mkConfig (pipe c) (follower c) g (joined c).
Definition with_pipe (c : config) (p : Pipe) : config := mkConfig p (follower c) (group c) (joined c).

Definition all_done (c : config) : bool :=
  match at_ (follower c), runner (group c), watcher (group c), forwarder (group c) with
  | Stopped, RunnerDone _ _, WatcherDone, ForwarderDone => true
  | _, _, _, _ => false
  end.

Definition next (l : label) (c : config) : option config :=
  let p := pipe c in let f := follower c in let g := group c in
  match l with
  | Starts k =>
      match Start k (ctx g) p f with Some (p, f) => Some (mkConfig p f g (joined c)) | None => None end
  | Tails bytes =>
      match at_ f with
      | Following a =>
          match tailLogs bytes (ctx g) p a with Some (p, a) => Some (with_single c p a (successCh f)) | None => None end
      | _ => None
      end
  | Delivers =>
      match at_ f with
      | Following a => match deliver a with Some a => Some (with_single c p a (successCh f)) | None => None end
      | _ => None
      end
  | Handles k =>
      match at_ f with
      | Following a =>
          match handleLogs k (ctx g) (successCh f) a with Some (a, success) => Some (with_single c p a success) | None => None end
      | _ => None
      end
  | Runs k => match run_mover k p f g with Some (p, f, g) => Some (mkConfig p f g (joined c)) | None => None end
  | Watches k => match watch k g with Some g => Some (with_group c g) | None => None end
  | Forwards => match forwardTunnelConnections None g with Some g => Some (with_group c g) | None => None end
  | Joins => match joined c with
             | None => if all_done c then Some (mkConfig p f g (Some (waitErr g))) else None
             | Some _ => None
             end
  | Elapses => match elapsed f with Some f => Some (mkConfig p f g (joined c)) | None => None end
  | Outputs text =>
      match runner g, in_flight p with
      | Running, None => Some (with_pipe c (mkPipe (Some text) (writer_closed p) (reader_closed p) (copy_failed p)))
      | _, _ => None
      end
  | Copied =>
      match in_flight p with
      | Some w =>
          if decide (w = "") then Some (with_pipe c (mkPipe None (writer_closed p) (reader_closed p) (copy_failed p)))
          else if reader_closed p then Some (with_pipe c (mkPipe None (writer_closed p) true true)) else None
      | None => None
      end
  | Exits runErr =>
      match runner g, in_flight p with
      | Running, None =>
          let runErr := match runErr with
                        | Some e => Some e
                        | None => if copy_failed p then Some ErrClosedPipe else None
                        end in
          Some (with_group c (set_runner (Ran runErr) g))
      | _, _ => None
      end
  | Accepts answer =>
      match forwardTunnelConnections (Some answer) g with Some g => Some (with_group c g) | None => None end
  | ConnEnds => match conns g with S n => Some (with_group c (set_conns n g)) | O => None end
  | Outer e =>
      match ctx g with
      | Some _ => None
      | None => Some (with_group c (mkGroup (Some e) (waitErr g) (runner g) (moverDone g) (watcher g) (forwarder g)
                                      (listener_closed g) (conns g)))
      end
  end.
End Group.

(** ** Specification *)

(** How far the runner has got with its deferred calls. *)
Definition past (r : runner_pc) : nat :=
  match r with
  | Running | Ran _ | Marking _ => 0
  | ClosingListener _ _ => 1
  | ClosingWriter _ _ => 2
  | SignallingDone _ _ => 3
  | RunnerDone _ _ => 4
  end.

Definition group_good (p : Pipe) (f : Follower) (g : Group) : Prop :=
  (runner g <> Running -> in_flight p = None) /\
  (past (runner g) = 0 -> successCh f = false) /\
  (2 <= past (runner g) -> listener_closed g = true) /\
  (3 <= past (runner g) -> writer_closed p = true) /\
  (4 <= past (runner g) -> moverDone g = true) /\
  (forall e v, runner g = RunnerDone (Err e) v -> waitErr g <> None) /\
  (waitErr g <> None -> ctx g <> None).

Definition follower_good (p : Pipe) (f : Follower) : Prop :=
  match at_ f with
  | Following a =>
      match tail a, handle a with TailDone _, _ | _, HandleDone => sub a <> None | _, _ => True end
  | Deciding _ | Delaying => reader_closed p = true
  | _ => True
  end.

Definition good (c : config) : Prop :=
  group_good (pipe c) (follower c) (group c) /\ follower_good (pipe c) (follower c) /\
  (joined c <> None -> all_done c = true /\ joined c = Some (waitErr (group c))).

(** The ends of an attempt after which [Start] tries again. *)
Definition retried (r : attempt_end) : Prop := match r with EndOfStream | Failed _ => True | _ => False end.

(** The follower is in the round that saw the output end, or in one of those after
    it, whose stream is the pipe it closed itself. *)
Definition retrying (p : Pipe) (f : Follower) : Prop :=
  match at_ f with
  | Checking | Delaying => reader_closed p = true
  | Following a =>
      (exists r, (tail a = TailReturned r \/ tail a = TailDone r) /\ retried r) \/
      (tail a = Scanning /\ handle a = Selecting /\ sub a = None /\ buffered a = "" /\ reader_closed p = true)
  | ClosingStream r => retried r
  | Deciding r => retried r /\ reader_closed p = true
  | Stopped => False
  end.

(** The mover is done and succeeded, the signal has been sent and taken, and the
    follower did not stop for it. *)
Definition signal_lost (c : config) : Prop :=
  (exists v, runner (group c) = RunnerDone (Ok ()) v) /\ listener_closed (group c) = true /\ ctx (group c) = None /\
  successCh (follower c) = false /\ retrying (pipe c) (follower c) /\ joined c = None.

(** The bytes that the follower has yet to look at. *)
Definition pending (c : config) : nat :=
  match at_ (follower c) with Following a => String.length (buffered a) | _ => 0 end
  + match in_flight (pipe c) with Some w => String.length w | None => 0 end.

Definition tail_left (t : tail_pc) : nat :=
  match t with Scanning => 3 | SendingLine _ => 5 | AtEnd => 2 | TailReturned _ => 1 | TailDone _ => 0 end.
Definition handle_left (h : handle_pc) : nat :=
  match h with Selecting => 3 | Handling _ => 4 | Finishing => 2 | HandleReturned => 1 | HandleDone => 0 end.
Definition start_left (pc : start_pc) : nat :=
  match pc with
  | Checking => 11
  | Following a => 4 + tail_left (tail a) + handle_left (handle a)
  | ClosingStream _ => 3 | Deciding _ => 2 | Delaying => 1 | Stopped => 0
  end.
Definition runner_left (r : runner_pc) : nat :=
  match r with Running => 6 | Ran _ => 5 | Marking _ => 4 | _ => 4 - past r end.
Definition watcher_left (w : watcher_pc) : nat := match w with Watching => 2 | ClosingSession => 1 | WatcherDone => 0 end.
Definition forwarder_left (w : forwarder_pc) : nat := match w with Accepting => 2 | JoiningConns => 1 | ForwarderDone => 0 end.

(** Every own step takes something off this. *)
Definition steps_left (c : config) : nat :=
  start_left (at_ (follower c)) + 3 * pending c
  + match in_flight (pipe c) with Some w => String.length w | None => 0 end
  + runner_left (runner (group c)) + watcher_left (watcher (group c)) + forwarder_left (forwarder (group c))
  + match joined c with None => 1 | Some _ => 0 end.

(** ** Lemmas *)

(** The cases of a step. *)
Ltac step_cases H :=
  repeat match type of H with context[match ?x with _ => _ end] => destruct x eqn:?; try discriminate H end.

Section Proofs.
Context (exitStatus : error -> option Z) (policy : moverPolicy).
Local Notation next := (next exitStatus policy).
Local Notation runs := (runs next).

Lemma scanCRLF_shorter data atEOF token rest :
  scanCRLF data atEOF = Some (token, rest) -> String.length rest < String.length data.
Proof.
  unfold scanCRLF. intros H. destruct (atEOF && bool_decide (data = "")) eqn:E; [done|].
  destruct (cut_crlf data) as [[[t a] r]|] eqn:Ec.
  - apply cut_crlf_Some in Ec as (-> & _ & _). rewrite length_app_str. cbn.
    step_cases H; simplify_eq; cbn; lia.
  - destruct atEOF; [|done]. injection H as <- <-. destruct data; [by cbn in E|cbn; lia].
Qed.

Definition flight (p : Pipe) : nat := match in_flight p with Some w => String.length w | None => 0 end.

Lemma tailLogs_left bytes parent p a p' a' :
  tailLogs bytes parent p a = Some (p', a') ->
  handle a' = handle a /\
  tail_left (tail a') + 3 * String.length (buffered a') + 4 * flight p' < tail_left (tail a) + 3 * String.length (buffered a) + 4 * flight p.
Proof.
  unfold tailLogs. intros H. destruct (tail a) eqn:Et; [|step_cases H; try done; injection H as <- <-; cbn; split_and!; done || lia..].
  destruct (scanCRLF (buffered a) false) as [[token rest]|] eqn:Es.
  { apply scanCRLF_shorter in Es. injection H as <- <-. cbn. split; [done|lia]. }
  destruct (decide _); [injection H as <- <-; cbn; split; [done|lia]|].
  destruct (reader_closed p || writer_closed p).
  - destruct (scanCRLF (buffered a) true) as [[token rest]|] eqn:Es'.
    + apply scanCRLF_shorter in Es'. injection H as <- <-. cbn. split; [done|lia].
    + injection H as <- <-. split; [done|]. destruct (reader_closed p); cbn; lia.
  - unfold flight. destruct (in_flight p) as [w|]; [|done]. destruct (CutPrefix w bytes) as [rest|] eqn:Ec; [|done].
    destruct (decide (bytes = "")) as [|Hb]; [done|]. injection H as <- <-. cbn.
    apply CutPrefix_Some in Ec as ->. rewrite !length_app_str.
    split; [done|]. destruct bytes; [done|cbn; lia].
Qed.

Lemma handleLogs_left k parent success a a' success' :
  handleLogs k parent success a = Some (a', success') ->
  tail a' = tail a /\ buffered a' = buffered a /\ handle_left (handle a') < handle_left (handle a).
Proof. unfold handleLogs. intros H. step_cases H; try done; injection H as <- <-; cbn; split_and!; done || lia. Qed.

Lemma deliver_left a a' :
  deliver a = Some a' -> buffered a' = buffered a /\
  tail_left (tail a') + handle_left (handle a') < tail_left (tail a) + handle_left (handle a).
Proof. unfold deliver. intros H. step_cases H; try done; injection H as <-; cbn; split_and!; done || lia. Qed.

Lemma Start_left k parent p f p' f' :
  Start k parent p f = Some (p', f') ->
  in_flight p' = in_flight p /\ start_left (at_ f') < start_left (at_ f) /\
  match at_ f' with Following a => buffered a = "" | _ => True end.
Proof. unfold Start. intros H. step_cases H; try done; injection H as <- <-; cbn; split_and!; done || lia. Qed.

Lemma run_mover_left k p f g p' f' g' :
  run_mover exitStatus policy k p f g = Some (p', f', g') ->
  in_flight p' = in_flight p /\ at_ f' = at_ f /\ watcher g' = watcher g /\ forwarder g' = forwarder g /\
  runner_left (runner g') < runner_left (runner g).
Proof.
  unfold run_mover. intros H. unfold group_fail in H.
  step_cases H; try done; injection H as <- <- <-; cbn; repeat case_match; cbn; split_and!; done || lia.
Qed.

Lemma watch_left k g g' :
  watch k g = Some g' -> runner g' = runner g /\ forwarder g' = forwarder g /\ watcher_left (watcher g') < watcher_left (watcher g).
Proof. unfold watch. intros H. step_cases H; try done; injection H as <-; cbn; split_and!; done || lia. Qed.

Lemma forward_left g g' :
  forwardTunnelConnections None g = Some g' ->
  runner g' = runner g /\ watcher g' = watcher g /\ forwarder_left (forwarder g') < forwarder_left (forwarder g).
Proof. unfold forwardTunnelConnections. intros H. step_cases H; try done; injection H as <-; cbn; split_and!; done || lia. Qed.

Lemma group_own_step l c c' : own l = true -> next l c = Some c' -> steps_left c' < steps_left c.
Proof.
  unfold steps_left, pending, Follower.next. intros Ho H. destruct l; try done; clear Ho; cbn zeta in H; step_cases H; try done; subst;
    injection H as <-; cbn.
  - apply Start_left in Heqo as (-> & Hs & Hb). destruct (at_ f), (at_ (follower c)); try rewrite Hb; cbn in *; lia.
  - apply tailLogs_left in Heqo as (-> & Hl). unfold flight in Hl.
    repeat case_match; cbn in *; lia.
  - apply deliver_left in Heqo as (-> & Hl). lia.
  - apply handleLogs_left in Heqo as (-> & -> & Hl). lia.
  - apply run_mover_left in Heqo as (-> & -> & -> & -> & Hl). lia.
  - apply watch_left in Heqo as (-> & -> & Hl). lia.
  - apply forward_left in Heqo as (-> & -> & Hl). lia.
  - lia.
Qed.

(** ** The invariant *)

(** The group's part looks at the follower's through the signal only, and at the
    pipe's through what the runner closes. *)
Lemma group_good_eq p f g p' f' :
  group_good p f g -> (in_flight p = None -> in_flight p' = None) -> (successCh f = false -> successCh f' = false) ->
  (writer_closed p = true -> writer_closed p' = true) -> group_good p' f' g.
Proof. unfold group_good. naive_solver. Qed.

Lemma Start_good k g p f p' f' :
  follower_good p f -> group_good p f g -> Start k (ctx g) p f = Some (p', f') -> follower_good p' f' /\ group_good p' f' g.
Proof.
  intros Hf Hg H. split.
  - unfold follower_good, Start in *. step_cases H; try done; injection H as <- <-; cbn in *; try done; try by rewrite Heqs in Hf.
  - unfold Start in H. eapply group_good_eq; [exact Hg|..]; step_cases H; try done; injection H as <- <-; done.
Qed.

Lemma tailLogs_good bytes parent p a p' a' :
  tailLogs bytes parent p a = Some (p', a') ->
  (in_flight p = None -> in_flight p' = None) /\ writer_closed p' = writer_closed p /\
  (match tail a, handle a with TailDone _, _ | _, HandleDone => sub a <> None | _, _ => True end ->
   match tail a', handle a' with TailDone _, _ | _, HandleDone => sub a' <> None | _, _ => True end).
Proof.
  unfold tailLogs. intros H. step_cases H; try done; injection H as <- <-; cbn; split_and!; try done.
  all: repeat case_match; done.
Qed.

Lemma handleLogs_good k parent success a a' success' :
  handleLogs k parent success a = Some (a', success') ->
  (success = false -> success' = false) /\
  (match tail a, handle a with TailDone _, _ | _, HandleDone => sub a <> None | _, _ => True end ->
   match tail a', handle a' with TailDone _, _ | _, HandleDone => sub a' <> None | _, _ => True end).
Proof.
  unfold handleLogs. intros H. step_cases H; try done; injection H as <- <-; cbn; split_and!; try done.
  all: repeat case_match; done.
Qed.

Lemma group_fail_intro p f g e :
  (runner g <> Running -> in_flight p = None) -> (past (runner g) = 0 -> successCh f = false) ->
  (2 <= past (runner g) -> listener_closed g = true) -> (3 <= past (runner g) -> writer_closed p = true) ->
  (4 <= past (runner g) -> moverDone g = true) -> (waitErr g <> None -> ctx g <> None) ->
  group_good p f (group_fail e g).
Proof.
  intros. unfold group_good, group_fail. destruct (waitErr g) eqn:E; cbn; rewrite ?E; split_and!; done || auto.
Qed.

Lemma runner_good k p f g p' f' g' :
  group_good p f g -> run_mover exitStatus policy k p f g = Some (p', f', g') ->
  group_good p' f' g' /\ at_ f' = at_ f /\ (reader_closed p = true -> reader_closed p' = true).
Proof.
  intros Hg H. split.
  - destruct Hg as (G1 & G2 & G3 & G4 & G5 & G6 & G7). unfold run_mover in H.
    destruct (runner g) as [|runErr|runErr|r v|r v|r v|r v] eqn:Er; try done; cbn in *.
    + step_cases H; injection H as <- <- <-; unfold group_good; cbn; split_and!; intros; try lia; auto; congruence.
    + step_cases H; try done; injection H as <- <- <-; unfold group_good; cbn; split_and!; intros; try lia; auto; congruence.
    + injection H as <- <- <-; unfold group_good; cbn; split_and!; intros; try lia; auto; congruence.
    + injection H as <- <- <-; unfold group_good; cbn; split_and!; intros; try lia; auto; congruence.
    + destruct r as [u|e]; injection H as <- <- <-; [unfold group_good; cbn; split_and!|apply group_fail_intro; cbn]; intros; try lia; auto; congruence.
  - unfold run_mover in H. step_cases H; try done; injection H as <- <- <-; cbn; auto.
Qed.

Lemma env_group_good p f g g' :
  group_good p f g -> runner g' = runner g -> moverDone g' = moverDone g -> waitErr g' = waitErr g ->
  (listener_closed g = true -> listener_closed g' = true) -> (ctx g <> None -> ctx g' <> None) -> group_good p f g'.
Proof. unfold group_good. intros (G1 & G2 & G3 & G4 & G5 & G6 & G7) -> -> -> Hl Hc. split_and!; auto. Qed.

Lemma watch_good k p f g g' : group_good p f g -> watch k g = Some g' -> group_good p f g'.
Proof.
  unfold watch. intros Hg H. step_cases H; try done; injection H as <-; eapply env_group_good; cbn; eauto.
Qed.

Lemma forward_good answer p f g g' :
  group_good p f g -> forwardTunnelConnections answer g = Some g' -> group_good p f g'.
Proof.
  unfold forwardTunnelConnections. intros Hg H.
  step_cases H; try done; injection H as <-; try (eapply env_group_good; cbn; eauto; done).
  destruct Hg as (G1 & G2 & G3 & G4 & G5 & G6 & G7). apply group_fail_intro; cbn; auto.
Qed.

(** Once the group is joined no goroutine moves. *)
Lemma all_done_next l c c' :
  all_done c = true -> in_flight (pipe c) = None -> next l c = Some c' ->
  all_done c' = true /\ waitErr (group c') = waitErr (group c) /\ (joined c' = joined c \/ joined c' = Some (waitErr (group c))).
Proof.
  unfold all_done, Follower.next. intros Hd Hp H.
  destruct (at_ (follower c)) eqn:Ea; try done. destruct (runner (group c)) eqn:Er; try done.
  destruct (watcher (group c)) eqn:Ew; try done. destruct (forwarder (group c)) eqn:Ef; try done.
  destruct l; cbn in H; try done.
  - unfold Start in H. by rewrite Ea in H.
  - unfold run_mover in H. by rewrite Er in H.
  - unfold watch in H. by rewrite Ew in H.
  - unfold forwardTunnelConnections in H. by rewrite Ef in H.
  - step_cases H. injection H as <-. cbn; rewrite ?Ea, ?Er, ?Ew, ?Ef; auto.
  - unfold elapsed in H. by rewrite Ea in H.
  - by rewrite Hp in H.
  - unfold forwardTunnelConnections in H. rewrite Ef in H. by destruct answer.
  - step_cases H. injection H as <-. cbn; rewrite ?Ea, ?Er, ?Ew, ?Ef; auto.
  - step_cases H; try done. injection H as <-. cbn; rewrite ?Ea, ?Er, ?Ew, ?Ef; auto.
Qed.

Lemma joins_only l c c' :
  joined c = None -> next l c = Some c' -> joined c' = None \/ (all_done c' = true /\ joined c' = Some (waitErr (group c'))).
Proof.
  unfold Follower.next. intros Hj H. destruct l; cbn zeta in H; step_cases H; try done; injection H as <-; cbn; auto.
Qed.

Lemma exit_good p f g e :
  group_good p f g -> runner g = Running -> in_flight p = None -> group_good p f (set_runner (Ran e) g).
Proof.
  intros (G1 & G2 & G3 & G4 & G5 & G6 & G7) Er Hp. rewrite Er in G2.
  unfold group_good; cbn. split_and!; intros; try lia; auto; done.
Qed.

Lemma parts_good l c c' :
  group_good (pipe c) (follower c) (group c) -> follower_good (pipe c) (follower c) -> next l c = Some c' ->
  group_good (pipe c') (follower c') (group c') /\ follower_good (pipe c') (follower c').
Proof.
  unfold Follower.next. intros Hg Hf H. destruct l; cbn zeta in H; step_cases H; try done; subst; injection H as <-; cbn.
  - destruct (Start_good _ _ _ _ _ _ Hf Hg Heqo); done.
  - unfold follower_good in Hf. rewrite Heqs in Hf. apply tailLogs_good in Heqo as (H1 & H2 & H3). split; [|by apply H3].
    eapply group_good_eq; [exact Hg|done..|congruence].
  - unfold follower_good in Hf. rewrite Heqs in Hf. split; [by eapply group_good_eq|].
    unfold deliver in Heqo. step_cases Heqo; try done. by injection Heqo as <-.
  - unfold follower_good in Hf. rewrite Heqs in Hf. apply handleLogs_good in Heqo as (H1 & H2). split; [|by apply H2].
    by eapply group_good_eq.
  - apply runner_good in Heqo as (H1 & H2 & H3); [|done]. split; [done|]. unfold follower_good in *. rewrite H2.
    by destruct (at_ (follower c)); auto.
  - split; [by eapply watch_good|done].
  - split; [by eapply forward_good|done].
  - done.
  - unfold elapsed in Heqo. step_cases Heqo; try done; injection Heqo as <-; (split; [by eapply group_good_eq|done]).
  - split; [|done]. destruct Hg as (G1 & Hg). split; [|done]. intros Hr. by rewrite Heqr in Hr.
  - split; [by eapply group_good_eq|done].
  - split; [by eapply group_good_eq|]. unfold follower_good in *. cbn. by destruct (at_ (follower c)).
  - split; [by apply exit_good|done].
  - split; [by apply exit_good|done].
  - split; [by apply exit_good|done].
  - split; [by eapply forward_good|done].
  - split; [by eapply env_group_good|done].
  - split; [by eapply env_group_good|done].
Qed.

Lemma group_next_good l c c' : good c -> next l c = Some c' -> good c'.
Proof.
  intros (Hg & Hf & Hj) H. destruct (parts_good l c c' Hg Hf H) as [Hg' Hf']. split; [done|]. split; [done|].
  intros Hn. destruct (joined c) as [w|] eqn:Ej; [|by destruct (joins_only l c c' Ej H)].
  destruct (Hj ltac:(done)) as [Hd Ew].
  assert (in_flight (pipe c) = None) as Hp.
  { apply Hg. intros E. unfold all_done in Hd. rewrite E in Hd. by destruct (at_ (follower c)). }
  destruct (all_done_next l c c' Hd Hp H) as (H1 & H2 & H3). split; [done|]. rewrite H2. destruct H3 as [H3|H3]; rewrite H3; [congruence|done].
Qed.

Lemma group_start_good : good start.
Proof. split; [|split; done]. unfold group_good. cbn. split_and!; intros; lia || done. Qed.

Lemma group_reachable c : rtc (step next) start c -> good c.
Proof. apply reachable_keep; [apply group_start_good|exact group_next_good]. Qed.

(** ** Progress, and the lost signal *)

(** The scanner never waits on a closed pipe. *)
Lemma tailLogs_enabled parent p a :
  writer_closed p = true -> (tail a = Scanning \/ tail a = AtEnd \/ exists r, tail a = TailReturned r) ->
  exists q, tailLogs "" parent p a = Some q.
Proof.
  intros Hw H. unfold tailLogs. destruct H as [->|[->|[r ->]]]; [|eauto..].
  destruct (scanCRLF (buffered a) false) as [[]|]; [eauto|]. destruct (decide _); [eauto|].
  rewrite Hw, orb_true_r. destruct (scanCRLF (buffered a) true) as [[]|]; eauto.
Qed.

Lemma run_mover_enabled p f g :
  runner g <> Running -> (forall r v, runner g <> RunnerDone r v) -> (past (runner g) = 0 -> successCh f = false) ->
  exists q, run_mover exitStatus policy Success p f g = Some q.
Proof.
  intros Hr Hd Hs. unfold run_mover. destruct (runner g) as [|runErr|runErr|r v|r v|r v|r v]; try done; [| |eauto..].
  - destruct (completeMoverSession _ _ _ _). destruct (match runErr with Some _ => _ | None => _ end); eauto.
  - cbn in *. rewrite (Hs eq_refl). destruct (ctx g); destruct (completeMoverSession _ _ _ _); eauto.
  - by destruct (Hd r v).
Qed.

(** Where nothing of its own is left to do, the mover's runner has closed what it
    had to close. *)
Lemma stuck_runner c :
  good c -> stuck next own c -> runner (group c) <> Running -> exists r v, runner (group c) = RunnerDone r v.
Proof.
  intros ((_ & G2 & _) & _) Hs Hr. destruct (runner (group c)) as [| | | | | |r v] eqn:Er; [done| | | | | |eauto].
  all: exfalso; destruct (run_mover_enabled (pipe c) (follower c) (group c)) as [[[p f] g] E];
    [by rewrite Er|by rewrite Er|by rewrite Er|].
  all: specialize (Hs (Runs Success) eq_refl); unfold Follower.next in Hs; by rewrite E in Hs.
Qed.

Lemma stuck_watcher c r v :
  good c -> stuck next own c -> runner (group c) = RunnerDone r v -> watcher (group c) = WatcherDone.
Proof.
  intros ((_ & _ & _ & _ & G5 & _) & _) Hs Er. rewrite Er in G5. specialize (G5 ltac:(cbn; lia)).
  specialize (Hs (Watches Other) eq_refl). unfold Follower.next, watch in Hs. rewrite G5 in Hs.
  by destruct (watcher (group c)).
Qed.

Lemma stuck_forwarder c r v :
  good c -> stuck next own c -> runner (group c) = RunnerDone r v -> conns (group c) = 0 -> forwarder (group c) = ForwarderDone.
Proof.
  intros ((_ & _ & G3 & _) & _) Hs Er Hc. rewrite Er in G3. specialize (G3 ltac:(cbn; lia)).
  specialize (Hs Forwards eq_refl). unfold Follower.next, forwardTunnelConnections in Hs. rewrite G3, Hc in Hs.
  by destruct (forwarder (group c)).
Qed.

(** The follower's own goroutines never block each other: it is in the delay, with
    neither the signal nor the end of the context, or it has stopped. *)
Lemma stuck_follower c r v :
  good c -> stuck next own c -> runner (group c) = RunnerDone r v ->
  at_ (follower c) = Stopped \/ (at_ (follower c) = Delaying /\ successCh (follower c) = false /\ ctx (group c) = None).
Proof.
  intros ((_ & _ & _ & G4 & _) & Hf & _) Hs Er. rewrite Er in G4. specialize (G4 ltac:(cbn; lia)).
  assert (forall k, Start k (ctx (group c)) (pipe c) (follower c) = None) as HS.
  { intros k. specialize (Hs (Starts k) eq_refl). unfold Follower.next in Hs. by destruct (Start _ _ _ _) as [[]|]. }
  destruct (at_ (follower c)) as [|a|e|e| |] eqn:Ea; unfold Start in HS; rewrite Ea in HS; [exfalso|exfalso|exfalso| | |auto].
  - destruct (ctx (group c)) eqn:Ec; [by specialize (HS Ctx)|].
    destruct (successCh (follower c)) eqn:E; [by specialize (HS Success)|by specialize (HS Other)].
  - unfold follower_good in Hf. rewrite Ea in Hf.
    assert (tailLogs "" (ctx (group c)) (pipe c) a = None) as HT.
    { specialize (Hs (Tails "") eq_refl). unfold Follower.next in Hs. rewrite Ea in Hs. by destruct (tailLogs _ _ _ _) as [[]|]. }
    assert (forall k, handleLogs k (ctx (group c)) (successCh (follower c)) a = None) as HH.
    { intros k. specialize (Hs (Handles k) eq_refl). unfold Follower.next in Hs. rewrite Ea in Hs.
      by destruct (handleLogs _ _ _ _) as [[]|]. }
    assert (deliver a = None) as HD.
    { specialize (Hs Delivers eq_refl). unfold Follower.next in Hs. rewrite Ea in Hs. by destruct (deliver a). }
    specialize (HS Other). pose proof (HH Ctx) as HH'. unfold handleLogs in HH'. unfold deliver in HD.
    destruct (tail a) as [|line| |e|e] eqn:Et.
    1, 3, 4: destruct (tailLogs_enabled (ctx (group c)) (pipe c) a G4) as [q Eq]; [eauto|congruence].
    + unfold tailLogs in HT. rewrite Et in HT. destruct (handle a) eqn:Eh; try done.
      destruct (sub a); [done|by destruct Hf].
    + destruct (handle a); try done. by destruct (sub a).
  - by specialize (HS Other).
  - specialize (HS Other). by destruct e.
  - right. split; [done|]. destruct (ctx (group c)) eqn:Ec; [by specialize (HS Ctx)|].
    destruct (successCh (follower c)) eqn:E; [by specialize (HS Success)|done].
Qed.

Lemma Start_retrying k p f p' f' :
  successCh f = false -> retrying p f -> Start k None p f = Some (p', f') -> successCh f' = false /\ retrying p' f'.
Proof.
  unfold retrying, Start. intros Hs H E. rewrite Hs in E.
  destruct (at_ f) as [|a|e|e| |] eqn:Ea; [| | | |by destruct k|done].
  - destruct k; try done. injection E as <- <-. cbn. split; [done|]. right. auto.
  - destruct (tail a) eqn:Et, (handle a); try done. injection E as <- <-. cbn. split; [done|].
    destruct H as [(e & [He|He] & Hr)|(He & _)]; try congruence. injection He as ->. by destruct e.
  - injection E as <- <-. cbn. auto.
  - destruct H as [Hr Hc]. destruct e; try done; injection E as <- <-; cbn; auto.
Qed.

Lemma tailLogs_retrying bytes p a p' a' d :
  retrying p (mkFollower (Following a) d false) -> tailLogs bytes None p a = Some (p', a') ->
  retrying p' (mkFollower (Following a') d false).
Proof.
  unfold retrying, tailLogs. cbn [at_]. intros [(e & [He|He] & Hr)|(He & Hh & Hs & Hb & Hc)] H; rewrite He in H; try done.
  - injection H as <- <-. left. exists e. cbn [tail cancel set_tail]. auto.
  - rewrite Hb, Hc in H. change (scanCRLF "" false) with (@None (string * string)) in H.
    change (scanCRLF "" true) with (@None (string * string)) in H. cbn [orb] in H.
    destruct (decide (MaxScanTokenSize <= _)); injection H as <- <-; left; eexists; (split; [left; done|done]).
Qed.

Lemma handleLogs_retrying k p a a' success' d :
  retrying p (mkFollower (Following a) d false) -> handleLogs k None false a = Some (a', success') ->
  success' = false /\ retrying p (mkFollower (Following a') d false).
Proof.
  unfold retrying, handleLogs. cbn. intros [(e & He & Hr)|(He & Hh & Hs & Hb & Hc)] H.
  - step_cases H; try done; injection H as <- <-; cbn; eauto.
  - rewrite Hh, Hs in H. by destruct k.
Qed.

Lemma lost_stays l c c' : signal_lost c -> is_outer l = false -> next l c = Some c' -> signal_lost c'.
Proof.
  intros ([v Er] & Hl & Hx & Hc & Hp & Hj) Ho H. unfold Follower.next in H.
  destruct l; try done; cbn zeta in H.
  - destruct (Start _ _ _ _) as [[p f]|] eqn:E; [|done]. injection H as <-. rewrite Hx in E.
    destruct (Start_retrying _ _ _ _ _ Hc Hp E). unfold signal_lost. cbn. eauto 10.
  - destruct (at_ (follower c)) as [|a| | | |] eqn:Ea; try done. rewrite Hx in H.
    destruct (tailLogs _ _ _ _) as [[p a']|] eqn:E; [|done]. injection H as <-.
    apply (tailLogs_retrying _ _ _ _ _ 0%Z) in E; [|unfold retrying in *; by rewrite Ea in Hp].
    unfold signal_lost. cbn. rewrite Hc. eauto 10.
  - destruct (at_ (follower c)) as [|a| | | |] eqn:Ea; try done. unfold retrying in Hp. rewrite Ea in Hp. unfold deliver in H.
    destruct Hp as [(e & [He|He] & _)|(He & _)]; by rewrite He in H.
  - destruct (at_ (follower c)) as [|a| | | |] eqn:Ea; try done. rewrite Hx, Hc in H.
    destruct (handleLogs _ _ _ _) as [[a' success']|] eqn:E; [|done]. injection H as <-.
    apply (handleLogs_retrying _ (pipe c) _ _ _ 0%Z) in E as [-> E]; [|unfold retrying in *; by rewrite Ea in Hp].
    unfold signal_lost. cbn. eauto 10.
  - unfold run_mover in H. by rewrite Er in H.
  - destruct (watch k (group c)) as [g|] eqn:E; [|done]. injection H as <-. unfold watch in E.
    step_cases E; try done; injection E as <-; unfold signal_lost; cbn; eauto 10.
  - destruct (forwardTunnelConnections None (group c)) as [g|] eqn:E; [|done]. injection H as <-.
    unfold forwardTunnelConnections in E. step_cases E; try done; injection E as <-; unfold signal_lost; cbn; eauto 10.
  - destruct (joined c); [done|]. destruct (all_done c) eqn:E; [|done]. unfold all_done in E. unfold retrying in Hp.
    by destruct (at_ (follower c)).
  - unfold elapsed in H. destruct (at_ (follower c)) eqn:Ea; try done. unfold retrying in Hp. rewrite Ea in Hp.
    injection H as <-. unfold signal_lost. cbn. eauto 10.
  - by rewrite Er in H.
  - step_cases H; try done; injection H as <-; unfold signal_lost; cbn; split_and!; eauto;
      unfold retrying in *; cbn; rewrite Heqb in Hp; exact Hp.
  - by rewrite Er in H.
  - destruct (forwardTunnelConnections _ _) as [g|] eqn:E; [|done]. injection H as <-.
    unfold forwardTunnelConnections in E. rewrite Hl in E.
    step_cases E; try done; injection E as <-; unfold signal_lost; cbn; eauto 10.
  - step_cases H; try done. injection H as <-. unfold signal_lost; cbn; eauto 10.
Qed.

Lemma lost_runs ls c c' :
  signal_lost c -> forallb (fun l => negb (is_outer l)) ls = true -> runs ls c = Some c' -> signal_lost c'.
Proof.
  intros Hc Ho. apply (runs_keep next (fun l => negb (is_outer l))); [|done|done].
  intros l a b Hl%negb_true_iff Ha. by apply lost_stays.
Qed.

Lemma group_bound c :
  good c -> runner (group c) <> Running -> steps_left c <= 23 + 3 * pending c.
Proof.
  intros ((Hp & _) & _) Hr. specialize (Hp Hr). unfold steps_left. rewrite Hp.
  assert (start_left (at_ (follower c)) <= 13) by (destruct (at_ (follower c)) as [|a| | | |]; cbn; [lia| |lia..];
    destruct (tail a), (handle a); cbn; lia).
  assert (runner_left (runner (group c)) <= 5) by (destruct (runner (group c)); cbn; lia || done).
  destruct (watcher (group c)), (forwarder (group c)), (joined c); cbn; lia.
Qed.

(** What the steps of the group's own goroutines leave of what the far side has
    done. *)
Lemma own_keeps n l c c' :
  own l = true -> runner (group c) <> Running /\ conns (group c) = n -> next l c = Some c' ->
  runner (group c') <> Running /\ conns (group c') = n.
Proof.
  unfold Follower.next. intros Ho [Hr <-] H. destruct l; try done; cbn zeta in H.
  1, 2, 3, 4, 8: step_cases H; try done; subst; injection H as <-; done.
  - destruct (run_mover _ _ _ _ _ _) as [[[p f] g]|] eqn:E; [|done]. injection H as <-. unfold run_mover, group_fail in E.
    step_cases E; try done; injection E as <- <- <-; cbn; repeat case_match; done.
  - destruct (watch k (group c)) as [g|] eqn:E; [|done]. injection H as <-. unfold watch in E.
    step_cases E; try done; injection E as <-; done.
  - destruct (forwardTunnelConnections None (group c)) as [g|] eqn:E; [|done]. injection H as <-.
    unfold forwardTunnelConnections in E. step_cases E; try done; injection E as <-; done.
Qed.

(** A group that can do nothing more by itself is joined, or has lost the signal. *)
Lemma stuck_ends c :
  good c -> stuck next own c -> runner (group c) <> Running -> conns (group c) = 0 -> joined c <> None \/ signal_lost c.
Proof.
  intros Hc Hs Hr Hn. destruct (stuck_runner c Hc Hs Hr) as (r & v & Er).
  pose proof (stuck_watcher c r v Hc Hs Er) as Ew. pose proof (stuck_forwarder c r v Hc Hs Er Hn) as Ef.
  destruct (joined c) as [w|] eqn:Ej; [by left|]. right.
  destruct (stuck_follower c r v Hc Hs Er) as [Ea|(Ea & Es & Ex)].
  - exfalso. specialize (Hs Joins eq_refl). unfold Follower.next, all_done in Hs. by rewrite Ej, Ea, Er, Ew, Ef in Hs.
  - destruct Hc as ((_ & _ & G3 & _ & _ & G6 & G7) & Hf & _). destruct r as [[]|e].
    + rewrite Er in G3. specialize (G3 ltac:(cbn; lia)). unfold follower_good in Hf. rewrite Ea in Hf.
      unfold signal_lost, retrying. rewrite Ea. eauto 10.
    + by destruct (G7 (G6 e v Er)).
Qed.

(** ** The properties *)

End Proofs.

(** C30: the success signal can be lost.  A mover that exits with status zero ends
    its session like this in one order of steps: the signal is sent; [handleLogs]
    takes it, and has yet to cancel the attempt; the runner closes the pipe; the
    tail sees the end of the output and, its context not being cancelled yet,
    reports the end of the stream.  [Start] takes that for a stream to retry, the
    signal being gone, and from then on no interleaving joins the group, short of
    the end of the caller's context. *)
Theorem success_signal_lost (exitStatus : error -> option Z) (policy : moverPolicy) :
  exists ls c, runs (next exitStatus policy) ls start = Some c /\ signal_lost c /\ Exits None ∈ ls /\
    forallb (fun l => negb (is_outer l)) ls = true /\
    forall ls' c', forallb (fun l => negb (is_outer l)) ls' = true -> runs (next exitStatus policy) ls' c = Some c' -> joined c' = None.
Proof.
  exists [Starts Other; Exits None; Runs Other; Runs Success; Handles Success; Runs Other; Runs Other; Tails ""; Tails "";
          Runs Other].
  eexists. split; [vm_compute; reflexivity|].
  match goal with |- signal_lost ?c /\ _ => assert (signal_lost c) as H end.
  { unfold signal_lost, retrying. cbn. split_and!; eauto. left. eexists. split; [by left|done]. }
  split; [exact H|]. split_and!; [|done|].
  - apply list_elem_of_In. cbn. auto.
  - intros ls' c' Ho Hr. by destruct (lost_runs _ _ _ _ _ H Ho Hr) as (_ & _ & _ & _ & _ & ?).
Qed.

(** ** Witnesses *)

Definition no_status (e : error) : option Z := None.
Definition no_policy : moverPolicy := mkPolicy [] [] "" (fun _ => "").

(** The mover prints a line, exits, and the runner closes everything before the
    follower looks at the signal. *)
Definition mover_run : list label :=
  [Starts Other; Outputs ("done" +:+ nl); Tails ("done" +:+ nl); Copied; Exits None].
Definition joining_steps : list label :=
  [Tails ""; Delivers; Handles Other; Runs Other; Runs Success; Runs Other; Runs Other; Runs Other; Handles Success;
   Handles Other; Handles Other; Tails ""; Tails ""; Tails ""; Starts Other; Starts Other; Starts Other;
   Watches Other; Forwards; Forwards; Joins].
Definition ended_at : config := default start (runs (next no_status no_policy) mover_run start).

