(* ===== verification/PortForwards.v ===== *)
(** * The port forwards of the local strategy

    [PortForward] of internal/k8s/portforward.go and [runLocalMigration] with the
    waits of [waitAndRunMover] of internal/strategy/local.go: three goroutines
    of one group - the forward into the source's pod, the one into the
    destination's, and the mover - each forward being a group of two itself.  The
    model is an interleaving of their steps, as in Follower.v.  Client-go's
    forwarder is a label: it becomes ready, with a port or an error of [GetPorts],
    and [ForwardPorts] returns.  The session over the forwards is Session.v's, here
    one step that answers. *)
From S2P Require Import Prelude GoStrings Fmt Interleaving Follower.
From stdpp Require Import relations options.
Local Open Scope nat_scope.

(** ** The state *)

Inductive notifier_pc : Type := Waiting | Notifying (ports : result Z) | NotifierDone.
Inductive forward_pc : Type := Setup | Serving | ForwardReturned.

(** One [PortForward]. *)
Record forward : Type := mkForward {
  notifier : notifier_pc;
  serving : forward_pc;             (* [Setup]: the steps before the two goroutines *)
  ready : option (result Z);        (* the ready channel is closed, and what [GetPorts] answers *)
  stopped : bool;                   (* its own group's context is cancelled *)
  fwd_err : option error;           (* its own group's first error *)
  port_ch : option Z;               (* [ActualPortCh]'s buffer *)
  returned : bool
}.

Definition idle : forward := mkForward Waiting Setup None false None None false.

Inductive mover_pc : Type :=
  | AwaitSource
  | AwaitDest (srcFwdPort : Z)
  | Moving (srcFwdPort destFwdPort : Z)
  | MoverReturned (r : result ())   (* its deferred [fwdCancel] is to run *)
  | MoverDone (r : result ()).

Record state : Type := mkState {
  source : forward;
  dest : forward;
  mover : mover_pc;
  ctx : option ctx_end;             (* the group's context *)
  timed_out : bool;                 (* [portForwardTimeout] is over *)
  fwd_cancelled : bool;
  err : option error;               (* the group's first error *)
  answer : option (option error)    (* what [eg.Wait] returned *)
}.

Definition start : state := mkState idle idle AwaitSource None false false None None.

(** ** PortForward *)

(** [fwdCtx] is done when it was cancelled or the group's context is. *)
Definition fwd_done (s : state) : bool :=
  fwd_cancelled s || match ctx s with Some _ => true | None => false end.

(** The group of one forward records an error, and is cancelled by it. *)
Definition fwd_fail (e : error) (f : forward) : forward :=
  match fwd_err f with
  | Some _ => f
  | None => mkForward (notifier f) (serving f) (ready f) true (Some e) (port_ch f) (returned f)
  end.
Definition set_notifier (n : notifier_pc) (f : forward) : forward :=
  mkForward n (serving f) (ready f) (stopped f) (fwd_err f) (port_ch f) (returned f).
Definition set_serving (n : forward_pc) (f : forward) : forward :=
  mkForward (notifier f) n (ready f) (stopped f) (fwd_err f) (port_ch f) (returned f).
Definition set_port (n : option Z) (f : forward) : forward :=
  mkForward (notifier f) (serving f) (ready f) (stopped f) (fwd_err f) n (returned f).
Definition set_returned (f : forward) : forward :=
  mkForward (notifier f) (serving f) (ready f) (stopped f) (fwd_err f) (port_ch f) true.

(** A step of the port notifier; [k] is the case of its select. *)
Definition notify (k : pick) (outer : bool) (f : forward) : option forward :=
  match serving f, notifier f with
  | Setup, _ | _, NotifierDone => None
  | _, Waiting =>
      match k with
      | Ctx => if outer || stopped f then Some (set_notifier NotifierDone f) else None
      | Success => match ready f with Some ports => Some (set_notifier (Notifying ports) f) | None => None end
      | Other => None
      end
  | _, Notifying (Err e) =>
      Some (fwd_fail (Errorf "failed to get forwarded ports: %w" [AWrap e]) (set_notifier NotifierDone f))
  | _, Notifying (Ok port) =>
      match port_ch f with
      | Some _ => None
      | None => Some (set_port (Some port) (set_notifier NotifierDone f))
      end
  end.

(** What client-go does. *)
Inductive library : Type :=
  | SetsUp (failure : option error)     (* nothing fails before the goroutines, or something does *)
  | Ready (ports : result Z)
  | Forwarded (failure : option error). (* [ForwardPorts] returns *)

Definition forwarder (l : library) (f : forward) : option forward :=
  match l, serving f with
  | SetsUp None, Setup => Some (set_serving Serving f)
  | SetsUp (Some e), Setup => Some (fwd_fail e (set_notifier NotifierDone (set_serving ForwardReturned f)))
  | Ready ports, Serving =>
      match ready f with
      | None => Some (mkForward (notifier f) (serving f) (Some ports) (stopped f) (fwd_err f) (port_ch f) (returned f))
      | Some _ => None
      end
  | Forwarded None, Serving => Some (set_serving ForwardReturned f)
  | Forwarded (Some e), Serving =>
      Some (fwd_fail (Errorf "failed to forward ports: %w" [AWrap e]) (set_serving ForwardReturned f))
  | _, _ => None
  end.

(** ** runLocalMigration *)

Definition group_fail (e : option error) (s : state) : state :=
  match e, err s with
  | Some e, None =>
      mkState (source s) (dest s) (mover s) (Some (default CtxCanceled (ctx s))) (timed_out s) (fwd_cancelled s) (Some e) (answer s)
  | _, _ => s
  end.
Definition set_forward (side : bool) (f : forward) (s : state) : state :=
  mkState (if side then f else source s) (if side then dest s else f) (mover s) (ctx s) (timed_out s) (fwd_cancelled s) (err s) (answer s).
Definition set_mover (m : mover_pc) (s : state) : state :=
  mkState (source s) (dest s) m (ctx s) (timed_out s) (fwd_cancelled s) (err s) (answer s).
Definition at_side (side : bool) (s : state) : forward := if side then source s else dest s.

(** [eg.Wait] of one forward, whose error goes to the group. *)
Definition return_forward (side : bool) (s : state) : option state :=
  let f := at_side side s in
  match serving f, notifier f, returned f with
  | ForwardReturned, NotifierDone, false => Some (group_fail (fwd_err f) (set_forward side (set_returned f) s))
  | _, _, _ => None
  end.

(** [timeoutCtx.Err()], when it is done. *)
Definition timeout_Err (s : state) : option error :=
  match ctx s with
  | Some e => Some (ctx_Err e)
  | None => if timed_out s then Some DeadlineExceeded else None
  end.

(** A step of the mover's goroutine: the waits of [waitAndRunMover] and what is
    deferred. *)
Definition run_mover (k : pick) (s : state) : option state :=
  match mover s with
  | AwaitSource =>
      match k, timeout_Err s, port_ch (source s) with
      | Ctx, Some e, _ => Some (set_mover (MoverReturned (Err (Errorf "waiting for source port-forward: %w" [AWrap e]))) s)
      | Success, _, Some port => Some (set_mover (AwaitDest port) (set_forward true (set_port None (source s)) s))
      | _, _, _ => None
      end
  | AwaitDest srcFwdPort =>
      match k, timeout_Err s, port_ch (dest s) with
      | Ctx, Some e, _ => Some (set_mover (MoverReturned (Err (Errorf "waiting for dest port-forward: %w" [AWrap e]))) s)
      | Success, _, Some port => Some (set_mover (Moving srcFwdPort port) (set_forward false (set_port None (dest s)) s))
      | _, _, _ => None
      end
  | Moving _ _ | MoverDone _ => None
  | MoverReturned r =>
      Some (group_fail (match r with Ok _ => None | Err e => Some e end)
              (mkState (source s) (dest s) (MoverDone r) (ctx s) (timed_out s) true (err s) (answer s)))
  end.

Inductive label : Type :=
  | Notifies (side : bool) (k : pick) | Returns (side : bool) | Movers (k : pick) | Joins
  | Library (side : bool) (l : library) | Moved (r : result ()) | TimesOut | Outer (e : ctx_end).

Definition next (l : label) (s : state) : option state :=
  match l with
  | Notifies side k =>
      match notify k (fwd_done s) (at_side side s) with Some f => Some (set_forward side f s) | None => None end
  | Returns side => return_forward side s
  | Movers k => run_mover k s
  | Joins =>
      match mover s, answer s with
      | MoverDone _, None =>
          if returned (source s) && returned (dest s)
          then Some (mkState (source s) (dest s) (mover s) (ctx s) (timed_out s) (fwd_cancelled s) (err s) (Some (err s)))
          else None
      | _, _ => None
      end
  | Library side l => match forwarder l (at_side side s) with Some f => Some (set_forward side f s) | None => None end
  | Moved r => match mover s with Moving _ _ => Some (set_mover (MoverReturned r) s) | _ => None end
  | TimesOut => Some (mkState (source s) (dest s) (mover s) (ctx s) true (fwd_cancelled s) (err s) (answer s))
  | Outer e =>
      match ctx s with
      | Some _ => None
      | None => Some (mkState (source s) (dest s) (mover s) (Some e) (timed_out s) (fwd_cancelled s) (err s) (answer s))
      end
  end.

(** ** Specification *)

(** The steps of the goroutines that nothing outside decides. *)
Definition own (l : label) : bool :=
  match l with Notifies _ _ | Returns _ | Movers _ | Joins => true | _ => false end.

Definition notifier_left (n : notifier_pc) : nat := match n with Waiting => 2 | Notifying _ => 1 | NotifierDone => 0 end.
Definition mover_left (m : mover_pc) : nat :=
  match m with AwaitSource => 3 | AwaitDest _ => 2 | MoverReturned _ => 1 | Moving _ _ | MoverDone _ => 0 end.
Definition forward_left (f : forward) : nat := notifier_left (notifier f) + (if returned f then 0 else 1).
Definition steps_left (s : state) : nat :=
  forward_left (source s) + forward_left (dest s) + mover_left (mover s) + match answer s with None => 1 | Some _ => 0 end.

Definition forward_good (f : forward) : Prop :=
  match notifier f with
  | Waiting => port_ch f = None /\ returned f = false
  | Notifying ports => port_ch f = None /\ returned f = false /\ ready f = Some ports
  | NotifierDone =>
      match port_ch f with Some port => ready f = Some (Ok port) | None => True end /\
      (returned f = true -> serving f = ForwardReturned)
  end /\
  (serving f = Setup -> notifier f = Waiting /\ fwd_err f = None).

Definition mover_good (s : state) : Prop :=
  match mover s with
  | AwaitSource => True
  | AwaitDest p => ready (source s) = Some (Ok p)
  | Moving p q => ready (source s) = Some (Ok p) /\ ready (dest s) = Some (Ok q)
  | MoverReturned _ => True
  | MoverDone r => fwd_cancelled s = true /\ (is_Ok r = false -> err s <> None)
  end.

(** Where the group's error comes from. *)
Definition blamed (s : state) (e : error) : Prop :=
  mover s = MoverDone (Err e) \/ exists side, returned (at_side side s) = true /\ fwd_err (at_side side s) = Some e.

Definition good (s : state) : Prop :=
  (forall side, forward_good (at_side side s)) /\ mover_good s /\
  (forall side, returned (at_side side s) = true -> fwd_err (at_side side s) <> None -> err s <> None) /\
  (forall e, err s = Some e -> blamed s e) /\
  (forall w, answer s = Some w -> w = err s /\ (exists r, mover s = MoverDone r) /\ forall side, returned (at_side side s) = true).

(** ** Lemmas *)

Ltac step_cases H :=
  repeat match type of H with context[match ?x with _ => _ end] => destruct x eqn:?; try discriminate H end.

Lemma at_set side side' f s :
  at_side side (set_forward side' f s) = if bool_decide (side = side') then f else at_side side s.
Proof. by destruct side, side'. Qed.

(** A step of one forward. *)
Definition forward_moves (f f' : forward) : Prop :=
  returned f' = returned f /\ (forall p, ready f = Some p -> ready f' = Some p) /\
  (returned f = true -> fwd_err f' = fwd_err f) /\ forward_good f'.

Lemma notify_moves k outer f f' :
  forward_good f -> notify k outer f = Some f' -> forward_moves f f' /\ forward_left f' < forward_left f.
Proof.
  destruct f as [n sv rd st e pc rt]. unfold notify, fwd_fail, forward_moves, forward_good, forward_left. cbn.
  intros Hf H. destruct sv, n as [|[port|e']|]; try done; cbn in *; step_cases H; try done; injection H as <-; cbn in *;
    destruct_and?; subst; (split; [split_and!; done || auto|lia]).
Qed.

Lemma forwarder_moves l f f' : forward_good f -> forwarder l f = Some f' -> forward_moves f f'.
Proof.
  destruct f as [n sv rd st e pc rt]. unfold forwarder, fwd_fail, forward_moves, forward_good. cbn. intros Hf H.
  destruct l as [[e'|]|ports|[e'|]], sv; try done; step_cases H; try done; injection H as <-; cbn in *;
    destruct n; destruct_and?; subst; split_and!; auto; repeat case_match; naive_solver.
Qed.

(** A step of one forward leaves the rest of the invariant. *)
Lemma forward_step side f s :
  good s -> forward_moves (at_side side s) f -> good (set_forward side f s).
Proof.
  intros (Hf & Hm & He & Hb & Ha) (H1 & H2 & H3 & H4). unfold good. split_and!.
  - intros side'. rewrite at_set. case_bool_decide; [done|apply Hf].
  - unfold mover_good in *. destruct side; cbn in *; destruct (mover s); naive_solver.
  - intros side'. rewrite at_set. cbn. case_bool_decide as E; [subst side'|apply He].
    intros Hr. rewrite H1 in Hr. rewrite H3 by done. by apply He.
  - cbn. intros e Ee. destruct (Hb e Ee) as [Hmv|(side' & Hr & Hs)]; [by left|right]. exists side'. rewrite at_set.
    case_bool_decide as E; [subst side'|done]. rewrite H1, H3 by done. done.
  - cbn. intros w Hw. destruct (Ha w Hw) as (H5 & H6 & H7). split; [done|]. split; [done|]. intros side'.
    rewrite at_set. case_bool_decide as E; [subst side'; rewrite H1; apply H7|apply H7].
Qed.

Lemma at_side_group side e s : at_side side (group_fail e s) = at_side side s.
Proof. unfold group_fail, at_side. by destruct e, (err s), side. Qed.

(** A goroutine of the group returns: its error is the group's unless it has one. *)
Lemma group_fail_err e s : err (group_fail e s) = match err s with Some e' => Some e' | None => e end.
Proof. unfold group_fail. destruct e as [e|]; [destruct (err s) eqn:E; cbn; by rewrite ?E|by destruct (err s)]. Qed.

Lemma group_fail_rest e s :
  mover (group_fail e s) = mover s /\ answer (group_fail e s) = answer s /\ fwd_cancelled (group_fail e s) = fwd_cancelled s.
Proof. unfold group_fail. by destruct e, (err s). Qed.

Lemma return_good side s s' : good s -> answer s = None -> return_forward side s = Some s' -> good s'.
Proof.
  intros Hg Hn H. unfold return_forward in H. set (f := at_side side s) in *.
  destruct (serving f) eqn:Es; try done. destruct (notifier f) eqn:En; try done. destruct (returned f) eqn:Er; try done.
  injection H as <-. destruct Hg as (Hf & Hm & He & Hb & Ha). set (s1 := set_forward side (set_returned f) s).
  assert (forall side', at_side side' (group_fail (fwd_err f) s1) = if bool_decide (side' = side) then set_returned f else at_side side' s) as Hs
    by (intros side'; rewrite at_side_group; apply at_set).
  destruct (group_fail_rest (fwd_err f) s1) as (Em & Ean & Ec).
  split_and!.
  - intros side'. rewrite Hs. case_bool_decide; [|apply Hf]. specialize (Hf side). fold f in Hf. unfold forward_good in *.
    rewrite En, Es in *. cbn. rewrite En, Es. naive_solver.
  - pose proof (Hs true) as Ht. pose proof (Hs false) as Hfl. cbn in Ht, Hfl.
    assert (ready (source (group_fail (fwd_err f) s1)) = ready (source s)) as R1 by (rewrite Ht; unfold f; by destruct side).
    assert (ready (dest (group_fail (fwd_err f) s1)) = ready (dest s)) as R2 by (rewrite Hfl; unfold f; by destruct side).
    unfold mover_good in *. rewrite Em, Ec, R1, R2, group_fail_err. cbn. destruct (mover s); try done.
    destruct Hm as [Hm1 Hm2]. split; [done|]. intros Hr. specialize (Hm2 Hr). by destruct (err s).
  - intros side'. rewrite Hs, group_fail_err. cbn. case_bool_decide; cbn.
    + intros _ Hfe. by destruct (err s).
    + intros Hr Hfe. specialize (He side' Hr Hfe). by destruct (err s).
  - intros e. rewrite group_fail_err. cbn. intros Hq. destruct (err s) as [e'|] eqn:Ee.
    + injection Hq as ->. destruct (Hb e eq_refl) as [Hmv|(side' & Hr & Hfe)]; [left; by rewrite Em|right].
      exists side'. rewrite Hs. case_bool_decide as Eb; [|done]. subst side'. fold f in Hr. congruence.
    + right. exists side. rewrite Hs, bool_decide_true by done. done.
  - intros w. rewrite Ean. cbn. by rewrite Hn.
Qed.

Lemma take_port f port : port_ch f = Some port -> forward_good f -> forward_moves f (set_port None f) /\ ready f = Some (Ok port).
Proof.
  destruct f as [n sv rd st e pc rt]. unfold forward_moves, forward_good. cbn. intros -> Hf.
  destruct n; naive_solver.
Qed.

(** The mover's goroutine goes on, before its end. *)
Lemma mover_step m s :
  good s -> (forall r, mover s <> MoverDone r) -> (forall r, m <> MoverDone r) -> mover_good (set_mover m s) -> good (set_mover m s).
Proof.
  intros (Hf & Hm & He & Hb & Ha) Hn Hn' Hm'. split_and!; [apply Hf|done|apply He| |].
  - intros e Ee. destruct (Hb e Ee) as [Hmv|Hr]; [by destruct (Hn (Err e))|by right].
  - intros w Hw. destruct (Ha w Hw) as (_ & [r Hr] & _). by destruct (Hn r).
Qed.

Lemma mover_run_good k s s' : good s -> run_mover k s = Some s' -> good s'.
Proof.
  intros Hg H. pose proof Hg as (Hf & Hm & He & Hb & Ha). unfold run_mover in H.
  destruct (mover s) as [|p|p q|r|r] eqn:Em; try done.
  - destruct k; [destruct (timeout_Err s)|destruct (port_ch (source s)) as [p|] eqn:Ep|]; try done; injection H as <-.
    + apply mover_step; [done|by rewrite Em|done|done].
    + destruct (take_port _ _ Ep (Hf true)) as [Hmv Hr].
      apply mover_step; [by apply forward_step|cbn; by rewrite Em|done|exact Hr].
  - destruct k; [destruct (timeout_Err s)|destruct (port_ch (dest s)) as [q|] eqn:Ep|]; try done; injection H as <-.
    + apply mover_step; [done|by rewrite Em|done|done].
    + destruct (take_port _ _ Ep (Hf false)) as [Hmv Hr]. unfold mover_good in Hm. rewrite Em in Hm.
      apply mover_step; [by apply forward_step|cbn; by rewrite Em|done|by split].
  - injection H as <-. set (s1 := mkState _ _ _ _ _ _ _ _). set (e := match r with Ok _ => None | Err e => Some e end).
    destruct (group_fail_rest e s1) as (E1 & E2 & E3).
    assert (forall side, at_side side (group_fail e s1) = at_side side s) as Hs by (intros side; rewrite at_side_group; by destruct side).
    split_and!.
    + intros side. rewrite Hs. apply Hf.
    + unfold mover_good. rewrite E1, E3, group_fail_err. cbn. split; [done|]. destruct r; [done|]. by destruct (err s).
    + intros side. rewrite Hs, group_fail_err. cbn. intros Hr Hfe. specialize (He side Hr Hfe). by destruct (err s).
    + intros e0. rewrite group_fail_err. cbn. unfold blamed. rewrite E1. cbn. intros Hq. destruct (err s) as [e1|] eqn:Ee.
      * injection Hq as ->. destruct (Hb e0 eq_refl) as [Hmv|(side & H1 & H2)]; [congruence|right; exists side; by rewrite Hs].
      * left. unfold e in Hq. destruct r; [done|]. by injection Hq as ->.
    + intros w. rewrite E2. cbn. intros Hw. destruct (Ha w Hw) as (_ & [r' Hr] & _). congruence.
Qed.

Lemma forwards_next_good l s s' : good s -> next l s = Some s' -> good s'.
Proof.
  intros Hg H. pose proof Hg as (Hf & Hm & He & Hb & Ha). destruct l; cbn in H.
  - destruct (notify _ _ _) as [f|] eqn:E; [|done]. injection H as <-. apply forward_step; [done|].
    by eapply notify_moves.
  - destruct (answer s) as [w|] eqn:Ew; [|by eapply return_good]. destruct (Ha w eq_refl) as (_ & _ & Hr).
    unfold return_forward in H. rewrite Hr in H. by repeat case_match.
  - by eapply mover_run_good.
  - destruct (mover s) as [| | | |r] eqn:Em; try done. destruct (answer s); [done|].
    destruct (returned (source s)) eqn:E1; [|done]. destruct (returned (dest s)) eqn:E2; [|done]. injection H as <-.
    split_and!; [apply Hf|unfold mover_good in *; cbn; by rewrite Em in *|apply He| |].
    + intros e Ee. destruct (Hb e Ee) as [Hmv|Hr]; [left; cbn; congruence|by right].
    + cbn. intros w [= <-]. split_and!; [done|by exists r|by intros []].
  - destruct (forwarder _ _) as [f|] eqn:E; [|done]. injection H as <-. apply forward_step; [done|].
    by eapply forwarder_moves.
  - destruct (mover s) as [| |p q| |] eqn:Em; try done. injection H as <-. apply mover_step; [done|by rewrite Em|done|done].
  - injection H as <-. done.
  - destruct (ctx s); [done|]. injection H as <-. done.
Qed.

Lemma forwards_start_good : good start.
Proof. split_and!; done || (intros []; cbn; unfold forward_good; cbn; naive_solver). Qed.

Lemma forwards_reachable s : rtc (step next) start s -> good s.
Proof. apply reachable_keep; [apply forwards_start_good|exact forwards_next_good]. Qed.

(** ** Progress *)

Lemma set_forward_left side f s :
  forward_left f < forward_left (at_side side s) -> steps_left (set_forward side f s) < steps_left s.
Proof. unfold steps_left. destruct side; cbn; lia. Qed.

Lemma group_fail_left e s : steps_left (group_fail e s) = steps_left s.
Proof. unfold steps_left, group_fail. by destruct e, (err s). Qed.

Lemma forwards_own_step l s s' : good s -> own l = true -> next l s = Some s' -> steps_left s' < steps_left s.
Proof.
  intros (Hf & _) Ho H. destruct l; try done; cbn in H; clear Ho.
  - destruct (notify _ _ _) as [f|] eqn:E; [|done]. injection H as <-. apply set_forward_left. by eapply notify_moves.
  - unfold return_forward in H. destruct (serving _); try done. destruct (notifier _) eqn:En; try done.
    destruct (returned _) eqn:Er; try done. injection H as <-. rewrite group_fail_left. apply set_forward_left.
    unfold forward_left. cbn. rewrite Er. lia.
  - unfold run_mover in H. destruct (mover s) eqn:Em; try done.
    3: { injection H as <-. rewrite group_fail_left. unfold steps_left. cbn. rewrite Em. cbn. lia. }
    all: step_cases H; try done; injection H as <-; unfold steps_left; cbn; rewrite Em; unfold forward_left; cbn; lia.
  - unfold steps_left. step_cases H; try done. injection H as <-. cbn. lia.
Qed.

Lemma forwards_bound s : steps_left s <= 10.
Proof.
  assert (forall f, forward_left f <= 3) as H by (intros f; unfold forward_left; destruct (notifier f), (returned f); cbn; lia).
  unfold steps_left. pose proof (H (source s)). pose proof (H (dest s)). destruct (mover s), (answer s); cbn; lia.
Qed.

(** With the deadline over, a mover that is stuck is over the session or done. *)
Lemma stuck_mover s :
  stuck next own s -> timed_out s = true -> (exists p q, mover s = Moving p q) \/ exists r, mover s = MoverDone r.
Proof.
  intros Hs Ht. specialize (Hs (Movers Ctx) eq_refl). cbn in Hs. unfold run_mover, timeout_Err in Hs. rewrite Ht in Hs.
  destruct (mover s); eauto; by destruct (ctx s).
Qed.

(** A forward that client-go has let go of returns, once it is told to stop. *)
Lemma stuck_forward side s :
  good s -> stuck next own s -> fwd_done s = true -> serving (at_side side s) = ForwardReturned -> returned (at_side side s) = true.
Proof.
  intros (Hf & _) Hs Hd Hr. specialize (Hf side). pose proof (Hs (Returns side) eq_refl) as H1. cbn in H1.
  unfold return_forward in H1. rewrite Hr in H1.
  pose proof (Hs (Notifies side Ctx) eq_refl) as H2. cbn in H2. unfold notify in H2. rewrite Hr, Hd in H2. cbn in H2.
  unfold forward_good in Hf. destruct (notifier (at_side side s)) as [|[port|e]|] eqn:En; try done.
  - destruct Hf as ((Hp & _) & _). by rewrite Hp in H2.
  - by destruct (returned (at_side side s)).
Qed.

(** ** The property *)


(** ** Witness *)

(** Both forwards become ready, the mover succeeds, and client-go closes both. *)
Definition good_run : list label :=
  [Library true (SetsUp None); Library false (SetsUp None); Library true (Ready (Ok 40001%Z)); Notifies true Success;
   Notifies true Other; Movers Success; Library false (Ready (Ok 40002%Z)); Notifies false Success; Notifies false Other;
   Movers Success; Moved (Ok ()); Movers Other; Library true (Forwarded None); Library false (Forwarded None)].
Definition last_steps : list label := [Returns true; Returns false; Joins].
Definition moved : state := default start (runs next good_run start).


(** A forward that breaks while the mover runs ends the migration with its error,
    although the mover then reports success. *)
Example broken_forward :
  let e := ErrNew "lost connection to pod" in
  option_map answer (runs next
    [Library true (SetsUp None); Library false (SetsUp None); Library true (Ready (Ok 40001%Z)); Notifies true Success;
     Notifies true Other; Movers Success; Library false (Ready (Ok 40002%Z)); Notifies false Success; Notifies false Other;
     Movers Success; Library false (Forwarded (Some e)); Returns false; Moved (Ok ()); Movers Other;
     Library true (Forwarded None); Returns true; Joins] start)
  = Some (Some (Some (Errorf "failed to forward ports: %w" [AWrap e]))).
Proof. vm_compute. reflexivity. Qed.
