(* ===== verification/Tunnel.v ===== *)
(** * internal/strategy/local.go: one connection of the tunnel

    [proxyConn] joins a connection that the tunnel accepted ([src]) with one it
    dials to the destination's port-forward ([dst]): two goroutines copy, one each
    way, and each closes the connection it writes to when it ends.  Follower.v
    counts these connections; here is one of them, as an interleaving of the two
    copies, of the function that waits for them, and of the two peers. *)
From S2P Require Import Prelude Interleaving.
From stdpp Require Import relations options.
Local Open Scope nat_scope.

(** ** Connections *)

(** Our end of a connection: whether we have closed it, the pieces that arrived and
    were not read, whether the peer has ended its side, the pieces the peer has room
    for, and whether the connection broke. *)
Record conn : Type := mkConn { isOpen : bool; incoming : nat; eof : bool; room : nat; broken : bool }.

Definition closed (c : conn) : conn := mkConn false (incoming c) (eof c) (room c) (broken c).

(** A read or a write that would wait. *)
Definition idle (c : conn) : bool := isOpen c && negb (broken c) && bool_decide (incoming c = 0) && negb (eof c).
Definition full (c : conn) : bool := isOpen c && negb (broken c) && bool_decide (room c = 0).

(** ** A copy *)

(** [io.Copy], with a piece read and not yet written, and the deferred close. *)
Inductive copy_pc : Type := Reading | Writing | Closing (failed : bool) | Ended (failed : bool).

Definition copy (pc : copy_pc) (from to : conn) : option (copy_pc * conn * conn) :=
  match pc with
  | Reading =>
      if negb (isOpen from) || broken from then Some (Closing true, from, to)
      else match incoming from with
           | S n => Some (Writing, mkConn true n (eof from) (room from) false, to)
           | O => if eof from then Some (Closing false, from, to) else None
           end
  | Writing =>
      if negb (isOpen to) || broken to then Some (Closing true, from, to)
      else match room to with
           | S n => Some (Reading, from, mkConn true (incoming to) (eof to) n false)
           | O => None
           end
  | Closing failed => Some (Ended failed, from, closed to)
  | Ended _ => None
  end.

(** ** proxyConn *)

Inductive proxy_pc : Type := Dialing | Copying | ClosingDst | ClosingSrc | Returned.

Record state : Type := mkState {
  proxy : proxy_pc;
  src : conn;
  dst : conn;
  there : copy_pc;                   (* io.Copy(dst, src) *)
  back : copy_pc                     (* io.Copy(src, dst) *)
}.

Inductive side : Type := Src | Dst.
Inductive label : Type :=
  | Dialed (ok : bool)
  | CopyThere
  | CopyBack
  | Proxy                            (* [eg.Wait] and the deferred closes *)
  | Sends (at_ : side)               (* the peers *)
  | Ends (at_ : side)
  | Reads (at_ : side)
  | Breaks (at_ : side).

Definition is_ended (pc : copy_pc) : bool := match pc with Ended _ => true | _ => false end.

Definition peer (f : conn -> conn) (at_ : side) (s : state) : state :=
  match at_ with
  | Src => mkState (proxy s) (f (src s)) (dst s) (there s) (back s)
  | Dst => mkState (proxy s) (src s) (f (dst s)) (there s) (back s)
  end.

Definition next (l : label) (s : state) : option state :=
  match l with
  | Dialed ok =>
      match proxy s with
      | Dialing =>
          Some (if ok then mkState Copying (src s) (dst s) (there s) (back s)
                else mkState ClosingSrc (src s) (closed (dst s)) (there s) (back s))
      | _ => None
      end
  | CopyThere =>
      match proxy s, copy (there s) (src s) (dst s) with
      | Copying, Some (pc, from, to) => Some (mkState (proxy s) from to pc (back s))
      | _, _ => None
      end
  | CopyBack =>
      match proxy s, copy (back s) (dst s) (src s) with
      | Copying, Some (pc, from, to) => Some (mkState (proxy s) to from (there s) pc)
      | _, _ => None
      end
  | Proxy =>
      match proxy s with
      | Copying => if is_ended (there s) && is_ended (back s)
                   then Some (mkState ClosingDst (src s) (dst s) (there s) (back s)) else None
      | ClosingDst => Some (mkState ClosingSrc (src s) (closed (dst s)) (there s) (back s))
      | ClosingSrc => Some (mkState Returned (closed (src s)) (dst s) (there s) (back s))
      | Dialing | Returned => None
      end
  | Sends at_ => Some (peer (fun c => mkConn (isOpen c) (S (incoming c)) (eof c) (room c) (broken c)) at_ s)
  | Ends at_ => Some (peer (fun c => mkConn (isOpen c) (incoming c) true (room c) (broken c)) at_ s)
  | Reads at_ => Some (peer (fun c => mkConn (isOpen c) (incoming c) (eof c) (S (room c)) (broken c)) at_ s)
  | Breaks at_ => Some (peer (fun c => mkConn (isOpen c) (incoming c) (eof c) (room c) true) at_ s)
  end.

(** The connection as it was accepted, and the other as it will be dialled. *)
Definition start (accepted dialled : conn) : state := mkState Dialing accepted dialled Reading Reading.

Definition own (l : label) : bool := match l with CopyThere | CopyBack | Proxy => true | _ => false end.

(** ** Lemmas *)

(** What a copy has left: each piece is read and written. *)
Definition copy_left (pc : copy_pc) (from : conn) : nat :=
  match pc with
  | Reading => 2 * incoming from + 2
  | Writing => 2 * incoming from + 3
  | Closing _ => 1
  | Ended _ => 0
  end.
Definition proxy_left (pc : proxy_pc) : nat :=
  match pc with Dialing => 4 | Copying => 3 | ClosingDst => 2 | ClosingSrc => 1 | Returned => 0 end.
Definition steps_left (s : state) : nat := copy_left (there s) (src s) + copy_left (back s) (dst s) + proxy_left (proxy s).

(** A copy goes on, leaving what the other end has arrived at. *)
Lemma copy_step pc from to pc' from' to' : copy pc from to = Some (pc', from', to') ->
  copy_left pc' from' < copy_left pc from /\ incoming to' = incoming to /\
  (isOpen from' = isOpen from) /\ (isOpen to' = isOpen to && negb (is_ended pc')) /\ (is_ended pc = false).
Proof.
  intros E. destruct pc; cbn in E.
  - destruct (isOpen from) eqn:Eo; cbn in E.
    + destruct (broken from); cbn in E; [injection E as <- <- <-; cbn; rewrite andb_true_r; repeat split; try done; lia|].
      destruct (incoming from) eqn:Ei.
      * destruct (eof from); [|done]. injection E as <- <- <-. cbn. rewrite andb_true_r. repeat split; try done. lia.
      * injection E as <- <- <-. cbn. rewrite andb_true_r. repeat split; try done. rewrite Ei. lia.
    + injection E as <- <- <-. cbn. rewrite andb_true_r. repeat split; try done. lia.
  - destruct (isOpen to) eqn:Eo; cbn in E.
    + destruct (broken to); cbn in E; [injection E as <- <- <-; cbn; rewrite Eo; repeat split; try done; lia|].
      destruct (room to); [done|]. injection E as <- <- <-. cbn. repeat split; try done. lia.
    + injection E as <- <- <-. cbn. rewrite Eo. repeat split; try done. lia.
  - injection E as <- <- <-. cbn. rewrite andb_false_r. repeat split; try done. lia.
  - done.
Qed.

(** A copy that cannot go on waits for its peer, or has ended. *)
Lemma copy_stuck pc from to : copy pc from to = None ->
  (pc = Reading /\ idle from = true) \/ (pc = Writing /\ full to = true) \/ is_ended pc = true.
Proof.
  unfold idle, full. intros E. destruct pc; cbn in E; [left|right; left|done|by right; right].
  - split; [done|]. destruct (isOpen from); [|done]. destruct (broken from); [done|]. cbn in *.
    destruct (incoming from); [|done]. by destruct (eof from).
  - split; [done|]. destruct (isOpen to); [|done]. destruct (broken to); [done|]. cbn in *. by destruct (room to).
Qed.

Lemma copy_left_same pc c c' : incoming c = incoming c' -> copy_left pc c = copy_left pc c'.
Proof. intros E. destruct pc; cbn; lia. Qed.

Lemma tunnel_own_step l s s' : own l = true -> next l s = Some s' -> steps_left s' < steps_left s.
Proof.
  intros Hl E. unfold steps_left. destruct l; try discriminate Hl; cbn in E.
  - destruct (proxy s); try done. destruct (copy (there s) _ _) as [[[pc from] to]|] eqn:Ec; [|done]. injection E as <-.
    destruct (copy_step _ _ _ _ _ _ Ec) as (H1 & H2 & _). cbn. rewrite (copy_left_same (back s) _ _ H2). lia.
  - destruct (proxy s); try done. destruct (copy (back s) _ _) as [[[pc from] to]|] eqn:Ec; [|done]. injection E as <-.
    destruct (copy_step _ _ _ _ _ _ Ec) as (H1 & H2 & _). cbn. rewrite (copy_left_same (there s) _ _ H2). lia.
  - destruct (proxy s); try done; [destruct (is_ended _ && is_ended _); [|done]|..]; injection E as <-; cbn;
      rewrite ?(copy_left_same (there s) (closed (src s)) (src s) eq_refl), ?(copy_left_same (back s) (closed (dst s)) (dst s) eq_refl); lia.
Qed.

(** A copy that has ended has closed the connection it wrote to, and the function
    closes both before it returns. *)
Record good (s : state) : Prop := mkGood {
  there_closed : is_ended (there s) = true -> isOpen (dst s) = false;
  back_closed : is_ended (back s) = true -> isOpen (src s) = false;
  dst_closed : proxy s = ClosingDst \/ proxy s = ClosingSrc \/ proxy s = Returned -> isOpen (dst s) = false;
  src_closed : proxy s = Returned -> isOpen (src s) = false;
  not_begun : proxy s = Dialing -> there s = Reading /\ back s = Reading
}.

Lemma peer_good f at_ s : (forall c, isOpen (f c) = isOpen c) -> good s -> good (peer f at_ s).
Proof. intros Hf [H1 H2 H3 H4 H5]. destruct at_; split; cbn; by rewrite ?Hf. Qed.

Lemma tunnel_good_step l s s' : good s -> next l s = Some s' -> good s'.
Proof.
  intros G E. destruct l; cbn in E; try (injection E as <-; by apply peer_good); destruct G as [H1 H2 H3 H4 H5].
  - destruct (proxy s) eqn:Ep; try done. injection E as <-. destruct (H5 eq_refl) as [Et Eb]. rewrite Et, Eb.
    destruct ok; split; cbn; try done. by intros [|[]].
  - destruct (proxy s) eqn:Ep; try done. destruct (copy (there s) _ _) as [[[pc from] to]|] eqn:Ec; [|done]. injection E as <-.
    destruct (copy_step _ _ _ _ _ _ Ec) as (_ & _ & Ho & Ht & _).
    split; cbn; [intros Hp; by rewrite Ht, Hp, andb_false_r|intros Hb; rewrite Ho; by apply H2|by intros [|[]]|done|done].
  - destruct (proxy s) eqn:Ep; try done. destruct (copy (back s) _ _) as [[[pc from] to]|] eqn:Ec; [|done]. injection E as <-.
    destruct (copy_step _ _ _ _ _ _ Ec) as (_ & _ & Ho & Ht & _).
    split; cbn; [intros Hb; rewrite Ho; by apply H1|intros Hp; by rewrite Ht, Hp, andb_false_r|by intros [|[]]|done|done].
  - destruct (proxy s) eqn:Ep; try done.
    + destruct (is_ended (there s)) eqn:Et, (is_ended (back s)) eqn:Eb; try done. injection E as <-. split; cbn; auto; done.
    + injection E as <-. split; cbn; auto; done.
    + injection E as <-. split; cbn; auto; done.
Qed.

(** ** Property *)

(** Whatever the peers do: the function returns with both connections closed, and
    not before; its goroutines take no more steps than the pieces that have arrived
    account for; and where none of them can run it has returned, is still dialling,
    or a copy waits for its peer - which it does for a write only once the other has
    ended, and not at all once both peers are gone. *)
Theorem connection_ends accepted dialled s : rtc (step next) (start accepted dialled) s ->
  (proxy s = Returned -> isOpen (src s) = false /\ isOpen (dst s) = false) /\
  (forall ls s', forallb own ls = true -> runs next ls s = Some s' -> length ls <= steps_left s) /\
  (stuck next own s -> proxy s = Dialing \/ proxy s = Returned \/
     (there s = Reading /\ idle (src s) = true) \/ (there s = Writing /\ full (dst s) = true) \/
     (back s = Reading /\ idle (dst s) = true) \/ (back s = Writing /\ full (src s) = true)) /\
  (stuck next own s -> is_ended (there s) = true -> proxy s = Returned \/ (back s = Writing /\ full (src s) = true)) /\
  (stuck next own s -> is_ended (back s) = true -> proxy s = Returned \/ (there s = Writing /\ full (dst s) = true)) /\
  (stuck next own s -> broken (src s) = true -> broken (dst s) = true -> proxy s = Dialing \/ proxy s = Returned).
Proof.
  intros Hs.
  assert (good s) as G by (revert s Hs; apply (reachable_keep next); [split; cbn; try done; by intros [|[]]|]; intros l s s'; apply tunnel_good_step).
  split; [intros Hr; split; [by apply src_closed|apply dst_closed; auto]|]. split.
  { intros ls s' Hls Hr.
    pose proof (runs_bounded next own (fun _ => True) steps_left (fun l s s' Hl _ E => conj I (tunnel_own_step l s s' Hl E)) ls s s' Hls I Hr). lia. }
  assert (stuck next own s -> proxy s = Dialing \/ proxy s = Returned \/
     (there s = Reading /\ idle (src s) = true) \/ (there s = Writing /\ full (dst s) = true) \/
     (back s = Reading /\ idle (dst s) = true) \/ (back s = Writing /\ full (src s) = true)) as Hst.
  { intros Hst. pose proof (Hst Proxy eq_refl) as Hp. pose proof (Hst CopyThere eq_refl) as Ht.
    pose proof (Hst CopyBack eq_refl) as Hb. cbn in Hp, Ht, Hb. destruct (proxy s) eqn:Ep; try discriminate Hp; [by left| |by right; left].
    assert (copy (there s) (src s) (dst s) = None) as Ht' by (by destruct (copy _ _ _) as [[[]]|]).
    assert (copy (back s) (dst s) (src s) = None) as Hb' by (by destruct (copy (back s) _ _) as [[[]]|]).
    apply copy_stuck in Ht' as [|[|Ht']]; [tauto..|]. apply copy_stuck in Hb' as [|[|Hb']]; [tauto..|].
    by rewrite Ht', Hb' in Hp. }
  assert (forall c, isOpen c = false -> idle c = false /\ full c = false) as Hc by (intros c Ho; unfold idle, full; by rewrite Ho).
  assert (forall c, broken c = true -> idle c = false /\ full c = false) as Hbr
    by (intros c Ho; unfold idle, full; by rewrite Ho, andb_false_r).
  split; [exact Hst|]. split; [|split]; intros Hst'.
  - intros He. destruct (Hc _ (there_closed s G He)) as [Hi Hf].
    destruct (Hst Hst') as [Hp|[Hp|[[E _]|[[E _]|[[_ E]|H]]]]]; [|tauto|rewrite E in He; done..|congruence|tauto].
    destruct (not_begun s G Hp) as [E1 E2]. by rewrite ?E1, ?E2 in He.
  - intros He. destruct (Hc _ (back_closed s G He)) as [Hi Hf].
    destruct (Hst Hst') as [Hp|[Hp|[[_ E]|[H|[[E _]|[E _]]]]]]; [|tauto|congruence|tauto|rewrite E in He; done..].
    destruct (not_begun s G Hp) as [E1 E2]. by rewrite ?E1, ?E2 in He.
  - intros H1 H2. destruct (Hbr _ H1), (Hbr _ H2).
    destruct (Hst Hst') as [Hp|[Hp|[[_ E]|[[_ E]|[[_ E]|[_ E]]]]]]; [tauto..|congruence|congruence|congruence|congruence].
Qed.
