(* ===== verification/App.v ===== *)
(** * internal/app: status and cleanup

    runStatus of status.go and runCleanup of cleanup.go, with what they call, and
    the removal of snapshot leftovers by label (internal/snapshot/snapshot.go,
    [DeleteLabeled]).  The flags are arguments; the log records and blocks that
    are the command's outcome are calls, other narration is left out. *)
From S2P Require Import Prelude GoStrings Fmt Console Opid Workload World Pvc Float64 Jobs Progress.
From Stdlib Require Import QArith Qround Lqa.
From stdpp Require Import options.
Local Open Scope nat_scope.

(** ** status.go: text *)

Definition KMGTPE : list string := ["K"; "M"; "G"; "T"; "P"; "E"].

(** The loop of [formatBytes]; [n] shrinks a thousandfold each round. *)
Fixpoint unit_loop (fuel : nat) (n div : Z) (exp : nat) : Z * nat :=
  match fuel with
  | O => (div, exp)
  | S fuel => if decide (1024 <= n)%Z then unit_loop fuel (Z.quot n 1024) (div * 1024)%Z (S exp) else (div, exp)
  end.

(** [%.1f] of a float that is not negative, as its tenths. *)
Definition tenths (x : Q) : Z := half_even (x * inject_Z 10).

(** [None]: the index into the units is out of range, which panics. *)
Definition formatBytes (bytes : Z) : option string :=
  if decide (bytes < 1024)%Z then Some (Itoa bytes +:+ " B")
  else
    let '(div, exp) := unit_loop 64 (Z.quot bytes 1024) 1024 0 in
    let t := tenths (Float64.div (of_int bytes) (of_int div)) in
    unit ← KMGTPE !! exp;
    Some (Itoa (t / 10) +:+ "." +:+ Itoa (t mod 10) +:+ " " +:+ unit +:+ "iB").

Fixpoint ToLower (s : string) : string :=
  match s with EmptyString => "" | String a s => String (lower_byte a) (ToLower s) end.

Definition jobState (job : Job) : string :=
  if decide (0 < job_Succeeded job)%Z then "Succeeded"
  else if decide (0 < job_Failed job)%Z then "Failed"
  else if decide (0 < job_Active job)%Z then "Running"
  else "Pending".

Definition state_emoji (status : string) : string :=
  if decide (status = "Succeeded") then "✅"
  else if decide (status = "Failed") then "❌"
  else if decide (status = "Running") then "🏃"
  else if decide (status = "Pending") then "⏳" else "".

Definition status_level (job : Job) : log_level :=
  if decide (0 < job_Failed job)%Z then ERROR
  else if decide (job_Succeeded job = 0 /\ job_Active job = 0)%Z then WARN else INFO.

(** When the Job's failure is dated. *)
Definition failure_time (job : Job) : option Z :=
  first_some (fun cond => if cond_Failed cond && cond_True cond then LastTransitionTime cond else None)
    (Conditions job).

Definition second : Z := 1000000000.

Definition jobElapsed (job : Job) : io string :=
  match StartTime job with
  | None => Ret ""
  | Some start =>
      now ← ask Now;
      let fin := match CompletionTime job with
                 | Some t => t
                 | None => if decide (0 < job_Failed job)%Z then default now (failure_time job) else now
                 end in
      Ret (Duration_String (Z.quot (fin - start) second * second))
  end.

Definition printJobStatus (job : Job) : io () :=
  let status := jobState job in
  elapsed ← jobElapsed job;
  ask (Log (status_level job)
         (state_emoji status +:+ " Job " +:+ job_Name job +:+ " in namespace " +:+ job_Namespace job
          +:+ " is " +:+ ToLower status +:+ ", " +:+ elapsed) []).

(** ** status.go: the command *)

Section Status.
Variable UnmarshalRecord : string -> option (string * string).
Variable UnmarshalStats : string -> result (option (Z * Z)).
Variable out_of_range : Q -> Z.

Definition printJobProgress (c : ClusterClient) (job : Job) : io () :=
  pod ← FindJobPod c job;
  match pod with
  | Err _ => Ret ()
  | Ok pod =>
      data ← ask (TailPodLogs c (job_Namespace job) (pod_Name pod) 5);
      match data with
      | Err _ => Ret ()
      | Ok data =>
          (* how [strings.Reader] hands the text over does not matter: [FindLast_any_reads] *)
          match job_FindLast out_of_range UnmarshalStats (job_Name job) data [data] with
          | None => Ret ()
          | Some latest =>
              ask (Log INFO ("📊 " +:+ Itoa (Percentage latest) +:+ "% done, "
                             +:+ default "" (formatBytes (Transferred latest)) +:+ " of "
                             +:+ default "" (formatBytes (Total latest)) +:+ " transferred") [])
          end
      end
  end.

Definition followJobProgress (c : ClusterClient) (out : output) (job : Job) : io (result ()) :=
  World.wrap "failed to follow progress: %w"
    (WaitForJobCompletion UnmarshalRecord c out (job_Namespace job) (job_Name job)).

Definition refreshJob (c : ClusterClient) (job : Job) : io Job :=
  refreshed ← ask (GetJob c (job_Namespace job) (job_Name job));
  Ret (match refreshed with Ok refreshed => refreshed | Err _ => job end).

(** The verdict, the explanation and the evidence of a failed operation. *)
Definition report_failure (c : ClusterClient) (out : output) (job : Job) : io () :=
  explanation ← DescribeJobFailure c job;
  _ ← (if Structured out then
         if decide (explanation = "") then Ret ()
         else ask (Log ERROR "❌ Operation failed" [("error", explanation)])
       else
         ask (Print (nl +:+ Failure (Colors out) "Operation failed." +:+ nl
                     +:+ String.concat "" ((fun line => "    " +:+ line +:+ nl) <$> Split explanation lf))));
  WriteJobFailureEvidence UnmarshalRecord c out job.

(** [args[0]] and the flags of [buildStatusCmd]. *)
Definition runStatus (kubeconfig context namespace operationID : string) (follow : bool) (out : output)
  : io (result ()) :=
  if decide (operationID = "") then Ret (Err (ErrNew "operation ID must not be empty"))
  else
    c ←! ask (GetClusterClient kubeconfig context);
    let ns := if decide (namespace = "") then NsInContext c else namespace in
    job ←! FindDataMoverJob c ns (operationPrefix operationID);
    if follow then
      err ← followJobProgress c out job;
      job ← refreshJob c job;
      _ ← printJobStatus job;
      Ret err
    else
      _ ← (if decide (0 < job_Active job)%Z then printJobProgress c job else Ret ());
      if decide (0 < job_Failed job)%Z then
        _ ← printJobStatus job;
        _ ← report_failure c out job;
        Ret (Err (Errorf "operation %s failed" [AStr operationID]))
      else
        _ ← printJobStatus job;
        Ret (Ok ()).
End Status.

(** ** cleanup.go *)

Definition instance_label (release : string) : string := "app.kubernetes.io/instance=" +:+ release.

(** The Helm filter: the prefix, quoted for a regular expression. *)
Definition special_bytes : list ascii :=
  ["\"%char; "."%char; "+"%char; "*"%char; "?"%char; "("%char; ")"%char; "|"%char; "["%char; "]"%char;
   "{"%char; "}"%char; "^"%char; "$"%char].
Fixpoint QuoteMeta (s : string) : string :=
  match s with
  | EmptyString => ""
  | String a s => if mem_byte special_bytes a then String "\" (String a (QuoteMeta s)) else String a (QuoteMeta s)
  end.

(** [Client.DeleteLabeled]: what was removed before an error is not looked at. *)
Fixpoint delete_claims (ns : string) (names : list string) : io (result (list string)) :=
  match names with
  | [] => Ret (Ok [])
  | name :: names =>
      _ ←! ask (DeleteClaim ns name);
      removed ←! delete_claims ns names;
      Ret (Ok (("claim " +:+ name) :: removed))
  end.

Fixpoint delete_snapshots (ns : string) (names : list string) : io (result (list string)) :=
  match names with
  | [] => Ret (Ok [])
  | name :: names =>
      _ ←! ask (DeleteSnapshot ns name);
      removed ←! delete_snapshots ns names;
      Ret (Ok (("snapshot " +:+ name) :: removed))
  end.

Definition DeleteLabeled (ns selector : string) : io (result (list string)) :=
  listing ← ask (ListLabeledClaims ns selector);
  match listing with
  | Err e => Ret (Err (Errorf "failed to list claims in %s: %w" [AStr ns; AWrap e]))
  | Ok claims =>
  removed ←! delete_claims ns claims;
  snapshots ← ask (ListLabeledSnapshots ns selector);
  match snapshots with
  | ApiErr NotFound _ => Ret (Ok removed)
  | ApiErr _ e => Ret (Err (Errorf "failed to list snapshots in %s: %w" [AStr ns; AWrap e]))
  | Found names => more ←! delete_snapshots ns names; Ret (Ok (removed ++ more))
  end
  end.

Definition removeSnapshotLeftovers (c : ClusterClient) (releaseName ns : string) : io (result ()) :=
  _ ←! ask (SnapshotNew c);
  removed ← DeleteLabeled ns (instance_label releaseName);
  Ret (match removed with
       | Err e => Err (Errorf "failed to remove the snapshot leftovers of %s: %w" [AStr releaseName; AWrap e])
       | Ok _ => Ok ()
       end).

Definition minute : Z := 60000000000.

(** Whether the release was still there. *)
Definition uninstallRelease (c : ClusterClient) (name ns : string) : io (result bool) :=
  init ← ask (HelmInit c ns);
  match init with
  | Err e => Ret (Err (Errorf "failed to initialize helm for namespace %s: %w" [AStr ns; AWrap e]))
  | Ok _ =>
      gone ← ask (HelmUninstall c ns name minute);
      Ret (match gone with
           | Uninstalled => Ok true
           | ReleaseNotFound => Ok false
           | UninstallFailed e => Err (Errorf "failed to uninstall release %s: %w" [AStr name; AWrap e])
           end)
  end.

(** A release whose accessor fails is skipped ([None]). *)
Fixpoint uninstallReleases (c : ClusterClient) (releases : list (option (string * string))) : io (result ()) :=
  match releases with
  | [] => Ret (Ok ())
  | None :: releases => uninstallReleases c releases
  | Some (name, ns) :: releases =>
      _ ←! uninstallRelease c name ns;
      _ ←! removeSnapshotLeftovers c name ns;
      uninstallReleases c releases
  end.

Fixpoint checkNoActiveJobs (c : ClusterClient) (releases : list (option (string * string))) : io (result ()) :=
  match releases with
  | [] => Ret (Ok ())
  | None :: releases => checkNoActiveJobs c releases
  | Some (name, ns) :: releases =>
      jobs ← ask (ListReleaseJobs c ns name);
      match jobs with
      | Err e => Ret (Err (Errorf "failed to list jobs for release %s: %w" [AStr name; AWrap e]))
      | Ok jobs =>
          match List.find (fun job => bool_decide (0 < job_Active job)%Z) jobs with
          | Some job =>
              Ret (Err (Errorf "operation job %s/%s is still running; use --force to clean up anyway"
                          [AStr (job_Namespace job); AStr (job_Name job)]))
          | None => checkNoActiveJobs c releases
          end
      end
  end.

Definition runCleanup (kubeconfig context namespace filterPrefix : string) (all force : bool) : io (result ()) :=
  c ←! ask (GetClusterClient kubeconfig context);
  _ ←! World.wrap "failed to initialize helm: %w" (ask (HelmInit c namespace));
  releases ←! World.wrap "failed to list releases: %w" (ask (ListReleases c namespace ("^" +:+ QuoteMeta filterPrefix)));
  if decide (releases = []) then
    if all then Ret (Ok ())
    else Ret (Err (Errorf "no releases found matching %q" [AStr filterPrefix]))
  else
    _ ←! (if force then Ret (Ok ()) else checkNoActiveJobs c releases);
    uninstallReleases c releases.

(** [RunE] of [buildCleanupCmd]; [arg] is the operation's identifier, if given. *)
Definition cleanup (kubeconfig context namespace : string) (arg : option string) (all force : bool) : io (result ()) :=
  match arg with
  | None => if all then runCleanup kubeconfig context namespace ReleasePrefix true force
            else Ret (Err (ErrNew "provide an operation ID or use --all"))
  | Some id =>
      if all then runCleanup kubeconfig context namespace ReleasePrefix true force
      else if decide (id = "") then Ret (Err (ErrNew "operation ID must not be empty"))
      else runCleanup kubeconfig context namespace (operationPrefix id) false force
  end.

(** * Theorems *)

(** ** Sizes *)

Lemma unit_loop_spec b fuel : forall n d exp,
  (0 < b)%Z -> d = (1024 ^ Z.of_nat (S exp))%Z -> n = (b / d)%Z -> (1 <= n)%Z -> (n < 1024 ^ Z.of_nat fuel)%Z ->
  exists k, unit_loop fuel n d exp = ((1024 ^ Z.of_nat (S k))%Z, k) /\ exp <= k
    /\ (1024 ^ Z.of_nat (S k) <= b < 1024 ^ Z.of_nat (S (S k)))%Z.
Proof.
  induction fuel as [|fuel IH]; intros n d exp Hb Hd Hn H1 Hf; cbn [unit_loop]; [cbn in Hf; lia|].
  assert (0 < d)%Z as Hd0 by (subst d; apply Z.pow_pos_nonneg; lia).
  destruct (decide (1024 <= n)%Z) as [Hge|Hlt].
  - destruct (IH (Z.quot n 1024) (d * 1024)%Z (S exp) Hb) as (k & E & Hk & Hr).
    + subst d. rewrite (Nat2Z.inj_succ (S exp)), Z.pow_succ_r by lia. lia.
    + rewrite Z.quot_div_nonneg by lia. subst n. by rewrite Z.div_div by lia.
    + rewrite Z.quot_div_nonneg by lia. apply Z.div_le_lower_bound; lia.
    + rewrite Z.quot_div_nonneg by lia. apply Z.div_lt_upper_bound; [lia|].
      rewrite Nat2Z.inj_succ, Z.pow_succ_r in Hf by lia. lia.
    + exists k. split_and!; [done|lia|lia..].
  - exists exp. subst d. split_and!; [done|lia| |].
    + subst n. pose proof (Z.mul_div_le b _ Hd0). nia.
    + rewrite (Nat2Z.inj_succ (S exp)), Z.pow_succ_r by lia. subst n.
      pose proof (Z.mul_succ_div_gt b _ Hd0). nia.
Qed.

(** A power of 1024 up to 2^70 is a float. *)
Lemma of_int_power k : k <= 7 -> Qeq (of_int (1024 ^ Z.of_nat k)) (inject_Z (1024 ^ Z.of_nat k)).
Proof. intros Hk. do 8 (destruct k as [|k]; [vm_compute; reflexivity|]). lia. Qed.

Local Open Scope Q_scope.
Lemma size_ratio b k : (k <= 5)%nat ->
  (1024 ^ Z.of_nat (S k) <= b < 1024 ^ Z.of_nat (S (S k)))%Z ->
  1 <= Float64.div (of_int b) (of_int (1024 ^ Z.of_nat (S k))) <= inject_Z 1024.
Proof.
  intros Hk Hb. set (d := (1024 ^ Z.of_nat (S k))%Z) in *.
  assert (0 < d)%Z as Hd by (apply Z.pow_pos_nonneg; lia).
  assert (of_int d == inject_Z d) as Ed by (apply of_int_power; lia).
  assert (inject_Z d <= of_int b) as Hlo by (rewrite <- Ed; apply round_mono; rewrite <- Zle_Qle; lia).
  assert (of_int b <= inject_Z (1024 * d)) as Hhi.
  { assert ((1024 * d)%Z = (1024 ^ Z.of_nat (S (S k)))%Z) as E
      by (unfold d; rewrite (Nat2Z.inj_succ (S k)), Z.pow_succ_r by lia; lia).
    rewrite E, <- of_int_power by lia. apply round_mono. rewrite <- Zle_Qle. lia. }
  assert (0 < inject_Z d) as Hdq by (change 0 with (inject_Z 0); rewrite <- Zlt_Qlt; lia).
  rewrite inject_Z_mult in Hhi. unfold Float64.div.
  assert (of_int b / of_int d == of_int b / inject_Z d) as Er by (by rewrite Ed).
  assert (1 <= of_int b / of_int d) as H1 by (rewrite Er; apply Qle_shift_div_l; [done|]; lra).
  split.
  - apply Qle_trans with (round 1); [vm_compute; discriminate|]. by apply round_mono.
  - apply round_le_int; [lra|lia|]. rewrite Er. apply Qle_shift_div_r; [done|]. done.
Qed.
Local Close Scope Q_scope.

(** Sizes as [status] prints them.  For every count of bytes an int64 holds
    the unit's index is in range; a count of 1024 or more is shown in the largest
    binary unit that does not exceed it, as a number with one decimal between 1.0
    and 1024.0. *)
Theorem formatBytes_unit (bytes : Z) :
  (0 <= bytes <= max_int64)%Z ->
  ((bytes < 1024)%Z /\ formatBytes bytes = Some (Itoa bytes +:+ " B")) \/
  exists k unit t, KMGTPE !! k = Some unit /\
    (1024 ^ Z.of_nat (S k) <= bytes < 1024 ^ Z.of_nat (S (S k)))%Z /\ (10 <= t <= 10240)%Z /\
    formatBytes bytes = Some (Itoa (t / 10) +:+ "." +:+ Itoa (t mod 10) +:+ " " +:+ unit +:+ "iB").
Proof.
  intros Hb. unfold formatBytes. destruct (decide (bytes < 1024)%Z) as [|Hge]; [by left|right].
  destruct (unit_loop_spec bytes 64 (Z.quot bytes 1024) 1024 0) as (k & E & _ & Hk); try lia.
  - by rewrite Z.quot_div_nonneg by lia.
  - rewrite Z.quot_div_nonneg by lia. apply Z.div_le_lower_bound; lia.
  - rewrite Z.quot_div_nonneg by lia. apply Z.div_lt_upper_bound; [lia|]. unfold max_int64 in Hb.
    assert (2 ^ 63 < 1024 * 1024 ^ Z.of_nat 64)%Z by (vm_compute; reflexivity). lia.
  - rewrite E. assert (k <= 5) as Hk5.
    { destruct (decide (k <= 5)) as [|Hn]; [done|]. exfalso.
      assert (1024 ^ 7 <= 1024 ^ Z.of_nat (S k))%Z by (apply Z.pow_le_mono_r; lia).
      unfold max_int64 in Hb. assert (2 ^ 63 < 1024 ^ 7)%Z by (vm_compute; reflexivity). lia. }
    destruct (size_ratio bytes k Hk5 Hk) as [Hlo Hhi]. set (x := Float64.div _ _) in *.
    assert (exists unit, KMGTPE !! k = Some unit) as [unit Hu]
      by (do 6 (destruct k as [|k]; [by eexists|]); lia).
    exists k, unit, (tenths x). rewrite Hu. split_and!; [done|lia|lia| | |done].
    + apply half_even_ge. change (inject_Z 10) with 10%Q. lra.
    + apply half_even_le. change (inject_Z 10) with 10%Q. change (inject_Z 1024) with 1024%Q in Hhi.
      change (inject_Z 10240) with 10240%Q. lra.
Qed.

Lemma formatBytes_unit_witness :
  (0 <= 1610612736 <= max_int64)%Z /\ formatBytes 1610612736 = Some "1.5 GiB".
Proof.
  assert (0 <= 1610612736 <= max_int64)%Z as H by (unfold max_int64; lia). split; [exact H|].
  destruct (formatBytes_unit 1610612736 H) as [[Hl _]|_]; [lia|]. vm_compute. reflexivity.
Defined.

(** ** The verdict of status *)

Section Verdict.
Context (UnmarshalRecord : string -> option (string * string)) (UnmarshalStats : string -> result (option (Z * Z)))
  (out_of_range : Q -> Z).

(** What the run comes back with once the Job is found. *)
Definition verdict (operationID : string) (job : Job) : result () :=
  if decide (0 < job_Failed job)%Z then Err (Errorf "operation %s failed" [AStr operationID]) else Ok ().

(** The status line of a Job, as logged. *)
Definition is_status_line (job : Job) (e : event) : Prop :=
  exists elapsed x, e = Ev (Log (status_level job)
    (state_emoji (jobState job) +:+ " Job " +:+ job_Name job +:+ " in namespace " +:+ job_Namespace job
     +:+ " is " +:+ ToLower (jobState job) +:+ ", " +:+ elapsed) []) x.

Lemma printJobStatus_logs h n job : exists pre e, (exec h n (printJobStatus job)).1 = pre ++ [e] /\ is_status_line job e.
Proof.
  unfold printJobStatus, jobElapsed. destruct (StartTime job); cbn.
  - eexists [_], _. split; [done|]. by do 2 eexists.
  - eexists [], _. split; [done|]. by do 2 eexists.
Qed.

(** The part of a run after the Job was found, when it does not follow. *)
Definition report (c : ClusterClient) (out : output) (operationID : string) (job : Job) : io (result ()) :=
  _ ← (if decide (0 < job_Active job)%Z
       then printJobProgress UnmarshalStats out_of_range c job else Ret ());
  if decide (0 < job_Failed job)%Z then
    _ ← printJobStatus job;
    _ ← report_failure UnmarshalRecord c out job;
    Ret (Err (Errorf "operation %s failed" [AStr operationID]))
  else
    _ ← printJobStatus job;
    Ret (Ok ()).

Lemma report_verdict h n c out operationID job :
  (exec h n (report c out operationID job)).2 = verdict operationID job /\
  exists e, e ∈ (exec h n (report c out operationID job)).1 /\ is_status_line job e.
Proof.
  unfold report, verdict. rewrite exec_bind. set (r := exec h n _). cbn [snd fst]. cbv zeta. cbn [snd fst].
  set (n' := n + length r.1).
  destruct (printJobStatus_logs h n' job) as (pre & e & Hp & He).
  destruct (decide (0 < job_Failed job)%Z).
  - rewrite exec_bind. cbv zeta. cbn [snd fst]. rewrite exec_bind. cbv zeta. cbn [snd fst exec].
    split; [done|]. exists e. split; [|done]. rewrite Hp. set_solver.
  - rewrite exec_bind. cbv zeta. cbn [snd fst exec]. split; [done|]. exists e. split; [|done]. rewrite Hp. set_solver.
Qed.
End Verdict.

(** The Job [status] reports on: what its first calls come back with. *)
Definition status_job (h : handler) (kubeconfig context namespace operationID : string) : nat * result (ClusterClient * Job) :=
  match h _ 0 (GetClusterClient kubeconfig context) with
  | Err e => (1, Err e)
  | Ok c =>
      let ns := if decide (namespace = "") then NsInContext c else namespace in
      let found := exec h 1 (FindDataMoverJob c ns (operationPrefix operationID)) in
      (1 + length found.1, match found.2 with Ok job => Ok (c, job) | Err e => Err e end)
  end.

(** C17: the verdict of [status] on an operation.  Without --follow it fails when
    the Job cannot be found and otherwise exactly when a pod of the Job failed,
    whatever else the cluster answers, and it announces the Job's state once it is
    found.  The two do not always agree: a Job whose pod failed and was retried
    with success is announced as succeeded, at the level of an error, and the
    command fails. *)
Theorem status_verdict R S o h kubeconfig context namespace operationID out :
  operationID <> "" ->
  let run := exec h 0 (runStatus R S o kubeconfig context namespace operationID false out) in
  match (status_job h kubeconfig context namespace operationID).2 with
  | Err e => run.2 = Err e
  | Ok (c, job) =>
      run.2 = verdict operationID job /\ exists e, e ∈ run.1 /\ is_status_line job e
  end /\
  exists retried, jobState retried = "Succeeded" /\ status_level retried = ERROR /\
    verdict operationID retried <> Ok ().
Proof.
  intros Hid run. split.
  - unfold run, runStatus, status_job. rewrite decide_False by done. unfold try_bind.
    cbn [mbind io_bind io_bind_def ask exec].
    destruct (h _ 0 (GetClusterClient kubeconfig context)) as [c|e]; [|done].
    set (ns := if decide (namespace = "") then _ else _). cbv zeta.
    rewrite exec_bind. set (found := exec h 1 (FindDataMoverJob c ns (operationPrefix operationID))). cbv zeta.
    cbn [fst snd]. destruct found.2 as [job|e]; [|done].
    destruct (report_verdict R S o h (1 + length found.1) c out operationID job) as (H1 & e & He & Hl).
    split; [exact H1|]. exists e. split; [|done]. cbn [fst]. rewrite elem_of_cons, elem_of_app. right. right. exact He.
  - exists (mkJob "" "x-rclone" "ns" 0 1 1 [] [] None None). split_and!; [done..|]. unfold verdict.
    by rewrite decide_True.
Qed.

Lemma status_verdict_witness :
  let job := mkJob "j" "pv-migrate-db-clusterip-rsync" "default" 0 0 1 [] [] None None in
  let c := mkClient "https://a" "default" in
  let h : handler := fun X n e =>
    match e in call X return X with
    | ListJobs _ _ => Ok [job]
    | e => Pvc.still c (Pvc.mkCluster (fun _ _ => Err (ErrNew "not found")) (fun _ => Ok []) (fun _ => ApiErr NotFound (ErrNew ""))
                          (Found [])) _ n e
    end in
  "db" <> "" /\
  (exec h 0 (runStatus (fun _ => None) (fun _ => Err (ErrNew "")) (fun _ => 0%Z) "" "" "" "db" false
     (mkOutput false false false))).2 = Err (Errorf "operation %s failed" [AStr "db"]).
Proof.
  intros job c h. assert ("db" <> "") as Hid by discriminate. split; [exact Hid|].
  pose proof (status_verdict (fun _ => None) (fun _ => Err (ErrNew "")) (fun _ => 0%Z) h "" "" "" "db"
    (mkOutput false false false) Hid) as [H _]. cbv zeta in H.
  assert ((status_job h "" "" "" "db").2 = Ok (c, job)) as E by (vm_compute; reflexivity).
  rewrite E in H. exact (proj1 H).
Defined.

(** ** The protocol of cleanup *)

Definition release_id : Type := string * string.   (* name and namespace *)

Record cleanup_state : Type := mkCleanup {
  listed : list release_id;          (* the releases the filter found *)
  idle : list release_id;            (* read to have no active Job *)
  gone : list release_id;            (* uninstalled, or found gone *)
  claims_due : list string;          (* leftovers of the last one, still to delete *)
  snapshots_due : list string
}.

Definition nothing_done : cleanup_state := mkCleanup [] [] [] [] [].

Section CleanupProtocol.
Context (force : bool).

(** A release is uninstalled only when it was listed and, unless forced, every
    listed release was read to be idle; leftovers are those labelled with a release
    that is gone, and claims are deleted before snapshots are listed. *)
Definition cleanup_allows (st : cleanup_state) X (e : call X) : Prop :=
  match e with
  | GetClusterClient _ _ | ListReleases _ _ _ => listed st = []
  | HelmInit _ _ | SnapshotNew _ => claims_due st = [] /\ snapshots_due st = []
  | ListReleaseJobs _ ns name => (name, ns) ∈ listed st /\ gone st = []
  | HelmUninstall _ ns name _ =>
      (name, ns) ∈ listed st /\ (force = true \/ forall r, r ∈ listed st -> r ∈ idle st) /\
      claims_due st = [] /\ snapshots_due st = []
  | ListLabeledClaims ns selector =>
      claims_due st = [] /\ snapshots_due st = [] /\
      exists name, (name, ns) ∈ gone st /\ selector = instance_label name
  | ListLabeledSnapshots ns selector =>
      claims_due st = [] /\ snapshots_due st = [] /\
      exists name, (name, ns) ∈ gone st /\ selector = instance_label name
  | DeleteClaim _ name => exists rest, claims_due st = name :: rest
  | DeleteSnapshot _ name => claims_due st = [] /\ exists rest, snapshots_due st = name :: rest
  | _ => False
  end.

Definition cleanup_next (st : cleanup_state) X (e : call X) : X -> cleanup_state :=
  let 'mkCleanup l i g c s := st in
  match e in call X return X -> cleanup_state with
  | ListReleases _ _ _ => fun x => mkCleanup (match x with Ok rs => omap id rs | Err _ => [] end) i g c s
  | ListReleaseJobs _ ns name => fun x =>
      mkCleanup l (match x with
                   | Ok jobs => if existsb (fun job => bool_decide (0 < job_Active job)%Z) jobs then i else (name, ns) :: i
                   | Err _ => i
                   end) g c s
  | HelmUninstall _ ns name _ => fun x =>
      mkCleanup l i (match x with UninstallFailed _ => g | _ => (name, ns) :: g end) c s
  | ListLabeledClaims _ _ => fun x => mkCleanup l i g (match x with Ok names => names | Err _ => [] end) s
  | ListLabeledSnapshots _ _ => fun x => mkCleanup l i g c (match x with Found names => names | ApiErr _ _ => [] end)
  | DeleteClaim _ _ => fun x => mkCleanup l i g (if is_Ok x then tail c else c) s
  | DeleteSnapshot _ _ => fun x => mkCleanup l i g c (if is_Ok x then tail s else s)
  | _ => fun _ => st
  end.

(** Success means that nothing listed is left, leftovers included. *)
Definition cleanup_ends (st : cleanup_state) (r : result ()) : Prop :=
  is_Ok r = true -> claims_due st = [] /\ snapshots_due st = [] /\ forall x, x ∈ listed st -> x ∈ gone st.

Local Notation mwp := (mwp cleanup_allows cleanup_next).

Lemma delete_claims_mwp l i g ns names :
  mwp (mkCleanup l i g names []) (delete_claims ns names)
    (fun st r => exists due, st = mkCleanup l i g due [] /\ (is_Ok r = true -> due = [])).
Proof.
  induction names as [|name names IH]; cbn [delete_claims]; [cbn; eauto|].
  rewrite mwp_try. cbn [World.mwp ask]. split; [cbn; eauto|].
  intros [[]|e]; cbn [cleanup_next is_Ok tail]; [|cbn; by eexists].
  rewrite mwp_try. eapply mwp_mono; [exact IH|]. intros st [removed|e] (due & -> & H); cbn; eauto.
Qed.

Lemma delete_snapshots_mwp l i g ns names :
  mwp (mkCleanup l i g [] names) (delete_snapshots ns names)
    (fun st r => exists due, st = mkCleanup l i g [] due /\ (is_Ok r = true -> due = [])).
Proof.
  induction names as [|name names IH]; cbn [delete_snapshots]; [cbn; eauto|].
  rewrite mwp_try. cbn [World.mwp ask]. split; [cbn; eauto|].
  intros [[]|e]; cbn [cleanup_next is_Ok tail]; [|cbn; by eexists].
  rewrite mwp_try. eapply mwp_mono; [exact IH|]. intros st [removed|e] (due & -> & H); cbn; eauto.
Qed.

(** Removing the leftovers of a release that is gone. *)
Lemma leftovers_mwp c l i g name ns :
  (name, ns) ∈ g ->
  mwp (mkCleanup l i g [] []) (removeSnapshotLeftovers c name ns)
    (fun st r => exists cs ss, st = mkCleanup l i g cs ss /\ (is_Ok r = true -> cs = [] /\ ss = [])).
Proof.
  intros Hg. unfold removeSnapshotLeftovers, DeleteLabeled. rewrite mwp_try.
  cbn [World.mwp ask]. split; [done|]. intros [[]|e]; [|cbn; by do 2 eexists].
  rewrite mwp_bind. eapply (mwp_mono _ _ _ _ (fun st r => exists cs ss, st = mkCleanup l i g cs ss /\
      (is_Ok r = true -> cs = [] /\ ss = []))); [|intros st [removed|e] (cs & ss & -> & H); cbn; eauto].
  cbn [World.mwp mbind io_bind io_bind_def ask]. split; [cbn; eauto 6|]. intros [claims|e]; [|cbn; eauto 6].
  cbn [cleanup_next]. rewrite mwp_try. eapply mwp_mono; [apply delete_claims_mwp|].
  intros st [removed|e] (due & -> & H); [|cbn; eexists _, _; split; [done|discriminate]].
  rewrite (H eq_refl). cbn [World.mwp mbind io_bind io_bind_def ask]. split; [cbn; eauto 6|].
  intros [names|[] e]; cbn [cleanup_next]; try (cbn; by eauto 6).
  rewrite mwp_try. eapply mwp_mono; [apply delete_snapshots_mwp|].
  intros st [more|e] (due' & -> & H'); cbn; [rewrite (H' eq_refl); eauto 6|].
  eexists _, _. split; [done|discriminate].
Qed.

(** Uninstalling what is left of the list. *)
Lemma uninstallReleases_mwp c releases : forall l i g,
  (force = true \/ forall r, r ∈ l -> r ∈ i) ->
  (forall r, r ∈ omap id releases -> r ∈ l) -> (forall r, r ∈ l -> r ∈ g \/ r ∈ omap id releases) ->
  mwp (mkCleanup l i g [] []) (uninstallReleases c releases) cleanup_ends.
Proof.
  induction releases as [|[[name ns]|] releases IH]; intros l i g Hidle Hsub Hall; cbn [uninstallReleases].
  - cbn. intros _. split_and!; [done..|]. intros x Hx. destruct (Hall x Hx) as [|Hn]; [done|]. by apply elem_of_nil in Hn.
  - unfold uninstallRelease. rewrite mwp_try.
    cbn [World.mwp mbind io_bind io_bind_def ask]. split; [done|]. intros [[]|e]; [|by cbn].
    cbn [World.mwp mbind io_bind io_bind_def ask cleanup_next].
    split; [cbn; split_and!; [apply Hsub; cbn; set_solver|done..]|].
    assert (forall r, r ∈ l -> r ∈ (name, ns) :: g \/ r ∈ omap id releases) as Hall'.
    { intros r Hr. destruct (Hall r Hr) as [|Hn]; [set_solver|]. cbn in Hn. set_solver. }
    assert (forall r, r ∈ omap id releases -> r ∈ l) as Hsub' by (intros r Hr; apply Hsub; cbn; set_solver).
    assert (mwp (mkCleanup l i ((name, ns) :: g) [] [])
      (_ ←! removeSnapshotLeftovers c name ns; uninstallReleases c releases) cleanup_ends) as Hrest.
    { rewrite mwp_try. eapply mwp_mono; [apply leftovers_mwp; set_solver|].
      intros st [[]|e] (cs & ss & -> & H); [|by cbn]. destruct (H eq_refl) as [-> ->]. by apply IH. }
    intros [| |e]; [exact Hrest|exact Hrest|by cbn].
  - apply IH; [done|intros r Hr; apply Hsub; by cbn|intros r Hr; destruct (Hall r Hr); [by left|by right]].
Qed.

(** Reading the Jobs of what is left of the list. *)
Lemma checkNoActiveJobs_mwp c releases : forall l i,
  (forall r, r ∈ omap id releases -> r ∈ l) -> (forall r, r ∈ l -> r ∈ i \/ r ∈ omap id releases) ->
  mwp (mkCleanup l i [] [] []) (checkNoActiveJobs c releases)
    (fun st r => exists i', st = mkCleanup l i' [] [] [] /\ (is_Ok r = true -> forall x, x ∈ l -> x ∈ i')).
Proof.
  induction releases as [|[[name ns]|] releases IH]; intros l i Hsub Hall; cbn [checkNoActiveJobs].
  - cbn. exists i. split; [done|]. intros _ x Hx. destruct (Hall x Hx) as [|Hn]; [done|]. by apply elem_of_nil in Hn.
  - cbn [World.mwp mbind io_bind io_bind_def ask]. split; [cbn; split; [apply Hsub; cbn; set_solver|done]|].
    intros [jobs|e]; cbn [cleanup_next]; [|cbn; by eexists].
    destruct (List.find _ jobs) as [job|] eqn:E; [cbn; by eexists|].
    assert (existsb (fun job => bool_decide (0 < job_Active job)%Z) jobs = false) as ->.
    { apply not_true_is_false. intros (job & Hj & Ha)%existsb_exists.
      by rewrite (List.find_none _ _ E job Hj) in Ha. }
    apply IH; [intros r Hr; apply Hsub; cbn; set_solver|].
    intros r Hr. destruct (Hall r Hr) as [|Hn]; [set_solver|]. cbn in Hn. set_solver.
  - apply IH; [intros r Hr; apply Hsub; by cbn|intros r Hr; destruct (Hall r Hr); [by left|by right]].
Qed.

Lemma runCleanup_mwp kubeconfig context namespace filterPrefix all :
  mwp nothing_done (runCleanup kubeconfig context namespace filterPrefix all force) cleanup_ends.
Proof.
  unfold runCleanup. rewrite mwp_try. cbn [World.mwp ask]. split; [done|]. intros [c|e]; [|by cbn].
  rewrite mwp_try. cbn [World.mwp ask World.wrap mbind io_bind io_bind_def]. split; [done|].
  intros [[]|e]; cbn [wrap_err]; [|by cbn].
  rewrite mwp_try. cbn [World.mwp ask World.wrap mbind io_bind io_bind_def]. split; [done|].
  intros [releases|e]; cbn [wrap_err cleanup_next nothing_done]; [|by cbn].
  destruct (decide (releases = [])) as [->|Hne].
  { destruct all; cbn; [|done]. intros _. split_and!; [done..|]. intros x Hx. by apply elem_of_nil in Hx. }
  rewrite mwp_try. destruct force eqn:Ef.
  - apply uninstallReleases_mwp; auto.
  - eapply mwp_mono; [apply checkNoActiveJobs_mwp; auto|].
    intros st [[]|e] (i' & -> & H); [|by cbn]. apply uninstallReleases_mwp; auto.
Qed.
End CleanupProtocol.

