(* ===== verification/SnapshotClient.v ===== *)
(** * internal/snapshot: the snapshot client

    snapshot.go: which error a missing class or a missing API is, the two waits as
    conditions polled until they hold, the claim cloned from a snapshot, and the
    tolerant deletions.  What the API server answers is an argument, a wait's as
    the list of its rounds; [DeleteLabeled] is in App.v. *)
From S2P Require Import Prelude GoStrings Fmt World.
From stdpp Require Import options.

Definition group : string := "snapshot.storage.k8s.io".
Definition version1 : string := "v1".

Definition ErrNotInstalled : error := ErrNew "the VolumeSnapshot API is not installed in this cluster".

(** The API groups the cluster serves, each with its versions. *)
Definition ServerGroups : Type := result (list (string * list string)).

Definition apiInstalled (groups : ServerGroups) : bool :=
  match groups with
  | Err _ => true
  | Ok groups => existsb (fun g => bool_decide (g.1 = group) && bool_decide (version1 ∈ g.2)) groups
  end.

Definition CheckClass (groups : ServerGroups) (className : string) (got : api ()) : result () :=
  if decide (className = "") then Ok ()
  else match got with
       | Found _ => Ok ()
       | ApiErr NotFound _ =>
           if negb (apiInstalled groups) then Err ErrNotInstalled
           else Err (Errorf "VolumeSnapshotClass %s does not exist" [AStr className])
       | ApiErr _ e => Err (Errorf "failed to get VolumeSnapshotClass %s: %w" [AStr className; AWrap e])
       end.

(** The object handed to the API server, and what its answer becomes. *)
Definition snapshot_object (namespace claimName className snapshotName : string) (labels : values) : values :=
  let spec := [("source", VMap [("persistentVolumeClaimName", VStr claimName)])] in
  let spec := if decide (className = "") then spec else set spec "volumeSnapshotClassName" (VStr className) in
  [("apiVersion", VStr (group +:+ "/" +:+ version1)); ("kind", VStr "VolumeSnapshot");
   ("metadata", VMap [("name", VStr snapshotName); ("namespace", VStr namespace); ("labels", VMap labels)]);
   ("spec", VMap spec)].

Definition Create (groups : ServerGroups) (namespace snapshotName : string) (created : api ()) : result () :=
  match created with
  | Found _ => Ok ()
  | ApiErr s e =>
      if (match s with NotFound => true | _ => false end) && negb (apiInstalled groups) then Err ErrNotInstalled
      else Err (Errorf "failed to create VolumeSnapshot %s/%s: %w" [AStr namespace; AStr snapshotName; AWrap e])
  end.

(** ** Waits *)

(** What the status of a VolumeSnapshot says: its error, the content bound to it
    and whether it is ready. *)
Record SnapshotStatus : Type := mkStatus {
  error_message : option string;
  boundContent : string;
  readyToUse : bool
}.

(** [noteError], on the last error seen. *)
Definition noteError (status : SnapshotStatus) (lastError : string) : string := default lastError (error_message status).

Section Poll.
Variable is_deadline : error -> bool.   (* errors.Is(err, context.DeadlineExceeded) *)

Definition timed_out (timeout : Z) (what lastError : string) : error :=
  if decide (lastError = "") then Errorf "timed out after %s waiting for %s" [ADur timeout; AStr what]
  else Errorf "timed out after %s waiting for %s; the last error the controller reported: %s"
         [ADur timeout; AStr what; AStr lastError].

(** The condition on one round after the other, until it is met, fails or the
    rounds are over, which is when the budget is. *)
Fixpoint poll {R} (condition : R -> string -> result bool * string) (timeout : Z) (what : string)
    (rounds : list R) (lastError : string) : result () :=
  match rounds with
  | [] => Err (timed_out timeout what lastError)
  | r :: rounds =>
      let '(met, lastError) := condition r lastError in
      match met with
      | Err e => if is_deadline e then Err (timed_out timeout what lastError) else Err e
      | Ok true => Ok ()
      | Ok false => poll condition timeout what rounds lastError
      end
  end.

(** One round of a wait for the cut: the snapshot, and the handle its content
    has, if it comes to that. *)
Definition cut_round : Type := result SnapshotStatus * result string.

(** The content bound to the snapshot, none yet being the empty string. *)
Definition boundContentName (namespace snapshotName : string) (got : result SnapshotStatus) (lastError : string)
  : result string * string :=
  match got with
  | Err e => (Err (Errorf "failed to get VolumeSnapshot %s/%s: %w" [AStr namespace; AStr snapshotName; AWrap e]), lastError)
  | Ok status => (Ok (boundContent status), noteError status lastError)
  end.

Definition cut_condition (namespace snapshotName : string) (r : cut_round) (lastError : string) : result bool * string :=
  let '(contentName, lastError) := boundContentName namespace snapshotName r.1 lastError in
  match contentName with
  | Err e => (Err e, lastError)
  | Ok contentName =>
      if decide (contentName = "") then (Ok false, lastError)
      else match r.2 with
           | Err e => (Err (Errorf "failed to get VolumeSnapshotContent %s: %w" [AStr contentName; AWrap e]), lastError)
           | Ok handle => (Ok (negb (bool_decide (handle = ""))), lastError)
           end
  end.

Definition WaitForCut (namespace snapshotName : string) (timeout : Z) (rounds : list cut_round) : result () :=
  poll (cut_condition namespace snapshotName) timeout "the snapshot to be cut" rounds "".

Definition ready_condition (namespace snapshotName : string) (r : result SnapshotStatus) (lastError : string)
  : result bool * string :=
  match r with
  | Err e => (Err (Errorf "failed to get VolumeSnapshot %s/%s: %w" [AStr namespace; AStr snapshotName; AWrap e]), lastError)
  | Ok status => (Ok (readyToUse status), noteError status lastError)
  end.

Definition WaitReady (namespace snapshotName : string) (timeout : Z) (rounds : list (result SnapshotStatus)) : result () :=
  poll (ready_condition namespace snapshotName) timeout "the snapshot to become ready to use" rounds "".
End Poll.

(** ** The clone *)

(** A map of quantities, by resource name; a nil map cannot be assigned to. *)
Definition quantities : Type := option (gmap string Z).

Record ClaimSpec : Type := mkClaimSpec {
  spec_AccessModes : list string;
  spec_StorageClass : option string;
  spec_Requests : quantities
}.

(** The claim created, and the requests of the source as they are afterwards: the
    two share one map.  [None] is the panic of an assignment to a nil map. *)
Definition Clone (source : ClaimSpec) (capacity : option Z) : option (ClaimSpec * quantities) :=
  match capacity with
  | Some size =>
      let requested := default 0%Z (m ← spec_Requests source; m !! "storage") in
      if decide (requested < size)%Z then
        requests ← spec_Requests source;
        let requests := <["storage" := size]> requests in
        Some (mkClaimSpec (spec_AccessModes source) (spec_StorageClass source) (Some requests), Some requests)
      else Some (source, spec_Requests source)
  | None => Some (source, spec_Requests source)
  end.

(** ** Deletions *)

Definition tolerant_delete (format : string) (namespace name : string) (deleted : api ()) : result () :=
  match deleted with
  | Found _ | ApiErr NotFound _ => Ok ()
  | ApiErr _ e => Err (Errorf format [AStr namespace; AStr name; AWrap e])
  end.
Definition DeleteSnapshot := tolerant_delete "failed to delete VolumeSnapshot %s/%s: %w".
Definition DeleteClaim := tolerant_delete "failed to delete claim %s/%s: %w".

(** * Theorems *)

(** A round that does not decide the wait. *)
Definition undecided {R} (condition : R -> string -> result bool * string) (r : R) : Prop :=
  forall lastError, (condition r lastError).1 = Ok false.

Lemma poll_undecided is_deadline {R} (condition : R -> string -> result bool * string) timeout what rounds more lastError :
  Forall (undecided condition) rounds ->
  exists lastError',
    poll is_deadline condition timeout what (rounds ++ more) lastError
    = poll is_deadline condition timeout what more lastError'.
Proof.
  intros H. revert lastError. induction H as [|r rounds Hr _ IH]; intros lastError; [by eexists|].
  cbn [app poll]. specialize (Hr lastError). destruct (condition r lastError) as [met le]. cbn in Hr. subst met. apply IH.
Qed.

Lemma poll_Ok is_deadline {R} (condition : R -> string -> result bool * string) timeout what rounds : forall lastError,
  poll is_deadline condition timeout what rounds lastError = Ok () ->
  exists before r after le, rounds = before ++ r :: after /\ (condition r le).1 = Ok true.
Proof.
  induction rounds as [|r rounds IH]; intros lastError H; [done|]. cbn [poll] in H.
  destruct (condition r lastError) as [[[]|e] le] eqn:E.
  - exists [], r, rounds, lastError. by rewrite E.
  - apply IH in H as (before & r' & after & le' & -> & H). exists (r :: before), r', after, le'. done.
  - by destruct (is_deadline e).
Qed.

(** The cut is seen in a round: bound to a content that has a handle. *)
Definition shows_cut (r : cut_round) : Prop :=
  exists status handle, r = (Ok status, Ok handle) /\ boundContent status <> "" /\ handle <> "".
(** Nothing wrong was read in it, and nothing decisive. *)
Definition shows_nothing (r : cut_round) : Prop :=
  exists status, r.1 = Ok status /\ (boundContent status = "" \/ r.2 = Ok "").

(** What the wait for a snapshot's cut waits for.  It ends with success in the
    round in which the snapshot is bound to a content that has a handle - whether
    or not the snapshot is ready to use, and whatever error the controller reported
    before or reports then, since it retries - and in no other way; when the rounds
    are over it fails, with the last error the controller reported, if any. *)
Theorem WaitForCut_waits is_deadline namespace name timeout (before after : list cut_round) r :
  (Forall shows_nothing before -> shows_cut r ->
     WaitForCut is_deadline namespace name timeout (before ++ r :: after) = Ok ()) /\
  (forall rounds, WaitForCut is_deadline namespace name timeout rounds = Ok () ->
     exists before r after handle status, rounds = before ++ r :: after /\ r = (Ok status, Ok handle) /\
       boundContent status <> "" /\ handle <> "") /\
  (Forall shows_nothing before -> exists lastError,
     WaitForCut is_deadline namespace name timeout before = Err (timed_out timeout "the snapshot to be cut" lastError)).
Proof.
  assert (forall l, Forall shows_nothing l -> Forall (undecided (cut_condition namespace name)) l) as Hu.
  { intros l Hl. eapply Forall_impl; [exact Hl|]. intros [[status|e] c] (s & Hs & H) le; [|done]. cbn in Hs. injection Hs as ->.
    unfold cut_condition. cbn in *. destruct (decide (boundContent s = "")); [done|]. destruct H as [|H]; [done|].
    by rewrite H. }
  unfold WaitForCut. split_and!.
  - intros Hb (status & handle & E & Hc & Hh). destruct (poll_undecided is_deadline (cut_condition namespace name)
      timeout "the snapshot to be cut" before (r :: after) "" (Hu _ Hb)) as [le ->].
    cbn [poll]. rewrite E. unfold cut_condition. cbn. rewrite decide_False by done. by rewrite bool_decide_false.
  - intros rounds H. apply poll_Ok in H as (b & r' & a & le & -> & H). unfold cut_condition in H.
    destruct r' as [[status|e] c]; cbn in H; [|done].
    destruct (decide (boundContent status = "")) as [|Hc]; [done|]. destruct c as [handle|e]; cbn in H; [|done].
    injection H as H. apply negb_true_iff, bool_decide_eq_false in H. by exists b, (Ok status, Ok handle), a, handle, status.
  - intros Hb. destruct (poll_undecided is_deadline (R := cut_round) (cut_condition namespace name) timeout
      "the snapshot to be cut" before [] "" (Hu _ Hb)) as [le H]. rewrite app_nil_r in H. rewrite H. by eexists.
Qed.

(** The size of the cloned claim.  It asks for at least what the source asked
    for and at least the source's capacity, keeping everything else; but the map of
    requests is shared, so the source claim held in memory asks for that size too
    from then on, and a source without requests makes the assignment panic. *)
Theorem Clone_size (source clone : ClaimSpec) (capacity : option Z) (after : quantities) :
  Clone source capacity = Some (clone, after) ->
  spec_AccessModes clone = spec_AccessModes source /\ spec_StorageClass clone = spec_StorageClass source /\
  spec_Requests clone = after /\
  (forall size, capacity = Some size -> (0 < size)%Z -> exists m, after = Some m /\
     exists got, m !! "storage" = Some got /\ (size <= got)%Z /\
     forall asked m', spec_Requests source = Some m' -> m' !! "storage" = Some asked -> got = Z.max asked size).
Proof.
  unfold Clone. intros H. destruct capacity as [size|].
  - destruct (decide (default 0 (m ← spec_Requests source; m !! "storage") < size)%Z) as [Hlt|Hge].
    + destruct (spec_Requests source) as [m|] eqn:Em; [|done]. injection H as <- <-. cbn in *. split_and!; try done.
      intros s [= <-] _. eexists. split; [done|]. exists size. rewrite lookup_insert_eq. split_and!; [done|lia|].
      intros asked m' [= <-] Ha. rewrite Ha in Hlt. cbn in Hlt. lia.
    + injection H as <- <-. split_and!; try done. intros s [= <-] Hs.
      destruct (spec_Requests source) as [m|]; [|cbn in Hge; lia]. cbn in Hge.
      destruct (m !! "storage") as [got|] eqn:Eg; [|cbn in Hge; lia]. cbn in Hge.
      eexists. split; [done|]. exists got. split_and!; [done|lia|]. intros asked m' [= <-] Ha.
      rewrite Eg in Ha. injection Ha as <-. lia.
  - injection H as <- <-. by split_and!.
Qed.

(** ** Witnesses *)

Definition quiet_round : cut_round := (Ok (mkStatus (Some "rpc timeout") "" false), Ok "").
Definition cut_seen : cut_round := (Ok (mkStatus (Some "rpc timeout") "content-1" false), Ok "handle-1").

Lemma WaitForCut_waits_witness :
  WaitForCut (fun _ => false) "db" "snap" 1 [quiet_round; cut_seen] = Ok () /\
  (exists lastError, WaitForCut (fun _ => false) "db" "snap" 1 [quiet_round]
                     = Err (timed_out 1 "the snapshot to be cut" lastError)).
Proof.
  destruct (WaitForCut_waits (fun _ => false) "db" "snap" 1 [quiet_round] [] cut_seen) as (H1 & _ & H3).
  assert (Forall shows_nothing [quiet_round]) as Hq.
  { constructor; [|constructor]. exists (mkStatus (Some "rpc timeout") "" false). split; [reflexivity|]. by left. }
  split; [|by apply H3]. apply H1; [exact Hq|].
  exists (mkStatus (Some "rpc timeout") "content-1" false), "handle-1". by repeat split.
Defined.

Lemma Clone_size_witness :
  exists clone after,
    Clone (mkClaimSpec ["ReadWriteOnce"] None (Some {["storage" := 5%Z]})) (Some 8%Z) = Some (clone, after) /\
    spec_Requests clone = after /\ spec_AccessModes clone = ["ReadWriteOnce"].
Proof.
  assert (exists r, Clone (mkClaimSpec ["ReadWriteOnce"] None (Some {["storage" := 5%Z]})) (Some 8%Z) = Some r) as [[clone after] H]
    by (eexists; reflexivity).
  exists clone, after. split; [exact H|].
  destruct (Clone_size _ _ _ _ H) as (H1 & _ & H2 & _). split; [exact H2|exact H1].
Defined.
