(* ===== verification/Waits.v ===== *)
(** * internal/k8s: services and pods waited for

    service.go and pod.go: the conditions of the watches, run over the objects a
    watch delivers, one after the other ([until], client-go's [UntilWithSync] with
    its context's end as the end of the list), and what is read off the object
    that ended one. *)
From S2P Require Import Prelude GoStrings Fmt Workload World Diagnostics.
From stdpp Require Import options.

(** An object of the watch; [None] is one of an unexpected type. *)
Definition watched (A : Type) : Type := list (option A).

Section Until.
Context {A B : Type}.

(** [ended] is what the watch reports when its context ends. *)
Fixpoint until (unexpected ended : error) (condition : A -> result (option B)) (objects : watched A) : result B :=
  match objects with
  | [] => Err ended
  | None :: _ => Err unexpected
  | Some a :: objects =>
      done ← condition a;
      match done with Some b => Ok b | None => until unexpected ended condition objects end
  end.
End Until.

(** ** service.go *)

Record Port : Type := mkPort { port_Name : string; Number : Z; NodePort : Z }.

Record Svc : Type := mkSvc {
  Svc_Name : string;
  Svc_Namespace : string;
  Type_ : string;
  Ingress : list (string * string);    (* IP and hostname *)
  Ports : list Port
}.

Definition TypeClusterIP : string := "ClusterIP".
Definition TypeNodePort : string := "NodePort".
Definition TypeLoadBalancer : string := "LoadBalancer".

Definition address_condition (res : Svc) : result (option string) :=
  if decide (Type_ res = TypeClusterIP) then Ok (Some (Svc_Name res +:+ "." +:+ Svc_Namespace res))
  else match Ingress res with
       | [] => Ok None
       | (ip, hostname) :: _ => Ok (Some (if decide (hostname = "") then ip else hostname))
       end.

Definition GetServiceAddress (ns name : string) (ended : error) (objects : watched Svc) : result string :=
  match until (Errorf "unexpected type while watching service: %s/%s" [AStr ns; AStr name]) ended address_condition objects with
  | Ok address => Ok address
  | Err e => Err (Errorf "failed to get service %s/%s address: %w" [AStr ns; AStr name; AWrap e])
  end.

Definition port_condition (ns name : string) (svc : Svc) : result (option Svc) :=
  if decide (Type_ svc <> TypeNodePort /\ Type_ svc <> TypeLoadBalancer)
  then Err (Errorf "service %s/%s is of type %s and has no node port" [AStr ns; AStr name; AStr (Type_ svc)])
  else Ok (Some svc).

Definition waitForNodePortService (ns name : string) (ended : error) (objects : watched Svc) : result Svc :=
  match until (Errorf "unexpected type while watching service: %s/%s" [AStr ns; AStr name]) ended
          (port_condition ns name) objects with
  | Ok svc => Ok svc
  | Err e => Err (Errorf "failed to get NodePort service %s/%s details: %w" [AStr ns; AStr name; AWrap e])
  end.

Definition is_ssh_port (candidate : Port) : bool :=
  bool_decide (port_Name candidate = "ssh") || bool_decide (Number candidate = 22)%Z.

Definition findNodePort (svc : Svc) : result Z :=
  match Ports svc with
  | [] => Err (ErrNew "service has no ports defined")
  | first :: _ =>
      let port := default first (List.find is_ssh_port (Ports svc)) in
      if decide (NodePort port = 0)%Z
      then Err (Errorf "service %s/%s has no node port allocated" [AStr (Svc_Namespace svc); AStr (Svc_Name svc)])
      else Ok (NodePort port)
  end.

Definition GetNodePort (ns name : string) (ended : error) (objects : watched Svc) : result Z :=
  svc ← waitForNodePortService ns name ended objects;
  findNodePort svc.

(** A node's addresses, with their types. *)
Definition addresses_of : Type := list (string * string).

Definition usable_address (addresses : addresses_of) : option string :=
  first_some (fun addr => if decide (addr.1 = "InternalIP" \/ addr.1 = "ExternalIP") then Some addr.2 else None) addresses.

Definition GetNodeIP (nodeName : string) (node : result addresses_of) : result string :=
  match node with
  | Err e => Err (Errorf "failed to get node %s: %w" [AStr nodeName; AWrap e])
  | Ok addresses =>
      match usable_address addresses with
      | Some address => Ok address
      | None => Err (Errorf "node %s has no usable IP address" [AStr nodeName])
      end
  end.

Definition GetAnyNodeIP (nodes : result (list addresses_of)) : result string :=
  match nodes with
  | Err e => Err (Errorf "failed to list nodes: %w" [AWrap e])
  | Ok nodes =>
      match first_some usable_address nodes with
      | Some address => Ok address
      | None => Err (ErrNew "no node with a usable IP address found")
      end
  end.

(** ** pod.go *)

(** A pod with the conditions it reports as true. *)
Record WatchedPod : Type := mkWatched { the_pod : JobPod; true_conditions : list string }.

Definition podStarted (pod : WatchedPod) : bool := negb (bool_decide (pod_Phase (the_pod pod) = PodPending)).
Definition podReady (pod : WatchedPod) : bool := bool_decide ("Ready" ∈ true_conditions pod).

Definition benignWaitingReasons : list string := ["ContainerCreating"; "PodInitializing"].

Definition waiting_part (status : ContainerStatus) : list string :=
  match cs_Waiting status with
  | None => []
  | Some waiting =>
      if decide (wait_Reason waiting = "" \/ wait_Reason waiting ∈ benignWaitingReasons) then []
      else [cs_Name status +:+ ": " +:+ describeWaiting waiting]
  end.

Definition describePodWaiting (pod : JobPod) : string := Join (ContainerStatuses pod ≫= waiting_part) ", ".

(** The watch with its warnings: [lastWaiting] is the reason said last.  The
    outcome is [None] when the objects are over first. *)
Fixpoint watch_pods (done : WatchedPod -> bool) (lastWaiting : string) (objects : watched WatchedPod)
  : list (string * string) * option (result WatchedPod) :=
  match objects with
  | [] => ([], None)
  | None :: _ => ([], Some (Err (ErrNew "unexpected type while watching pods")))
  | Some res :: objects =>
      let waiting := describePodWaiting (the_pod res) in
      let said := negb (bool_decide (waiting = "")) && negb (bool_decide (waiting = lastWaiting)) in
      let lastWaiting := if said then waiting else lastWaiting in
      let warned := if said then [(pod_Name (the_pod res), waiting)] else [] in
      if done res then (warned, Some (Ok res))
      else let '(more, r) := watch_pods done lastWaiting objects in (warned ++ more, r)
  end.

(** [ended] is the watch's own error when the time is over. *)
Definition waitForPod (labelSelector : string) (timeout : Z) (done : WatchedPod -> bool) (ended : error)
    (objects : watched WatchedPod) : list (string * string) * result WatchedPod :=
  let '(warned, r) := watch_pods done "" objects in
  (warned, match r with
           | Some (Ok pod) => Ok pod
           | Some (Err e) => Err (Errorf "failed to wait for pod: %w" [AWrap e])
           | None => Err (Errorf "timed out after %s waiting for a pod (selector %s): %w"
                            [ADur timeout; AStr labelSelector; AWrap ended])
           end).

Definition podWatchTimeout : Z := 120000000000.
Definition WaitForPod (labelSelector : string) := waitForPod labelSelector podWatchTimeout podStarted.
Definition WaitForPodReady (labelSelector : string) (timeout : Z) := waitForPod labelSelector timeout podReady.

Definition waitForPodTermination (ns name : string) (got : result JobPod) (ended : error) (objects : watched JobPod)
  : result JobPod :=
  match got with
  | Err e => Err (Errorf "failed to get pod: %w" [AWrap e])
  | Ok pod =>
      if decide (pod_Phase pod <> PodRunning) then Ok pod
      else
        match until (Errorf "unexpected type while watching pods: %s/%s" [AStr ns; AStr name]) ended
                (fun res : JobPod => Ok (if decide (pod_Phase res <> PodRunning) then Some res else None)) objects with
        | Ok res => Ok res
        | Err e => Err (Errorf "failed to wait for pod termination: %w" [AWrap e])
        end
  end.

(** * Theorems *)

(** A watch ends in the first object its condition accepts. *)
Lemma until_Ok {A B} unexpected ended (condition : A -> result (option B)) objects b :
  until unexpected ended condition objects = Ok b <->
  exists before a after, objects = (Some <$> before) ++ Some a :: after /\ condition a = Ok (Some b)
    /\ Forall (fun a => condition a = Ok None) before.
Proof.
  induction objects as [|[a|] objects IH]; cbn [until].
  - split; [done|]. intros (before & a & after & H & _). by destruct before.
  - destruct (condition a) as [[b'|]|e] eqn:E; cbn.
    + split.
      * intros [= <-]. exists [], a, objects. done.
      * intros (before & a' & after & H & Hc & Hb). destruct before as [|a0 before]; injection H as <- H.
        -- rewrite E in Hc. by injection Hc as ->.
        -- apply Forall_cons in Hb as [Hb _]. congruence.
    + rewrite IH. split.
      * intros (before & a' & after & -> & Hc & Hb). exists (a :: before), a', after. split_and!; [done..|by constructor].
      * intros (before & a' & after & H & Hc & Hb). destruct before as [|a0 before]; injection H as <- H; [congruence|].
        apply Forall_cons in Hb as [_ Hb]. eauto 6.
    + split; [done|]. intros (before & a' & after & H & Hc & Hb). destruct before as [|a0 before]; injection H as <- H;
        [congruence|]. apply Forall_cons in Hb as [Hb _]. congruence.
  - split; [done|]. intros (before & a & after & H & _). by destruct before.
Qed.

Lemma GetServiceAddress_Ok ns name ended (objects : watched Svc) :
  forall address, GetServiceAddress ns name ended objects = Ok address <->
    exists before svc after, objects = (Some <$> before) ++ Some svc :: after /\
      Forall (fun s => Type_ s <> TypeClusterIP /\ Ingress s = []) before /\
      ((Type_ svc = TypeClusterIP /\ address = Svc_Name svc +:+ "." +:+ Svc_Namespace svc) \/
       (Type_ svc <> TypeClusterIP /\ exists ip hostname rest, Ingress svc = (ip, hostname) :: rest /\
          address = if decide (hostname = "") then ip else hostname)).
Proof.
  intros address. unfold GetServiceAddress.
  set (r := until _ _ _ _). assert (match r with Ok a => Ok a | Err e => Err (Errorf
    "failed to get service %s/%s address: %w" [AStr ns; AStr name; AWrap e]) end = Ok address <-> r = Ok address) as ->
    by (destruct r; split; congruence).
  unfold r. rewrite until_Ok. unfold address_condition. split.
  + intros (before & svc & after & Ho & Hc & Hb). exists before, svc, after. split_and!; [done| |].
    * eapply Forall_impl; [exact Hb|]. intros s Hs. cbn in Hs. destruct (decide (Type_ s = _)); [done|].
      split; [done|]. by destruct (Ingress s) as [|[ip hostname] rest].
    * destruct (decide (Type_ svc = _)) as [|Hn]; [left; split; congruence|right]. split; [done|].
      destruct (Ingress svc) as [|[ip hostname] rest]; [done|]. injection Hc as <-. by exists ip, hostname, rest.
  + intros (before & svc & after & Ho & Hb & Hc). exists before, svc, after. split_and!; [done| |].
    * destruct Hc as [[Ht ->]|[Ht (ip & hostname & rest & Hi & ->)]]; [by rewrite decide_True|].
      rewrite decide_False by done. by rewrite Hi.
    * eapply Forall_impl; [exact Hb|]. intros s [Ht Hi]. cbn. rewrite decide_False by done. by rewrite Hi.
Qed.

Lemma GetNodePort_Ok ns name ended (objects : watched Svc) :
  forall port, GetNodePort ns name ended objects = Ok port <->
    exists svc after, objects = Some svc :: after /\ Type_ svc ∈ [TypeNodePort; TypeLoadBalancer] /\ port <> 0%Z /\
      exists p, p ∈ Ports svc /\ NodePort p = port /\
        (List.find is_ssh_port (Ports svc) = Some p \/
         List.find is_ssh_port (Ports svc) = None /\ head (Ports svc) = Some p).
Proof.
  intros port. unfold GetNodePort. rewrite bind_Ok. unfold waitForNodePortService.
  set (r := until _ _ _ _). assert (forall svc, match r with Ok a => Ok a | Err e => Err (Errorf
    "failed to get NodePort service %s/%s details: %w" [AStr ns; AStr name; AWrap e]) end = Ok svc <-> r = Ok svc) as Hr
    by (intros svc; destruct r; split; congruence).
  assert (forall svc, r = Ok svc <-> exists after, objects = Some svc :: after /\ Type_ svc ∈ [TypeNodePort; TypeLoadBalancer]) as Hu.
  { intros svc. unfold r. rewrite until_Ok. unfold port_condition. split.
    - intros (before & s & after & Ho & Hc & Hb). destruct before as [|s0 before].
      + destruct (decide _) as [|Hn]; [done|]. injection Hc as ->. exists after. split; [done|].
        destruct (decide (Type_ svc = TypeNodePort)) as [->|]; [set_solver|].
        destruct (decide (Type_ svc = TypeLoadBalancer)) as [->|]; [set_solver|]. exfalso. auto.
      + apply Forall_cons in Hb as [Hb _]. cbn in Hb.
        by destruct (decide (Type_ s0 <> TypeNodePort /\ Type_ s0 <> TypeLoadBalancer)).
    - intros (after & Ho & Ht). exists [], svc, after. split_and!; [done| |done].
      rewrite decide_False; [done|]. intros [H1 H2]. set_solver. }
  split.
  + intros (svc & Hs%Hr%Hu & Hf). destruct Hs as (after & Ho & Ht). exists svc, after. split; [done|]. split; [done|].
    unfold findNodePort in Hf. destruct (Ports svc) as [|first rest] eqn:Ep; [done|]. rewrite <- Ep in *.
    destruct (List.find is_ssh_port (Ports svc)) as [p|] eqn:Ef; cbn in Hf.
    * destruct (decide (NodePort p = 0)%Z) as [|Hn]; [done|]. injection Hf as <-. split; [done|].
      exists p. split; [|by auto]. apply List.find_some in Ef as [Hin _]. by apply list_elem_of_In.
    * destruct (decide (NodePort first = 0)%Z) as [|Hn]; [done|]. injection Hf as <-. split; [done|].
      exists first. rewrite Ep. split; [set_solver|]. auto.
  + intros (svc & after & Ho & Ht & Hn & p & Hin & <- & Hp). exists svc. split; [apply Hr, Hu; eauto|].
    unfold findNodePort. destruct (Ports svc) as [|first rest] eqn:Ep; [set_solver|]. rewrite <- Ep in *.
    destruct Hp as [Hp|[Hp Hh]]; rewrite Hp; cbn [default].
    * by rewrite decide_False.
    * rewrite Ep in Hh. injection Hh as ->. by rewrite decide_False.
Qed.

(** The address and the port a service is reached at.  The address is the first
    one the watch shows - the in-cluster name of a ClusterIP service, otherwise the
    first ingress entry, by hostname if it has one - and the node port is that of
    the ssh port, or of the first port when none is, and is never zero; a service of
    another type has no node port to wait for. *)
Theorem service_reached ns name ended (objects : watched Svc) :
  (forall address, GetServiceAddress ns name ended objects = Ok address <->
    exists before svc after, objects = (Some <$> before) ++ Some svc :: after /\
      Forall (fun s => Type_ s <> TypeClusterIP /\ Ingress s = []) before /\
      ((Type_ svc = TypeClusterIP /\ address = Svc_Name svc +:+ "." +:+ Svc_Namespace svc) \/
       (Type_ svc <> TypeClusterIP /\ exists ip hostname rest, Ingress svc = (ip, hostname) :: rest /\
          address = if decide (hostname = "") then ip else hostname))) /\
  (forall port, GetNodePort ns name ended objects = Ok port <->
    exists svc after, objects = Some svc :: after /\ Type_ svc ∈ [TypeNodePort; TypeLoadBalancer] /\ port <> 0%Z /\
      exists p, p ∈ Ports svc /\ NodePort p = port /\
        (List.find is_ssh_port (Ports svc) = Some p \/
         List.find is_ssh_port (Ports svc) = None /\ head (Ports svc) = Some p)).
Proof. split; [apply GetServiceAddress_Ok|apply GetNodePort_Ok]. Qed.

(** What is said of a pod that is slow to start.  Nothing is said while its
    containers report only that they are being created; a reason is said when it
    appears and not again until another one was said; and the wait ends with the
    first pod that meets its condition. *)
Theorem waiting_said (done_ : WatchedPod -> bool) (objects : watched WatchedPod) :
  forall last,
  let '(warned, r) := watch_pods done_ last objects in
  Forall (fun w => w.2 <> "") warned /\
  (forall before a b after, warned = before ++ a :: b :: after -> a.2 <> b.2) /\
  (forall w rest, warned = w :: rest -> w.2 <> last) /\
  (forall pod, r = Some (Ok pod) -> done_ pod = true /\ Some pod ∈ objects).
Proof.
  induction objects as [|[res|] objects IH]; intros last; cbn [watch_pods].
  - split_and!; [constructor|by intros [|? []]|done|done].
  - set (waiting := describePodWaiting (the_pod res)).
    destruct (bool_decide_reflect (waiting = "")) as [Hw|Hw]; cbn [negb andb].
    + specialize (IH last). destruct (done_ res) eqn:Ed.
      * split_and!; [constructor|by intros [|? []]|done|]. intros pod [= <-]. split; [done|set_solver].
      * destruct (watch_pods done_ last objects) as [more r]. destruct IH as (H1 & H2 & H3 & H4). cbn [app].
        split_and!; [done..|]. intros pod Hp. destruct (H4 pod Hp). split; [done|set_solver].
    + destruct (bool_decide_reflect (waiting = last)) as [Hl|Hl]; cbn [negb].
      * specialize (IH last). destruct (done_ res) eqn:Ed.
        -- split_and!; [constructor|by intros [|? []]|done|]. intros pod [= <-]. split; [done|set_solver].
        -- destruct (watch_pods done_ last objects) as [more r]. destruct IH as (H1 & H2 & H3 & H4). cbn [app].
           split_and!; [done..|]. intros pod Hp. destruct (H4 pod Hp). split; [done|set_solver].
      * specialize (IH waiting). destruct (done_ res) eqn:Ed.
        -- split_and!; [by repeat constructor|by intros [|? []]|by intros w rest [= <- _]|].
           intros pod [= <-]. split; [done|set_solver].
        -- destruct (watch_pods done_ waiting objects) as [more r]. destruct IH as (H1 & H2 & H3 & H4). cbn [app].
           split_and!; [by constructor| |by intros w rest [= <- _]|].
           ++ intros [|x before] a b after H; injection H as <- H; [|by eapply H2].
              cbn. intros Hab. by apply (H3 b after H).
           ++ intros pod Hp. destruct (H4 pod Hp). split; [done|set_solver].
  - split_and!; [constructor|by intros [|? []]|done|done].
Qed.

(** ** Witnesses *)

Definition sshd (ports : list Port) : Svc := mkSvc "sshd" "ns" TypeNodePort [] ports.

Example port_of_ssh :
  GetNodePort "ns" "sshd" (ErrNew "timeout") [Some (sshd [mkPort "http" 80 30080; mkPort "ssh" 22 30022])] = Ok 30022%Z.
Proof. reflexivity. Qed.

Example address_of_balancer :
  GetServiceAddress "ns" "lb" (ErrNew "timeout")
    [Some (mkSvc "lb" "ns" TypeLoadBalancer [] []); Some (mkSvc "lb" "ns" TypeLoadBalancer [("1.2.3.4", "")] [])]
  = Ok "1.2.3.4".
Proof. reflexivity. Qed.
