(* ===== verification/Story.v ===== *)
(** * What a run tells

    The lines in which internal/strategy, internal/migrator and
    internal/bucketstorage describe what they did: the claims a pod mounts, how the
    sshd of a release is reached, how an attempt ended.  They are computed from
    what was installed rather than from what was asked for, so they are shown to
    say what the values and objects say.  An [io] program of the components they
    belong to leaves them out. *)
From S2P Require Import Prelude GoStrings Decimal Fmt BucketRequest BucketPlan World Pvc Migration Mover HelmValues Strategy.
From S2P Require Import Migrator Workload Waits.
From stdpp Require Import options.
Local Open Scope Z_scope.

(** ** internal/helm/values.go *)

Section Mounts.
(** How [%v] prints a list or a map. *)
Context (show : World.value -> string).

(** [%v] of a map read. *)
Definition print (v : option World.value) : string :=
  match v with
  | None | Some VNil => "<nil>"
  | Some (VStr s) => s
  | Some (VInt z) => Itoa z
  | Some (VBool b) => if b then "true" else "false"
  | Some v => show v
  end.

Definition mountList (v : option World.value) : list values :=
  match v with
  | Some (VList mounts) => omap (fun mount => match mount with VMap m => Some m | _ => None end) mounts
  | _ => []
  end.

Definition mount_part (mount : values) : string :=
  "mounts " +:+ print (get mount "name") +:+ " at " +:+ print (get mount "mountPath") +:+
  (if is_bool true (get mount "readOnly") then " read-only" else "").

Definition DescribeMounts (section : values) : string := Join (mount_part <$> mountList (get section "pvcMounts")) ", ".

(** ** internal/strategy/strategy.go *)

(** The images of a pod's containers. *)
Definition podImage (images : list string) : string := match images with [] => "unknown" | image :: _ => image end.

Definition narrateConnection (push : bool) (host : string) (port : Z) : string :=
  let verb := if push then "pushes to" else "pulls from" in
  let address := if decide (port = 0) then host else host +:+ ":" +:+ Itoa port in
  "🔗 " +:+ verb +:+ " sshd at " +:+ address.

(** The service as the cluster has it, or that it could not be read. *)
Definition describeService (name clusterIP : string) (svc : result Svc) : option string :=
  match svc with
  | Err _ => None
  | Ok svc =>
      match Ports svc with
      | [] => None
      | port :: _ =>
          let line := "🔌 service " +:+ name +:+ ", type " +:+ Type_ svc +:+ ", cluster address " +:+ clusterIP +:+ ":" +:+
                      Itoa (Number port) in
          let line := if decide (NodePort port = 0) then line else line +:+ ", node port " +:+ Itoa (NodePort port) in
          Some (if decide (Type_ svc = TypeLoadBalancer) then
                  let line := line +:+ ", load balancer address pending" in
                  match Ingress svc with
                  | [] => line
                  | (ip, hostname) :: _ => TrimSuffix line " pending" +:+ " " +:+ (if decide (hostname = "") then ip else hostname)
                  end
                else line)
      end
  end.

Definition describeNetworkPolicy (section : values) (component : string) : option string :=
  if NetworkPolicyOn section
  then Some ("🔒 network policy for the " +:+ component +:+ " pod, so a default-deny namespace does not block it")
  else None.

(** What is told of a release once its sshd, if it has one, is ready: the pod with
    its node and the images of its containers, its service, and the image of the
    rsync Job. *)
Definition release_story (release : string) (vals : values) (pod : string * string * list string) (clusterIP : string)
    (svc : result Svc) (jobImage : string) : list string :=
  let '(podName, nodeName, images) := pod in
  ["📦 created release " +:+ release] ++
  match EnabledComponent vals sshdComponent with
  | Some sshd =>
      ["🏃 sshd pod " +:+ podName +:+ " in namespace " +:+ ComponentNamespace sshd +:+ ", on node " +:+ nodeName +:+
       ", image " +:+ podImage images +:+ ", " +:+ DescribeMounts sshd] ++
      option_list (describeService (release +:+ "-sshd") clusterIP svc) ++ option_list (describeNetworkPolicy sshd "sshd")
  | None => []
  end ++
  match EnabledComponent vals rsyncComponent with
  | Some rsync =>
      ["🚚 rsync job " +:+ release +:+ "-rsync in namespace " +:+ ComponentNamespace rsync +:+ ", image " +:+ jobImage +:+
       ", " +:+ DescribeMounts rsync] ++
      option_list (describeNetworkPolicy rsync "rsync")
  | None => []
  end.

(** ** internal/bucketstorage/bucketstorage.go *)

Definition narrateMoverJob (req : BucketRequest.Request) (releaseName jobImage : string) (rcloneVals : values) : string :=
  "🚚 " +:+ jobSuffix req +:+ " job " +:+ releaseName +:+ "-" +:+ jobSuffix req +:+ " in namespace " +:+
  ComponentNamespace rcloneVals +:+ ", image " +:+ jobImage +:+ ", " +:+ DescribeMounts rcloneVals.
End Mounts.

(** ** internal/migrator/migrator.go *)

Definition describeAttempt (name : string) (push : bool) : string :=
  let description := Describe name push in
  if decide (description <> "") then "🚁 " +:+ name +:+ ": " +:+ description else "🚁 " +:+ name.

Definition describeMigration (mig : Migration) (strategies : list string) : list string :=
  (if DeleteExtraneousFiles (migration_Request mig)
   then ["❕ files missing on the source will be deleted from the destination"] else []) ++
  [match strategies with
   | [s] => "🧭 trying " +:+ s +:+ " only"
   | _ => "🧭 trying " +:+ Join strategies ", " +:+ ", in that order"
   end].

Definition narrateFailedAttempt (attemptErr : error) (last structuredLogs : bool) : log_level * string :=
  match declined_reason attemptErr with
  | Some reason => (INFO, "🦊 does not apply: " +:+ reason)
  | None =>
      if is_unaccepted attemptErr then (INFO, "🦊 does not apply")
      else if last && negb structuredLogs then (WARN, "🔶 failed, see below")
      else (WARN, "🔶 failed: " +:+ Error attemptErr)
  end.

(** What [cleanupAttempt] tells when it leaves the releases. *)
Definition cleanup_skipped (attempt : Attempt) (failed : bool) : option string :=
  let req := migration_Request (Attempt_Migration attempt) in
  if decide (ReleaseNames attempt = []) then None
  else if NoCleanup req || Detached attempt then Some "🧹 cleanup skipped, the resources stay in the cluster"
  else if NoCleanupOnFailure req && failed
  then Some "🧹 cleanup skipped since the migration failed, the resources stay for inspection"
  else None.

(** ** Properties *)

(** What is told of a mount of either claim. *)
Definition source_told (mig : Migration) : string :=
  "mounts " +:+ Name (Claim (SourceInfo mig)) +:+ " at /source" +:+
  (if SourceMountReadWrite (migration_Request mig) then "" else " read-only").
Definition dest_told (mig : Migration) : string := "mounts " +:+ Name (Claim (DestInfo mig)) +:+ " at /dest".

#[local] Arguments mount_part : simpl never.
Lemma mounts_parts show mig ms : Forall (mount_ok mig) ms ->
  Forall (fun part => part ∈ [source_told mig; dest_told mig]) (mount_part show <$> mountList (Some (VList ms))) /\
  length (mountList (Some (VList ms))) = length ms.
Proof.
  cbn [mountList]. induction 1 as [|v ms (m & -> & Hm) _ [IH1 IH2]]; [done|]. cbn. split; [|by f_equal].
  constructor; [|done].
  destruct Hm as [(Hp & Hn & Hr)|(Hp & Hn & Hr)].
  - assert (mount_part show m = source_told mig) as ->; [|by left]. unfold mount_part, source_told, keyReadOnly in *.
    rewrite Hr. change "mountPath" with keyMountPath. change "name" with keyName. rewrite Hp, Hn. by destruct (SourceMountReadWrite _).
  - assert (mount_part show m = dest_told mig) as ->; [|by right; left]. unfold mount_part, dest_told, keyReadOnly in *.
    rewrite Hr. change "mountPath" with keyMountPath. change "name" with keyName. rewrite Hp, Hn. done.
Qed.

(** The mounts a run tells of are those of its values: whatever strategy runs, each
    component of a release is said to mount the source claim at /source, read-only
    unless the request has it otherwise, or the destination claim at /dest, and
    never read-only; nothing is left out. *)
Theorem mounts_told show (s : strategy) (a : Attempt) h n base user x component section :
  ReleaseNames a = [] -> Detached a = false -> Ev (MergeMaps base user) x ∈ (exec h n (Run s a)).1 ->
  EnabledComponent base component = Some section ->
  exists ms parts, get section keyPVCMounts = Some (VList ms) /\ length parts = length ms /\
    DescribeMounts show section = Join parts ", " /\
    Forall (fun part => part ∈ [source_told (Attempt_Migration a); dest_told (Attempt_Migration a)]) parts.
Proof.
  intros Hr Hd Hin Hc. set (mig := Attempt_Migration a).
  assert (fresh a mig) as Ha by (split; [done|]; split; [done|congruence]).
  destruct (wp_exec _ _ _ h n (Run_ok (values_ok mig) mig s a Ha)) as [Hev _].
  rewrite Forall_forall in Hev. specialize (Hev _ Hin). cbn in Hev.
  unfold EnabledComponent in Hc. destruct (as_map (get base component)) as [section'|] eqn:E; [|done].
  destruct (is_bool _ _); [|done]. injection Hc as ->. destruct (Hev component section E) as (ms & Hg & Hms).
  destruct (mounts_parts show mig ms Hms) as [Hp Hl].
  exists ms, (mount_part show <$> mountList (Some (VList ms))). split; [done|]. split; [by rewrite length_fmap|].
  split; [|done]. unfold DescribeMounts. change (get section "pvcMounts") with (get section keyPVCMounts). by rewrite Hg.
Qed.

(** A run says that it leaves its releases exactly when it has some and does. *)
Theorem cleanup_skipped_kept (a : Attempt) (r : result ()) :
  cleanup_skipped a (negb (is_Ok r)) = None <-> ReleaseNames a = [] \/ keeps a r = false.
Proof.
  unfold cleanup_skipped, keeps. destruct (decide (ReleaseNames a = [])) as [->|Hn]; [tauto|].
  destruct (NoCleanup _), (Detached a); cbn; try (split; [done|by intros []]).
  destruct (NoCleanupOnFailure _ && negb (is_Ok r)); split; [done|by intros []|tauto..].
Qed.

(** The address told of a load balancer is the one the strategy connects to. *)
Theorem load_balancer_told name clusterIP svc address :
  Type_ svc = TypeLoadBalancer -> Ports svc <> [] -> address_condition svc = Ok (Some address) ->
  exists line, describeService name clusterIP (Ok svc) = Some (line +:+ ", load balancer address " +:+ address).
Proof.
  intros Ht Hp Ha. unfold describeService. destruct (Ports svc) as [|port ports]; [done|]. rewrite decide_True by done.
  unfold address_condition in Ha. rewrite Ht in Ha. cbn in Ha.
  destruct (Ingress svc) as [|[ip hostname] rest]; [done|]. injection Ha as <-.
  match goal with |- context [if decide (NodePort port = 0) then ?a else ?b] => set (line := if decide (NodePort port = 0) then a else b) end.
  exists line. apply (f_equal Some).
  replace (line +:+ ", load balancer address pending") with ((line +:+ ", load balancer address") +:+ " pending")
    by (by rewrite app_assoc_str).
  unfold TrimSuffix. rewrite (proj2 (CutSuffix_Some _ _ _) eq_refl). cbn [default from_option id]. by rewrite !app_assoc_str.
Qed.
