(* ===== verification/FlushSession.v ===== *)
(** * internal/flush: a client held open in a pod

    session.go: one process exec'd in a database's pod, its stdin a pipe that is
    kept open.  Two threads share the session - the caller's operations, and the
    goroutine that streams the exec and reports its end on a channel of capacity
    one - while the process reads the pipe and prints whenever it likes.  The
    model is an interleaving of atomic steps: [next] runs one of them, [step]
    allows any.  An operation is a sequence of steps; the receives from the
    channel and the sends that put its value back are separate ones, and a select
    is resolved by the label.  The lock around the output buffer makes its uses
    atomic and is not modelled further; neither is [Open]'s setting up. *)
From S2P Require Import Prelude GoStrings Fmt Interleaving.
From stdpp Require Import relations options.
Local Open Scope nat_scope.

(** ** The state *)

(** The goroutine of [Open]: streaming, then closing the reader, then sending. *)
Inductive goroutine : Type := Streaming | StreamReturned (e : option error) | ReaderClosed (e : option error) | Sent (e : option error).

Record Session : Type := mkSession {
  stdin_closed : bool;            (* the writer's end of the pipe *)
  reader_closed : bool;
  in_flight : option string;      (* what a blocked write has left *)
  taken : string;                 (* what the process's stdin got *)
  output : string;
  done : option (option error);   (* the channel's buffer *)
  stream : goroutine;
  cancelled : bool
}.

Definition opened : Session := mkSession false false None "" "" None Streaming false.

Definition set_in_flight (w : option string) (s : Session) : Session :=
  mkSession (stdin_closed s) (reader_closed s) w (taken s) (output s) (done s) (stream s) (cancelled s).
Definition set_done (d : option (option error)) (s : Session) : Session :=
  mkSession (stdin_closed s) (reader_closed s) (in_flight s) (taken s) (output s) d (stream s) (cancelled s).
Definition set_stream (g : goroutine) (s : Session) : Session :=
  mkSession (stdin_closed s) (reader_closed s) (in_flight s) (taken s) (output s) (done s) g (cancelled s).

(** ** The operations *)

Inductive op : Type :=
  | Write (statement : string)
  | WriteSecret (line : string)
  | WaitFor (marker : string) (timeout : Z)
  | Output
  | Close.

Inductive answer : Type := Returned (r : result ()) | Printed (text : string).

(** Where an operation is between its steps. *)
Inductive pc : Type :=
  | Polling                            (* the select before a write *)
  | Sending                            (* in the pipe's write *)
  | Checking                           (* about to look at the output *)
  | Selecting                          (* the select of [WaitFor] *)
  | Closing                            (* about to close stdin *)
  | Receiving                          (* [<-s.done] in [Close] *)
  | PuttingBack (e : option error)     (* [s.done <- err] *)
  | Cancelling (e : option error).     (* [s.cancel()] *)

Definition entry (o : op) : pc :=
  match o with
  | Write _ | WriteSecret _ => Polling
  | WaitFor _ _ | Output => Checking
  | Close => Closing
  end.

(** What is written: the statement or the secret, and a newline. *)
Definition line_of (o : op) : string :=
  match o with Write statement => statement +:+ nl | WriteSecret line => line +:+ nl | _ => "" end.

(** What the select of [WaitFor] finds ready. *)
Inductive ready : Type := CtxDone (e : error) | Deadline | DoneReady | Tick.

Definition errSessionEnded : error := ErrNew "session ended".
Definition ErrClosedPipe : error := ErrNew "io: read/write on closed pipe".

Section Operations.
(** The exit status a [CodeExitError] in the unwrap tree of an error carries. *)
Context (CodeExit : error -> option Z).

Definition exitError (err : option error) : option error :=
  match err with
  | None => None
  | Some e =>
      match CodeExit e with
      | Some code => Some (Errorf "client exited with code %d" [AInt code])
      | None => Some e
      end
  end.

(** [%w] of an error that may be nil. *)
Definition wrap_nil (err : option error) : fmt_arg :=
  match err with Some e => AWrap e | None => AStr "%!w(<nil>)" end.

(** What an operation answers that found the process at its end. *)
Definition ended (o : op) (e : option error) (printed : string) : result () :=
  match o with
  | Write statement => Err (Errorf "session ended before %q could be sent: %w" [AStr statement; wrap_nil (exitError e)])
  | WriteSecret _ => Err (Errorf "session ended before the credentials could be sent: %w" [wrap_nil (exitError e)])
  | WaitFor marker _ =>
      Err (Errorf "session ended before %q appeared: %w; output: %s" [AStr marker; wrap_nil (exitError e); AStr printed])
  | Output | Close => match exitError e with Some e => Err e | None => Ok () end
  end.

(** What a write answers whose pipe failed. *)
Definition unsent (o : op) (e : error) : result () :=
  match o with
  | Write statement => Err (Errorf "failed to send %q to the session: %w" [AStr statement; AWrap e])
  | _ => Err (ErrNew "failed to send the credentials to the session")
  end.

Definition timed_out (o : op) (printed : string) : result () :=
  match o with
  | WaitFor marker timeout =>
      Err (Errorf "timed out after %s waiting for %q; output so far: %s" [ADur timeout; AStr marker; AStr printed])
  | _ => Ok ()
  end.

(** One step of an operation: where it goes on, or what it answers; [None] when it
    is blocked. *)
Definition run (r : ready) (s : Session) (o : op) (p : pc) : option (Session * (pc + answer)) :=
  let printed := TrimSpace (output s) in
  match p with
  | Polling =>
      match done s with
      | Some e => Some (set_done None s, inl (PuttingBack e))
      | None => Some (set_in_flight (Some (line_of o)) s, inl Sending)
      end
  | Sending =>
      match in_flight s with
      | Some w =>
          if decide (w = "") then Some (set_in_flight None s, inr (Returned (Ok ())))
          else if stdin_closed s then Some (set_in_flight None s, inr (Returned (unsent o ErrClosedPipe)))
          else if reader_closed s then Some (set_in_flight None s, inr (Returned (unsent o errSessionEnded)))
          else None
      | None => None
      end
  | Checking =>
      match o with
      | WaitFor marker _ =>
          if Contains (output s) marker then Some (s, inr (Returned (Ok ()))) else Some (s, inl Selecting)
      | _ => Some (s, inr (Printed printed))
      end
  | Selecting =>
      match r with
      | CtxDone e => Some (s, inr (Returned (Err e)))
      | Deadline => Some (s, inr (Returned (timed_out o printed)))
      | DoneReady =>
          match done s with
          | Some e => Some (set_done None s, inl (PuttingBack e))
          | None => None
          end
      | Tick => Some (s, inl Checking)
      end
  | Closing =>
      Some (mkSession true (reader_closed s) (in_flight s) (taken s) (output s) (done s) (stream s) (cancelled s), inl Receiving)
  | Receiving =>
      match done s with
      | Some e => Some (set_done None s, inl (PuttingBack e))
      | None => None
      end
  | PuttingBack e =>
      match done s with
      | Some _ => None
      | None =>
          Some (set_done (Some e) s,
                match o with Close => inl (Cancelling e) | _ => inr (Returned (ended o e printed)) end)
      end
  | Cancelling e =>
      Some (mkSession (stdin_closed s) (reader_closed s) (in_flight s) (taken s) (output s) (done s) (stream s) true,
            inr (Returned (ended o e printed)))
  end.

(** ** The other side *)

(** The process takes bytes off the pipe and prints, the exec ends; then the
    goroutine closes the reader and sends the end. *)
Inductive event : Type := Take (bytes : string) | Print (text : string) | Return (e : option error) | CloseReader | Send.

Definition happen (ev : event) (s : Session) : option Session :=
  match ev with
  | Take bytes =>
      match in_flight s with
      | Some w =>
          match CutPrefix w bytes with
          | Some rest =>
              if stdin_closed s || reader_closed s then None
              else Some (mkSession false false (Some rest) (taken s +:+ bytes) (output s) (done s) (stream s) (cancelled s))
          | None => None
          end
      | None => None
      end
  | Print text =>
      Some (mkSession (stdin_closed s) (reader_closed s) (in_flight s) (taken s) (output s +:+ text) (done s) (stream s) (cancelled s))
  | Return e => match stream s with Streaming => Some (set_stream (StreamReturned e) s) | _ => None end
  | CloseReader =>
      match stream s with
      | StreamReturned e =>
          Some (mkSession (stdin_closed s) true (in_flight s) (taken s) (output s) (done s) (ReaderClosed e) (cancelled s))
      | _ => None
      end
  | Send =>
      match stream s, done s with
      | ReaderClosed e, None => Some (set_stream (Sent e) (set_done (Some e) s))
      | _, _ => None
      end
  end.

(** ** Both together *)

Record config : Type := mkConfig {
  sess : Session;
  busy : option (op * pc);
  answers : list (op * answer)      (* what the operations answered, in order *)
}.

Definition start : config := mkConfig opened None [].

Inductive label : Type := Call (o : op) | Run (r : ready) | Happens (ev : event).

Definition next (l : label) (c : config) : option config :=
  match l, busy c with
  | Call o, None => Some (mkConfig (sess c) (Some (o, entry o)) (answers c))
  | Call _, Some _ => None
  | Run r, Some (o, p) =>
      match run r (sess c) o p with
      | Some (s, inl p) => Some (mkConfig s (Some (o, p)) (answers c))
      | Some (s, inr a) => Some (mkConfig s None (answers c ++ [(o, a)]))
      | None => None
      end
  | Run _, None => None
  | Happens ev, _ =>
      match happen ev (sess c) with
      | Some s => Some (mkConfig s (busy c) (answers c))
      | None => None
      end
  end.

(** ** Specification *)

Definition is_write (o : op) : bool := match o with Write _ | WriteSecret _ => true | _ => false end.

(** The value of the channel, while an operation holds it. *)
Definition held (c : config) : option (option error) :=
  match busy c with Some (_, PuttingBack e) => Some e | _ => None end.

(** The channel holds what it should: nothing before the goroutine sends, and from
    then on the end it sent - in its buffer or in the hands of an operation about
    to put it back, never both and never neither. *)
Definition one_value (c : config) : Prop :=
  match stream (sess c) with
  | Sent e => (done (sess c) = Some e /\ held c = None) \/ (done (sess c) = None /\ held c = Some e)
  | _ => done (sess c) = None /\ held c = None
  end.

(** Every operation is at a place of its own. *)
Definition placed (c : config) : Prop :=
  match busy c with
  | Some (o, (Polling | Sending)) => is_write o = true
  | Some (o, Checking) => o = Output \/ exists marker timeout, o = WaitFor marker timeout
  | Some (o, Selecting) => exists marker timeout, o = WaitFor marker timeout
  | Some (o, (Closing | Receiving)) => o = Close
  | Some (o, PuttingBack e) => stream (sess c) = Sent e /\ o <> Output
  | Some (o, Cancelling e) => stream (sess c) = Sent e /\ o = Close
  | None => True
  end.

(** What an answer tells about the session it was given by. *)
Definition true_of (s : Session) (oa : op * answer) : Prop :=
  match oa with
  | (o, Printed text) => o = Output /\ exists before after, output s = before +:+ after /\ text = TrimSpace before
  | (o, Returned r) =>
      (exists marker timeout, o = WaitFor marker timeout /\ (r = Ok () /\ Contains (output s) marker = true)) \/
      (exists marker timeout e, o = WaitFor marker timeout /\ r = Err e) \/
      (exists e, o = Close /\ stream s = Sent e /\ r = match exitError e with Some e => Err e | None => Ok () end) \/
      (is_write o = true /\
       (r = Ok () \/ (exists e printed, stream s = Sent e /\ r = ended o e printed) \/
        r = unsent o ErrClosedPipe \/ (reader_closed s = true /\ r = unsent o errSessionEnded)))
  end.

(** The text of the lines whose writing succeeded. *)
Fixpoint delivered (l : list (op * answer)) : string :=
  match l with
  | [] => ""
  | (o, Returned (Ok _)) :: l => line_of o +:+ delivered l
  | _ :: l => delivered l
  end.

(** An operation that tried to write and did not, or not yet. *)
Definition unfinished (c : config) (o : op) : Prop :=
  (exists e, (o, Returned (Err e)) ∈ answers c) \/ exists p, busy c = Some (o, p).

(** What the process got beyond the delivered lines: the beginning of one line
    that was not, and nothing while the pipe is open and nobody is writing. *)
Definition piped (c : config) : Prop :=
  exists part, taken (sess c) = delivered (answers c) +:+ part /\
  (reader_closed (sess c) = false -> stdin_closed (sess c) = false ->
     match busy c with Some (_, Sending) => True | _ => part = "" end) /\
  (part = "" \/ exists o rest, unfinished c o /\ line_of o = part +:+ rest) /\
  match busy c, in_flight (sess c) with
  | Some (o, Sending), Some w => line_of o = part +:+ w \/
      ((reader_closed (sess c) = true \/ stdin_closed (sess c) = true) /\ line_of o = w)
  | Some (_, Sending), None => False
  | _, w => w = None
  end.

Definition reader_follows (c : config) : Prop :=
  reader_closed (sess c) = match stream (sess c) with ReaderClosed _ | Sent _ => true | _ => false end.

Definition good (c : config) : Prop :=
  one_value c /\ placed c /\ Forall (true_of (sess c)) (answers c) /\ piped c /\ reader_follows c.

(** ** Lemmas *)

(** What no step takes back. *)
Definition grows (s s' : Session) : Prop :=
  (exists more, output s' = output s +:+ more) /\ (forall e, stream s = Sent e -> stream s' = Sent e) /\
  (reader_closed s = true -> reader_closed s' = true).

Lemma grows_same s s' : output s' = output s -> stream s' = stream s -> reader_closed s' = reader_closed s -> grows s s'.
Proof. intros E1 E2 E3. split_and!; [exists ""; by rewrite app_nil_r_str|congruence|congruence]. Qed.

Lemma run_grows r s o p s' q : run r s o p = Some (s', q) -> grows s s'.
Proof.
  intros H. destruct p; cbn in H;
    repeat match type of H with context[match ?x with _ => _ end] => destruct x eqn:?; try done end;
    injection H as <- <-; by apply grows_same.
Qed.

Lemma happen_grows ev s s' : happen ev s = Some s' -> grows s s'.
Proof.
  intros H. destruct ev; cbn in H;
    repeat match type of H with context[match ?x with _ => _ end] => destruct x eqn:?; try done end;
    injection H as <-; try (by apply grows_same).
  - apply orb_false_iff in Heqb as []. apply grows_same; cbn; congruence.
  - split_and!; cbn; eauto.
  - split_and!; cbn; [exists ""; by rewrite app_nil_r_str|congruence|done].
  - split_and!; cbn; [exists ""; by rewrite app_nil_r_str|congruence|done].
  - split_and!; cbn; [exists ""; by rewrite app_nil_r_str|congruence|done].
Qed.

Lemma Contains_grows s more m : Contains s m = true -> Contains (s +:+ more) m = true.
Proof.
  rewrite !Contains_spec. intros (b & r & ->). exists b, (r +:+ more). by rewrite !app_assoc_str.
Qed.

Lemma true_of_grows s s' oa : grows s s' -> true_of s oa -> true_of s' oa.
Proof.
  intros ((more & Ho) & Hs & Hr) H. destruct oa as [o [r|text]]; cbn in *.
  - destruct H as [(m & t & -> & -> & H)|[(m & t & e & H)|[(e & -> & H & ->)|[Hw H]]]].
    + left. exists m, t. split_and!; [done..|]. rewrite Ho. by apply Contains_grows.
    + right. left. eauto.
    + right. right. left. eauto.
    + do 3 right. split; [done|]. destruct H as [->|[(e & p & He & ->)|[->|[H ->]]]]; eauto 8.
  - destruct H as (-> & b & a & H & ->). split; [done|]. exists b, (a +:+ more). by rewrite Ho, H, app_assoc_str.
Qed.

Lemma run_true r s o p s' a :
  run r s o p = Some (s', inr a) ->
  (forall e, p = Cancelling e -> stream s = Sent e /\ o = Close) ->
  (forall e, p = PuttingBack e -> stream s = Sent e /\ o <> Output) ->
  (p = Checking -> o = Output \/ exists marker timeout, o = WaitFor marker timeout) ->
  (p = Selecting -> exists marker timeout, o = WaitFor marker timeout) ->
  (p = Sending -> is_write o = true) ->
  true_of s' (o, a).
Proof.
  intros H Hc Hb Hk Hs Hw. destruct p; cbn in H; try (by destruct (done s)); try done.
  - destruct (in_flight s) as [w|]; [|done]. specialize (Hw eq_refl).
    destruct (decide (w = "")); [|destruct (stdin_closed s); [|destruct (reader_closed s) eqn:Er; [|done]]];
      injection H as <- <-; cbn; do 3 right; (split; [done|]); auto.
  - destruct (Hk eq_refl) as [->|(m & t & ->)].
    + injection H as <- <-. cbn. split; [done|]. exists (output s), "". by rewrite app_nil_r_str.
    + destruct (Contains (output s) m) eqn:E; [|done]. injection H as <- <-. cbn. left. eauto.
  - destruct (Hs eq_refl) as (m & t & ->). destruct r; cbn in H; try done.
    + injection H as <- <-. cbn. right. left. eauto.
    + injection H as <- <-. cbn. right. left. eauto.
    + by destruct (done s).
  - destruct (Hb e eq_refl) as [Es Hn]. destruct (done s); [done|].
    destruct o; try done; injection H as <- <-; cbn.
    + do 3 right. split; [done|]. right. left. exists e. eauto.
    + do 3 right. split; [done|]. right. left. exists e, "". eauto.
    + right. left. eauto.
  - destruct (Hc e eq_refl) as [Es ->]. injection H as <- <-. cbn. right. right. left. eauto.
Qed.

Lemma line_of_nonempty o : is_write o = true -> line_of o <> "".
Proof. by destruct o as [[]|[]| | |]. Qed.

Lemma line_of_other o : is_write o = false -> line_of o = "".
Proof. by destruct o. Qed.

Lemma delivered_snoc l o a :
  delivered (l ++ [(o, a)]) = delivered l +:+ match a with Returned (Ok _) => line_of o | _ => "" end.
Proof.
  induction l as [|[o' [[]|]] l IH]; cbn; [|by rewrite IH, app_assoc_str|done..].
  destruct a as [[]|]; by rewrite ?app_nil_r_str.
Qed.

Lemma unfinished_answered s s' o p l oa a :
  unfinished (mkConfig s (Some (o, p)) l) oa ->
  unfinished (mkConfig s' None (l ++ [(o, a)])) oa \/ (oa = o /\ forall e, a <> Returned (Err e)).
Proof.
  intros [[e H]|[q [= <- <-]]]; cbn in *.
  - left. left. exists e. apply elem_of_app. by left.
  - destruct a as [[u|e]|]; [by right|left|by right]. left. exists e. cbn. apply elem_of_app. right. by apply list_elem_of_singleton.
Qed.

(** The cases of one step of either side. *)
Ltac step_cases H :=
  cbn in H; try done;
  repeat match type of H with context[match ?x with _ => _ end] => destruct x eqn:?; cbn in H; try done end;
  first [injection H as <- <- | injection H as <- | idtac]; cbn in *.

Lemma one_value_next l c c' : next l c = Some c' -> placed c -> one_value c -> one_value c'.
Proof.
  destruct c as [s b l0]. unfold one_value, placed, held. intros H Hp H1. destruct l as [o|r|ev].
  - cbn in H. destruct b; [done|]. injection H as <-. cbn in *. by destruct o.
  - cbn in H. destruct b as [[o p]|]; [|done]. destruct (run r s o p) as [[s' [q|a]]|] eqn:E; [| |done];
      injection H as <-; cbn in *; destruct p; step_cases E; simplify_eq; destruct (stream s) eqn:?; naive_solver.
  - cbn in H. destruct (happen ev s) as [s'|] eqn:E; [|done]. injection H as <-. cbn in *.
    destruct ev; step_cases E; naive_solver.
Qed.

Lemma placed_next l c c' : next l c = Some c' -> one_value c -> placed c -> placed c'.
Proof.
  destruct c as [s b l0]. unfold one_value, placed, held. intros H H1 Hp. destruct l as [o|r|ev].
  - cbn in H. destruct b; [done|]. injection H as <-. cbn in *. destruct o; cbn; eauto.
  - cbn in H. destruct b as [[o p]|]; [|done]. destruct (run r s o p) as [[s' [q|a]]|] eqn:E; [| |done];
      injection H as <-; cbn in *; [|done]. destruct p; step_cases E; simplify_eq; try done;
      destruct (stream s) eqn:?; naive_solver.
  - cbn in H. destruct (happen ev s) as [s'|] eqn:E; [|done]. injection H as <-. cbn in *.
    apply happen_grows in E as (_ & E & _).
    destruct b as [[o []]|]; try done; destruct Hp as [Hp ?]; eauto.
Qed.

Lemma true_next l c c' :
  next l c = Some c' -> placed c -> Forall (true_of (sess c)) (answers c) -> Forall (true_of (sess c')) (answers c').
Proof.
  destruct c as [s b l0]. intros H Hp Hf. destruct l as [o|r|ev]; cbn in H.
  - destruct b; [done|]. by injection H as <-.
  - destruct b as [[o p]|]; [|done]. destruct (run r s o p) as [[s' [q|a]]|] eqn:E; [| |done]; injection H as <-; cbn in *.
    + eapply Forall_impl; [exact Hf|]. intros oa. apply true_of_grows. by eapply run_grows.
    + apply Forall_app. split.
      * eapply Forall_impl; [exact Hf|]. intros oa. apply true_of_grows. by eapply run_grows.
      * constructor; [|constructor]. eapply run_true; [exact E|intros; subst p; cbn in Hp; naive_solver..].
  - destruct (happen ev s) as [s'|] eqn:E; [|done]. injection H as <-. cbn in *.
    eapply Forall_impl; [exact Hf|]. intros oa. apply true_of_grows. by eapply happen_grows.
Qed.

Lemma reader_next l c c' : next l c = Some c' -> reader_follows c -> reader_follows c'.
Proof.
  destruct c as [s b l0]. unfold reader_follows. intros H Hr. destruct l as [o|r|ev].
  - cbn in H. destruct b; [done|]. by injection H as <-.
  - cbn in H. destruct b as [[o p]|]; [|done]. destruct (run r s o p) as [[s' [q|a]]|] eqn:E; [| |done];
      injection H as <-; cbn in *; destruct p; step_cases E; (done || congruence).
  - cbn in H. destruct (happen ev s) as [s'|] eqn:E; [|done]. injection H as <-. cbn in *.
    destruct ev; step_cases E; simplify_eq; try done. apply orb_false_iff in Heqb0 as [_ Hf]. congruence.
Qed.

Lemma unfinished_moves s s' o p q l oa :
  unfinished (mkConfig s (Some (o, p)) l) oa -> unfinished (mkConfig s' (Some (o, q)) l) oa.
Proof. intros [H|[? [= <- _]]]; [by left|right; cbn; eauto]. Qed.

(** A step of an operation that is not in the pipe's write leaves the pipe alone. *)
Lemma run_quiet r s o p s' q :
  run r s o p = Some (s', q) -> p <> Sending ->
  taken s' = taken s /\ reader_closed s' = reader_closed s /\ (stdin_closed s' = false -> stdin_closed s = false) /\
  match q with
  | inl Sending => p = Polling /\ in_flight s' = Some (line_of o)
  | _ => in_flight s' = in_flight s
  end.
Proof. intros H Hp. destruct p; try done; step_cases H; split_and!; done. Qed.

Lemma piped_moves r s o p s' q l :
  run r s o p = Some (s', inl q) -> piped (mkConfig s (Some (o, p)) l) -> piped (mkConfig s' (Some (o, q)) l).
Proof.
  intros E (part & Ht & Hop & Hpart & Hb). cbn in *.
  assert (p <> Sending) as Hn. { intros ->. step_cases E. }
  destruct (run_quiet _ _ _ _ _ _ E Hn) as (E1 & E2 & E3 & E4). exists part. cbn. rewrite E1, E2.
  assert (part = "" \/ exists o' rest, unfinished (mkConfig s' (Some (o, q)) l) o' /\ line_of o' = part +:+ rest) as Hp'.
  { destruct Hpart as [|(o' & rest & Hu & Hl)]; [by left|right]. exists o', rest. split; [|done]. by eapply unfinished_moves. }
  assert (reader_closed s = false -> stdin_closed s' = false -> part = "") as Hop'.
  { intros Hr Hs. specialize (Hop Hr (E3 Hs)). by destruct p. }
  split_and!; [done| |done|].
  - intros Hr Hs. by destruct q; auto.
  - destruct q; try (rewrite E4; by destruct p). destruct E4 as [-> ->].
    destruct (reader_closed s); [right; auto|]. destruct (stdin_closed s'); [right; auto|]. left. by rewrite Hop'.
Qed.

Lemma piped_answers r s o p s' a l :
  run r s o p = Some (s', inr a) -> placed (mkConfig s (Some (o, p)) l) ->
  piped (mkConfig s (Some (o, p)) l) -> piped (mkConfig s' None (l ++ [(o, a)])).
Proof.
  intros E Hpl (part & Ht & Hop & Hpart & Hb). unfold piped. cbn in *. rewrite delivered_snoc.
  assert (p = Sending \/ p <> Sending) as [->|Hn] by (destruct p; auto).
  - destruct (in_flight s) as [w|] eqn:Ew; [|done]. cbn in E. rewrite Ew in E.
    destruct (decide (w = "")) as [->|Hw].
    + injection E as <- <-. exists "". cbn. split_and!; [|auto|auto|done].
      rewrite app_nil_r_str in *. destruct Hb as [Hb|[_ Hb]]; [by rewrite Ht, Hb|].
      by apply line_of_nonempty in Hpl.
    + exists part. assert (exists e, a = Returned (Err e) /\ (stdin_closed s' = true \/ reader_closed s' = true) /\
        taken s' = taken s /\ in_flight s' = None) as (e & -> & Hc & -> & ->).
      { step_cases E; try done; destruct o; cbn; eauto 6. }
      rewrite app_nil_r_str. split_and!; [done| | |done].
      * destruct Hc; congruence.
      * destruct Hpart as [|(o' & rest & Hu & Hl)]; [by left|right]. exists o', rest. split; [|done].
        destruct (unfinished_answered _ s' _ _ _ _ (Returned (Err e)) Hu) as [|[_ Hne]]; [done|by destruct (Hne e)].
  - destruct (run_quiet _ _ _ _ _ _ E Hn) as (E1 & E2 & E3 & E4). exists part. rewrite E1, E2, E4.
    assert (match a with Returned (Ok _) => line_of o | _ => "" end = "") as ->.
    { destruct a as [[u|e]|]; try done. apply line_of_other. destruct p; cbn in Hpl; step_cases E; simplify_eq; try done; naive_solver. }
    rewrite app_nil_r_str. split_and!; [done| | |by destruct p].
    + intros Hr Hs. specialize (Hop Hr (E3 Hs)). by destruct p.
    + destruct Hpart as [|(o' & rest & Hu & Hl)]; [by left|].
      destruct (unfinished_answered _ s' _ _ _ _ a Hu) as [Hu'|[-> Hne]]; [by right; exists o', rest|].
      left. assert (is_write o = false) as Hw.
      { destruct p; cbn in Hpl; step_cases E; simplify_eq; try done; naive_solver. }
      rewrite line_of_other in Hl by done. by destruct part.
Qed.

Lemma piped_happens ev s s' b l :
  happen ev s = Some s' -> piped (mkConfig s b l) -> piped (mkConfig s' b l).
Proof.
  intros E (part & Ht & Hop & Hpart & Hb). cbn in *.
  assert ((taken s' = taken s /\ in_flight s' = in_flight s /\ stdin_closed s' = stdin_closed s /\
          (reader_closed s = true -> reader_closed s' = true)) \/
          exists bytes w rest, stdin_closed s = false /\ reader_closed s = false /\ stdin_closed s' = false /\
            in_flight s = Some w /\ w = bytes +:+ rest /\
            in_flight s' = Some rest /\ taken s' = taken s +:+ bytes) as [(E1 & E2 & E3 & E4)|Ht'].
  { destruct ev; step_cases E; simplify_eq; try (left; done). right. apply orb_false_iff in Heqb0 as [].
    apply CutPrefix_Some in Heqo0. eauto 15. }
  - exists part. cbn. rewrite E1, E2, E3. split_and!; [done| |done|].
    + intros Hr Hs. apply Hop; [|done]. destruct (reader_closed s); [by rewrite E4 in Hr|done].
    + destruct b as [[o []]|]; try done. destruct (in_flight s); [|done]. naive_solver.
  - destruct Ht' as (bytes & w & rest & Hs & Hr & Hs' & Ew & -> & Er & Et). rewrite Ew in Hb.
    destruct b as [[o []]|]; try done. destruct Hb as [Hb|[[?|?] _]]; [|congruence..].
    exists (part +:+ bytes). cbn. rewrite Et, Er, Ht. split_and!; [by rewrite app_assoc_str|done| |].
    + right. exists o, rest. split; [right; cbn; eauto|]. by rewrite Hb, app_assoc_str.
    + left. by rewrite Hb, app_assoc_str.
Qed.

Lemma piped_next l c c' : next l c = Some c' -> placed c -> piped c -> piped c'.
Proof.
  destruct c as [s b l0]. intros H Hp Hpi. destruct l as [o|r|ev]; cbn in H.
  - destruct b; [done|]. injection H as <-. destruct Hpi as (part & Ht & Hop & Hpart & Hb). exists part. cbn in *.
    split_and!; [done| | |].
    + intros Hr Hs. destruct o; cbn; auto.
    + destruct Hpart as [|(o' & rest & [[e He]|[p He]] & Hl)]; [by left| |done]. right. exists o', rest. split; [|done]. left. eauto.
    + destruct o; cbn; done.
  - destruct b as [[o p]|]; [|done]. destruct (run r s o p) as [[s' [q|a]]|] eqn:E; [| |done]; injection H as <-.
    + by eapply piped_moves.
    + by eapply piped_answers.
  - destruct (happen ev s) as [s'|] eqn:E; [|done]. injection H as <-. by eapply piped_happens.
Qed.

Lemma good_start : good start.
Proof. split_and!; [done..|by constructor| |done]. exists "". cbn. split_and!; auto. Qed.

Lemma good_next l c c' : good c -> next l c = Some c' -> good c'.
Proof.
  intros (H1 & H2 & H3 & H4 & H5) H. split_and!.
  - by eapply one_value_next.
  - by eapply placed_next.
  - by eapply true_next.
  - by eapply piped_next.
  - by eapply reader_next.
Qed.

Lemma session_good c : rtc (step next) start c -> good c.
Proof. apply reachable_keep; [apply good_start|exact good_next]. Qed.

(** ** Ending *)

(** A step of one of the two threads that leads on: not another round of waiting,
    another operation, or something the process does. *)
Definition own (l : label) : bool :=
  match l with Run Tick => false | Run _ | Happens CloseReader | Happens Send => true | _ => false end.

Definition steps_left (c : config) : nat :=
  match stream (sess c) with Streaming => 3 | StreamReturned _ => 2 | ReaderClosed _ => 1 | Sent _ => 0 end +
  match busy c with
  | None => 0
  | Some (_, p) =>
      match p with
      | Polling => 5 | Checking | Closing => 4 | Selecting | Receiving => 3 | PuttingBack _ => 2 | Sending | Cancelling _ => 1
      end
  end.

Lemma own_steps l c c' : own l = true -> next l c = Some c' -> steps_left c' < steps_left c.
Proof.
  intros Ho H. destruct c as [s b l0]. unfold steps_left. destruct l as [o|r|ev]; [done| |].
  - cbn in H. destruct b as [[o p]|]; [|done].
    destruct (run r s o p) as [[s' [q|a]]|] eqn:E; [| |done]; injection H as <-; cbn;
      destruct p; step_cases E; simplify_eq; cbn; try lia; try done.
  - cbn in H. destruct (happen ev s) as [s'|] eqn:E; [|done]. injection H as <-. cbn.
    destruct ev; try done; cbn in E; destruct (stream s); try done.
    + injection E as <-. cbn. lia.
    + destruct (done s); [done|]. injection E as <-. cbn. lia.
Qed.

Lemma own_ended l c c' : next l c = Some c' -> stream (sess c) <> Streaming -> stream (sess c') <> Streaming.
Proof.
  intros H Hs. destruct c as [s b l0]. destruct l as [o|r|ev]; cbn in H.
  - destruct b; [done|]. by injection H as <-.
  - destruct b as [[o p]|]; [|done]. destruct (run r s o p) as [[s' [q|a]]|] eqn:E; [| |done];
      injection H as <-; cbn in *; destruct p; step_cases E; done.
  - destruct (happen ev s) as [s'|] eqn:E; [|done]. injection H as <-. cbn in *.
    destruct ev; step_cases E; simplify_eq; done.
Qed.

(** Once the exec has ended nothing that is under way is stuck. *)
Lemma own_enabled c :
  good c -> stream (sess c) <> Streaming -> busy c <> None -> exists l c', own l = true /\ next l c = Some c'.
Proof.
  intros (H1 & H2 & _ & (part & _ & _ & _ & H4) & H5) Hs Hb. destruct c as [s [[o p]|] l]; [|done].
  unfold one_value, reader_follows, held in *. cbn in *.
  assert (forall q, run Deadline s o p = Some q ->
    exists l0 c', own l0 = true /\ next l0 (mkConfig s (Some (o, p)) l) = Some c') as Hrun.
  { intros [s' [q|a]] E; exists (Run Deadline); cbn; rewrite E; eauto. }
  assert (forall e, stream s = StreamReturned e ->
    exists l0 c', own l0 = true /\ next l0 (mkConfig s (Some (o, p)) l) = Some c') as Hclose.
  { intros e E. exists (Happens CloseReader). cbn. rewrite E. eauto. }
  destruct p; cbn in Hrun.
  - destruct (done s); by eapply Hrun.
  - destruct (in_flight s) as [w|]; [|done]. destruct (decide (w = "")); [by eapply Hrun|].
    destruct (stdin_closed s); [by eapply Hrun|]. destruct (reader_closed s); [by eapply Hrun|].
    destruct (stream s); try done. by eapply Hclose.
  - destruct o; try (by eapply Hrun). destruct (Contains _ _); by eapply Hrun.
  - by eapply Hrun.
  - by eapply Hrun.
  - destruct (done s) as [e|] eqn:Ed; [by eapply Hrun|].
    destruct (stream s) eqn:Es; try done; [by eapply Hclose| |by destruct H1 as [[]|[]]].
    exists (Happens Send). cbn. rewrite Es, Ed. eauto.
  - destruct (done s) eqn:Ed; [|by eapply Hrun]. destruct H2 as [Es _]. rewrite Es in H1. naive_solver.
  - by eapply Hrun.
Qed.

End Operations.

(** * The properties *)

(** C9: a session always answers.  Whatever the process did and whatever operations
    came before, once the exec has ended an operation under way - one blocked in
    the pipe's write, one waiting for a marker, one putting the end back into the
    channel - is never stuck: every run of the session's own two threads, the
    rounds of waiting aside, is at most seven steps long, and where it cannot go on
    the operation has answered.  Nothing blocks on the channel, since its one value
    is in the buffer or in the hands of the one operation that took it. *)
Theorem session_answers CodeExit (c : config) :
  rtc (step (next CodeExit)) start c -> stream (sess c) <> Streaming ->
  one_value c /\
  forall ls c', forallb own ls = true -> runs (next CodeExit) ls c = Some c' ->
    length ls <= 7 /\ ((forall l, own l = true -> next CodeExit l c' = None) -> busy c' = None).
Proof.
  intros Hr Hs. split; [by apply (session_good CodeExit c Hr)|]. intros ls c' Ho H. split.
  - pose proof (runs_bounded (next CodeExit) own (fun _ => True) steps_left) as Hl. specialize (Hl
      ltac:(intros l a b Ho' _ Hn; split; [done|by eapply own_steps]) ls c c' Ho I H).
    assert (steps_left c <= 7); [|lia]. clear - Hs. unfold steps_left.
    destruct (stream (sess c)); try done; destruct (busy c) as [[? []]|]; lia.
  - intros Hstuck.
    assert (stream (sess c') <> Streaming) as Hs'
      by (eapply (runs_keep (next CodeExit) own (fun c => stream (sess c) <> Streaming)); [|done..]; eauto using own_ended).
    destruct (busy c') as [op|] eqn:Eb; [|done]. exfalso.
    destruct (own_enabled CodeExit c') as (l & d & Hl & E); [|done|by rewrite Eb|by rewrite Hstuck in E].
    apply (session_good CodeExit). etrans; [exact Hr|]. by eapply runs_reach.
Qed.

(** C10: what a session does for its caller, whatever the process does and however
    the steps interleave.  The process has been sent the lines whose writing
    succeeded, in order, and beyond them at most the beginning of one whose writing
    has failed or is under way; a marker waited for with success has been printed;
    [Close] answers the end of the process; and the error of [WriteSecret] is one
    of two texts that do not contain what was to be written. *)
Theorem session_truthful CodeExit (c : config) :
  rtc (step (next CodeExit)) start c ->
  (exists part, taken (sess c) = delivered (answers c) +:+ part /\
     (part = "" \/ exists o rest, unfinished c o /\ line_of o = part +:+ rest)) /\
  (forall marker timeout, (WaitFor marker timeout, Returned (Ok ())) ∈ answers c -> Contains (output (sess c)) marker = true) /\
  (forall r, (Close, Returned r) ∈ answers c ->
     exists e, stream (sess c) = Sent e /\ r = match exitError CodeExit e with Some e => Err e | None => Ok () end) /\
  (forall line e, (WriteSecret line, Returned (Err e)) ∈ answers c ->
     e = ErrNew "failed to send the credentials to the session" \/
     exists e', stream (sess c) = Sent e' /\
       e = Errorf "session ended before the credentials could be sent: %w" [wrap_nil (exitError CodeExit e')]).
Proof.
  intros Hr. destruct (session_good CodeExit c Hr) as (_ & _ & Ht & (part & Hp & _ & Hu & _) & _).
  rewrite Forall_forall in Ht. split_and!; [eauto| | |].
  - intros m t H. apply Ht in H. cbn in H. naive_solver.
  - intros r H. apply Ht in H. cbn in H. naive_solver.
  - intros line e H. apply Ht in H. cbn in H.
    destruct H as [(m & t & H & _)|[(m & t & e' & H & _)|[(e' & H & _)|[_ H]]]]; try done.
    destruct H as [H|[(e' & printed & Hs & H)|[H|[_ H]]]]; try done; injection H as ->; eauto.
Qed.

(** ** Witnesses *)

Definition no_code (e : error) : option Z := None.

(** A password is written, the caller closes, and the process exits. *)
Definition closing_run : list label :=
  [Call (WriteSecret "pw"); Run Deadline; Happens (Take ("pw" +:+ nl)); Run Deadline;
   Call Close; Run Deadline; Happens (Print "done"); Happens (Return None)].
Definition last_steps : list label :=
  [Happens CloseReader; Happens Send; Run Deadline; Run Deadline; Run Deadline].

Definition closing_at : config := default start (runs (next no_code) closing_run start).

Lemma closing_reached : rtc (step (next no_code)) start closing_at.
Proof. apply (runs_reach (next no_code) closing_run). vm_compute. reflexivity. Qed.

Lemma session_answers_witness :
  one_value closing_at /\ length last_steps <= 7 /\
  option_map answers (runs (next no_code) last_steps closing_at)
  = Some [(WriteSecret "pw", Returned (Ok ())); (Close, Returned (Ok ()))].
Proof.
  assert (stream (sess closing_at) <> Streaming) as Hs by (vm_compute; discriminate).
  destruct (session_answers no_code closing_at closing_reached Hs) as [H1 H2]. split; [exact H1|].
  assert (exists c', runs (next no_code) last_steps closing_at = Some c') as [c' E] by (vm_compute; eauto).
  destruct (H2 last_steps c' eq_refl E) as [H3 _]. split; [exact H3|vm_compute; reflexivity].
Defined.

Lemma session_truthful_witness :
  exists part, taken (sess closing_at) = "pw" +:+ nl +:+ part.
Proof.
  destruct (session_truthful no_code closing_at closing_reached) as [(part & H & _) _].
  exists part. rewrite H. vm_compute. reflexivity.
Defined.

(** A process that exits with status zero before a statement can be sent leaves a
    verb of the message without its error. *)
Example ended_with_zero :
  let c := default start (runs (next no_code)
    [Happens (Return None); Happens CloseReader; Happens Send; Call (Write "SELECT 1;"); Run Deadline; Run Deadline] start) in
  match answers c with
  | [(_, Returned (Err e))] =>
      Error e = "session ended before " +:+ quoted "SELECT 1;" +:+ " could be sent: %!w(<nil>)"
  | _ => False
  end.
Proof. vm_compute. reflexivity. Qed.
