(* ===== verification/Narrate.v ===== *)
(** * internal/narrate: the text log

    handler.go: a slog handler that draws a record as a step, or as a detail
    indented under the step above it.  A handler is its attributes and open groups;
    what all derived handlers share is whether anything was written yet.  A value
    is its text, but for the kinds the code looks at.  As in Fmt.v, a rune beyond
    ASCII that is not a space counts as printable. *)
From S2P Require Import Prelude GoStrings Fmt Console.
From stdpp Require Import options.
Local Open Scope nat_scope.

Definition IndentKey : string := "indent".
Definition indentWidth : nat := 3.
Definition maxDepth : Z := 2.

(** ** Attributes *)

(** [slog.Value]: the zero value, an integer, a group, a [LogValuer] as what it
    resolves to, and any other kind as its text. *)
Inductive value : Type :=
  | VNil
  | VInt (z : Z)
  | VText (text : string)
  | VGroup (attrs : list (string * value))
  | VValuer (resolved : value).

Definition attr : Type := string * value.

(** [Value.String] *)
Fixpoint Value_String (v : value) : string :=
  match v with
  | VNil => "<nil>"
  | VInt z => Itoa z
  | VText text => text
  | VGroup _ => "[]"
  | VValuer v => Value_String v
  end.

Definition isEmptyGroup (v : value) : bool := match v with VGroup [] => true | _ => false end.

(** [slog.GroupValue] drops the empty groups among its attributes. *)
Definition GroupValue (attrs : list attr) : value := VGroup (List.filter (fun a => negb (isEmptyGroup a.2)) attrs).

(** [nest]: [slices.Backward] wraps in the innermost group first. *)
Definition nest (groups : list string) (attrs : list attr) : list attr :=
  fold_right (fun group attrs => [(group, GroupValue attrs)]) attrs groups.

(** [attr.Equal(slog.Attr{})] *)
Definition is_zero (a : attr) : bool := match a with ("", VNil) => true | _ => false end.

(** [flatten] of one attribute; the recursion goes through the resolved value. *)
Fixpoint flatten_value (prefix key : string) (v : value) : list attr :=
  match v with
  | VValuer v => flatten_value prefix key v
  | VGroup attrs =>
      let groupPrefix := if decide (key = "") then prefix else prefix +:+ key +:+ "." in
      (fix go (attrs : list attr) : list attr :=
         match attrs with
         | [] => []
         | a :: attrs => (if is_zero a then [] else flatten_value groupPrefix a.1 a.2) ++ go attrs
         end) attrs
  | v => [(prefix +:+ key, v)]
  end.

Fixpoint flatten (prefix : string) (attrs : list attr) : list attr :=
  match attrs with
  | [] => []
  | a :: attrs => (if is_zero a then [] else flatten_value prefix a.1 a.2) ++ flatten prefix attrs
  end.

Definition isIndent (key : string) : bool := bool_decide (key = IndentKey) || HasSuffix key ("." +:+ IndentKey).

Definition clampDepth (depth : Z) : Z := Z.min (Z.max depth 0) maxDepth.

(** The loop of [splitDepth]; [depth] is an [int]. *)
Fixpoint split_loop (depth : Z) (attrs : list attr) : Z * list attr :=
  match attrs with
  | [] => (depth, [])
  | a :: attrs =>
      match isIndent a.1, a.2 with
      | true, VInt z => split_loop (wrap_int64 (depth + z)) attrs
      | _, _ => let '(depth, rest) := split_loop depth attrs in (depth, a :: rest)
      end
  end.

Definition splitDepth (attrs : list attr) : Z * list attr :=
  let '(depth, rest) := split_loop 0 attrs in (clampDepth depth, rest).

(** ** Text *)

Definition LevelInfo : Z := 0.
Definition LevelWarn : Z := 4.
Definition LevelError : Z := 8.

(** A byte [formatValue] quotes for: [unicode.IsSpace] or not [unicode.IsPrint]. *)
Definition odd_byte (a : ascii) : bool := bool_decide (byte a <= 32 \/ byte a = 127)%Z.

Definition formatValue (v : value) : string :=
  let text := Value_String v in
  if bool_decide (text = "") || any_byte (mem_byte [double_quote; "="%char]) text
     || any_byte odd_byte text || existsb (Contains text) space_runes
  then quoted text else text.

Record Record_ : Type := mkRecord { Level : Z; Message : string; Attrs : list attr }.

Record Handler : Type := mkHandler { opts_Level : Z; palette : Palette; attrs : list attr; groups : list string }.

Definition NewHandler (level : Z) (color : bool) : Handler := mkHandler level color [] [].

Definition Enabled (h : Handler) (level : Z) : bool := bool_decide (opts_Level h <= level)%Z.

Definition WithAttrs (h : Handler) (new : list attr) : Handler :=
  mkHandler (opts_Level h) (palette h) (attrs h ++ nest (groups h) new) (groups h).

Definition WithGroup (h : Handler) (name : string) : Handler :=
  if decide (name = "") then h else mkHandler (opts_Level h) (palette h) (attrs h) (groups h ++ [name]).

(** [Detail]: [logger.With] hands its attribute to the handler. *)
Definition Detail (h : Handler) (depth : Z) : Handler := WithAttrs h [(IndentKey, VInt depth)].

Definition line_end (a : ascii) : bool := bool_decide (a = cr \/ a = lf).

Definition level_message (p : Palette) (r : Record_) : string :=
  let message := TrimRight (Message r) line_end in
  if decide (LevelError <= Level r)%Z then Bad p message
  else if decide (LevelWarn <= Level r)%Z then Warn p message
  else if decide (Level r < LevelInfo)%Z then Dim p message
  else message.

Definition format (h : Handler) (r : Record_) (attrs : list attr) : string :=
  let message := level_message (palette h) r in
  match attrs with
  | [] => message
  | _ =>
      let parts := (fun a : attr => a.1 +:+ "=" +:+ formatValue a.2) <$> attrs in
      message +:+ " " +:+ Dim (palette h) (Join parts " ")
  end.

Fixpoint Repeat (s : string) (n : nat) : string := match n with O => "" | S n => s +:+ Repeat s n end.

Definition record_depth (h : Handler) (r : Record_) : Z * list attr :=
  let all := flatten "" (attrs h ++ nest (groups h) (Attrs r)) in
  let '(depth, rest) := splitDepth all in
  (if decide (Level r < LevelInfo /\ depth = 0)%Z then 1%Z else depth, rest).

(** What [Handle] writes, in one call, and whether anything is written by then;
    [started] is set before the write's error is looked at. *)
Definition Handle_line (h : Handler) (started : bool) (r : Record_) : string :=
  let '(depth, rest) := record_depth h r in
  let indent := Repeat " " (Z.to_nat depth * indentWidth) in
  let line := indent +:+ ReplaceAll (format h r rest) lf (nl +:+ indent +:+ "   ") +:+ nl in
  if decide (depth = 0%Z /\ started = true) then nl +:+ line else line.

Definition Handle (write : string -> option error) (h : Handler) (started : bool) (r : Record_) : bool * result () :=
  (true, match write (Handle_line h started r) with
         | None => Ok ()
         | Some e => Err (Errorf "failed to write log line: %w" [AWrap e])
         end).

(** ** Specification *)

(** How a handler is derived from the first one, outermost step first. *)
Inductive derivation : Type := With (new : list attr) | Group (name : string).

Definition derive (h : Handler) (d : derivation) : Handler :=
  match d with With new => WithAttrs h new | Group name => WithGroup h name end.

Definition within (prefix name : string) : string := if decide (name = "") then prefix else prefix +:+ name +:+ ".".

(** The attributes a record is drawn with: each under the groups that were open
    when it was given. *)
Fixpoint drawn (prefix : string) (ds : list derivation) (own : list attr) : list attr :=
  match ds with
  | [] => flatten prefix own
  | With new :: ds => flatten prefix new ++ drawn prefix ds own
  | Group name :: ds => drawn (within prefix name) ds own
  end.

(** A byte that does not act on a terminal. *)
Definition shown (a : ascii) : bool := bool_decide (32 <= byte a /\ byte a <> 127)%Z.

(** ** Lemmas *)

Lemma flatten_app prefix l1 l2 : flatten prefix (l1 ++ l2) = flatten prefix l1 ++ flatten prefix l2.
Proof. induction l1 as [|a l1 IH]; [done|]. cbn [app flatten]. by rewrite IH, app_assoc. Qed.

Lemma flatten_group prefix key l :
  flatten_value prefix key (VGroup l) = flatten (within prefix key) l.
Proof. unfold within. cbn [flatten_value]. induction l as [|a l IH]; [done|]. cbn [flatten]. by rewrite <- IH. Qed.

Lemma flatten_nonempty prefix l : flatten prefix (List.filter (fun a : attr => negb (isEmptyGroup a.2)) l) = flatten prefix l.
Proof.
  induction l as [|[k v] l IH]; [done|]. cbn [List.filter flatten].
  destruct (isEmptyGroup v) eqn:E; cbn [negb snd]; rewrite E; cbn [negb]; [|cbn [flatten]; by rewrite IH].
  destruct v as [| | |[]|]; try done. rewrite IH. cbn [is_zero fst snd flatten_value].
  by destruct k as [|a k]; cbn.
Qed.

Lemma flatten_nest groups : forall prefix attrs, Forall (fun g => g <> "") groups ->
  flatten prefix (nest groups attrs) = flatten (fold_left within groups prefix) attrs.
Proof.
  induction groups as [|g groups IH]; intros prefix attrs Hg; [done|]. apply Forall_cons in Hg as [Hg Hgs].
  cbn [fold_left]. rewrite <- (IH (within prefix g) attrs Hgs).
  change (nest (g :: groups) attrs) with [(g, GroupValue (nest groups attrs))].
  transitivity (flatten_value prefix g (GroupValue (nest groups attrs)) ++ []).
  - by destruct g.
  - rewrite app_nil_r. unfold GroupValue. by rewrite flatten_group, flatten_nonempty.
Qed.

Lemma drawn_derived ds : forall h own, Forall (fun g => g <> "") (groups h) ->
  let h' := fold_left derive ds h in
  Forall (fun g => g <> "") (groups h') /\
  flatten "" (attrs h' ++ nest (groups h') own)
  = flatten "" (attrs h) ++ drawn (fold_left within (groups h) "") ds own.
Proof.
  induction ds as [|[new|name] ds IH]; intros h own Hg; cbn [fold_left derive drawn].
  - split; [done|]. by rewrite flatten_app, flatten_nest.
  - destruct (IH (WithAttrs h new) own Hg) as [H1 H2]. split; [exact H1|]. rewrite H2. cbn.
    by rewrite flatten_app, flatten_nest, app_assoc.
  - unfold WithGroup. destruct (decide (name = "")) as [->|Hn]; [exact (IH h own Hg)|].
    set (h1 := mkHandler _ _ _ _). destruct (IH h1 own) as [H1 H2]; [cbn; by apply Forall_app; split; [|constructor]|].
    split; [exact H1|]. rewrite H2. cbn. by rewrite fold_left_app.
Qed.

Lemma split_depth_range attrs : (0 <= (splitDepth attrs).1 <= 2)%Z.
Proof. unfold splitDepth, clampDepth, maxDepth. destruct (split_loop 0 attrs). cbn. lia. Qed.

(** Splitting at line feeds. *)

Lemma Split_prepend x y w ws : free_of lf x -> Split y lf = w :: ws -> Split (x +:+ y) lf = (x +:+ w) :: ws.
Proof.
  intros Hx Hy. induction x as [|a x IH]; [done|]. apply free_of_cons in Hx as [Ha Hx]. cbn.
  rewrite decide_False by done. by rewrite IH.
Qed.

Lemma Split_ReplaceAll t x w ws : free_of lf x -> Split t lf = w :: ws ->
  Split (ReplaceAll t lf (nl +:+ x)) lf = w :: ((fun l => x +:+ l) <$> ws).
Proof.
  intros Hx. revert w ws. induction t as [|a t IH]; intros w ws H; cbn in H.
  - by injection H as <- <-.
  - cbn [ReplaceAll]. pose proof (Split_not_nil t lf) as Hn. destruct (decide (a = lf)) as [->|Ha].
    + injection H as <- <-. destruct (Split t lf) as [|w1 ws1]; [done|].
      change ((nl +:+ x) +:+ ?r) with (String lf (x +:+ r)). cbn [Split]. rewrite decide_True by done.
      by rewrite (Split_prepend _ _ w1 ((fun l => x +:+ l) <$> ws1)) by (try done; by apply IH).
    + destruct (Split t lf) as [|w1 ws1]; [done|]. injection H as <- <-.
      cbn [Split]. rewrite decide_False by done. by rewrite (IH w1 ws1).
Qed.

(** Lines in a text. *)
Definition line_count (s : string) : nat := length (Split s lf).

Lemma line_count_app s t : line_count (s +:+ t) + 1 = line_count s + line_count t.
Proof.
  unfold line_count. induction s as [|a s IH]; [cbn; lia|]. rewrite app_cons_str. cbn [Split].
  pose proof (Split_not_nil s lf). pose proof (Split_not_nil (s +:+ t) lf).
  destruct (decide (a = lf)); cbn [length]; [lia|].
  destruct (Split s lf); [done|]. destruct (Split (s +:+ t) lf); [done|]. cbn [length] in *. lia.
Qed.

Lemma line_count_free s : free_of lf s -> line_count s = 1.
Proof. intros H. unfold line_count. by rewrite Split_one. Qed.

Lemma line_count_wrap p code s : free_of lf code -> line_count (wrap p code s) = line_count s.
Proof.
  intros Hc. unfold wrap. destruct (negb p || _); [done|].
  pose proof (line_count_app esc ("[" +:+ code +:+ "m" +:+ s +:+ reset)) as H1.
  pose proof (line_count_app "[" (code +:+ "m" +:+ s +:+ reset)) as H2.
  pose proof (line_count_app code ("m" +:+ s +:+ reset)) as H3.
  pose proof (line_count_app "m" (s +:+ reset)) as H4. pose proof (line_count_app s reset) as H5.
  rewrite (line_count_free code Hc) in H3.
  change (line_count esc) with 1 in H1. change (line_count "[") with 1 in H2.
  change (line_count "m") with 1 in H4. change (line_count reset) with 1 in H5. lia.
Qed.

(** A value is drawn in bytes that do not act on a terminal, whatever it holds. *)
Lemma escape_shown s : all_bytes shown (escape double_quote s) = true.
Proof.
  induction s as [|a s IH]; [done|]. cbn [escape]. rewrite all_bytes_app, IH, andb_true_r.
  each_byte a; vm_compute; reflexivity.
Qed.

Lemma not_odd_shown s : any_byte odd_byte s = false -> all_bytes shown s = true.
Proof.
  induction s as [|a s IH]; [done|]. cbn. intros [Ha Hs]%orb_false_iff. rewrite (IH Hs), andb_true_r.
  unfold odd_byte, shown in *. apply bool_decide_eq_false in Ha. apply bool_decide_eq_true. lia.
Qed.

Lemma formatValue_shown v : all_bytes shown (formatValue v) = true.
Proof.
  unfold formatValue. set (text := Value_String v).
  destruct (_ || existsb _ _) eqn:E.
  - unfold quoted. rewrite !all_bytes_app, escape_shown. reflexivity.
  - apply orb_false_iff in E as [[_ E]%orb_false_iff _]. by apply not_odd_shown.
Qed.

Lemma shown_free s : all_bytes shown s = true -> free_of lf s.
Proof.
  induction s as [|a s IH]; [done|]. cbn. intros [Ha Hs]%andb_true_iff. apply free_of_cons. split; [|auto].
  intros ->. done.
Qed.

Lemma Join_free l : Forall (free_of lf) l -> free_of lf (Join l " ").
Proof.
  induction l as [|x l IH]; [done|]. intros [Hx Hl]%Forall_cons. destruct l as [|y l]; [done|].
  change (Join (x :: y :: l) " ") with (x +:+ " " +:+ Join (y :: l) " ").
  apply free_of_app. split; [done|]. apply free_of_app. split; [done|by apply IH].
Qed.

Lemma format_lines h r rest : Forall (fun a : attr => free_of lf a.1) rest ->
  line_count (format h r rest) = line_count (TrimRight (Message r) line_end).
Proof.
  intros Hk.
  assert (line_count (level_message (palette h) r) = line_count (TrimRight (Message r) line_end)) as Hm.
  { unfold level_message. repeat destruct (decide _); try done; by apply line_count_wrap. }
  unfold format. destruct rest as [|a rest]; [done|]. cbv zeta.
  set (parts := Join _ " "). assert (free_of lf parts) as Hp.
  { apply Join_free, Forall_fmap. eapply Forall_impl; [exact Hk|]. intros b Hb. cbn.
    apply free_of_app. split; [done|]. apply free_of_cons. split; [done|]. by apply shown_free, formatValue_shown. }
  pose proof (line_count_app (level_message (palette h) r) (" " +:+ Dim (palette h) parts)) as H1.
  pose proof (line_count_app " " (Dim (palette h) parts)) as H2. change (line_count " ") with 1 in H2.
  assert (line_count (Dim (palette h) parts) = 1) as H3 by (unfold Dim; rewrite line_count_wrap by done; by apply line_count_free).
  lia.
Qed.

Lemma Repeat_free n : free_of lf (Repeat " " n).
Proof. induction n as [|n IH]; [done|]. cbn [Repeat]. by apply free_of_app. Qed.

(** * The properties *)

(** Which attributes a record is drawn with.  However a handler is derived -
    attributes and groups added in any order - a record shows the attributes given
    on the way, oldest first, and then its own, each under the groups that were
    open when it was given; groups without a name and empty attributes leave no
    trace. *)
Theorem attributes_nested (level : Z) (color : bool) (ds : list derivation) (own : list attr) :
  let h := fold_left derive ds (NewHandler level color) in
  flatten "" (attrs h ++ nest (groups h) own) = drawn "" ds own.
Proof. apply (drawn_derived ds (NewHandler level color) own). constructor. Qed.

(** The shape of the log.  A record is at most two levels deep, and below the
    level of information at least one; every line of it begins with its indent, the
    lines after the first three spaces further in, and it ends with a line end; a
    blank line goes before a step that is not the first thing written, and before
    nothing else.  The values of its attributes are drawn in printable bytes
    whatever they hold, so with keys that have no line feed a record has the lines
    of its message and no more. *)
Theorem record_drawn (h : Handler) (started : bool) (r : Record_) :
  let '(depth, rest) := record_depth h r in
  let indent := Repeat " " (Z.to_nat depth * 3) in
  (0 <= depth <= 2)%Z /\ ((Level r < LevelInfo)%Z -> (1 <= depth)%Z) /\
  Forall (fun a : attr => all_bytes shown (formatValue a.2) = true) rest /\
  exists first more,
    Split (format h r rest) lf = first :: more /\
    Split (Handle_line h started r) lf
    = (if decide (depth = 0%Z /\ started = true) then [""] else [])
      ++ (indent +:+ first) :: ((fun l => indent +:+ "   " +:+ l) <$> more) ++ [""] /\
    (Forall (fun a : attr => free_of lf a.1) rest ->
       S (length more) = line_count (TrimRight (Message r) line_end)).
Proof.
  unfold Handle_line. destruct (record_depth h r) as [depth rest] eqn:E. cbv zeta.
  assert ((0 <= depth <= 2)%Z /\ ((Level r < LevelInfo)%Z -> (1 <= depth)%Z)) as [H1 H2].
  { unfold record_depth in E. pose proof (split_depth_range (flatten "" (attrs h ++ nest (groups h) (Attrs r)))) as Hr.
    destruct (splitDepth _) as [d l]. cbn in Hr. injection E as <- <-. destruct (decide _) as [|Hn]; lia. }
  split_and!; [lia|lia|done| |].
  { apply Forall_forall. intros a _. apply formatValue_shown. }
  set (indent := Repeat " " _). assert (free_of lf indent) as Hi by apply Repeat_free.
  destruct (Split (format h r rest) lf) as [|first more] eqn:Ef; [by apply Split_not_nil in Ef|].
  exists first, more. split; [done|]. split.
  - assert (Split (indent +:+ ReplaceAll (format h r rest) lf (nl +:+ indent +:+ "   ") +:+ nl) lf
      = (indent +:+ first) :: ((fun l => indent +:+ "   " +:+ l) <$> more) ++ [""]) as Hl.
    { apply Split_prepend; [done|]. change nl with (String lf "") at 2. rewrite Split_app.
      rewrite (Split_ReplaceAll _ (indent +:+ "   ") first more); [|by apply free_of_app|done].
      cbn [app Split]. f_equal. f_equal. apply list_fmap_ext. intros i l _. cbn. by rewrite app_assoc_str. }
    destruct (decide _); [|done]. change (nl +:+ ?x) with (String lf x). cbn [Split]. rewrite decide_True by done.
    by rewrite Hl.
  - intros Hk. pose proof (format_lines h r rest Hk) as Hc. unfold line_count in Hc at 1. rewrite Ef in Hc. exact Hc.
Qed.

(** A detail of a detail under a group, with a value that would break the line. *)
Example drawn_example :
  let h := Detail (WithGroup (Detail (NewHandler 0 false) 1) "pod") 1 in
  Handle_line h true (mkRecord 0 ("two" +:+ nl +:+ "lines" +:+ nl) [("name", VText ("a" +:+ nl)); ("port", VInt 22)])
  = "      two" +:+ nl +:+ "         lines pod.name=" +:+ quoted ("a" +:+ nl) +:+ " pod.port=22" +:+ nl.
Proof. vm_compute. reflexivity. Qed.
