(* ===== verification/Api.v ===== *)
(** * pvmigrate: the public API, and the commands in front of it

    pvmigrate.go, backup.go and restore.go: the options of a library user, their
    defaults, the checks made before anything is contacted, and the request handed
    to the internal packages.  internal/app/migrate.go, backup.go and completion.go:
    what the commands add to their flags - the files and environment variables
    read, and the completion of a comma-separated flag.  A [time.Duration] is its
    nanoseconds; the writer and the logger are left out. *)
From S2P Require Import Prelude GoStrings Fmt Opid Paths ArchiveTarget World Pvc Migration Migrator BucketRequest BucketPlan Bucket.
From stdpp Require Import gmap sorting options.

(** [PVC] *)
Record PVC : Type := mkClaim {
  claim_Kubeconfig : string;
  claim_Context : string;
  claim_Namespace : string;
  claim_Name : string;
  claim_Path : string
}.

(** A field left at its zero value gets its default. *)
Definition or_string (s d : string) : string := if decide (s = "") then d else s.
Definition or_Z (z d : Z) : Z := if decide (z = 0)%Z then d else z.

Definition minute : Z := 60000000000.
Definition defaultHelmTimeout : Z := minute.
Definition defaultLoadBalancerTimeout : Z := 2 * minute.
Definition defaultPath : string := "/".
Definition DefaultSSHReverseTunnelPort : Z := 22000.
Definition DefaultStrategies : list string := ["mount"; "clusterip"; "loadbalancer"].
Definition Ed25519 : string := "ed25519".
Definition RSA : string := "rsa".

Definition with_path (p : PVC) : PVC :=
  mkClaim (claim_Kubeconfig p) (claim_Context p) (claim_Namespace p) (claim_Name p) (or_string (claim_Path p) defaultPath).

(** An identifier is checked only when one is given. *)
Definition checkID (id : string) : result () := if decide (id = "") then Ok () else Validate id.

(** ** pvmigrate.go *)

Module Migrate.
Record t : Type := mk {
  ID : string;
  ImageTag : string;
  ChartVersion : string;
  Source : PVC;
  Dest : PVC;
  DeleteExtraneousFiles : bool;
  IgnoreMounted : bool;
  IgnoreSizes : bool;
  NoChown : bool;
  Detach : bool;
  Push : bool;
  NoCleanup : bool;
  NoCleanupOnFailure : bool;
  ShowProgressBar : bool;
  SourceMountReadWrite : bool;
  NoCompress : bool;
  Mover : string;
  NonRoot : bool;
  RsyncExtraArgs : string;
  KeyAlgorithm : string;
  SSHReverseTunnelPort : Z;
  Strategies : list string;
  DestHostOverride : string;
  HelmTimeout : Z;
  LoadBalancerTimeout : Z;
  HelmValuesFiles : list string;
  HelmValues : list string;
  HelmFileValues : list string;
  HelmStringValues : list string;
  StructuredLogs : bool;
  ColorOutput : bool
}.

Definition ApplyDefaults (m : t) : t :=
  mk
    (ID m) (ImageTag m) (ChartVersion m) (with_path (Source m)) (with_path (Dest m)) (DeleteExtraneousFiles m)
    (IgnoreMounted m) (IgnoreSizes m) (NoChown m) (Detach m) (Push m) (NoCleanup m) (NoCleanupOnFailure m)
    (ShowProgressBar m) (SourceMountReadWrite m) (NoCompress m) (or_string (Mover m) MoverRsync) (NonRoot m)
    (RsyncExtraArgs m) (or_string (KeyAlgorithm m) Ed25519)
    (or_Z (SSHReverseTunnelPort m) DefaultSSHReverseTunnelPort)
    (match Strategies m with [] => DefaultStrategies | l => l end) (DestHostOverride m)
    (or_Z (HelmTimeout m) defaultHelmTimeout) (or_Z (LoadBalancerTimeout m) defaultLoadBalancerTimeout)
    (HelmValuesFiles m) (HelmValues m) (HelmFileValues m) (HelmStringValues m) (StructuredLogs m)
    (ColorOutput m).

Definition toInternalRequest (m : t) : Migration.Request :=
  Migration.mkRequest
    (ID m) (ImageTag m) (ChartVersion m)
    (mkPVCInfo (claim_Kubeconfig (Source m)) (claim_Context (Source m)) (claim_Namespace (Source m)) (claim_Name (Source m)) (claim_Path (Source m)))
    (mkPVCInfo (claim_Kubeconfig (Dest m)) (claim_Context (Dest m)) (claim_Namespace (Dest m)) (claim_Name (Dest m)) (claim_Path (Dest m)))
    (DeleteExtraneousFiles m) (IgnoreMounted m) (IgnoreSizes m) (NoChown m) (Detach m) (Push m) (NoCleanup m)
    (NoCleanupOnFailure m) (ShowProgressBar m) (SourceMountReadWrite m) (KeyAlgorithm m)
    (SSHReverseTunnelPort m) (HelmTimeout m) (HelmValuesFiles m) (HelmValues m) (HelmFileValues m)
    (HelmStringValues m) (Strategies m) (DestHostOverride m) (LoadBalancerTimeout m) (NoCompress m) (NonRoot m)
    (RsyncExtraArgs m) (Mover m) (StructuredLogs m) (ColorOutput m).

(** The checks of [Run], in order. *)
Definition check (m : t) : result () :=
  _ ← checkID (ID m);
  _ ← fail_if (bool_decide (SSHReverseTunnelPort m < 1 \/ 65535 < SSHReverseTunnelPort m)%Z)
        (Errorf "invalid ssh-reverse-tunnel-port %d: must be between 1 and 65535" [AInt (SSHReverseTunnelPort m)]);
  ValidatePaths (claim_Path (Source m)) (claim_Path (Dest m)).

Definition Run (m : t) (generated : string) : io (result () * Migrator.report) :=
  let m := ApplyDefaults m in
  match check m with
  | Err e => Ret (Err e, Migrator.NoReport)
  | Ok _ =>
      r ← Migrator_Run (toInternalRequest m) generated;
      Ret (wrap_err "migration failed: %w" r.1, r.2)
  end.
End Migrate.

(** ** backup.go *)

Module Backup.
Record t : Type := mk {
  ID : string;
  ImageTag : string;
  ChartVersion : string;
  claim : PVC;
  Backend : string;
  Bucket : string;
  S3Provider : string;
  Endpoint : string;
  Region : string;
  AccessKey : string;
  SecretKey : string;
  StorageAccount : string;
  StorageKey : string;
  GCSServiceAccountJSON : string;
  GCSBucketPolicyOnly : option bool;
  Name : string;
  Prefix : string;
  Path : string;
  RcloneConfigFile : string;
  Remote : string;
  RcloneExtraArgs : string;
  ArchiveFile : string;
  CompressionLevel : Z;
  Snapshot : bool;
  SnapshotClass : string;
  KeepSnapshot : bool;
  FromSnapshot : string;
  Flush : string;
  FlushContainer : string;
  FlushCommand : list string;
  FlushUser : string;
  FlushPassword : string;
  FlushPasswordSecret : string;
  IgnoreMounted : bool;
  NonRoot : bool;
  Detach : bool;
  NoCleanup : bool;
  NoCleanupOnFailure : bool;
  HelmTimeout : Z;
  HelmValuesFiles : list string;
  HelmValues : list string;
  HelmFileValues : list string;
  HelmStringValues : list string;
  StructuredLogs : bool;
  ColorOutput : bool
}.

Definition applyBackupDefaults (b : t) : t :=
  mk
    (ID b) (ImageTag b) (ChartVersion b) (claim b) (Backend b) (Bucket b) (S3Provider b) (Endpoint b)
    (Region b) (AccessKey b) (SecretKey b) (StorageAccount b) (StorageKey b) (GCSServiceAccountJSON b)
    (GCSBucketPolicyOnly b) (Name b) (or_string (Prefix b) DefaultPrefix) (Path b) (RcloneConfigFile b)
    (Remote b) (RcloneExtraArgs b) (ArchiveFile b) (CompressionLevel b) (Snapshot b) (SnapshotClass b)
    (KeepSnapshot b) (FromSnapshot b) (Flush b) (FlushContainer b) (FlushCommand b) (FlushUser b)
    (FlushPassword b) (FlushPasswordSecret b) (IgnoreMounted b) (NonRoot b) (Detach b) (NoCleanup b)
    (NoCleanupOnFailure b) (or_Z (HelmTimeout b) defaultHelmTimeout) (HelmValuesFiles b) (HelmValues b)
    (HelmFileValues b) (HelmStringValues b) (StructuredLogs b) (ColorOutput b).

Definition toBackupRequest (b : t) (direction : string) : BucketRequest.Request :=
  BucketRequest.mkRequest
    (ID b) (ImageTag b) (ChartVersion b) direction (claim_Kubeconfig (claim b)) (claim_Context (claim b))
    (claim_Namespace (claim b)) (claim_Name (claim b)) (IgnoreMounted b) (NonRoot b) (Detach b) (NoCleanup b)
    (NoCleanupOnFailure b) false (Backend b) (Bucket b) (S3Provider b) (Endpoint b) (Region b) (AccessKey b)
    (SecretKey b) (StorageAccount b) (StorageKey b) (GCSServiceAccountJSON b) (GCSBucketPolicyOnly b) (Name b)
    (Prefix b) (Path b) (RcloneConfigFile b) (Remote b) (RcloneExtraArgs b) (ArchiveFile b)
    (CompressionLevel b) (Snapshot b) (FromSnapshot b) (SnapshotClass b) (KeepSnapshot b) (Flush b)
    (FlushContainer b) (FlushCommand b) (FlushUser b) (FlushPassword b) (FlushPasswordSecret b) (HelmTimeout b)
    (HelmValuesFiles b) (HelmValues b) (HelmFileValues b) (HelmStringValues b) (StructuredLogs b)
    (ColorOutput b).

Section Run.
Variable ReadFile : string -> result string.
Variable Marshal : Metadata -> result string.

Definition RunBackup (b : t) (generated : string) (now stamp : Time) : io (result () * Migrator.report) :=
  let b := applyBackupDefaults b in
  match checkID (ID b) with
  | Err e => Ret (Err e, Migrator.NoReport)
  | Ok _ =>
      r ← Bucket.Run ReadFile Marshal (toBackupRequest b DirectionBackup) generated now stamp;
      Ret (wrap_err "backup failed: %w" r.1, r.2)
  end.
End Run.
End Backup.

(** ** restore.go *)

Module Restore.
Record t : Type := mk {
  ID : string;
  ImageTag : string;
  ChartVersion : string;
  claim : PVC;
  Backend : string;
  Bucket : string;
  S3Provider : string;
  Endpoint : string;
  Region : string;
  AccessKey : string;
  SecretKey : string;
  StorageAccount : string;
  StorageKey : string;
  GCSServiceAccountJSON : string;
  GCSBucketPolicyOnly : option bool;
  Name : string;
  Prefix : string;
  Path : string;
  RcloneConfigFile : string;
  Remote : string;
  RcloneExtraArgs : string;
  ArchiveFile : string;
  CompressionLevel : Z;
  DeleteExtraneousFiles : bool;
  IgnoreMounted : bool;
  NonRoot : bool;
  Detach : bool;
  NoCleanup : bool;
  NoCleanupOnFailure : bool;
  HelmTimeout : Z;
  HelmValuesFiles : list string;
  HelmValues : list string;
  HelmFileValues : list string;
  HelmStringValues : list string;
  StructuredLogs : bool;
  ColorOutput : bool
}.

Definition applyRestoreDefaults (b : t) : t :=
  mk
    (ID b) (ImageTag b) (ChartVersion b) (claim b) (Backend b) (Bucket b) (S3Provider b) (Endpoint b)
    (Region b) (AccessKey b) (SecretKey b) (StorageAccount b) (StorageKey b) (GCSServiceAccountJSON b)
    (GCSBucketPolicyOnly b) (Name b) (or_string (Prefix b) DefaultPrefix) (Path b) (RcloneConfigFile b)
    (Remote b) (RcloneExtraArgs b) (ArchiveFile b) (CompressionLevel b) (DeleteExtraneousFiles b)
    (IgnoreMounted b) (NonRoot b) (Detach b) (NoCleanup b) (NoCleanupOnFailure b)
    (or_Z (HelmTimeout b) defaultHelmTimeout) (HelmValuesFiles b) (HelmValues b) (HelmFileValues b)
    (HelmStringValues b) (StructuredLogs b) (ColorOutput b).

Definition toRestoreRequest (b : t) : BucketRequest.Request :=
  let direction := DirectionRestore in
  BucketRequest.mkRequest
    (ID b) (ImageTag b) (ChartVersion b) direction (claim_Kubeconfig (claim b)) (claim_Context (claim b))
    (claim_Namespace (claim b)) (claim_Name (claim b)) (IgnoreMounted b) (NonRoot b) (Detach b) (NoCleanup b)
    (NoCleanupOnFailure b) (DeleteExtraneousFiles b) (Backend b) (Bucket b) (S3Provider b) (Endpoint b)
    (Region b) (AccessKey b) (SecretKey b) (StorageAccount b) (StorageKey b) (GCSServiceAccountJSON b)
    (GCSBucketPolicyOnly b) (Name b) (Prefix b) (Path b) (RcloneConfigFile b) (Remote b) (RcloneExtraArgs b)
    (ArchiveFile b) (CompressionLevel b) false "" "" false "" "" [] "" "" "" (HelmTimeout b)
    (HelmValuesFiles b) (HelmValues b) (HelmFileValues b) (HelmStringValues b) (StructuredLogs b)
    (ColorOutput b).

Section Run.
Variable ReadFile : string -> result string.
Variable Marshal : Metadata -> result string.

Definition RunRestore (b : t) (generated : string) (now stamp : Time) : io (result () * Migrator.report) :=
  let b := applyRestoreDefaults b in
  match checkID (ID b) with
  | Err e => Ret (Err e, Migrator.NoReport)
  | Ok _ =>
      r ← Bucket.Run ReadFile Marshal (toRestoreRequest b) generated now stamp;
      Ret (wrap_err "restore failed: %w" r.1, r.2)
  end.
End Run.
End Restore.

(** ** internal/app: what the commands add *)

Section App.
(** [os.Getenv] and [os.ReadFile]. *)
Variable Getenv : string -> string.
Variable ReadFile : string -> result string.

Definition setStringFromEnvIfEmpty (target envName : string) : string := or_string target (Getenv envName).

Definition envS3AccessKey : string := "PV_MIGRATE_S3_ACCESS_KEY".
Definition envS3SecretKey : string := "PV_MIGRATE_S3_SECRET_KEY".
Definition envFlushPassword : string := "PV_MIGRATE_FLUSH_PASSWORD".
Definition envAzureStorageAccount : string := "PV_MIGRATE_AZURE_STORAGE_ACCOUNT".
Definition envAzureStorageKey : string := "PV_MIGRATE_AZURE_STORAGE_KEY".
Definition envGCSServiceAccountJSON : string := "PV_MIGRATE_GCS_SERVICE_ACCOUNT_JSON".

(** [readGCSServiceAccountFile], for the value of the flag. *)
Definition readGCSServiceAccountFile (saFile target : string) : result string :=
  if decide (saFile = "") then Ok target
  else match ReadFile saFile with
       | Ok data => Ok data
       | Err e => Err (Errorf "failed to read GCS service account file %s: %w" [AStr saFile; AWrap e])
       end.

(** What the flags, the terminal and the environment say of the output. *)
Record terminal : Type := mkTerminal { json : bool; isTerminal : bool }.

Definition colorOutputWanted (t : terminal) : bool :=
  bool_decide (Getenv "NO_COLOR" = "") && isTerminal t && negb (json t).

(** The options [runBackup] hands to the library. *)
Definition backup_options (t : terminal) (saFile : string) (b : Backup.t) : result Backup.t :=
  gcs ← readGCSServiceAccountFile saFile (Backup.GCSServiceAccountJSON b);
  Ok (Backup.mk
      (Backup.ID b) (Backup.ImageTag b) (Backup.ChartVersion b) (Backup.claim b) (Backup.Backend b)
      (Backup.Bucket b) (Backup.S3Provider b) (Backup.Endpoint b) (Backup.Region b)
      (setStringFromEnvIfEmpty (Backup.AccessKey b) envS3AccessKey)
      (setStringFromEnvIfEmpty (Backup.SecretKey b) envS3SecretKey)
      (setStringFromEnvIfEmpty (Backup.StorageAccount b) envAzureStorageAccount)
      (setStringFromEnvIfEmpty (Backup.StorageKey b) envAzureStorageKey)
      (setStringFromEnvIfEmpty gcs envGCSServiceAccountJSON) (Backup.GCSBucketPolicyOnly b) (Backup.Name b)
      (Backup.Prefix b) (Backup.Path b) (Backup.RcloneConfigFile b) (Backup.Remote b)
      (Backup.RcloneExtraArgs b) (Backup.ArchiveFile b) (Backup.CompressionLevel b) (Backup.Snapshot b)
      (Backup.SnapshotClass b) (Backup.KeepSnapshot b) (Backup.FromSnapshot b) (Backup.Flush b)
      (Backup.FlushContainer b) (Backup.FlushCommand b) (Backup.FlushUser b)
      (if decide (Backup.FlushPasswordSecret b = "") then setStringFromEnvIfEmpty (Backup.FlushPassword b) envFlushPassword else Backup.FlushPassword b)
      (Backup.FlushPasswordSecret b) (Backup.IgnoreMounted b) (Backup.NonRoot b) (Backup.Detach b)
      (Backup.NoCleanup b) (Backup.NoCleanupOnFailure b) (Backup.HelmTimeout b) (Backup.HelmValuesFiles b)
      (Backup.HelmValues b) (Backup.HelmFileValues b) (Backup.HelmStringValues b) (json t)
      (colorOutputWanted t)).

(** The options [runRestore] hands to the library. *)
Definition restore_options (t : terminal) (saFile : string) (b : Restore.t) : result Restore.t :=
  gcs ← readGCSServiceAccountFile saFile (Restore.GCSServiceAccountJSON b);
  Ok (Restore.mk
      (Restore.ID b) (Restore.ImageTag b) (Restore.ChartVersion b) (Restore.claim b) (Restore.Backend b)
      (Restore.Bucket b) (Restore.S3Provider b) (Restore.Endpoint b) (Restore.Region b)
      (setStringFromEnvIfEmpty (Restore.AccessKey b) envS3AccessKey)
      (setStringFromEnvIfEmpty (Restore.SecretKey b) envS3SecretKey)
      (setStringFromEnvIfEmpty (Restore.StorageAccount b) envAzureStorageAccount)
      (setStringFromEnvIfEmpty (Restore.StorageKey b) envAzureStorageKey)
      (setStringFromEnvIfEmpty gcs envGCSServiceAccountJSON) (Restore.GCSBucketPolicyOnly b) (Restore.Name b)
      (Restore.Prefix b) (Restore.Path b) (Restore.RcloneConfigFile b) (Restore.Remote b)
      (Restore.RcloneExtraArgs b) (Restore.ArchiveFile b) (Restore.CompressionLevel b)
      (Restore.DeleteExtraneousFiles b) (Restore.IgnoreMounted b) (Restore.NonRoot b) (Restore.Detach b)
      (Restore.NoCleanup b) (Restore.NoCleanupOnFailure b) (Restore.HelmTimeout b) (Restore.HelmValuesFiles b)
      (Restore.HelmValues b) (Restore.HelmFileValues b) (Restore.HelmStringValues b) (json t)
      (colorOutputWanted t)).

(** [runMigration], [runBackup] and [runRestore] *)
Definition runMigration (t : terminal) (m : Migrate.t) (generated : string) : io (result () * Migrator.report) :=
  Migrate.Run (Migrate.mk
      (Migrate.ID m) (Migrate.ImageTag m) (Migrate.ChartVersion m) (Migrate.Source m) (Migrate.Dest m)
      (Migrate.DeleteExtraneousFiles m) (Migrate.IgnoreMounted m) (Migrate.IgnoreSizes m) (Migrate.NoChown m)
      (Migrate.Detach m) (Migrate.Push m) (Migrate.NoCleanup m) (Migrate.NoCleanupOnFailure m)
      (Migrate.ShowProgressBar m) (Migrate.SourceMountReadWrite m) (Migrate.NoCompress m) (Migrate.Mover m)
      (Migrate.NonRoot m) (Migrate.RsyncExtraArgs m) (Migrate.KeyAlgorithm m) (Migrate.SSHReverseTunnelPort m)
      (Migrate.Strategies m) (Migrate.DestHostOverride m) (Migrate.HelmTimeout m)
      (Migrate.LoadBalancerTimeout m) (Migrate.HelmValuesFiles m) (Migrate.HelmValues m)
      (Migrate.HelmFileValues m) (Migrate.HelmStringValues m) (json t) (colorOutputWanted t)) generated.

Variable Marshal : Metadata -> result string.

Definition runBackup (t : terminal) (saFile : string) (b : Backup.t) (generated : string) (now stamp : Time)
  : io (result () * Migrator.report) :=
  match backup_options t saFile b with
  | Err e => Ret (Err e, Migrator.NoReport)
  | Ok b => Backup.RunBackup ReadFile Marshal b generated now stamp
  end.

Definition runRestore (t : terminal) (saFile : string) (b : Restore.t) (generated : string) (now stamp : Time)
  : io (result () * Migrator.report) :=
  match restore_options t saFile b with
  | Err e => Ret (Err e, Migrator.NoReport)
  | Ok b => Restore.RunRestore ReadFile Marshal b generated now stamp
  end.

End App.

(** [isReleaseVersion] and what is made of the version it accepts. *)
Definition isReleaseVersion (version : string) : bool :=
  bool_decide (version <> "") && negb (Contains version "SNAPSHOT") && negb (Contains version "dev").
Definition releaseImageTag (version : string) : string := if isReleaseVersion version then "v" +:+ version else "".
Definition releaseChartVersion (version : string) : string := if isReleaseVersion version then version else "".

(** ** completion.go *)

Section Completion.
(** The order Go ranges over a map's keys in. *)
Variable range : gset string -> list string.

Inductive directive : Type := NoFileComp | NoFileCompNoSpace.

(** [buildSliceCompletionFunc] *)
Definition sliceCompletion (values : list string) (toComplete : string) : list string * directive :=
  let provided := TrimSpace <$> Split toComplete "," in
  let remaining : gset string := list_to_set values ∖ list_to_set provided in
  let lastPart := List.last provided "" in
  let suggestions :=
    (fun value => toComplete +:+ TrimPrefix value lastPart) <$> List.filter (fun value => HasPrefix value lastPart) (range remaining) in
  (suggestions, if decide (1 < length suggestions)%nat then NoFileCompNoSpace else NoFileComp).
End Completion.

(** ** Specification *)

(** What a migration needs to be let through. *)
Definition acceptable (m : Migrate.t) : Prop :=
  (Migrate.ID m = "" \/ (len (Migrate.ID m) <= MaxLength)%Z /\ id_lang (Migrate.ID m)) /\
  (Migrate.SSHReverseTunnelPort m = 0 \/ 1 <= Migrate.SSHReverseTunnelPort m <= 65535)%Z /\
  head (walk ["source"] (claim_Path (Migrate.Source m))) = Some "source" /\
  head (walk ["dest"] (claim_Path (Migrate.Dest m))) = Some "dest".

(** ** Lemmas *)

Lemma or_string_idem s d : or_string (or_string s d) d = or_string s d.
Proof. unfold or_string. destruct (decide (s = "")) as [->|]; by repeat destruct (decide _). Qed.

Lemma or_Z_idem z d : or_Z (or_Z z d) d = or_Z z d.
Proof. unfold or_Z. by destruct (decide (z = 0)%Z) as [->|]; repeat destruct (decide _). Qed.

Lemma with_path_idem p : with_path (with_path p) = with_path p.
Proof. unfold with_path. cbn. by rewrite or_string_idem. Qed.

Lemma ApplyDefaults_idem m : Migrate.ApplyDefaults (Migrate.ApplyDefaults m) = Migrate.ApplyDefaults m.
Proof.
  unfold Migrate.ApplyDefaults. cbn. rewrite !or_string_idem, !or_Z_idem, !with_path_idem.
  by destruct (Migrate.Strategies m).
Qed.

Lemma checkID_Ok id : checkID id = Ok () <-> id = "" \/ (len id <= MaxLength)%Z /\ id_lang id.
Proof.
  unfold checkID. destruct (decide (id = "")) as [->|Hn]; [by split; [left|]|]. rewrite Validate_Ok. naive_solver.
Qed.

Lemma mountSubPath_Ok mount m sub :
  mount_at mount m -> is_Ok (mountSubPath mount sub) = true <-> head (walk [m] sub) = Some m.
Proof.
  intros Hm. rewrite (mountSubPath_walk _ _ _ Hm). unfold mount_spec.
  destruct (bool_decide_reflect (head (walk [m] sub) = Some m)); done.
Qed.

Lemma ValidatePaths_Ok src dst :
  ValidatePaths src dst = Ok () <->
  head (walk ["source"] src) = Some "source" /\ head (walk ["dest"] dst) = Some "dest".
Proof.
  rewrite <- (mountSubPath_Ok _ _ _ source_mount), <- (mountSubPath_Ok _ _ _ dest_mount).
  unfold ValidatePaths, resolveMountPaths.
  destruct (mountSubPath srcMountPath src), (mountSubPath destMountPath dst); cbn; naive_solver.
Qed.

(** An empty path means the root, which is where the walk of either starts. *)
Lemma walk_default m p : head (walk [m] (or_string p defaultPath)) = Some m <-> head (walk [m] p) = Some m.
Proof. unfold or_string. by destruct (decide (p = "")) as [->|]. Qed.

Lemma check_Ok m : Migrate.check (Migrate.ApplyDefaults m) = Ok () <-> acceptable m.
Proof.
  unfold acceptable, Migrate.check. rewrite bind_Ok. setoid_rewrite bind_Ok. cbn.
  rewrite <- checkID_Ok, <- (walk_default "source"), <- (walk_default "dest"), <- ValidatePaths_Ok.
  split.
  - intros ([] & H1 & [] & H2%fail_if_Ok & H3). apply bool_decide_eq_false in H2.
    split_and!; [done| |apply H3..]. unfold or_Z in H2. destruct (decide _); lia.
  - intros (H1 & H2 & H3). exists (). split; [done|]. exists (). split; [|done].
    apply fail_if_Ok, bool_decide_eq_false. unfold or_Z, DefaultSSHReverseTunnelPort. destruct (decide _); lia.
Qed.

(** * The properties *)


Definition options_with (port : Z) (src : string) : Migrate.t :=
  Migrate.mk "nightly" "" "" (mkClaim "" "" "" "a" src) (mkClaim "" "" "web" "b" "") false false false false false false
    false false false false false "" false "" "" port [] "" 0 0 [] [] [] [] false false.


(** The two ways to give the flush password are never both taken by the command,
    which has no flag for the password itself; a credential given by flag is never
    overridden by the environment, and the content of a service account file only
    when it is empty. *)
Theorem backup_options_sources Getenv ReadFile t saFile (b b' : Backup.t) :
  Backup.FlushPassword b = "" -> backup_options Getenv ReadFile t saFile b = Ok b' ->
  (Backup.FlushPassword b' = "" \/ Backup.FlushPasswordSecret b' = "") /\
  (Backup.AccessKey b <> "" -> Backup.AccessKey b' = Backup.AccessKey b) /\
  (Backup.SecretKey b <> "" -> Backup.SecretKey b' = Backup.SecretKey b) /\
  (forall data, saFile <> "" -> ReadFile saFile = Ok data -> data <> "" -> Backup.GCSServiceAccountJSON b' = data).
Proof.
  intros Hp. unfold backup_options, readGCSServiceAccountFile. rewrite bind_Ok. intros (gcs & Hg & H).
  injection H as <-. cbn. unfold setStringFromEnvIfEmpty, or_string. split_and!.
  - destruct (decide (Backup.FlushPasswordSecret b = "")) as [->|]; [by right|by left].
  - intros Hn. by rewrite decide_False.
  - intros Hn. by rewrite decide_False.
  - intros data Hs Hd Hn. rewrite decide_False in Hg by done. rewrite Hd in Hg. injection Hg as <-. by rewrite decide_False.
Qed.

(** ** Completing a list of values *)

Lemma filter_elem {A} (p : A -> bool) l x : x ∈ List.filter p l <-> x ∈ l /\ p x = true.
Proof. rewrite !list_elem_of_In. apply filter_In. Qed.

(** What is offered for a comma-separated flag: exactly the values not named yet
    that the last piece begins, each as the text typed so far completed by the rest
    of the value, and no text twice; the shell adds no space while there is a
    choice. *)
Theorem sliceCompletion_offers range (values : list string) (toComplete : string) :
  (forall s : gset string, range s ≡ₚ elements s) ->
  let provided := TrimSpace <$> Split toComplete "," in
  let offered := sliceCompletion range values toComplete in
  NoDup offered.1 /\
  (forall text, text ∈ offered.1 <->
     exists value suffix, value ∈ values /\ value ∉ provided /\
       value = List.last provided "" +:+ suffix /\ text = toComplete +:+ suffix) /\
  (offered.2 = NoFileCompNoSpace <-> (1 < length offered.1)%nat).
Proof.
  intros Hr provided offered. unfold offered, sliceCompletion. fold provided. cbv zeta. cbn [fst snd].
  set (remaining := list_to_set values ∖ list_to_set provided : gset string).
  set (lastPart := List.last provided "").
  assert (forall value, value ∈ range remaining <-> value ∈ values /\ value ∉ provided) as Hin.
  { intros value. rewrite (Hr remaining), elem_of_elements. unfold remaining. set_solver. }
  assert (forall value suffix, value = lastPart +:+ suffix -> TrimPrefix value lastPart = suffix) as Ht.
  { intros value suffix ->. unfold TrimPrefix. by rewrite CutPrefix_app. }
  split_and!.
  - assert (NoDup (List.filter (fun value => HasPrefix value lastPart) (range remaining))) as Hnd.
    { apply NoDup_ListNoDup, List.NoDup_filter, NoDup_ListNoDup. rewrite (Hr remaining). apply NoDup_elements. }
    apply NoDup_fmap_2_strong; [|done]. intros x y Hx Hy E.
    apply filter_elem in Hx as [_ [sx ->]%HasPrefix_spec]. apply filter_elem in Hy as [_ [sy ->]%HasPrefix_spec].
    rewrite (Ht _ sx), (Ht _ sy) in E by done. by apply (inj _) in E as ->.
  - intros text. rewrite list_elem_of_fmap. split.
    + intros (value & -> & [Hv [suffix E]%HasPrefix_spec]%filter_elem). exists value, suffix.
      rewrite (Ht _ suffix) by done. apply Hin in Hv as []. done.
    + intros (value & suffix & Hv & Hn & E & ->). exists value. rewrite (Ht _ suffix) by done. split; [done|].
      apply filter_elem. split; [by apply Hin|]. rewrite E. apply HasPrefix_app.
  - destruct (decide _); naive_solver lia.
Qed.
