(* ===== verification/Lens.v ===== *)
(** * Record fields as lenses

    A variable that something else is told to write into - a flag bound to a field
    of an options record - is a lens: how the field is read, and how it is written.
    [field] makes one of a projection; the writing function is found by instance
    search, from the record's own eta expansion ([Eta]). *)
From S2P Require Import Prelude.
From stdpp Require Import options.

Record Lens (S A : Type) : Type := mkLens { view : S -> A; put : A -> S -> S }.
Arguments mkLens {S A} _ _.
Arguments view {S A} _ _.
Arguments put {S A} _ _ _.

(** The record rebuilt from its fields. *)
Class Eta (S : Type) : Type := eta : S -> S.

Class Setter {S A : Type} (proj : S -> A) : Type := setter : (S -> A) -> S -> S.

(** Every use of the projection in the eta expansion becomes an argument. *)
Ltac find_setter proj :=
  match type of proj with
  | ?S -> _ =>
      let e := constr:(_ : Eta S) in
      let e := eval red in e in
      let e := eval unfold eta in e in
      let e := match e with fun x => _ => e | _ => eval red in e end in
      let abstracted := eval pattern proj in e in
      match abstracted with ?f _ => exact f end
  end.
#[export] Hint Extern 1 (Setter ?proj) => find_setter proj : typeclass_instances.

Definition field {S A} (proj : S -> A) `{!Setter proj} : Lens S A :=
  mkLens proj (fun a s => setter (fun _ => a) s).

Definition within {S A B} (outer : Lens S A) (inner : Lens A B) : Lens S B :=
  mkLens (fun s => view inner (view outer s)) (fun b s => put outer (put inner b (view outer s)) s).
Infix "▷" := within (at level 45, right associativity) : go_scope.

(** ** Laws *)

Class Lawful {S A} (l : Lens S A) : Prop := {
  view_put a s : view l (put l a s) = a;
  put_view s : put l (view l s) s = s;
  put_put a b s : put l a (put l b s) = put l a s
}.

(** Writing to the one variable leaves the other, in either order. *)
Class Independent {S A B} (l : Lens S A) (k : Lens S B) : Prop := {
  view_other b s : view l (put k b s) = view l s;
  view_other' a s : view k (put l a s) = view k s;
  put_comm a b s : put l a (put k b s) = put k b (put l a s)
}.

#[export] Instance within_lawful {S A B} (l : Lens S A) (k : Lens A B) : Lawful l -> Lawful k -> Lawful (l ▷ k).
Proof.
  intros Hl Hk. split; intros; cbn.
  - by rewrite (view_put (l := l)), (view_put (l := k)).
  - by rewrite (put_view (l := k)), (put_view (l := l)).
  - by rewrite (view_put (l := l)), (put_put (l := k)), (put_put (l := l)).
Qed.

Lemma independent_sym {S A B} (l : Lens S A) (k : Lens S B) : Independent l k -> Independent k l.
Proof. intros [H1 H2 H3]. split; intros; [apply H2|apply H1|symmetry; apply H3]. Qed.

(** Two fields of one inner record are as independent as they are there. *)
Lemma independent_within {S A B C} (o : Lens S A) (l : Lens A B) (k : Lens A C) :
  Lawful o -> Independent l k -> Independent (o ▷ l) (o ▷ k).
Proof.
  intros Ho [H1 H2 H3]. split; intros; cbn; rewrite ?(view_put (l := o)), ?(put_put (l := o)), ?H1, ?H2, ?H3; done.
Qed.

(** Fields of independent records are independent. *)
Lemma independent_outer {S A B C D} (o : Lens S A) (o' : Lens S B) (l : Lens A C) (k : Lens B D) :
  Independent o o' -> Independent (o ▷ l) (o' ▷ k).
Proof. intros [H1 H2 H3]. split; intros; cbn; rewrite ?H1, ?H2; done. Qed.

(** A field of a record is lawful, by its constructor. *)
Ltac field_lawful := split; [reflexivity|by intros []|reflexivity].
#[export] Hint Extern 1 (Lawful (field _)) => field_lawful : typeclass_instances.

(** Two fields are independent when the terms are there to compute with. *)
Ltac fields_independent := split; intros; reflexivity.
