(* ===== verification/Flags.v ===== *)
(** * Flags of a command, and the library they are handed to

    internal/app hands its flags to cobra and pflag one call at a time: a flag is
    defined with the variable it writes to, a flag is marked required, a function
    is registered to complete one.  The library is a class here: what the three
    calls answer is its business ([Cobra]), and what the code relies on are its
    documented laws ([LawfulCobra]).  A flag has the type of its variable, so a
    default of another type cannot be written down. *)
From S2P Require Import Prelude GoStrings Lens.
From stdpp Require Import options.
Local Open Scope nat_scope.

(** ** Flags *)

Inductive kind : Type := KString | KBool | KInt | KDuration | KStringSlice.

(** The Go type of a flag's variable; an int and a duration in nanoseconds are [Z]. *)
Definition value (k : kind) : Type :=
  match k with
  | KString => string
  | KBool => bool
  | KInt | KDuration => Z
  | KStringSlice => list string
  end.

Definition kind_eqb (k l : kind) : bool :=
  match k, l with
  | KString, KString | KBool, KBool | KInt, KInt | KDuration, KDuration | KStringSlice, KStringSlice => true
  | _, _ => false
  end.

(** A flag bound to a variable among those of [O]. *)
Record flag (O : Type) : Type := mkFlag {
  flag_name : string;
  shorthand : string;              (* empty for none *)
  flag_kind : kind;
  bound : Lens O (value flag_kind);
  DefValue : value flag_kind
}.
Arguments mkFlag {O}.
Arguments flag_name {O}.
Arguments shorthand {O}.
Arguments flag_kind {O}.
Arguments bound {O}.
Arguments DefValue {O}.

Section Flags.
Context {O C : Type}.

(** The methods of [pflag.FlagSet] that the commands use. *)
Definition StringVarP (p : Lens O string) (name short v : string) : flag O := mkFlag name short KString p v.
Definition StringVar (p : Lens O string) (name v : string) : flag O := StringVarP p name "" v.
Definition BoolVarP (p : Lens O bool) (name short : string) (v : bool) : flag O := mkFlag name short KBool p v.
Definition BoolVar (p : Lens O bool) (name : string) (v : bool) : flag O := BoolVarP p name "" v.
Definition IntVar (p : Lens O Z) (name : string) (v : Z) : flag O := mkFlag name "" KInt p v.
Definition DurationVarP (p : Lens O Z) (name short : string) (v : Z) : flag O := mkFlag name short KDuration p v.
Definition DurationVar (p : Lens O Z) (name : string) (v : Z) : flag O := DurationVarP p name "" v.
Definition StringSliceVarP (p : Lens O (list string)) (name short : string) (v : list string) : flag O :=
  mkFlag name short KStringSlice p v.
Definition StringSliceVar (p : Lens O (list string)) (name : string) (v : list string) : flag O :=
  StringSliceVarP p name "" v.

(** One call of the library; a failed one is returned with the message around it. *)
Inductive call : Type :=
  | Define (f : flag O)
  | MarkRequired (name : string)
  | Complete (name : string) (fn : C) (message : string).

Definition require_message : string := "failed to mark flag %q as required: %w".

(** Defining a flag gives its variable the default. *)
Definition defined (calls : list call) (o : O) : O :=
  fold_left (fun o c => match c with Define f => put (bound f) (DefValue f) o | _ => o end) calls o.

Definition flags_of (calls : list call) : list (flag O) :=
  omap (fun c => match c with Define f => Some f | _ => None end) calls.
End Flags.
Arguments call : clear implicits.

(** ** The library *)

Class Cobra (O C : Type) : Type := {
  command : Type;
  AddFlag : flag O -> command -> option command;        (* [None]: it panics *)
  MarkFlagRequired : string -> command -> result command;
  RegisterFlagCompletionFunc : string -> C -> command -> result command;
  (* what a command has *)
  names : command -> list string;
  shorthands : command -> list string;
  completed : command -> list string
}.

(** A flag is refused for its name or its shorthand only, and marking or completing
    one that is there succeeds, the latter once. *)
Class LawfulCobra O C {L : Cobra O C} : Prop := {
  AddFlag_ok f c :
    flag_name f ∉ names c -> String.length (shorthand f) <= 1 -> shorthand f ∉ shorthands c ->
    exists c', AddFlag f c = Some c' /\ names c' = flag_name f :: names c /\
      shorthands c' = (if decide (shorthand f = "") then shorthands c else shorthand f :: shorthands c) /\
      completed c' = completed c;
  MarkFlagRequired_ok n c :
    n ∈ names c ->
    exists c', MarkFlagRequired n c = Ok c' /\ names c' = names c /\ shorthands c' = shorthands c /\ completed c' = completed c;
  RegisterFlagCompletionFunc_ok n fn c :
    n ∈ names c -> n ∉ completed c ->
    exists c', RegisterFlagCompletionFunc n fn c = Ok c' /\ names c' = names c /\ shorthands c' = shorthands c /\
      completed c' = n :: completed c
}.

(** How the building of a command ends. *)
Inductive built (A : Type) : Type := Built (a : A) | Failed (e : error) | Panicked.
Arguments Built {A}.
Arguments Failed {A}.
Arguments Panicked {A}.

#[export] Instance built_bind : MBind built := fun A B f b =>
  match b with Built a => f a | Failed e => Failed e | Panicked => Panicked end.

(** [fmt.Errorf] with [%w] around what failed. *)
Definition wrap_built {A} (format : string) (b : built A) : built A :=
  match b with Failed e => Failed (Errorf format [AWrap e]) | b => b end.

Section Build.
Context {O C : Type} `{L : Cobra O C}.

Definition make (c : call O C) (cmd : command) : built command :=
  match c with
  | Define f => match AddFlag f cmd with Some cmd => Built cmd | None => Panicked end
  | MarkRequired n =>
      match MarkFlagRequired n cmd with
      | Ok cmd => Built cmd
      | Err e => Failed (Errorf require_message [AStr n; AWrap e])
      end
  | Complete n fn message =>
      match RegisterFlagCompletionFunc n fn cmd with
      | Ok cmd => Built cmd
      | Err e => Failed (Errorf message [AStr n; AWrap e])
      end
  end.

Fixpoint build (calls : list (call O C)) (cmd : command) : built command :=
  match calls with
  | [] => Built cmd
  | c :: calls => cmd ← make c cmd; build calls cmd
  end.

Lemma build_app a b cmd : build (a ++ b) cmd = cmd ← build a cmd; build b cmd.
Proof.
  revert cmd. induction a as [|c a IH]; intros cmd; [done|]. cbn. destruct (make c cmd); [apply IH|done..].
Qed.
End Build.

(** ** When a command can be built *)

Section Fits.
Context {O C : Type}.

(** The calls are fine after flags of these names and shorthands, with these
    completed. *)
Fixpoint fits (ns ss done : list string) (calls : list (call O C)) : bool :=
  match calls with
  | [] => true
  | Define f :: calls =>
      bool_decide (flag_name f ∉ ns) && bool_decide (String.length (shorthand f) <= 1) && bool_decide (shorthand f ∉ ss) &&
      fits (flag_name f :: ns) (if decide (shorthand f = "") then ss else shorthand f :: ss) done calls
  | MarkRequired n :: calls => bool_decide (n ∈ ns) && fits ns ss done calls
  | Complete n _ _ :: calls => bool_decide (n ∈ ns) && bool_decide (n ∉ done) && fits ns ss (n :: done) calls
  end.

Lemma fits_build `{L : Cobra O C} {H : LawfulCobra O C} calls : forall cmd,
  fits (names cmd) (shorthands cmd) (completed cmd) calls = true ->
  exists cmd', build calls cmd = Built cmd' /\
    (forall n, n ∈ names cmd' <-> n ∈ names cmd \/ n ∈ flag_name <$> flags_of calls).
Proof.
  induction calls as [|[f|n|n fn message] calls IH]; intros cmd Hf.
  - exists cmd. split; [done|]. intros n. cbn. rewrite elem_of_nil. tauto.
  - cbn [fits] in Hf. rewrite !andb_true_iff, !bool_decide_eq_true in Hf. destruct Hf as [[[H1 H2] H3] Hf].
    destruct (AddFlag_ok f cmd H1 H2 H3) as (cmd1 & E & En & Es & Ec). rewrite <- En, <- Es, <- Ec in Hf.
    destruct (IH cmd1 Hf) as (cmd' & E' & Hn). exists cmd'. cbn. rewrite E. split; [done|].
    intros n. rewrite Hn, En. cbn. rewrite !elem_of_cons. tauto.
  - cbn [fits] in Hf. rewrite !andb_true_iff, !bool_decide_eq_true in Hf. destruct Hf as [H1 Hf].
    destruct (MarkFlagRequired_ok n cmd H1) as (cmd1 & E & En & Es & Ec). rewrite <- En, <- Es, <- Ec in Hf.
    destruct (IH cmd1 Hf) as (cmd' & E' & Hn). exists cmd'. cbn. rewrite E. split; [done|]. intros m. by rewrite Hn, En.
  - cbn [fits] in Hf. rewrite !andb_true_iff, !bool_decide_eq_true in Hf. destruct Hf as [[H1 H2] Hf].
    destruct (RegisterFlagCompletionFunc_ok n fn cmd H1 H2) as (cmd1 & E & En & Es & Ec). rewrite <- En, <- Es, <- Ec in Hf.
    destruct (IH cmd1 Hf) as (cmd' & E' & Hn). exists cmd'. cbn. rewrite E. split; [done|]. intros m. by rewrite Hn, En.
Qed.
End Fits.

(** ** What a command line means *)

Section Given.
Context {O C : Type}.

(** A flag that was given, with the value that was read for it. *)
Definition given : Type := { f : flag O & value (flag_kind f) }.
Definition given_flag (g : given) : flag O := projT1 g.
Definition given_name (g : given) : string := flag_name (given_flag g).

Definition assign (o : O) (g : given) : O := put (bound (given_flag g)) (projT2 g) o.
Definition assign_all (gs : list given) (o : O) : O := fold_left assign gs o.

(** Every flag has a variable of its own. *)
Class Wired (fs : list (flag O)) : Prop := {
  wired_lawful f : f ∈ fs -> Lawful (bound f);
  wired_independent f g : f ∈ fs -> g ∈ fs -> flag_name f <> flag_name g -> Independent (bound f) (bound g)
}.

Lemma Wired_intro (fs : list (flag O)) :
  Forall (fun f => Lawful (bound f)) fs -> ForallOrdPairs (fun f g => Independent (bound f) (bound g)) fs -> Wired fs.
Proof.
  intros H1 H2. split; [by apply Forall_forall|]. clear H1. induction H2 as [|f fs Hf _ IH]; [by intros f g H%elem_of_nil|].
  rewrite List.Forall_forall in Hf. intros g h [->|Hg]%elem_of_cons [->|Hh]%elem_of_cons Hn; try done.
  - apply Hf. by apply list_elem_of_In.
  - apply independent_sym, Hf. by apply list_elem_of_In.
  - by apply IH.
Qed.

Context (fs : list (flag O)) {W : Wired fs}.

Lemma assign_all_other f gs o :
  f ∈ fs -> Forall (fun g => given_flag g ∈ fs) gs -> flag_name f ∉ given_name <$> gs ->
  view (bound f) (assign_all gs o) = view (bound f) o.
Proof using W.
  intros Hf Hgs. revert o. induction Hgs as [|g gs Hg Hgs IH]; intros o Hn; [done|].
  cbn in *. apply not_elem_of_cons in Hn as [Hn Hns]. rewrite IH by done. unfold assign.
  apply (view_other (Independent := wired_independent f (given_flag g) Hf Hg Hn)).
Qed.

(** A given flag is in its variable, whatever else is given. *)
Lemma assign_all_given g gs o :
  Forall (fun g => given_flag g ∈ fs) gs -> NoDup (given_name <$> gs) -> g ∈ gs ->
  view (bound (given_flag g)) (assign_all gs o) = projT2 g.
Proof using W.
  intros Hgs. revert o. induction Hgs as [|g' gs Hg Hgs IH]; intros o Hnd Hin; [by apply elem_of_nil in Hin|].
  cbn in *. apply NoDup_cons in Hnd as [Hn Hnd]. apply elem_of_cons in Hin as [->|Hin]; [|by apply IH].
  rewrite assign_all_other by done. unfold assign. apply (view_put (Lawful := wired_lawful (given_flag g') Hg)).
Qed.

(** Before any is given, a variable has the default of its flag. *)
Definition default_of (f : flag O) : given := existT f (DefValue f).

Lemma defined_assign (calls : list (call O C)) o :
  defined calls o = assign_all (default_of <$> flags_of calls) o.
Proof using Type.
  unfold defined, assign_all. revert o. induction calls as [|[f|n|n fn m] calls IH]; intros o; [done|apply IH..].
Qed.
End Given.
Arguments given : clear implicits.

(** The variables of a command after its flags were read. *)
Lemma command_line {O C} (calls : list (call O C)) {W : Wired (flags_of calls)} (gs : list (given O)) o f :
  NoDup (flag_name <$> flags_of calls) -> Forall (fun g => given_flag g ∈ flags_of calls) gs -> NoDup (given_name <$> gs) ->
  f ∈ flags_of calls ->
  (flag_name f ∉ given_name <$> gs -> view (bound f) (assign_all gs (defined calls o)) = DefValue f) /\
  (forall v, existT f v ∈ gs -> view (bound f) (assign_all gs (defined calls o)) = v).
Proof.
  intros Hnd Hgs Hgn Hf. split.
  - intros Hn. rewrite (assign_all_other (flags_of calls)) by done. rewrite defined_assign.
    assert (default_of f ∈ default_of <$> flags_of calls) as Hd by (by apply list_elem_of_fmap_2).
    apply (assign_all_given (flags_of calls) (default_of f)); [| |done].
    + apply Forall_forall. intros g (f' & -> & Hf')%list_elem_of_fmap. done.
    + by rewrite <- list_fmap_compose.
  - intros v Hv. apply (assign_all_given (flags_of calls) (existT f v) gs _ Hgs Hgn Hv).
Qed.

(** ** A library that obeys the laws *)

(** A command as the three lists, refusing what the laws leave open. *)
Record listed : Type := mkListed { ls_names : list string; ls_shorthands : list string; ls_completed : list string }.

#[export] Instance listed_cobra O C : Cobra O C := {|
  command := listed;
  AddFlag f c :=
    if bool_decide (flag_name f ∈ ls_names c) || negb (bool_decide (String.length (shorthand f) <= 1))
       || bool_decide (shorthand f ∈ ls_shorthands c)
    then None
    else Some (mkListed (flag_name f :: ls_names c)
                 (if decide (shorthand f = "") then ls_shorthands c else shorthand f :: ls_shorthands c) (ls_completed c));
  MarkFlagRequired n c :=
    if bool_decide (n ∈ ls_names c) then Ok c else Err (Errorf "no such flag -%v" [AStr n]);
  RegisterFlagCompletionFunc n _ c :=
    if negb (bool_decide (n ∈ ls_names c)) then Err (Errorf "RegisterFlagCompletionFunc: flag '%s' does not exist" [AStr n])
    else if bool_decide (n ∈ ls_completed c) then Err (Errorf "RegisterFlagCompletionFunc: flag '%s' already registered" [AStr n])
    else Ok (mkListed (ls_names c) (ls_shorthands c) (n :: ls_completed c));
  names := ls_names;
  shorthands := ls_shorthands;
  completed := ls_completed
|}.

#[export] Instance listed_lawful O C : LawfulCobra O C.
Proof.
  split; cbn; intros.
  - rewrite (bool_decide_false (_ ∈ _)) by done. rewrite (bool_decide_true (_ <= _)) by done.
    rewrite (bool_decide_false (_ ∈ _)) by done. cbn. eauto.
  - rewrite bool_decide_true by done. eauto.
  - rewrite bool_decide_true by done. cbn. rewrite bool_decide_false by done. eauto.
Qed.
