(* ===== verification/CommandLine.v ===== *)
(** * internal/app: the commands and their flags

    migrate.go, backup.go, cleanup.go, status.go and completion.go, as far as they
    say what a command accepts and which variable each flag writes to.  A command is
    the list of calls it makes to the flag library ([Flags.call]), in the order of
    the code, over a record of the variables the flags are bound to.  Texts shown
    only in the help ([Use], [Short], the usage of a flag, the default shown for
    [--show-progress-bar]) are left out.  What runs once the flags are read is in
    Api.v and App.v, and the completion command, which has none, in Completions.v. *)
From S2P Require Import Prelude GoStrings Fmt Lens Flags Opid Rclone Migration BucketRequest Flush Console Narrate Api.
From stdpp Require Import options.
Local Open Scope nat_scope.

(** ** migrate.go, backup.go: the names *)

Definition FlagLogLevel : string := "log-level".
Definition FlagLogFormat : string := "log-format".
Definition FlagSource : string := "source".
Definition FlagSourceKubeconfig : string := "source-kubeconfig".
Definition FlagSourceContext : string := "source-context".
Definition FlagSourceNamespace : string := "source-namespace".
Definition FlagSourcePath : string := "source-path".
Definition FlagDest : string := "dest".
Definition FlagDestKubeconfig : string := "dest-kubeconfig".
Definition FlagDestContext : string := "dest-context".
Definition FlagDestNamespace : string := "dest-namespace".
Definition FlagDestPath : string := "dest-path".
Definition FlagDestHostOverride : string := "dest-host-override".
Definition FlagLoadBalancerTimeout : string := "loadbalancer-timeout".
Definition FlagID : string := "id".
Definition FlagDestDeleteExtraneousFiles : string := "dest-delete-extraneous-files".
Definition FlagIgnoreMounted : string := "ignore-mounted".
Definition FlagIgnoreSizes : string := "ignore-sizes".
Definition FlagNoChown : string := "no-chown".
Definition FlagDetach : string := "detach".
Definition FlagNoCleanup : string := "no-cleanup".
Definition FlagNoCleanupOnFailure : string := "no-cleanup-on-failure".
Definition FlagShowProgressBar : string := "show-progress-bar".
Definition FlagSourceMountReadWrite : string := "source-mount-read-write".
Definition FlagStrategies : string := "strategies".
Definition FlagSSHKeyAlgorithm : string := "ssh-key-algorithm".
Definition FlagSSHReverseTunnelPort : string := "ssh-reverse-tunnel-port".
Definition FlagNoCompress : string := "no-compress".
Definition FlagMover : string := "mover".
Definition FlagNonRoot : string := "non-root".
Definition FlagRsyncExtraArgs : string := "rsync-extra-args".
Definition FlagRsyncPush : string := "rsync-push".
Definition FlagHelmTimeout : string := "helm-timeout".
Definition FlagHelmValues : string := "helm-values".
Definition FlagHelmSet : string := "helm-set".
Definition FlagHelmSetString : string := "helm-set-string".
Definition FlagHelmSetFile : string := "helm-set-file".
Definition FlagBackend : string := "backend".
Definition FlagBucket : string := "bucket".
Definition FlagS3Provider : string := "s3-provider".
Definition FlagEndpoint : string := "endpoint".
Definition FlagRegion : string := "region".
Definition FlagAccessKey : string := "access-key".
Definition FlagSecretKey : string := "secret-key".
Definition FlagStorageAccount : string := "storage-account".
Definition FlagStorageKey : string := "storage-key".
Definition FlagGCSServiceAccountFile : string := "gcs-service-account-file".
Definition FlagGCSBucketPolicyOnly : string := "gcs-bucket-policy-only".
Definition FlagName : string := "name".
Definition FlagPrefix : string := "prefix".
Definition FlagRcloneConfig : string := "rclone-config".
Definition FlagRemote : string := "remote".
Definition FlagPath : string := "path".
Definition FlagRcloneExtraArgs : string := "rclone-extra-args".
Definition FlagDeleteExtraneousFiles : string := "delete-extraneous-files".
Definition FlagArchiveFile : string := "archive-file".
Definition FlagCompressionLevel : string := "compression-level".
Definition FlagSnapshot : string := "snapshot".
Definition FlagSnapshotClass : string := "snapshot-class".
Definition FlagKeepSnapshot : string := "keep-snapshot".
Definition FlagFromSnapshot : string := "from-snapshot".
Definition FlagFlush : string := "flush".
Definition FlagFlushContainer : string := "flush-container".
Definition FlagFlushCommand : string := "flush-command".
Definition FlagFlushUser : string := "flush-user".
Definition FlagFlushPasswordSecret : string := "flush-password-secret".

Definition logFormatText : string := "text".
Definition logFormatJSON : string := "json".

(** [KeyAlgorithms] of pvmigrate.go *)
Definition KeyAlgorithms : list string := [RSA; Ed25519].

(** ** The records the flags write to *)

#[export] Instance PVC_eta : Eta PVC := fun p =>
  mkClaim (claim_Kubeconfig p) (claim_Context p) (claim_Namespace p) (claim_Name p) (claim_Path p).
#[export] Instance Migrate_eta : Eta Migrate.t := fun o =>
  Migrate.mk
    (Migrate.ID o) (Migrate.ImageTag o) (Migrate.ChartVersion o) (Migrate.Source o) (Migrate.Dest o)
    (Migrate.DeleteExtraneousFiles o) (Migrate.IgnoreMounted o) (Migrate.IgnoreSizes o) (Migrate.NoChown o)
    (Migrate.Detach o) (Migrate.Push o) (Migrate.NoCleanup o) (Migrate.NoCleanupOnFailure o)
    (Migrate.ShowProgressBar o) (Migrate.SourceMountReadWrite o) (Migrate.NoCompress o) (Migrate.Mover o)
    (Migrate.NonRoot o) (Migrate.RsyncExtraArgs o) (Migrate.KeyAlgorithm o) (Migrate.SSHReverseTunnelPort o)
    (Migrate.Strategies o) (Migrate.DestHostOverride o) (Migrate.HelmTimeout o) (Migrate.LoadBalancerTimeout o)
    (Migrate.HelmValuesFiles o) (Migrate.HelmValues o) (Migrate.HelmFileValues o) (Migrate.HelmStringValues o)
    (Migrate.StructuredLogs o) (Migrate.ColorOutput o).
#[export] Instance Backup_eta : Eta Backup.t := fun o =>
  Backup.mk
    (Backup.ID o) (Backup.ImageTag o) (Backup.ChartVersion o) (Backup.claim o) (Backup.Backend o)
    (Backup.Bucket o) (Backup.S3Provider o) (Backup.Endpoint o) (Backup.Region o) (Backup.AccessKey o)
    (Backup.SecretKey o) (Backup.StorageAccount o) (Backup.StorageKey o) (Backup.GCSServiceAccountJSON o)
    (Backup.GCSBucketPolicyOnly o) (Backup.Name o) (Backup.Prefix o) (Backup.Path o) (Backup.RcloneConfigFile o)
    (Backup.Remote o) (Backup.RcloneExtraArgs o) (Backup.ArchiveFile o) (Backup.CompressionLevel o)
    (Backup.Snapshot o) (Backup.SnapshotClass o) (Backup.KeepSnapshot o) (Backup.FromSnapshot o)
    (Backup.Flush o) (Backup.FlushContainer o) (Backup.FlushCommand o) (Backup.FlushUser o)
    (Backup.FlushPassword o) (Backup.FlushPasswordSecret o) (Backup.IgnoreMounted o) (Backup.NonRoot o)
    (Backup.Detach o) (Backup.NoCleanup o) (Backup.NoCleanupOnFailure o) (Backup.HelmTimeout o)
    (Backup.HelmValuesFiles o) (Backup.HelmValues o) (Backup.HelmFileValues o) (Backup.HelmStringValues o)
    (Backup.StructuredLogs o) (Backup.ColorOutput o).
#[export] Instance Restore_eta : Eta Restore.t := fun o =>
  Restore.mk
    (Restore.ID o) (Restore.ImageTag o) (Restore.ChartVersion o) (Restore.claim o) (Restore.Backend o)
    (Restore.Bucket o) (Restore.S3Provider o) (Restore.Endpoint o) (Restore.Region o) (Restore.AccessKey o)
    (Restore.SecretKey o) (Restore.StorageAccount o) (Restore.StorageKey o) (Restore.GCSServiceAccountJSON o)
    (Restore.GCSBucketPolicyOnly o) (Restore.Name o) (Restore.Prefix o) (Restore.Path o)
    (Restore.RcloneConfigFile o) (Restore.Remote o) (Restore.RcloneExtraArgs o) (Restore.ArchiveFile o)
    (Restore.CompressionLevel o) (Restore.DeleteExtraneousFiles o) (Restore.IgnoreMounted o) (Restore.NonRoot o)
    (Restore.Detach o) (Restore.NoCleanup o) (Restore.NoCleanupOnFailure o) (Restore.HelmTimeout o)
    (Restore.HelmValuesFiles o) (Restore.HelmValues o) (Restore.HelmFileValues o) (Restore.HelmStringValues o)
    (Restore.StructuredLogs o) (Restore.ColorOutput o).

Definition zero_PVC : PVC := mkClaim "" "" "" "" "".
Definition zero_Migration : Migrate.t :=
  Migrate.mk
    "" "" "" zero_PVC zero_PVC false false false false false false false false false false false "" false "" ""
    0%Z [] "" 0%Z 0%Z [] [] [] [] false false.
Definition zero_Backup : Backup.t :=
  Backup.mk
    "" "" "" zero_PVC "" "" "" "" "" "" "" "" "" "" None "" "" "" "" "" "" "" 0%Z false "" false "" "" "" [] ""
    "" "" false false false false false 0%Z [] [] [] [] false false.
Definition zero_Restore : Restore.t :=
  Restore.mk
    "" "" "" zero_PVC "" "" "" "" "" "" "" "" "" "" None "" "" "" "" "" "" "" 0%Z false false false false false
    false 0%Z [] [] [] [] false false.

(** [Options] *)
Record Options : Type := mkOptions {
  LogLevel : string;
  LogFormat : string;
  Migration : Migrate.t;
  strategies : list string;
  keyAlgorithm : string
}.
#[export] Instance Options_eta : Eta Options := fun o =>
  mkOptions (LogLevel o) (LogFormat o) (Migration o) (strategies o) (keyAlgorithm o).

(** The variables of [buildBackupCmd] and [buildRestoreCmd]; the last is the flag
    that has none of its own. *)
Record BackupVars : Type := mkBackupVars { backup : Backup.t; backup_gcsBucketPolicyOnly : bool; backup_saFile : string }.
#[export] Instance BackupVars_eta : Eta BackupVars := fun o =>
  mkBackupVars (backup o) (backup_gcsBucketPolicyOnly o) (backup_saFile o).
Record RestoreVars : Type := mkRestoreVars { restore : Restore.t; restore_gcsBucketPolicyOnly : bool; restore_saFile : string }.
#[export] Instance RestoreVars_eta : Eta RestoreVars := fun o =>
  mkRestoreVars (restore o) (restore_gcsBucketPolicyOnly o) (restore_saFile o).

(** Those of [buildStatusCmd] and [buildCleanupCmd]. *)
Record StatusVars : Type := mkStatusVars {
  status_kubeconfig : string; status_context : string; status_namespace : string; follow : bool
}.
#[export] Instance StatusVars_eta : Eta StatusVars := fun o =>
  mkStatusVars (status_kubeconfig o) (status_context o) (status_namespace o) (follow o).
Record CleanupVars : Type := mkCleanupVars {
  cleanup_kubeconfig : string; cleanup_context : string; cleanup_namespace : string; all : bool; force : bool
}.
#[export] Instance CleanupVars_eta : Eta CleanupVars := fun o =>
  mkCleanupVars (cleanup_kubeconfig o) (cleanup_context o) (cleanup_namespace o) (all o) (force o).

(** ** completion.go: the functions, as data *)

Inductive completion : Type :=
  | NoFileComplete                                   (* [completionFuncNoFileComplete] *)
  | StaticSlice (values : list string)
  | SliceOf (values : list string)
  | KubeContext (kubeconfigFlag : string)
  | KubeNS (kubeconfigFlag contextFlag : string)
  | PVCNames (isDestPVC : bool).

(** ** migrate.go: the root command *)

Definition logLevels : list string := ["DEBUG"; "INFO"; "WARN"; "ERROR"].
Definition logFormats : list string := [logFormatText; logFormatJSON].

Definition message_completion : string := "failed to register completion for flag %q: %w".

(** The variables before the flags are defined. *)
Definition migration_of (version : string) (isATTY : bool) : Migrate.t :=
  let m := put (field Migrate.ImageTag) (releaseImageTag version)
             (put (field Migrate.ChartVersion) (releaseChartVersion version) zero_Migration) in
  put (field Migrate.ShowProgressBar) isATTY (Migrate.ApplyDefaults m).
Definition options_of (version : string) (isATTY : bool) : Options :=
  let m := migration_of version isATTY in
  mkOptions "INFO" logFormatText m (Migrate.Strategies m) (Migrate.KeyAlgorithm m).

Definition migration : Lens Options Migrate.t := field Migration.
Definition migration_source : Lens Options PVC := migration ▷ field Migrate.Source.
Definition migration_dest : Lens Options PVC := migration ▷ field Migrate.Dest.

(** [persistentFlags], which every command inherits. *)
Definition persistentFlags (o : Options) : list (call Options completion) := [
  Define (StringVar (field LogLevel) FlagLogLevel (LogLevel o));
  Define (StringVar (field LogFormat) FlagLogFormat (LogFormat o))
].

Definition setMigrateCmdFlags (o : Options) : list (call Options completion) :=
  let m := Migration o in
  persistentFlags o ++ [
  Define (StringVarP (migration_source ▷ field claim_Kubeconfig) FlagSourceKubeconfig "k" (claim_Kubeconfig (Migrate.Source m)));
  Define (StringVarP (migration_source ▷ field claim_Context) FlagSourceContext "c" (claim_Context (Migrate.Source m)));
  Define (StringVarP (migration_source ▷ field claim_Namespace) FlagSourceNamespace "n" (claim_Namespace (Migrate.Source m)));
  Define (StringVar (migration_source ▷ field claim_Name) FlagSource (claim_Name (Migrate.Source m)));
  MarkRequired FlagSource;
  Define (StringVarP (migration_source ▷ field claim_Path) FlagSourcePath "p" (claim_Path (Migrate.Source m)));
  Define (StringVarP (migration_dest ▷ field claim_Kubeconfig) FlagDestKubeconfig "K" (claim_Kubeconfig (Migrate.Dest m)));
  Define (StringVarP (migration_dest ▷ field claim_Context) FlagDestContext "C" (claim_Context (Migrate.Dest m)));
  Define (StringVarP (migration_dest ▷ field claim_Namespace) FlagDestNamespace "N" (claim_Namespace (Migrate.Dest m)));
  Define (StringVar (migration_dest ▷ field claim_Name) FlagDest (claim_Name (Migrate.Dest m)));
  MarkRequired FlagDest;
  Define (StringVarP (migration_dest ▷ field claim_Path) FlagDestPath "P" (claim_Path (Migrate.Dest m)));
  Define (BoolVarP (migration ▷ field Migrate.DeleteExtraneousFiles) FlagDestDeleteExtraneousFiles "d" (Migrate.DeleteExtraneousFiles m));
  Define (BoolVarP (migration ▷ field Migrate.IgnoreMounted) FlagIgnoreMounted "i" (Migrate.IgnoreMounted m));
  Define (BoolVar (migration ▷ field Migrate.IgnoreSizes) FlagIgnoreSizes (Migrate.IgnoreSizes m));
  Define (BoolVarP (migration ▷ field Migrate.NoChown) FlagNoChown "o" (Migrate.NoChown m));
  Define (StringVar (migration ▷ field Migrate.ID) FlagID (Migrate.ID m));
  Define (BoolVar (migration ▷ field Migrate.Detach) FlagDetach (Migrate.Detach m));
  Define (BoolVarP (migration ▷ field Migrate.NoCleanup) FlagNoCleanup "x" (Migrate.NoCleanup m));
  Define (BoolVar (migration ▷ field Migrate.NoCleanupOnFailure) FlagNoCleanupOnFailure (Migrate.NoCleanupOnFailure m));
  Define (BoolVarP (migration ▷ field Migrate.ShowProgressBar) FlagShowProgressBar "b" (Migrate.ShowProgressBar m));
  Define (BoolVarP (migration ▷ field Migrate.SourceMountReadWrite) FlagSourceMountReadWrite "R" (Migrate.SourceMountReadWrite m));
  Define (StringSliceVarP (field strategies) FlagStrategies "s" (strategies o));
  Define (StringVarP (field keyAlgorithm) FlagSSHKeyAlgorithm "a" (keyAlgorithm o));
  Define (IntVar (migration ▷ field Migrate.SSHReverseTunnelPort) FlagSSHReverseTunnelPort (Migrate.SSHReverseTunnelPort m));
  Define (StringVarP (migration ▷ field Migrate.DestHostOverride) FlagDestHostOverride "H" (Migrate.DestHostOverride m));
  Define (DurationVar (migration ▷ field Migrate.LoadBalancerTimeout) FlagLoadBalancerTimeout (Migrate.LoadBalancerTimeout m));
  Define (BoolVar (migration ▷ field Migrate.NoCompress) FlagNoCompress (Migrate.NoCompress m));
  Define (StringVar (migration ▷ field Migrate.Mover) FlagMover (Migrate.Mover m));
  Define (BoolVar (migration ▷ field Migrate.NonRoot) FlagNonRoot (Migrate.NonRoot m));
  Define (StringVar (migration ▷ field Migrate.RsyncExtraArgs) FlagRsyncExtraArgs (Migrate.RsyncExtraArgs m));
  Define (BoolVar (migration ▷ field Migrate.Push) FlagRsyncPush (Migrate.Push m));
  Define (DurationVarP (migration ▷ field Migrate.HelmTimeout) FlagHelmTimeout "t" (Migrate.HelmTimeout m));
  Define (StringSliceVarP (migration ▷ field Migrate.HelmValuesFiles) FlagHelmValues "f" (Migrate.HelmValuesFiles m));
  Define (StringSliceVar (migration ▷ field Migrate.HelmValues) FlagHelmSet (Migrate.HelmValues m));
  Define (StringSliceVar (migration ▷ field Migrate.HelmStringValues) FlagHelmSetString (Migrate.HelmStringValues m));
  Define (StringSliceVar (migration ▷ field Migrate.HelmFileValues) FlagHelmSetFile (Migrate.HelmFileValues m))
].

Definition setMigrateCmdCompletion : list (call Options completion) :=
  (fun c : string * completion => Complete c.1 c.2 message_completion) <$> [
  (FlagLogLevel, StaticSlice logLevels);
  (FlagLogFormat, StaticSlice logFormats);
  (FlagSourceContext, KubeContext FlagSourceKubeconfig);
  (FlagSourceNamespace, KubeNS FlagSourceKubeconfig FlagSourceContext);
  (FlagSourcePath, NoFileComplete);
  (FlagDestContext, KubeContext FlagDestKubeconfig);
  (FlagDestNamespace, KubeNS FlagDestKubeconfig FlagDestContext);
  (FlagDestPath, NoFileComplete);
  (FlagStrategies, SliceOf AllStrategies);
  (FlagSSHKeyAlgorithm, StaticSlice KeyAlgorithms);
  (FlagMover, StaticSlice Movers);
  (FlagID, NoFileComplete);
  (FlagHelmSet, NoFileComplete);
  (FlagHelmSetString, NoFileComplete);
  (FlagHelmSetFile, NoFileComplete);
  (FlagSource, PVCNames false);
  (FlagDest, PVCNames true)
].

Definition migrateCmd (o : Options) : list (call Options completion) := setMigrateCmdFlags o ++ setMigrateCmdCompletion.

(** What [RunE] makes of the variables: [runMigration] converts the strategies and
    the algorithm. *)
Definition migration_options (o : Options) : Migrate.t :=
  put (field Migrate.KeyAlgorithm) (keyAlgorithm o) (put (field Migrate.Strategies) (strategies o) (Migration o)).

(** ** backup.go *)

Section BackupRestore.
Context {O : Type}.

Definition setBackupRestoreFlags (id : Lens O string) (ignoreMounted nonRoot detach noCleanup noCleanupOnFailure : Lens O bool)
    (helmTimeout : Lens O Z) (helmValuesFiles helmValues helmStringValues helmFileValues : Lens O (list string))
  : list (call O completion) := [
  Define (StringVar id FlagID "");
  Define (BoolVarP ignoreMounted FlagIgnoreMounted "i" false);
  Define (BoolVar nonRoot FlagNonRoot false);
  Define (BoolVar detach FlagDetach false);
  Define (BoolVarP noCleanup FlagNoCleanup "x" false);
  Define (BoolVar noCleanupOnFailure FlagNoCleanupOnFailure false);
  Define (DurationVarP helmTimeout FlagHelmTimeout "t" minute);
  Define (StringSliceVarP helmValuesFiles FlagHelmValues "f" []);
  Define (StringSliceVar helmValues FlagHelmSet []);
  Define (StringSliceVar helmStringValues FlagHelmSetString []);
  Define (StringSliceVar helmFileValues FlagHelmSetFile [])
].

Definition setBucketStorageFlags
    (backend bucket s3Provider endpoint region accessKey secretKey storageAccount storageKey : Lens O string)
    (gcsServiceAccountFile : Lens O string) (gcsBucketPolicyOnly : Lens O bool)
    (name prefix pvcPath rcloneExtraArgs : Lens O string) : list (call O completion) := [
  Define (StringVar backend FlagBackend "");
  Define (StringVar bucket FlagBucket "");
  Define (StringVar s3Provider FlagS3Provider DefaultS3Provider);
  Define (StringVar endpoint FlagEndpoint "");
  Define (StringVar region FlagRegion "");
  Define (StringVar accessKey FlagAccessKey "");
  Define (StringVar secretKey FlagSecretKey "");
  Define (StringVar storageAccount FlagStorageAccount "");
  Define (StringVar storageKey FlagStorageKey "");
  Define (StringVar gcsServiceAccountFile FlagGCSServiceAccountFile "");
  Define (BoolVar gcsBucketPolicyOnly FlagGCSBucketPolicyOnly true);
  Define (StringVar name FlagName "");
  Define (StringVar prefix FlagPrefix DefaultPrefix);
  Define (StringVarP pvcPath FlagPath "p" "");
  Define (StringVar rcloneExtraArgs FlagRcloneExtraArgs "")
].

Definition setRawConfigFlags (rcloneConfig remote : Lens O string) : list (call O completion) := [
  Define (StringVar rcloneConfig FlagRcloneConfig "");
  Define (StringVar remote FlagRemote "")
].

(** The defaults are the variables' values. *)
Definition setArchiveFlags (archiveFile : Lens O string) (level : Lens O Z) (o : O) : list (call O completion) := [
  Define (StringVar archiveFile FlagArchiveFile (view archiveFile o));
  Define (IntVar level FlagCompressionLevel (view level o))
].

Definition setRestoreDeleteFlags (deleteExtraneousFiles : Lens O bool) : list (call O completion) := [
  Define (BoolVarP deleteExtraneousFiles FlagDeleteExtraneousFiles "d" false)
].

Definition s3Providers : list string :=
  ["AWS"; "Other"; "Minio"; "Ceph"; "Cloudflare"; "DigitalOcean"; "Scaleway"; "Wasabi"].
Definition setBucketStorageFlagCompletions : list (call O completion) :=
  [Complete FlagS3Provider (StaticSlice s3Providers) message_completion].

Definition setBackupPVCFlags (pvc : Lens O PVC) : list (call O completion) := [
  Define (StringVarP (pvc ▷ field claim_Kubeconfig) FlagSourceKubeconfig "k" "");
  Define (StringVarP (pvc ▷ field claim_Context) FlagSourceContext "c" "");
  Define (StringVarP (pvc ▷ field claim_Namespace) FlagSourceNamespace "n" "");
  Define (StringVar (pvc ▷ field claim_Name) FlagSource "");
  MarkRequired FlagSource
].
Definition setRestorePVCFlags (pvc : Lens O PVC) : list (call O completion) := [
  Define (StringVarP (pvc ▷ field claim_Kubeconfig) FlagDestKubeconfig "K" "");
  Define (StringVarP (pvc ▷ field claim_Context) FlagDestContext "C" "");
  Define (StringVarP (pvc ▷ field claim_Namespace) FlagDestNamespace "N" "");
  Define (StringVar (pvc ▷ field claim_Name) FlagDest "");
  MarkRequired FlagDest
].
End BackupRestore.

Definition the_backup : Lens BackupVars Backup.t := field backup.
Definition the_restore : Lens RestoreVars Restore.t := field restore.

Definition setSnapshotFlags (b : Backup.t) : list (call BackupVars completion) := [
  Define (BoolVar (the_backup ▷ field Backup.Snapshot) FlagSnapshot (Backup.Snapshot b));
  Define (StringVar (the_backup ▷ field Backup.SnapshotClass) FlagSnapshotClass (Backup.SnapshotClass b));
  Define (BoolVar (the_backup ▷ field Backup.KeepSnapshot) FlagKeepSnapshot (Backup.KeepSnapshot b));
  Define (StringVar (the_backup ▷ field Backup.FromSnapshot) FlagFromSnapshot (Backup.FromSnapshot b));
  Define (StringVar (the_backup ▷ field Backup.Flush) FlagFlush (Backup.Flush b));
  Define (StringVar (the_backup ▷ field Backup.FlushContainer) FlagFlushContainer (Backup.FlushContainer b));
  Define (StringSliceVar (the_backup ▷ field Backup.FlushCommand) FlagFlushCommand (Backup.FlushCommand b));
  Define (StringVar (the_backup ▷ field Backup.FlushUser) FlagFlushUser (Backup.FlushUser b));
  Define (StringVar (the_backup ▷ field Backup.FlushPasswordSecret) FlagFlushPasswordSecret (Backup.FlushPasswordSecret b))
].
Definition setSnapshotFlagCompletions : list (call BackupVars completion) :=
  [Complete FlagFlush (StaticSlice Kinds) "failed to register completion for --%s: %w"].

(** The variables before the flags are defined. *)
Definition backup_vars (imageTag chartVersion : string) : BackupVars :=
  mkBackupVars (put (field Backup.ImageTag) imageTag (put (field Backup.ChartVersion) chartVersion zero_Backup)) true "".
Definition restore_vars (imageTag chartVersion : string) : RestoreVars :=
  mkRestoreVars (put (field Restore.ImageTag) imageTag (put (field Restore.ChartVersion) chartVersion zero_Restore)) true "".

Definition buildBackupCmd (o : BackupVars) : list (call BackupVars completion) :=
  let f := fun {A} (proj : Backup.t -> A) {s : Setter proj} => the_backup ▷ field proj in
  setBackupPVCFlags (f Backup.claim) ++
  setBackupRestoreFlags (f Backup.ID) (f Backup.IgnoreMounted) (f Backup.NonRoot) (f Backup.Detach) (f Backup.NoCleanup)
    (f Backup.NoCleanupOnFailure) (f Backup.HelmTimeout) (f Backup.HelmValuesFiles) (f Backup.HelmValues)
    (f Backup.HelmStringValues) (f Backup.HelmFileValues) ++
  setBucketStorageFlags (f Backup.Backend) (f Backup.Bucket) (f Backup.S3Provider) (f Backup.Endpoint) (f Backup.Region)
    (f Backup.AccessKey) (f Backup.SecretKey) (f Backup.StorageAccount) (f Backup.StorageKey) (field backup_saFile)
    (field backup_gcsBucketPolicyOnly) (f Backup.Name) (f Backup.Prefix) (f Backup.Path) (f Backup.RcloneExtraArgs) ++
  setRawConfigFlags (f Backup.RcloneConfigFile) (f Backup.Remote) ++
  setArchiveFlags (f Backup.ArchiveFile) (f Backup.CompressionLevel) o ++
  setSnapshotFlags (backup o) ++
  setSnapshotFlagCompletions ++
  setBucketStorageFlagCompletions.

Definition buildRestoreCmd (o : RestoreVars) : list (call RestoreVars completion) :=
  let f := fun {A} (proj : Restore.t -> A) {s : Setter proj} => the_restore ▷ field proj in
  setRestorePVCFlags (f Restore.claim) ++
  setBackupRestoreFlags (f Restore.ID) (f Restore.IgnoreMounted) (f Restore.NonRoot) (f Restore.Detach) (f Restore.NoCleanup)
    (f Restore.NoCleanupOnFailure) (f Restore.HelmTimeout) (f Restore.HelmValuesFiles) (f Restore.HelmValues)
    (f Restore.HelmStringValues) (f Restore.HelmFileValues) ++
  setBucketStorageFlags (f Restore.Backend) (f Restore.Bucket) (f Restore.S3Provider) (f Restore.Endpoint) (f Restore.Region)
    (f Restore.AccessKey) (f Restore.SecretKey) (f Restore.StorageAccount) (f Restore.StorageKey) (field restore_saFile)
    (field restore_gcsBucketPolicyOnly) (f Restore.Name) (f Restore.Prefix) (f Restore.Path) (f Restore.RcloneExtraArgs) ++
  setRawConfigFlags (f Restore.RcloneConfigFile) (f Restore.Remote) ++
  setRestoreDeleteFlags (f Restore.DeleteExtraneousFiles) ++
  setArchiveFlags (f Restore.ArchiveFile) (f Restore.CompressionLevel) o ++
  setBucketStorageFlagCompletions.

(** What [RunE] makes of the variables. *)
Definition backup_run (o : BackupVars) : Backup.t :=
  put (field Backup.GCSBucketPolicyOnly) (Some (backup_gcsBucketPolicyOnly o)) (backup o).
Definition restore_run (o : RestoreVars) : Restore.t :=
  put (field Restore.GCSBucketPolicyOnly) (Some (restore_gcsBucketPolicyOnly o)) (restore o).

(** ** status.go, cleanup.go *)

Definition buildStatusCmd : list (call StatusVars completion) := [
  Define (StringVar (field status_kubeconfig) "kubeconfig" "");
  Define (StringVar (field status_context) "context" "");
  Define (StringVarP (field status_namespace) "namespace" "n" "");
  Define (BoolVarP (field follow) "follow" "f" false)
].
Definition buildCleanupCmd : list (call CleanupVars completion) := [
  Define (StringVar (field cleanup_kubeconfig) "kubeconfig" "");
  Define (StringVar (field cleanup_context) "context" "");
  Define (StringVarP (field cleanup_namespace) "namespace" "n" "");
  Define (BoolVar (field all) "all" false);
  Define (BoolVar (field force) "force" false)
].

(** ** migrate.go: BuildMigrateCmd *)

Section BuildMigrateCmd.
Context `{LM : Cobra Options completion} `{LB : Cobra BackupVars completion} `{LR : Cobra RestoreVars completion}
  `{LS : Cobra StatusVars completion} `{LC : Cobra CleanupVars completion}.

(** The root command and those added to it; the completion command has no flags. *)
Record commands : Type := mkCommands {
  root : command (Cobra := LM);
  cleanup_command : command (Cobra := LC);
  status_command : command (Cobra := LS);
  backup_command : command (Cobra := LB);
  restore_command : command (Cobra := LR)
}.

(** From commands without flags of their own. *)
Definition BuildMigrateCmd (version : string) (isATTY : bool) (empty : commands) : built commands :=
  let options := options_of version isATTY in
  cmd ← wrap_built "failed to set flags: %w" (build (setMigrateCmdFlags options) (root empty));
  cmd ← wrap_built "failed to set completion: %w" (build setMigrateCmdCompletion cmd);
  cleanupCmd ← build buildCleanupCmd (cleanup_command empty);
  statusCmd ← build buildStatusCmd (status_command empty);
  backupCmd ← wrap_built "failed to build backup command: %w"
    (build (buildBackupCmd (backup_vars (releaseImageTag version) (releaseChartVersion version))) (backup_command empty));
  restoreCmd ← wrap_built "failed to build restore command: %w"
    (build (buildRestoreCmd (restore_vars (releaseImageTag version) (releaseChartVersion version))) (restore_command empty));
  Built (mkCommands cmd cleanupCmd statusCmd backupCmd restoreCmd).
End BuildMigrateCmd.
Arguments commands LM LB LR LS LC : clear implicits.

(** ** Specification: where a flag ends up *)

(** A value with its kind. *)
Definition any : Type := { k : kind & Flags.value k }.
Definition of_string (s : string) : any := existT KString s.
Definition of_bool (b : bool) : any := existT KBool b.
Definition of_int (z : Z) : any := existT KInt z.
Definition of_duration (z : Z) : any := existT KDuration z.
Definition of_list (l : list string) : any := existT KStringSlice l.
Definition any_of {O} (f : flag O) (v : Flags.value (flag_kind f)) : any := existT (flag_kind f) v.

Definition lookup_name (l : list (string * any)) (n : string) : option any :=
  snd <$> List.find (fun p : string * any => String.eqb p.1 n) l.

(** What the request of the strategies says, by the name of the flag that sets it. *)
Definition migrate_shows (r : Migration.Request) : list (string * any) := [
  ("source-kubeconfig", of_string (Migration.KubeconfigPath (Migration.Source r)));
  ("source-context", of_string (Migration.Context (Migration.Source r)));
  ("source-namespace", of_string (Migration.pvc_Namespace (Migration.Source r)));
  ("source", of_string (Migration.pvc_Name (Migration.Source r)));
  ("source-path", of_string (Migration.Path (Migration.Source r)));
  ("dest-kubeconfig", of_string (Migration.KubeconfigPath (Migration.Dest r)));
  ("dest-context", of_string (Migration.Context (Migration.Dest r)));
  ("dest-namespace", of_string (Migration.pvc_Namespace (Migration.Dest r)));
  ("dest", of_string (Migration.pvc_Name (Migration.Dest r)));
  ("dest-path", of_string (Migration.Path (Migration.Dest r)));
  ("dest-delete-extraneous-files", of_bool (Migration.DeleteExtraneousFiles r));
  ("ignore-mounted", of_bool (Migration.IgnoreMounted r));
  ("ignore-sizes", of_bool (Migration.IgnoreSizes r));
  ("no-chown", of_bool (Migration.NoChown r));
  ("id", of_string (Migration.ID r));
  ("detach", of_bool (Migration.Detach r));
  ("no-cleanup", of_bool (Migration.NoCleanup r));
  ("no-cleanup-on-failure", of_bool (Migration.NoCleanupOnFailure r));
  ("show-progress-bar", of_bool (Migration.ShowProgressBar r));
  ("source-mount-read-write", of_bool (Migration.SourceMountReadWrite r));
  ("strategies", of_list (Migration.Strategies r));
  ("ssh-key-algorithm", of_string (Migration.KeyAlgorithm r));
  ("ssh-reverse-tunnel-port", of_int (Migration.SSHReverseTunnelPort r));
  ("dest-host-override", of_string (Migration.DestHostOverride r));
  ("loadbalancer-timeout", of_duration (Migration.LoadBalancerTimeout r));
  ("no-compress", of_bool (Migration.NoCompress r));
  ("mover", of_string (Migration.Mover r));
  ("non-root", of_bool (Migration.NonRoot r));
  ("rsync-extra-args", of_string (Migration.RsyncExtraArgs r));
  ("rsync-push", of_bool (Migration.Push r));
  ("helm-timeout", of_duration (Migration.HelmTimeout r));
  ("helm-values", of_list (Migration.HelmValuesFiles r));
  ("helm-set", of_list (Migration.HelmValues r));
  ("helm-set-string", of_list (Migration.HelmStringValues r));
  ("helm-set-file", of_list (Migration.HelmFileValues r))
].

(** What a zero value stands for. *)
Definition migrate_defaults : list (string * any) := [
  ("source-path", of_string "/"); ("dest-path", of_string "/");
  ("strategies", of_list ["mount"; "clusterip"; "loadbalancer"]);
  ("ssh-key-algorithm", of_string "ed25519"); ("mover", of_string "rsync");
  ("ssh-reverse-tunnel-port", of_int 22000);
  ("helm-timeout", of_duration 60000000000); ("loadbalancer-timeout", of_duration 120000000000)
].

Definition or_default (v d : any) : any :=
  match v, d with
  | existT KString s, existT KString t => of_string (or_string s t)
  | existT KInt z, existT KInt y => of_int (or_Z z y)
  | existT KDuration z, existT KDuration y => of_duration (or_Z z y)
  | existT KStringSlice l, existT KStringSlice m => of_list (match l with [] => m | l => l end)
  | _, _ => v
  end.
Definition effective (defaults : list (string * any)) (n : string) (v : any) : any :=
  match lookup_name defaults n with Some d => or_default v d | None => v end.

(** ** Lemmas *)

(** The flags of one command, one after the other. *)
Ltac each_flag :=
  repeat (apply Forall_cons; split); [..|apply Forall_nil; exact I].

Ltac flag_lawful :=
  cbn [bound flag_kind StringVar StringVarP BoolVar BoolVarP StringSliceVar StringSliceVarP IntVar DurationVar DurationVarP];
  apply _.
Ltac solve_wired :=
  apply Wired_intro;
  [repeat (apply Forall_cons; split; [flag_lawful|]); apply Forall_nil; exact I|
   repeat (apply FOP_nil || (apply FOP_cons;
     [repeat (apply List.Forall_nil || (apply List.Forall_cons; [fields_independent|]))|]))].

#[export] Instance migration_lawful : Lawful migration.
Proof. unfold migration. apply _. Qed.
#[export] Instance migration_source_lawful : Lawful migration_source.
Proof. unfold migration_source. apply _. Qed.
#[export] Instance migration_dest_lawful : Lawful migration_dest.
Proof. unfold migration_dest. apply _. Qed.
#[export] Instance the_backup_lawful : Lawful the_backup.
Proof. unfold the_backup. apply _. Qed.
#[export] Instance the_restore_lawful : Lawful the_restore.
Proof. unfold the_restore. apply _. Qed.

Lemma flags_of_app {O C} (a b : list (call O C)) : flags_of (a ++ b) = flags_of a ++ flags_of b.
Proof. apply omap_app. Qed.

#[export] Instance migrate_wired o : Wired (flags_of (setMigrateCmdFlags o)).
Proof. solve_wired. Qed.

(** The request of each command, from the variables. *)
Definition migrate_request (o : Options) : Migration.Request :=
  Migrate.toInternalRequest (Migrate.ApplyDefaults (migration_options o)).

Section Requests.
Context (Getenv : string -> string) (ReadFile : string -> result string) (t : terminal).

Definition backup_request (o : BackupVars) : result BucketRequest.Request :=
  b ← backup_options Getenv ReadFile t (backup_saFile o) (backup_run o);
  Ok (Backup.toBackupRequest (Backup.applyBackupDefaults b) DirectionBackup).
Definition restore_request (o : RestoreVars) : result BucketRequest.Request :=
  b ← restore_options Getenv ReadFile t (restore_saFile o) (restore_run o);
  Ok (Restore.toRestoreRequest (Restore.applyRestoreDefaults b)).

(** What a zero value stands for: the environment's, for a credential. *)
Definition bucket_defaults : list (string * any) := [
  ("prefix", of_string "pv-migrate"); ("helm-timeout", of_duration 60000000000);
  ("access-key", of_string (Getenv "PV_MIGRATE_S3_ACCESS_KEY"));
  ("secret-key", of_string (Getenv "PV_MIGRATE_S3_SECRET_KEY"));
  ("storage-account", of_string (Getenv "PV_MIGRATE_AZURE_STORAGE_ACCOUNT"));
  ("storage-key", of_string (Getenv "PV_MIGRATE_AZURE_STORAGE_KEY"))
].

(** What the request of a backup or restore says, by the name of the flag. *)
Definition bucket_shows (side : string) (r : BucketRequest.Request) : list (string * any) := [
  (side +:+ "-kubeconfig", of_string (BucketRequest.KubeconfigPath r));
  (side +:+ "-context", of_string (BucketRequest.Context r));
  (side +:+ "-namespace", of_string (BucketRequest.req_Namespace r));
  (side, of_string (BucketRequest.PVCName r));
  ("id", of_string (BucketRequest.ID r));
  ("ignore-mounted", of_bool (BucketRequest.IgnoreMounted r));
  ("non-root", of_bool (BucketRequest.NonRoot r));
  ("detach", of_bool (BucketRequest.Detach r));
  ("no-cleanup", of_bool (BucketRequest.NoCleanup r));
  ("no-cleanup-on-failure", of_bool (BucketRequest.NoCleanupOnFailure r));
  ("helm-timeout", of_duration (BucketRequest.HelmTimeout r));
  ("helm-values", of_list (BucketRequest.HelmValuesFiles r));
  ("helm-set", of_list (BucketRequest.HelmValues r));
  ("helm-set-string", of_list (BucketRequest.HelmStringValues r));
  ("helm-set-file", of_list (BucketRequest.HelmFileValues r));
  ("backend", of_string (BucketRequest.Backend r));
  ("bucket", of_string (BucketRequest.Bucket r));
  ("s3-provider", of_string (BucketRequest.S3Provider r));
  ("endpoint", of_string (BucketRequest.Endpoint r));
  ("region", of_string (BucketRequest.Region r));
  ("access-key", of_string (BucketRequest.AccessKey r));
  ("secret-key", of_string (BucketRequest.SecretKey r));
  ("storage-account", of_string (BucketRequest.StorageAccount r));
  ("storage-key", of_string (BucketRequest.StorageKey r));
  ("gcs-bucket-policy-only", of_bool (default true (BucketRequest.GCSBucketPolicyOnly r)));
  ("name", of_string (BucketRequest.req_Name r));
  ("prefix", of_string (BucketRequest.Prefix r));
  ("path", of_string (BucketRequest.Path r));
  ("rclone-extra-args", of_string (BucketRequest.RcloneExtraArgs r));
  ("rclone-config", of_string (BucketRequest.RcloneConfigFile r));
  ("remote", of_string (BucketRequest.Remote r));
  ("archive-file", of_string (BucketRequest.ArchiveFile r));
  ("compression-level", of_int (BucketRequest.CompressionLevel r));
  ("delete-extraneous-files", of_bool (BucketRequest.DeleteExtraneousFiles r));
  ("snapshot", of_bool (BucketRequest.Snapshot r));
  ("snapshot-class", of_string (BucketRequest.SnapshotClass r));
  ("keep-snapshot", of_bool (BucketRequest.KeepSnapshot r));
  ("from-snapshot", of_string (BucketRequest.FromSnapshot r));
  ("flush", of_string (BucketRequest.Flush r));
  ("flush-container", of_string (BucketRequest.FlushContainer r));
  ("flush-command", of_list (BucketRequest.FlushCommand r));
  ("flush-user", of_string (BucketRequest.FlushUser r));
  ("flush-password-secret", of_string (BucketRequest.FlushPasswordSecret r))
].
End Requests.

(** The flags of a command that show nowhere under their own name: the two of the
    log, and the file of the service account, of which the request has the
    contents. *)
Definition apart : list string := [FlagLogLevel; FlagLogFormat; FlagGCSServiceAccountFile].

Section Shows.
Context {O R : Type} (request : O -> R -> Prop) (shows : R -> list (string * any)) (defaults : list (string * any)).

(** A flag shows in the request what its variable has. *)
Definition shows_variable (f : flag O) : Prop :=
  flag_name f ∈ apart \/
  forall o r, request o r ->
    lookup_name (shows r) (flag_name f) = Some (effective defaults (flag_name f) (any_of f (view (bound f) o))).

(** So the request has what was given, and the default of what was not. *)
Lemma request_shows {C} (calls : list (call O C)) {W : Wired (flags_of calls)} (gs : list (given O)) o r f :
  Forall shows_variable (flags_of calls) -> NoDup (flag_name <$> flags_of calls) ->
  Forall (fun g => given_flag g ∈ flags_of calls) gs -> NoDup (given_name <$> gs) ->
  request (assign_all gs (defined calls o)) r -> f ∈ flags_of calls -> flag_name f ∉ apart ->
  (flag_name f ∉ given_name <$> gs ->
     lookup_name (shows r) (flag_name f) = Some (effective defaults (flag_name f) (any_of f (DefValue f)))) /\
  (forall v, existT f v ∈ gs -> lookup_name (shows r) (flag_name f) = Some (effective defaults (flag_name f) (any_of f v))).
Proof.
  intros Hs Hnd Hgs Hgn Hr Hf Ha. rewrite Forall_forall in Hs.
  destruct (Hs f Hf) as [|Hv]; [done|]. specialize (Hv _ _ Hr).
  destruct (command_line calls gs o f Hnd Hgs Hgn Hf) as [H1 H2].
  split; [intros Hn; by rewrite Hv, H1|intros v Hin; by rewrite Hv, (H2 v Hin)].
Qed.
End Shows.

Lemma migrate_flags_show o :
  Forall (shows_variable (fun o r => r = migrate_request o) migrate_shows migrate_defaults) (flags_of (setMigrateCmdFlags o)).
Proof.
  repeat (apply Forall_cons; split; [first [left; unfold apart; set_solver|
    right; intros o' r ->; first [reflexivity|by (cbn; destruct (strategies o'))]]|]); by apply Forall_nil.
Qed.

Lemma backup_flags_show Getenv ReadFile t o :
  Forall (shows_variable (fun o r => backup_request Getenv ReadFile t o = Ok r) (bucket_shows "source") (bucket_defaults Getenv))
    (flags_of (buildBackupCmd o)).
Proof.
  repeat (apply Forall_cons; split; [first [left; unfold apart; set_solver|
    right; intros o' r; unfold backup_request, backup_options;
    destruct (readGCSServiceAccountFile _ _ _) as [gcs|]; [intros [= <-]; reflexivity|done]]|]); by apply Forall_nil.
Qed.

Lemma restore_flags_show Getenv ReadFile t o :
  Forall (shows_variable (fun o r => restore_request Getenv ReadFile t o = Ok r) (bucket_shows "dest") (bucket_defaults Getenv))
    (flags_of (buildRestoreCmd o)).
Proof.
  repeat (apply Forall_cons; split; [first [left; unfold apart; set_solver|
    right; intros o' r; unfold restore_request, restore_options;
    destruct (readGCSServiceAccountFile _ _ _) as [gcs|]; [intros [= <-]; reflexivity|done]]|]); by apply Forall_nil.
Qed.

#[export] Instance backup_wired o : Wired (flags_of (buildBackupCmd o)).
Proof. solve_wired. Qed.
#[export] Instance restore_wired o : Wired (flags_of (buildRestoreCmd o)).
Proof. solve_wired. Qed.

(** The names of a command's flags do not depend on its variables. *)
Lemma migrate_names o : NoDup (flag_name <$> flags_of (setMigrateCmdFlags o)).
Proof. apply (bool_decide_unpack _). vm_compute. exact I. Qed.
Lemma backup_names o : NoDup (flag_name <$> flags_of (buildBackupCmd o)).
Proof. apply (bool_decide_unpack _). vm_compute. exact I. Qed.
Lemma restore_names o : NoDup (flag_name <$> flags_of (buildRestoreCmd o)).
Proof. apply (bool_decide_unpack _). vm_compute. exact I. Qed.

(** Completing says nothing of the flags. *)
Lemma migrate_flags_of o : flags_of (migrateCmd o) = flags_of (setMigrateCmdFlags o).
Proof. reflexivity. Qed.

(** What every command is built on: cobra's own help flag, and the persistent flags
    of the root for the others. *)
Definition fresh_root {O C} {L : Cobra O C} (cmd : command) : Prop :=
  names cmd = ["help"; "version"] /\ shorthands cmd = ["h"; "v"] /\ completed cmd = [].
Definition fresh_child {O C} {L : Cobra O C} (cmd : command) : Prop :=
  names cmd = ["help"; FlagLogLevel; FlagLogFormat] /\ shorthands cmd = ["h"] /\ completed cmd = [].

Definition without_flags {LM LB LR LS LC} (cmds : commands LM LB LR LS LC) : Prop :=
  fresh_root (root cmds) /\ fresh_child (backup_command cmds) /\ fresh_child (restore_command cmds) /\
  fresh_child (status_command cmds) /\ fresh_child (cleanup_command cmds).

Lemma fresh_builds {O C} {L : Cobra O C} {H : LawfulCobra O C} (calls : list (call O C)) ns ss cmd :
  names cmd = ns /\ shorthands cmd = ss /\ completed cmd = [] -> fits ns ss [] calls = true ->
  exists cmd', build calls cmd = Built cmd' /\ forall f, f ∈ flags_of calls -> flag_name f ∈ names cmd'.
Proof.
  intros (<- & <- & Hc) Hf. rewrite <- Hc in Hf. destruct (fits_build calls cmd Hf) as (cmd' & E & Hn). exists cmd'.
  split; [done|]. intros f Hin. apply Hn. right. by apply list_elem_of_fmap_2.
Qed.

(** * The properties *)

(** C36: the commands can be built.  With any flag library that refuses a flag for
    its name or shorthand only, BuildMigrateCmd neither panics nor fails, whatever
    the version: in none of the five commands is a name or a shorthand used twice,
    those of cobra's help and version and of the inherited flags included, a
    shorthand is one byte, and what is marked required or completed is a flag of the
    command, completed once. *)
Theorem commands_build (LM : Cobra Options completion) (LB : Cobra BackupVars completion) (LR : Cobra RestoreVars completion)
    (LS : Cobra StatusVars completion) (LC : Cobra CleanupVars completion) (version : string) (isATTY : bool)
    (empty : commands LM LB LR LS LC) :
  LawfulCobra Options completion -> LawfulCobra BackupVars completion -> LawfulCobra RestoreVars completion ->
  LawfulCobra StatusVars completion -> LawfulCobra CleanupVars completion -> without_flags empty ->
  exists cmds, BuildMigrateCmd version isATTY empty = Built cmds /\
    (forall f, f ∈ flags_of (migrateCmd (options_of version isATTY)) -> flag_name f ∈ names (root cmds)) /\
    (forall f, f ∈ flags_of (buildBackupCmd (backup_vars (releaseImageTag version) (releaseChartVersion version))) ->
       flag_name f ∈ names (backup_command cmds)) /\
    (forall f, f ∈ flags_of (buildRestoreCmd (restore_vars (releaseImageTag version) (releaseChartVersion version))) ->
       flag_name f ∈ names (restore_command cmds)) /\
    (forall f, f ∈ flags_of buildStatusCmd -> flag_name f ∈ names (status_command cmds)) /\
    (forall f, f ∈ flags_of buildCleanupCmd -> flag_name f ∈ names (cleanup_command cmds)).
Proof.
  intros HM HB HR HS HC (Fm & Fb & Fr & Fs & Fc). unfold BuildMigrateCmd. cbn zeta.
  destruct (fresh_builds (migrateCmd (options_of version isATTY)) _ _ _ Fm) as (c & E & H); [vm_compute; reflexivity|].
  destruct (fresh_builds (buildBackupCmd (backup_vars (releaseImageTag version) (releaseChartVersion version))) _ _ _ Fb)
    as (cb & Eb & Hb); [vm_compute; reflexivity|].
  destruct (fresh_builds (buildRestoreCmd (restore_vars (releaseImageTag version) (releaseChartVersion version))) _ _ _ Fr)
    as (cr & Er & Hr); [vm_compute; reflexivity|].
  destruct (fresh_builds buildStatusCmd _ _ _ Fs) as (cs & Es & Hs); [vm_compute; reflexivity|].
  destruct (fresh_builds buildCleanupCmd _ _ _ Fc) as (cc & Ec & Hc); [vm_compute; reflexivity|].
  unfold migrateCmd in E. rewrite build_app in E. destruct (build (setMigrateCmdFlags _) _) as [c1| |]; [|done..].
  cbn [mbind built_bind] in E. cbn [wrap_built mbind built_bind]. rewrite E, Ec, Es, Eb, Er.
  eexists. split; [reflexivity|]. by split_and!.
Qed.

(** C34: what a flag of the root command does.  Whatever flags are given, each at
    most once and whatever the others are, the request that the strategies are run
    with shows under each flag's name the value given for it, and for one that was
    not given its default; a zero value, given or not, stands for the library's
    default.  No flag reaches another's field. *)
Theorem migrate_flags_reach_request (version : string) (isATTY : bool) (gs : list (given Options)) :
  let o := options_of version isATTY in
  let flags := flags_of (migrateCmd o) in
  Forall (fun g => given_flag g ∈ flags) gs -> NoDup (given_name <$> gs) ->
  let r := migrate_request (assign_all gs (defined (migrateCmd o) o)) in
  forall f, f ∈ flags -> flag_name f ∉ apart ->
    (flag_name f ∉ given_name <$> gs ->
       lookup_name (migrate_shows r) (flag_name f) = Some (effective migrate_defaults (flag_name f) (any_of f (DefValue f)))) /\
    (forall v, existT f v ∈ gs ->
       lookup_name (migrate_shows r) (flag_name f) = Some (effective migrate_defaults (flag_name f) (any_of f v))).
Proof.
  intros o flags Hgs Hgn r f Hf Ha. subst flags. rewrite migrate_flags_of in *.
  by apply (request_shows (fun o r => r = migrate_request o) migrate_shows migrate_defaults (setMigrateCmdFlags o) gs o r f
    (migrate_flags_show o) (migrate_names o)).
Qed.

(** C35: what a flag of backup and restore does.  The same, for the request of the
    bucket Job: a value given is under its flag's name, one not given is the default,
    a credential left empty is the environment's; and the service account is the
    contents of the file that was named, or else the environment's. *)
Theorem bucket_flags_reach_request (Getenv : string -> string) (ReadFile : string -> result string) (t : terminal)
    (imageTag chartVersion : string) :
  (forall (gs : list (given BackupVars)) r,
     let o := backup_vars imageTag chartVersion in let flags := flags_of (buildBackupCmd o) in
     Forall (fun g => given_flag g ∈ flags) gs -> NoDup (given_name <$> gs) ->
     backup_request Getenv ReadFile t (assign_all gs (defined (buildBackupCmd o) o)) = Ok r ->
     forall f, f ∈ flags -> flag_name f ∉ apart ->
       (flag_name f ∉ given_name <$> gs -> lookup_name (bucket_shows "source" r) (flag_name f)
          = Some (effective (bucket_defaults Getenv) (flag_name f) (any_of f (DefValue f)))) /\
       (forall v, existT f v ∈ gs -> lookup_name (bucket_shows "source" r) (flag_name f)
          = Some (effective (bucket_defaults Getenv) (flag_name f) (any_of f v)))) /\
  (forall (gs : list (given RestoreVars)) r,
     let o := restore_vars imageTag chartVersion in let flags := flags_of (buildRestoreCmd o) in
     Forall (fun g => given_flag g ∈ flags) gs -> NoDup (given_name <$> gs) ->
     restore_request Getenv ReadFile t (assign_all gs (defined (buildRestoreCmd o) o)) = Ok r ->
     forall f, f ∈ flags -> flag_name f ∉ apart ->
       (flag_name f ∉ given_name <$> gs -> lookup_name (bucket_shows "dest" r) (flag_name f)
          = Some (effective (bucket_defaults Getenv) (flag_name f) (any_of f (DefValue f)))) /\
       (forall v, existT f v ∈ gs -> lookup_name (bucket_shows "dest" r) (flag_name f)
          = Some (effective (bucket_defaults Getenv) (flag_name f) (any_of f v)))) /\
  (forall o r, backup_request Getenv ReadFile t o = Ok r -> Backup.GCSServiceAccountJSON (backup o) = "" ->
     if decide (backup_saFile o = "")
     then BucketRequest.GCSServiceAccountJSON r = Getenv "PV_MIGRATE_GCS_SERVICE_ACCOUNT_JSON"
     else exists data, ReadFile (backup_saFile o) = Ok data /\
       BucketRequest.GCSServiceAccountJSON r = or_string data (Getenv "PV_MIGRATE_GCS_SERVICE_ACCOUNT_JSON")).
Proof.
  split_and!.
  - intros gs r o flags Hgs Hgn Hr f Hf Ha.
    by apply (request_shows (fun o r => backup_request Getenv ReadFile t o = Ok r) (bucket_shows "source") (bucket_defaults Getenv)
      (buildBackupCmd o) gs o r f (backup_flags_show Getenv ReadFile t o) (backup_names o)).
  - intros gs r o flags Hgs Hgn Hr f Hf Ha.
    by apply (request_shows (fun o r => restore_request Getenv ReadFile t o = Ok r) (bucket_shows "dest") (bucket_defaults Getenv)
      (buildRestoreCmd o) gs o r f (restore_flags_show Getenv ReadFile t o) (restore_names o)).
  - intros o r Hr Hg. unfold backup_request, backup_options, readGCSServiceAccountFile in Hr.
    destruct (decide (backup_saFile o = "")).
    + injection Hr as <-. unfold backup_run. cbn. by rewrite Hg.
    + destruct (ReadFile (backup_saFile o)) as [data|e]; [|done]. injection Hr as <-. exists data. done.
Qed.

(** ** Witnesses *)

(** A test of names that computes. *)
Ltac by_names := apply (bool_decide_unpack _); vm_compute; exact I.

(** A command of the root: [--source data --ssh-reverse-tunnel-port 0]. *)
Definition given_source : given Options :=
  existT (StringVar (migration_source ▷ field claim_Name) FlagSource "") "data".
Definition given_port : given Options :=
  existT (IntVar (migration ▷ field Migrate.SSHReverseTunnelPort) FlagSSHReverseTunnelPort 22000%Z) 0%Z.

Lemma migrate_flags_reach_request_witness :
  let o := options_of "2.3.0" false in
  let r := migrate_request (assign_all [given_source; given_port] (defined (migrateCmd o) o)) in
  lookup_name (migrate_shows r) "source" = Some (of_string "data") /\
  lookup_name (migrate_shows r) "ssh-reverse-tunnel-port" = Some (of_int 22000) /\
  lookup_name (migrate_shows r) "dest-path" = Some (of_string "/").
Proof.
  intros o r.
  assert (Forall (fun g => given_flag g ∈ flags_of (migrateCmd o)) [given_source; given_port]) as Hgs.
  { apply Forall_cons; split; [by apply (list_elem_of_lookup_2 _ 5)|]. apply Forall_cons; split; [|by apply Forall_nil].
    by apply (list_elem_of_lookup_2 _ 24). }
  assert (NoDup (given_name <$> [given_source; given_port])) as Hnd by by_names.
  split_and!.
  - exact (proj2 (migrate_flags_reach_request "2.3.0" false _ Hgs Hnd (given_flag given_source)
      ltac:(by apply (list_elem_of_lookup_2 _ 5)) ltac:(by_names)) "data" ltac:(by apply (list_elem_of_lookup_2 _ 0))).
  - exact (proj2 (migrate_flags_reach_request "2.3.0" false _ Hgs Hnd (given_flag given_port)
      ltac:(by apply (list_elem_of_lookup_2 _ 24)) ltac:(by_names)) 0%Z ltac:(by apply (list_elem_of_lookup_2 _ 1))).
  - exact (proj1 (migrate_flags_reach_request "2.3.0" false _ Hgs Hnd
      (StringVarP (migration_dest ▷ field claim_Path) FlagDestPath "P" "/")
      ltac:(by apply (list_elem_of_lookup_2 _ 11)) ltac:(by_names)) ltac:(by_names)).
Defined.

(** [backup --source data --access-key key], the secret key being in the environment. *)
Definition some_environment (n : string) : string := if decide (n = "PV_MIGRATE_S3_SECRET_KEY") then "hidden" else "".
Definition no_file (f : string) : result string := Err (ErrNew "no such file").
Definition given_access_key : given BackupVars :=
  existT (StringVar (the_backup ▷ field Backup.AccessKey) FlagAccessKey "") "key".

Lemma bucket_flags_reach_request_witness :
  let o := backup_vars "v2.3.0" "2.3.0" in
  exists r, backup_request some_environment no_file (mkTerminal false false)
              (assign_all [given_access_key] (defined (buildBackupCmd o) o)) = Ok r /\
  lookup_name (bucket_shows "source" r) "access-key" = Some (of_string "key") /\
  lookup_name (bucket_shows "source" r) "secret-key" = Some (of_string "hidden") /\
  BucketRequest.GCSServiceAccountJSON r = "".
Proof.
  intros o. eexists. split; [vm_compute; reflexivity|].
  match goal with |- context[bucket_shows "source" ?r0] => set (r := r0) end.
  assert (backup_request some_environment no_file (mkTerminal false false)
              (assign_all [given_access_key] (defined (buildBackupCmd o) o)) = Ok r) as Hr by (vm_compute; reflexivity).
  destruct (bucket_flags_reach_request some_environment no_file (mkTerminal false false) "v2.3.0" "2.3.0") as (H & _ & Hj).
  assert (Forall (fun g => given_flag g ∈ flags_of (buildBackupCmd o)) [given_access_key]) as Hgs.
  { apply Forall_cons; split; [by apply (list_elem_of_lookup_2 _ 20)|by apply Forall_nil]. }
  assert (NoDup (given_name <$> [given_access_key])) as Hnd by by_names.
  split_and!.
  - exact (proj2 (H [given_access_key] r Hgs Hnd Hr (given_flag given_access_key)
      ltac:(by apply (list_elem_of_lookup_2 _ 20)) ltac:(by_names)) "key" ltac:(by apply (list_elem_of_lookup_2 _ 0))).
  - exact (proj1 (H [given_access_key] r Hgs Hnd Hr (StringVar (the_backup ▷ field Backup.SecretKey) FlagSecretKey "")
      ltac:(by apply (list_elem_of_lookup_2 _ 21)) ltac:(by_names)) ltac:(by_names)).
  - exact (Hj _ r Hr eq_refl).
Defined.

(** Commands of the library of lists. *)
Definition listed_commands (r child : listed) :
    commands (listed_cobra _ _) (listed_cobra _ _) (listed_cobra _ _) (listed_cobra _ _) (listed_cobra _ _) :=
  mkCommands (LM := listed_cobra _ _) (LB := listed_cobra _ _) (LR := listed_cobra _ _) (LS := listed_cobra _ _)
    (LC := listed_cobra _ _) r child child child child.

(** Building the commands on it. *)
Lemma commands_build_witness :
  exists cmds, BuildMigrateCmd "2.3.0" true
    (listed_commands (mkListed ["help"; "version"] ["h"; "v"] []) (mkListed ["help"; FlagLogLevel; FlagLogFormat] ["h"] []))
    = Built cmds.
Proof.
  destruct (commands_build (listed_cobra _ _) (listed_cobra _ _) (listed_cobra _ _) (listed_cobra _ _) (listed_cobra _ _)
    "2.3.0" true
    (listed_commands (mkListed ["help"; "version"] ["h"; "v"] []) (mkListed ["help"; FlagLogLevel; FlagLogFormat] ["h"] []))
    (listed_lawful _ _) (listed_lawful _ _) (listed_lawful _ _) (listed_lawful _ _) (listed_lawful _ _)) as (cmds & E & _).
  - by repeat split.
  - by exists cmds.
Defined.
