(* ===== verification/Completions.v ===== *)
(** * internal/app: the logger and the completions of the root command

    [buildLogger] of migrate.go with the level syntax of log/slog, and the functions
    of completion.go run: what each asks of the flags that were given and of the
    cluster (internal/k8s/completion.go), and what it answers.  The value of a flag
    is what [cmd.Flags().GetString] answers, a parameter; so are the requests to
    the cluster, as results. *)
From S2P Require Import Prelude GoStrings Decimal Fmt Lens Flags Console Narrate Api CommandLine.
From stdpp Require Import gmap options.
Local Open Scope Z_scope.

(** ** log/slog: levels *)

Definition LevelDebug : Z := -4.
Definition LevelInfo : Z := 0.
Definition LevelWarn : Z := 4.
Definition LevelError : Z := 8.

Definition level_offset (base : string) (val : Z) : string :=
  if decide (val = 0) then base else base +:+ (if decide (val < 0) then "" else "+") +:+ Itoa val.

(** [Level.String] *)
Definition Level_String (l : Z) : string :=
  if decide (l < LevelInfo) then level_offset "DEBUG" (l - LevelDebug)
  else if decide (l < LevelWarn) then level_offset "INFO" (l - LevelInfo)
  else if decide (l < LevelError) then level_offset "WARN" (l - LevelWarn)
  else level_offset "ERROR" (l - LevelError).

(** A byte in upper case.  [strings.ToUpper] also takes the two letters U+0131 and
    U+017F to ASCII ones; the other letters stay outside ASCII, so for a comparison
    with an ASCII name these are all that count. *)
Definition upper_byte (a : ascii) : ascii := if is_lower a then ascii_of_N (N_of_ascii a - 32) else a.
Fixpoint ToUpper (s : string) : string :=
  match s with
  | EmptyString => ""
  | String a s' =>
      match s' with
      | String b s'' =>
          if decide (byte a = 196 /\ byte b = 177) then String "I" (ToUpper s'')
          else if decide (byte a = 197 /\ byte b = 191) then String "S" (ToUpper s'')
          else String (upper_byte a) (ToUpper s')
      | EmptyString => String (upper_byte a) ""
      end
  end.

Definition is_sign (a : ascii) : bool := mem_byte ["+"%char; "-"%char] a.

(** The text before the first sign, and the rest from the sign on. *)
Fixpoint cut_sign (s : string) : option (string * string) :=
  match s with
  | EmptyString => None
  | String a s' =>
      if is_sign a then Some ("", s)
      else match cut_sign s' with Some (name, rest) => Some (String a name, rest) | None => None end
  end.

Definition level_name (name : string) : result Z :=
  let name := ToUpper name in
  if decide (name = "DEBUG") then Ok LevelDebug
  else if decide (name = "INFO") then Ok LevelInfo
  else if decide (name = "WARN") then Ok LevelWarn
  else if decide (name = "ERROR") then Ok LevelError
  else Err (ErrNew "unknown name").

(** [%q] and [%w] of a message. *)
Definition wrap_q {A} (format s : string) (r : result A) : result A :=
  match r with Ok a => Ok a | Err e => Err (Errorf format [AStr s; AWrap e]) end.

(** The error of [strconv.Atoi], for a text that starts with a sign. *)
Definition Atoi_error (s : string) : error :=
  let digits := match s with String _ s => s | EmptyString => "" end in
  Errorf "strconv.Atoi: parsing %q: %s"
    [AStr s; AStr (match unsigned_digits digits with Some _ => "value out of range" | None => "invalid syntax" end)].

(** [Level.parse] *)
Definition parse_level (s : string) : result Z :=
  wrap_q "slog: level string %q: %w" s
    match cut_sign s with
    | None => level_name s
    | Some (name, digits) =>
        match ParseInt digits with
        | None => Err (Atoi_error digits)
        | Some offset => l ← level_name name; Ok (wrap_int64 (l + offset))
        end
    end.

(** ** migrate.go: buildLogger *)

Inductive log_handler : Type :=
  | JSONHandler (level : Z)
  | TextHandler (h : Narrate.Handler) (erases : bool).   (* over [console.EraseLineBefore] *)

Definition NO_COLOR : string := "NO_COLOR".

Section Logger.
Context (Getenv : string -> string).

Definition buildLogger (logLevel logFormat : string) (isATTY : bool) : result log_handler :=
  level ← wrap_err "failed to parse log level: %w" (parse_level logLevel);
  if decide (logFormat = logFormatJSON) then Ok (JSONHandler level)
  else if decide (logFormat = logFormatText)
  then Ok (TextHandler (NewHandler level (ForTerminal isATTY false (Getenv NO_COLOR))) isATTY)
  else Err (Errorf "unknown log format: %s" [AStr logFormat]).

(** [PersistentPreRunE] of the root command: a logger that was handed in is kept. *)
Definition PersistentPreRunE (o : Options) (isATTY : bool) (logger : option log_handler) : result log_handler :=
  match logger with
  | Some logger => Ok logger
  | None => wrap_err "failed to build logger: %w" (buildLogger (LogLevel o) (LogFormat o) isATTY)
  end.

(** ** completion.go: the completion command *)

Inductive script : Type := BashCompletion | ZshCompletion | FishCompletion (desc : bool) | PowerShellCompletionWithDesc.
#[export] Instance script_eq_dec : EqDecision script.
Proof. solve_decision. Defined.

(** What the flag library is asked to check: one argument, and one of these. *)
Definition completion_ValidArgs : list string := ["bash"; "zsh"; "fish"; "powershell"].

Definition completion_script (arg : string) : option script :=
  if decide (arg = "bash") then Some BashCompletion
  else if decide (arg = "zsh") then Some ZshCompletion
  else if decide (arg = "fish") then Some (FishCompletion true)
  else if decide (arg = "powershell") then Some PowerShellCompletionWithDesc
  else None.

(** [RunE]; without an argument it panics. *)
Definition completion_RunE (Gen : script -> result ()) (args : list string) : option (result ()) :=
  arg ← head args;
  Some (wrap_err "failed to generate completion script: %w"
    match completion_script arg with Some s => Gen s | None => Ok () end).

(** ** completion.go, k8s/completion.go *)

Inductive ShellCompDirective : Type := DirectiveError | DirectiveDefault | DirectiveNoFileComp (noSpace : bool).

Context {Client : Type}.

(** What a cluster answers: the client, the contexts of its kubeconfig in the order
    Go ranges over them, and the names of its namespaces and claims. *)
Record cluster : Type := mkCluster {
  GetClusterClient : string -> string -> result Client;
  RawConfig : Client -> result (list string);
  ListNamespaces : Client -> result (list string);
  ListClaims : Client -> string -> result (list string)
}.
Context (k : cluster).

Definition GetContexts (kubeconfigPath : string) : result (list string) :=
  c ← GetClusterClient k kubeconfigPath "";
  wrap_err "failed to load kubeconfig: %w" (RawConfig k c).
Definition GetNamespaces (kubeconfigPath kubectx : string) : result (list string) :=
  c ← GetClusterClient k kubeconfigPath kubectx;
  wrap_err "failed to list namespaces: %w" (ListNamespaces k c).
Definition GetPVCs (kubeconfigPath kubectx ns : string) : result (list string) :=
  c ← GetClusterClient k kubeconfigPath kubectx;
  wrap_err "failed to list PVCs: %w" (ListClaims k c ns).

Context (GetString : string -> result string).

Definition completionLogger : result log_handler :=
  logLevel ← wrap_q "failed to get flag %q: %w" FlagLogLevel (GetString FlagLogLevel);
  logFormat ← wrap_q "failed to get flag %q: %w" FlagLogFormat (GetString FlagLogFormat);
  wrap_err "failed to build logger: %w" (buildLogger logLevel logFormat false).

(** An error is logged and answered with the directive alone. *)
Definition answer (d : ShellCompDirective) (r : result (list string)) : list string * ShellCompDirective :=
  match r with Ok names => (names, d) | Err _ => ([], DirectiveError) end.

Definition kubeContextCompletion (kubeconfigFlag : string) : list string * ShellCompDirective :=
  answer DirectiveDefault (
    _ ← completionLogger;
    srcKubeconfig ← GetString kubeconfigFlag;
    GetContexts srcKubeconfig).

Definition kubeNSCompletion (kubeconfigFlag contextFlag : string) : list string * ShellCompDirective :=
  answer DirectiveDefault (
    _ ← completionLogger;
    srcKubeconfig ← GetString kubeconfigFlag;
    srcContext ← GetString contextFlag;
    GetNamespaces srcKubeconfig srcContext).

Definition pvcCompletion (isDestPVC : bool) : list string * ShellCompDirective :=
  let '(kubeconfigFlag, contextFlag, namespaceFlag) :=
    if isDestPVC then (FlagDestKubeconfig, FlagDestContext, FlagDestNamespace)
    else (FlagSourceKubeconfig, FlagSourceContext, FlagSourceNamespace) in
  answer (DirectiveNoFileComp false) (
    _ ← completionLogger;
    kubeconfig ← GetString kubeconfigFlag;
    useContext ← GetString contextFlag;
    namespace ← GetString namespaceFlag;
    GetPVCs kubeconfig useContext namespace).

(** The order Go ranges over a map's keys in. *)
Context (range : gset string -> list string).

Definition complete (fn : completion) (toComplete : string) : list string * ShellCompDirective :=
  match fn with
  | NoFileComplete => ([], DirectiveNoFileComp false)
  | StaticSlice values => (values, DirectiveNoFileComp false)
  | SliceOf values =>
      let '(suggestions, d) := sliceCompletion range values toComplete in
      (suggestions, DirectiveNoFileComp (match d with NoFileCompNoSpace => true | NoFileComp => false end))
  | KubeContext kubeconfigFlag => kubeContextCompletion kubeconfigFlag
  | KubeNS kubeconfigFlag contextFlag => kubeNSCompletion kubeconfigFlag contextFlag
  | PVCNames isDestPVC => pvcCompletion isDestPVC
  end.
End Logger.
Arguments cluster : clear implicits.

(** ** Lemmas *)

Lemma Itoa_negative z : z < 0 -> Itoa z = String "-" (Itoa (- z)).
Proof.
  intros Hz. unfold Itoa. destruct z as [|p|p]; try lia. reflexivity.
Qed.

Lemma ParseInt_signed z : min_int64 <= z <= max_int64 ->
  ParseInt ((if decide (z < 0) then "" else "+") +:+ Itoa z) = Some z.
Proof.
  intros Hz. unfold ParseInt, in_int64. destruct (decide (z < 0)) as [Hn|Hn].
  - change ("" +:+ Itoa z) with (Itoa z). rewrite Itoa_negative by done.
    change (CutPrefix (String "-" (Itoa (- z))) "-") with (Some (Itoa (- z))). cbn [mbind option_bind].
    rewrite unsigned_digits_Itoa by lia. cbn. rewrite Z.opp_involutive, bool_decide_true by done. done.
  - change (CutPrefix ("+" +:+ Itoa z) "-") with (@None string).
    change (CutPrefix ("+" +:+ Itoa z) "+") with (Some (Itoa z)). cbn [mbind option_bind].
    rewrite unsigned_digits_Itoa by lia. cbn. by rewrite bool_decide_true.
Qed.

(** The levels the default names stand for, with an offset. *)
Lemma parse_offset base l z :
  cut_sign base = None -> level_name base = Ok l -> min_int64 <= l + z <= max_int64 -> min_int64 <= z <= max_int64 ->
  parse_level (level_offset base z) = Ok (l + z).
Proof.
  intros Hc Hl H1 H2. unfold level_offset, parse_level. destruct (decide (z = 0)) as [->|Hz].
  - by rewrite Hc, Hl, Z.add_0_r.
  - set (rest := (if decide (z < 0) then "" else "+") +:+ Itoa z).
    assert (cut_sign (base +:+ rest) = Some (base, rest)) as ->.
    { assert (cut_sign rest = Some ("", rest)) as Hr.
      { unfold rest. destruct (decide (z < 0)); [|done]. change ("" +:+ Itoa z) with (Itoa z). by rewrite Itoa_negative by done. }
      clear - Hc Hr. induction base as [|a base IH]; [done|]. cbn in *. destruct (is_sign a); [done|].
      destruct (cut_sign base) as [[]|]; [done|]. by rewrite IH. }
    unfold rest. rewrite ParseInt_signed, Hl by done. cbn. unfold wrap_int64. f_equal.
    rewrite Z.mod_small; [lia|]. unfold min_int64, max_int64 in *. lia.
Qed.

(** ** Properties *)

(** A level printed by slog is read back, whatever its offset. *)
Theorem Level_roundtrip (l : Z) : min_int64 <= l <= max_int64 -> parse_level (Level_String l) = Ok l.
Proof.
  intros Hl. unfold Level_String, LevelDebug, LevelInfo, LevelWarn, LevelError, min_int64, max_int64 in *.
  repeat case_decide.
  - rewrite (parse_offset "DEBUG" (-4)); unfold min_int64, max_int64; (done || f_equal; lia || lia).
  - rewrite (parse_offset "INFO" 0); unfold min_int64, max_int64; (done || f_equal; lia || lia).
  - rewrite (parse_offset "WARN" 4); unfold min_int64, max_int64; (done || f_equal; lia || lia).
  - rewrite (parse_offset "ERROR" 8); unfold min_int64, max_int64; (done || f_equal; lia || lia).
Qed.

(** The side a flag of the root command is about, and what completing it asks. *)
Definition side_of (flag : string) (o : Options) : PVC :=
  if HasPrefix flag "dest" then Migrate.Dest (Migration o) else Migrate.Source (Migration o).
Definition asked {Client} (k : cluster Client) (flag : string) (o : Options) : list string * ShellCompDirective :=
  let p := side_of flag o in
  if HasSuffix flag "-context" then answer DirectiveDefault (GetContexts k (claim_Kubeconfig p))
  else if HasSuffix flag "-namespace" then answer DirectiveDefault (GetNamespaces k (claim_Kubeconfig p) (claim_Context p))
  else answer (DirectiveNoFileComp false) (GetPVCs k (claim_Kubeconfig p) (claim_Context p) (claim_Namespace p)).
Definition asks_cluster (fn : completion) : bool :=
  match fn with KubeContext _ | KubeNS _ _ | PVCNames _ => true | _ => false end.

(** A name completed from a cluster is asked of the cluster, the context and the
    namespace given for the same side of the migration, whatever else was given. *)
Theorem completion_asks_its_side Getenv {Client} (k : cluster Client) GetString range (o o' : Options) flag fn message logger word :
  (forall f, f ∈ flags_of (migrateCmd o') -> forall E : flag_kind f = KString,
     GetString (flag_name f) = Ok (eq_rect _ Flags.value (view (bound f) o) _ E)) ->
  buildLogger Getenv (LogLevel o) (LogFormat o) false = Ok logger ->
  Complete flag fn message ∈ setMigrateCmdCompletion -> asks_cluster fn = true ->
  complete Getenv k GetString range fn word = asked k flag o.
Proof.
  intros Hget Hlog Hin Hfn.
  assert (forall i f, flags_of (migrateCmd o') !! i = Some f -> forall E : flag_kind f = KString,
    GetString (flag_name f) = Ok (eq_rect _ Flags.value (view (bound f) o) _ E)) as Hi
    by (intros i f Hf; apply Hget; by eapply list_elem_of_lookup_2).
  pose proof (Hi 0%nat _ eq_refl eq_refl) as H0. pose proof (Hi 1%nat _ eq_refl eq_refl) as H1.
  pose proof (Hi 2%nat _ eq_refl eq_refl) as H2. pose proof (Hi 3%nat _ eq_refl eq_refl) as H3.
  pose proof (Hi 4%nat _ eq_refl eq_refl) as H4. pose proof (Hi 7%nat _ eq_refl eq_refl) as H7.
  pose proof (Hi 8%nat _ eq_refl eq_refl) as H8. pose proof (Hi 9%nat _ eq_refl eq_refl) as H9.
  cbn in H0, H1, H2, H3, H4, H7, H8, H9.
  assert (completionLogger Getenv GetString = Ok logger) as HL.
  { unfold completionLogger. rewrite H0. cbn. rewrite H1. cbn. by rewrite Hlog. }
  unfold setMigrateCmdCompletion in Hin. apply list_elem_of_fmap in Hin as ([n c] & E & Hin).
  injection E as -> -> ->. cbn [fst snd] in *.
  repeat (apply elem_of_cons in Hin as [[= -> ->]|Hin];
    [first [discriminate Hfn|cbn [complete]; unfold kubeContextCompletion, kubeNSCompletion, pvcCompletion; rewrite HL; cbn [mbind result_bind];
      repeat match goal with H : GetString _ = _ |- _ => rewrite H; clear H; cbn [mbind result_bind] end; reflexivity]|]).
  by apply elem_of_nil in Hin.
Qed.

(** Each argument the command lists has a script of its own, and an invocation with
    the arguments it asks for generates that script. *)
Theorem completion_generates Gen args :
  length args = 1%nat -> Forall (fun a => a ∈ completion_ValidArgs) args ->
  NoDup (completion_script <$> completion_ValidArgs) /\
  exists a s, args = [a] /\ completion_script a = Some s /\
    completion_RunE Gen args = Some (wrap_err "failed to generate completion script: %w" (Gen s)).
Proof.
  intros Hl Hv. split; [by apply (bool_decide_unpack _); vm_compute|].
  destruct args as [|a [|]]; try discriminate Hl. apply Forall_cons in Hv as [Ha _].
  unfold completion_ValidArgs in Ha.
  repeat (apply elem_of_cons in Ha as [->|Ha]; [by eexists _, _; split|]). by apply elem_of_nil in Ha.
Qed.
