(* ===== verification/Main.v ===== *)
(** * cmd/pv-migrate/main.go

    [run] builds the root command and executes it under a context that the first
    termination signal cancels; a goroutine waits for the signal and goes when the
    command has ended.  Building and executing the command (CommandLine.v, Api.v,
    App.v) are a step each, with its result; the goroutine, [run] and the signals
    are an interleaving of atomic steps. *)
From S2P Require Import Prelude GoStrings Fmt Utf8 Interleaving.
From stdpp Require Import relations options.
Local Open Scope nat_scope.

(** ** The last line *)

(** [utf8.DecodeRuneInString]: the first rune and its size, or [None] for
    [RuneError]. *)
Definition DecodeRune (text : string) : option (Z * nat) :=
  let at_size n := match decode_runes (String.substring 0 n text) with
                   | Some [r] => if decide (r = 0xFFFD%Z) then None else Some (r, n)
                   | _ => None
                   end in
  match at_size 1 with
  | Some x => Some x
  | None => match at_size 2 with
            | Some x => Some x
            | None => match at_size 3 with Some x => Some x | None => at_size 4 end
            end
  end.

(** [unicode.ToUpper] is an argument. *)
Definition capitalized (ToUpper : Z -> Z) (text : string) : string :=
  match DecodeRune text with
  | None => text
  | Some (first, size) => encode_rune (ToUpper first) +:+ String.substring size (String.length text - size) text
  end.

(** ** run *)

Inductive run_pc : Type :=
  | Building
  | Executing
  | Stopping (exitCode : Z)          (* the deferred calls: signal.Stop, *)
  | ClosingDone (exitCode : Z)       (* close(doneCh), *)
  | Cancelling (exitCode : Z)        (* and cancel *)
  | Exited (exitCode : Z).

Inductive watch_pc : Type := Waiting | Warned | Gone.

Record state : Type := mkState {
  main : run_pc;
  watch : watch_pc;
  pending : bool;                    (* signalCh holds a signal: it has room for one *)
  notified : bool;                   (* signals are sent to signalCh *)
  doneCh : bool;                     (* it is closed *)
  ctx : bool;                        (* it is cancelled *)
  logged : list string
}.

Inductive label : Type :=
  | Built (r : result ())
  | Executed (r : result ())
  | Defer                            (* the next deferred call of [run] *)
  | Signal
  | TakesSignal                      (* the two cases of the [select], and the cancel *)
  | TakesDone
  | Cancels.

Section Run.
Context (ToUpper : Z -> Z).

Definition start : state := mkState Building Waiting false true false false [].

Definition say (text : string) (s : state) (m : run_pc) : state :=
  mkState m (watch s) (pending s) (notified s) (doneCh s) (ctx s) (logged s ++ [text]).
Definition move (s : state) (m : run_pc) : state :=
  mkState m (watch s) (pending s) (notified s) (doneCh s) (ctx s) (logged s).

Definition next (l : label) (s : state) : option state :=
  match l with
  | Built r =>
      match main s, r with
      | Building, Ok _ => Some (move s Executing)
      | Building, Err e => Some (say ("❌ Failed to build the command: " +:+ Error e) s (Stopping 1))
      | _, _ => None
      end
  | Executed r =>
      match main s, r with
      | Executing, Ok _ => Some (move s (Stopping 0))
      | Executing, Err e => Some (say ("❌ " +:+ capitalized ToUpper (Error e)) s (Stopping 1))
      | _, _ => None
      end
  | Defer =>
      match main s with
      | Stopping c => Some (mkState (ClosingDone c) (watch s) (pending s) false (doneCh s) (ctx s) (logged s))
      | ClosingDone c => Some (mkState (Cancelling c) (watch s) (pending s) (notified s) true (ctx s) (logged s))
      | Cancelling c => Some (mkState (Exited c) (watch s) (pending s) (notified s) (doneCh s) true (logged s))
      | _ => None
      end
  | Signal => Some (mkState (main s) (watch s) (pending s || notified s) (notified s) (doneCh s) (ctx s) (logged s))
  | TakesSignal =>
      match watch s with
      | Waiting => if pending s then Some (mkState (main s) Warned false (notified s) (doneCh s) (ctx s)
                                             (logged s ++ ["🔶 Received termination signal"])) else None
      | _ => None
      end
  | TakesDone =>
      match watch s with
      | Waiting => if doneCh s then Some (mkState (main s) Gone (pending s) (notified s) (doneCh s) (ctx s) (logged s)) else None
      | _ => None
      end
  | Cancels =>
      match watch s with
      | Warned => Some (mkState (main s) Gone (pending s) (notified s) (doneCh s) true (logged s))
      | _ => None
      end
  end.

Definition own (l : label) : bool := match l with Defer | TakesSignal | TakesDone | Cancels => true | _ => false end.

Definition warning : string := "🔶 Received termination signal".

(** ** Lemmas *)

Definition has_exited (m : run_pc) : bool := match m with Exited _ => true | _ => false end.
Definition done_said (m : run_pc) : bool := match m with Cancelling _ | Exited _ => true | _ => false end.

(** How far the deferred calls have come, and what a cancelled context comes from. *)
Record good (s : state) : Prop := mkGood {
  done_closed : done_said (main s) = true -> doneCh s = true;
  exited_cancelled : has_exited (main s) = true -> ctx s = true;
  warned : watch s = Warned -> warning ∈ logged s;
  cancelled : ctx s = true -> has_exited (main s) = true \/ warning ∈ logged s;
  told : warning ∈ logged s -> watch s = Warned \/ ctx s = true
}.

Lemma in_say text l : warning ∈ l -> warning ∈ l ++ [text].
Proof using Type. intros H. apply elem_of_app. by left. Qed.

Lemma said_other text l : warning <> text -> warning ∈ l ++ [text] -> warning ∈ l.
Proof using Type. intros Hn [H|H%list_elem_of_singleton]%elem_of_app; done. Qed.

Lemma run_good_step l s s' : good s -> next l s = Some s' -> good s'.
Proof using Type.
  intros [H1 H2 H3 H4 H5] E.
  destruct l; cbn in E; repeat case_match; try done; injection E as <-; split; cbn in *; try done; auto using in_say.
  all: try (intros Hc; destruct (H4 Hc) as [Hx|Hx]; [by rewrite ?Hx in *|auto using in_say]).
  all: try (intros _; apply elem_of_app; right; by left).
  all: try (intros Hc; right; apply elem_of_app; right; by left).
  all: try (intros Hw; apply H5; eapply said_other; [|exact Hw]; discriminate).
  all: try (by right); try (by left).
  all: try (right; by auto).
  all: intros Hw; destruct (H5 Hw); try congruence; auto.
Qed.

(** The steps of [run]'s own that are left once the command has ended. *)
Definition steps_left (s : state) : nat :=
  match main s with Exited _ => 0 | Cancelling _ => 1 | ClosingDone _ => 2 | _ => 3 end +
  match watch s with Gone => 0 | Warned => 1 | Waiting => 2 end.

Lemma run_own_step l s s' : own l = true -> next l s = Some s' -> steps_left s' < steps_left s.
Proof using Type.
  intros Hl E. unfold steps_left. destruct l; try discriminate Hl; cbn in E; repeat case_match; try done;
    injection E as <-; cbn in *; simplify_eq/=; lia.
Qed.

(** ** Property *)

(** However signals arrive: once nothing of [run] is left to run, the command is
    still being built or executed, or [run] has returned, with its goroutine gone
    and its context cancelled; that takes five steps at most; before it returns the
    context is cancelled only after a signal, which is said, and a signal that is
    said does cancel it. *)
Theorem run_ends s : rtc (step next) start s ->
  (forall ls s', forallb own ls = true -> runs next ls s = Some s' -> length ls <= 5) /\
  (stuck next own s -> (main s = Building \/ main s = Executing) \/ (has_exited (main s) = true /\ watch s = Gone /\ ctx s = true)) /\
  (ctx s = true -> has_exited (main s) = true \/ warning ∈ logged s) /\
  (stuck next own s -> warning ∈ logged s -> ctx s = true).
Proof using Type.
  intros Hs. assert (good s) as G.
  { revert s Hs. apply (reachable_keep next); [split; cbn; done || by intros ?%elem_of_nil|]. intros l s s'. apply run_good_step. }
  split; [|split; [|split]].
  - intros ls s' Hls Hr.
    pose proof (runs_bounded next own (fun _ => True) steps_left (fun l s s' Hl _ E => conj I (run_own_step l s s' Hl E)) ls s s' Hls I Hr).
    assert (steps_left s <= 5) by (unfold steps_left; destruct (main s), (watch s); lia). lia.
  - intros Hst. pose proof (Hst Defer eq_refl) as Hd. pose proof (Hst TakesDone eq_refl) as Ht. pose proof (Hst Cancels eq_refl) as Hc.
    cbn in Hd, Ht, Hc. destruct (main s) eqn:Em; try discriminate Hd; [by left; left|by left; right|right].
    split; [done|]. split; [|by apply exited_cancelled; rewrite ?Em].
    destruct (watch s); [|done..]. by rewrite (done_closed s G) in Ht by (by rewrite Em).
  - apply (cancelled s G).
  - intros Hst Hw. pose proof (Hst Cancels eq_refl) as Hc. cbn in Hc. destruct (told s G Hw) as [E|]; [by rewrite E in Hc|done].
Qed.
End Run.
