(* ===== verification/KubeClient.v ===== *)
(** * internal/k8s/client.go, helm.go, networkpolicy.go

    [GetClusterClient] builds what the rest of the program talks to a cluster with,
    and hands Helm a getter that shares the [rest.Config] of the client by pointer:
    [ToDiscoveryClient] writes to it.  So the configs are a store here, and a
    pointer an index into it.  client-go itself is the class [ClientGo]. *)
From S2P Require Import Prelude GoStrings.
From stdpp Require Import list options.
Local Open Scope Z_scope.

(** ** client-go, as far as it is called *)

(** [rest.Config]: the one field that is written, and the others. *)
Record restConfig (Other : Type) : Type := mkConfig { Burst : Z; other : Other }.
Arguments mkConfig {Other} _ _.
Arguments Burst {Other} _.
Arguments other {Other} _.

Definition with_burst {Other} (n : Z) (c : restConfig Other) : restConfig Other := mkConfig n (other c).

Class ClientGo : Type := {
  Other : Type;
  LoadingRules : Type;
  Loader : Type;
  Interface : Type;
  DiscoveryClient : Type;
  NewDefaultClientConfigLoadingRules : LoadingRules;
  set_ExplicitPath : string -> LoadingRules -> LoadingRules;
  (* with the current context as the one override *)
  NewNonInteractiveDeferredLoadingClientConfig : LoadingRules -> string -> Loader;
  Namespace : Loader -> result (string * bool);
  (* a config of its own for every call *)
  ClientConfig : Loader -> result (restConfig Other);
  NewForConfig : restConfig Other -> result Interface;
  NewDiscoveryClientForConfig : restConfig Other -> result DiscoveryClient
}.

(** A clientset has a discovery client of its own, built from the same config; a
    higher burst does not get in the way. *)
Class LawfulClientGo `{ClientGo} : Prop := {
  discovery_builds config client : NewForConfig config = Ok client ->
    exists d, NewDiscoveryClientForConfig (with_burst 100 config) = Ok d
}.

Section KubeClient.
Context `{ClientGo}.

(** ** The store of configs *)

#[local] Notation store := (list (restConfig Other)).
#[local] Notation pointer := nat (only parsing).
Definition stateful (A : Type) : Type := store -> result A * store.

#[export] Instance stateful_ret : MRet stateful := fun A a s => (Ok a, s).
#[export] Instance stateful_bind : MBind stateful := fun A B f m s =>
  match m s with (Ok a, s') => f a s' | (Err e, s') => (Err e, s') end.

Definition lift {A} (r : result A) : stateful A := fun s => (r, s).
Definition alloc (c : restConfig Other) : stateful pointer := fun s => (Ok (length s), s ++ [c]).
(** A dereference; a pointer to nothing panics. *)
Definition load (p : pointer) : stateful (restConfig Other) := fun s =>
  match s !! p with Some c => (Ok c, s) | None => (Err (ErrNew "panic: nil pointer dereference"), s) end.
Definition set_Burst (p : pointer) (n : Z) : stateful () := fun s => (Ok (), alter (with_burst n) p s).

(** ** helm.go *)

Record HelmRESTClientGetter : Type := NewRESTClientGetter {
  restConfig_ : pointer;
  clientConfig : Loader
}.

(** [memory.NewMemCacheClient]: around a client, or around nil. *)
Record CachedDiscovery : Type := NewMemCacheClient { delegate : option DiscoveryClient }.
(** The shortcut expander around the deferred mapper: both ask the one client. *)
Record RESTMapper : Type := NewShortcutExpander { mapper : CachedDiscovery; shortcuts : CachedDiscovery }.

Definition ToRESTConfig (c : HelmRESTClientGetter) : stateful pointer := mret (restConfig_ c).

(** The error of [NewDiscoveryClientForConfig] is discarded. *)
Definition ToDiscoveryClient (c : HelmRESTClientGetter) : stateful CachedDiscovery :=
  config ← ToRESTConfig c;
  _ ← set_Burst config 100;
  value ← load config;
  mret (NewMemCacheClient
    match NewDiscoveryClientForConfig value with Ok discoveryClient => Some discoveryClient | Err _ => None end).

Definition ToRESTMapper (c : HelmRESTClientGetter) : stateful RESTMapper :=
  discoveryClient ← ToDiscoveryClient c;
  mret (NewShortcutExpander discoveryClient discoveryClient).

Definition ToRawKubeConfigLoader (c : HelmRESTClientGetter) : Loader := clientConfig c.

(** ** client.go *)

Record ClusterClient : Type := mkClusterClient {
  RestConfig : pointer;
  KubeClient : Interface;
  RESTClientGetter : HelmRESTClientGetter;
  NsInContext : string
}.

Definition loader_of (kubeconfigPath context : string) : Loader :=
  let rules := NewDefaultClientConfigLoadingRules in
  NewNonInteractiveDeferredLoadingClientConfig
    (if decide (kubeconfigPath = "") then rules else set_ExplicitPath kubeconfigPath rules) context.

Definition buildK8sConfig (kubeconfigPath context : string) : stateful (pointer * HelmRESTClientGetter * string) :=
  let config := loader_of kubeconfigPath context in
  namespace ← lift (wrap_err "failed to get namespace from kubeconfig: %w" (Namespace config));
  value ← lift (wrap_err "failed to create kubernetes client config: %w" (ClientConfig config));
  clientConfig ← alloc value;
  mret (clientConfig, NewRESTClientGetter clientConfig config, namespace.1).

Definition GetClusterClient (kubeconfigPath context : string) : stateful ClusterClient :=
  built ← buildK8sConfig kubeconfigPath context;
  let '(config, rcGetter, namespace) := built in
  value ← load config;
  kubeClient ← lift (wrap_err "failed to create kubernetes client: %w" (NewForConfig value));
  mret (mkClusterClient config kubeClient rcGetter namespace).

(** ** networkpolicy.go *)

Record ResourceAttributes : Type := mkAttributes {
  attr_Namespace : string; Verb : string; Group : string; Resource : string
}.

(** The review is created on the cluster, which answers whether it is allowed. *)
Definition CanCreateNetworkPolicies (Create : ResourceAttributes -> result bool) (namespace : string) : result bool :=
  match Create (mkAttributes namespace "create" "networking.k8s.io" "networkpolicies") with
  | Ok allowed => Ok allowed
  | Err e => Err (Errorf "failed to check the permission to create network policies in namespace %s: %w"
                    [AStr namespace; AWrap e])
  end.

(** ** What Helm does with a getter *)

Inductive use : Type := TakesConfig | TakesDiscovery | TakesMapper | TakesLoader.

Definition Use (c : HelmRESTClientGetter) (u : use) : stateful (list CachedDiscovery) :=
  match u with
  | TakesConfig => _ ← ToRESTConfig c; mret []
  | TakesDiscovery => d ← ToDiscoveryClient c; mret [d]
  | TakesMapper => m ← ToRESTMapper c; mret [mapper m; shortcuts m]
  | TakesLoader => mret []
  end.

Fixpoint Uses (c : HelmRESTClientGetter) (us : list use) : stateful (list CachedDiscovery) :=
  match us with
  | [] => mret []
  | u :: us => ds ← Use c u; more ← Uses c us; mret (ds ++ more)
  end.

Definition writes (u : use) : bool := match u with TakesDiscovery | TakesMapper => true | _ => false end.

(** The config of a pointer after some uses. *)
Definition used (us : list use) (c : restConfig Other) : restConfig Other :=
  if existsb writes us then with_burst 100 c else c.

(** ** Lemmas *)

Lemma GetClusterClient_built path context s c s' : GetClusterClient path context s = (Ok c, s') ->
  exists config explicit,
    Namespace (loader_of path context) = Ok (NsInContext c, explicit) /\
    ClientConfig (loader_of path context) = Ok config /\ NewForConfig config = Ok (KubeClient c) /\
    s' = s ++ [config] /\ RestConfig c = length s /\
    RESTClientGetter c = NewRESTClientGetter (RestConfig c) (loader_of path context).
Proof.
  unfold GetClusterClient, buildK8sConfig. cbn zeta.
  unfold mbind, stateful_bind, mret, stateful_ret, lift, alloc, load.
  destruct (Namespace _) as [[ns explicit]|] eqn:En; [|done].
  destruct (ClientConfig _) as [config|] eqn:Ec; [|done]. cbn.
  rewrite (list_lookup_middle s []) by done.
  destruct (NewForConfig config) as [k|] eqn:Ek; [|done]. cbn. intros [= <- <-].
  exists config, explicit. done.
Qed.

Context {lawful : LawfulClientGo}.

Definition real (d : CachedDiscovery) : Prop := exists client, delegate d = Some client.

(** The pointer of the getter leads to a config a clientset was built from, but for
    its burst. *)
Definition usable (g : HelmRESTClientGetter) (s : store) : Prop := exists c config client,
  s !! restConfig_ g = Some c /\ other c = other config /\ NewForConfig config = Ok client.

Lemma usable_used g us s : usable g s -> usable g (alter (used us) (restConfig_ g) s).
Proof.
  intros (c & config & client & Hp & Ho & Hk). exists (used us c), config, client.
  split; [by rewrite list_lookup_alter_eq, Hp|]. split; [|done]. by unfold used; destruct (existsb _ _).
Qed.

Lemma used_cons u us c : used (u :: us) c = used us (used [u] c).
Proof. unfold used. cbn. by destruct (writes u), (existsb writes us). Qed.

Lemma ToDiscoveryClient_real g s : usable g s ->
  exists d, real d /\ ToDiscoveryClient g s = (Ok d, alter (with_burst 100) (restConfig_ g) s).
Proof using lawful.
  intros (c & config & client & Hp & Ho & Hk). destruct (discovery_builds _ _ Hk) as [d Hd].
  exists (NewMemCacheClient (Some d)). split; [by exists d|].
  unfold ToDiscoveryClient, ToRESTConfig, mbind, stateful_bind, mret, stateful_ret, set_Burst, load.
  rewrite list_lookup_alter_eq, Hp. cbn. unfold with_burst in *. by rewrite Ho, Hd.
Qed.

Lemma Use_real g u s : usable g s ->
  exists ds, Forall real ds /\ Use g u s = (Ok ds, alter (used [u]) (restConfig_ g) s).
Proof using lawful.
  intros Hg. destruct (ToDiscoveryClient_real g s Hg) as (d & Hd & E).
  destruct u; cbn [Use]; unfold ToRESTMapper, mbind, stateful_bind; rewrite ?E.
  - exists []. split; [done|]. by rewrite list_alter_id.
  - exists [d]. by split; [constructor|].
  - exists [d; d]. split; [by repeat constructor|done].
  - exists []. split; [done|]. by rewrite list_alter_id.
Qed.

Lemma Uses_real g us s : usable g s ->
  exists ds, Forall real ds /\ Uses g us s = (Ok ds, alter (used us) (restConfig_ g) s).
Proof using lawful.
  revert s. induction us as [|u us IH]; intros s Hg; cbn [Uses].
  - exists []. split; [done|]. by rewrite list_alter_id.
  - destruct (Use_real g u s Hg) as (ds & Hds & E).
    destruct (IH _ (usable_used g [u] s Hg)) as (more & Hmore & E').
    exists (ds ++ more). split; [by apply Forall_app|].
    unfold mbind, stateful_bind. rewrite E, E'. unfold mret, stateful_ret. f_equal.
    apply list_eq. intros i. rewrite !list_lookup_alter. case_decide; [|done]. subst i.
    rewrite decide_True by done. destruct (s !! _); [|done]. cbn. by rewrite (used_cons u us).
Qed.

(** ** What holds of the clients of a run *)

(** Two clients of one run, those of the two sides of a migration, stay apart: each
    has a config of its own and the namespace of the context it was asked for, and
    whatever Helm takes from the getter of the first, it is given discovery clients
    that exist, although their error is discarded; it raises the burst of the
    config of the first, which the exec sessions and the port forwards of the
    program share, and changes nothing else. *)
Theorem clients_apart path1 context1 path2 context2 us s s1 s2 c1 c2 :
  GetClusterClient path1 context1 s = (Ok c1, s1) -> GetClusterClient path2 context2 s1 = (Ok c2, s2) ->
  RestConfig c1 <> RestConfig c2 /\
  (exists e1 e2, Namespace (loader_of path1 context1) = Ok (NsInContext c1, e1) /\
     Namespace (loader_of path2 context2) = Ok (NsInContext c2, e2)) /\
  exists ds s3, Uses (RESTClientGetter c1) us s2 = (Ok ds, s3) /\ Forall real ds /\
    s3 !! RestConfig c1 = used us <$> s2 !! RestConfig c1 /\
    (forall p, p <> RestConfig c1 -> s3 !! p = s2 !! p).
Proof using lawful.
  intros (cfg1 & e1 & Hn1 & _ & Hk1 & -> & Hp1 & Hg1)%GetClusterClient_built
    (cfg2 & e2 & Hn2 & _ & _ & -> & Hp2 & _)%GetClusterClient_built.
  rewrite length_app in Hp2. cbn in Hp2. split; [rewrite Hp1, Hp2; cbn; lia|]. split; [by exists e1, e2|].
  destruct (Uses_real (RESTClientGetter c1) us ((s ++ [cfg1]) ++ [cfg2])) as (ds & Hds & E).
  { exists cfg1, cfg1, (KubeClient c1). split; [|done]. rewrite Hg1. cbn. rewrite Hp1, <- app_assoc.
    by apply list_lookup_middle. }
  exists ds. eexists. split; [exact E|]. split; [done|]. rewrite Hg1. cbn [restConfig_]. split.
  - by rewrite list_lookup_alter_eq.
  - intros p Hne. by rewrite list_lookup_alter_ne.
Qed.
End KubeClient.

(** ** A client-go the laws hold of *)

Module SmallClientGo.
(** A kubeconfig that cannot be read is one whose path is [bad]. *)
#[export] Instance small : ClientGo := {
  Other := string; LoadingRules := string; Loader := string * string; Interface := string; DiscoveryClient := string;
  NewDefaultClientConfigLoadingRules := "~/.kube/config";
  set_ExplicitPath path _ := path;
  NewNonInteractiveDeferredLoadingClientConfig rules context := (rules, context);
  Namespace l := Ok (if decide (l.2 = "") then "default" else l.2, false);
  ClientConfig l := if decide (l.1 = "bad") then Err (ErrNew "no such file") else Ok (mkConfig 10 l.1);
  NewForConfig c := Ok (other c);
  NewDiscoveryClientForConfig c := Ok (other c)
}.
#[export] Instance small_lawful : LawfulClientGo.
Proof. constructor. intros config client _. by eexists. Qed.

Example GetClusterClient_bad : (GetClusterClient "bad" "" []).1 =
  Err (Errorf "failed to create kubernetes client config: %w" [AWrap (ErrNew "no such file")]).
Proof. reflexivity. Qed.

Example Uses_example : let '(_, s) := GetClusterClient "" "a" [] in
  match GetClusterClient "k" "" s with
  | (Ok c, s) => (Uses (RESTClientGetter c) [TakesLoader; TakesMapper; TakesConfig] s).2
  | _ => []
  end = [mkConfig 10 "~/.kube/config"; mkConfig 100 "k"].
Proof. reflexivity. Qed.
End SmallClientGo.
