(* ===== verification/CliReference.v ===== *)
(** * hack/gen-cli-reference: the rendering of docs/cli-reference.md

    The document is a template that interpolates variables of the environment, one
    for each help output.  [render] runs over an environment as [os.Environ] lists
    it; the template is what text/template parses docs/cli-reference.md.gotmpl to,
    text and fields of [.Env], which is all that file has. *)
From S2P Require Import Prelude GoStrings.
From stdpp Require Import gmap strings options.

Definition requiredVars : list string :=
  ["ROOT_USAGE"; "BACKUP_USAGE"; "RESTORE_USAGE"; "STATUS_USAGE"; "CLEANUP_USAGE"; "COMPLETION_USAGE"].

(** ** text/template, as far as the document uses it *)

Inductive node : Type := Text (text : string) | EnvField (name : string).

(** [tmpl.Execute] with [missingkey=error]; the position in its error is left out. *)
Fixpoint Execute (env : gmap string string) (tmpl : list node) : result string :=
  match tmpl with
  | [] => Ok ""
  | Text text :: tmpl => (fun rest => text +:+ rest) <$> Execute env tmpl
  | EnvField name :: tmpl =>
      match env !! name with
      | Some value => (fun rest => value +:+ rest) <$> Execute env tmpl
      | None => Err (Errorf "map has no entry for key %q" [AStr name])
      end
  end.

(** docs/cli-reference.md.gotmpl *)
Definition cli_reference : list node := [
  Text "# CLI reference

This file is generated by `task generate-cli-reference`.
Do not edit it directly.

## Root command

```text
";
  EnvField "ROOT_USAGE";
  Text "
```

## Backup

```text
";
  EnvField "BACKUP_USAGE";
  Text "
```

## Restore

```text
";
  EnvField "RESTORE_USAGE";
  Text "
```

## Status

```text
";
  EnvField "STATUS_USAGE";
  Text "
```

## Cleanup

```text
";
  EnvField "CLEANUP_USAGE";
  Text "
```

## Completion

```text
";
  EnvField "COMPLETION_USAGE";
  Text "
```
"].

(** ** render *)

(** [.Env]: of two entries of one variable the later counts. *)
Definition environ_map (environ : list string) : gmap string string :=
  foldl (fun env entry => match Cut entry "=" with Some (key, value) => <[key := value]> env | None => env end)
    ∅ environ.

(** [env[name]], empty where there is none. *)
Definition env_value (env : gmap string string) (name : string) : string := default "" (env !! name).

Definition empty_error (name : string) : error :=
  Errorf "%s is empty: its help command produced no output" [AStr name].

Section render.
Context (ParseFiles : result (list node)) (WriteFile : string -> result ()).

(** The result, and what was written to the document. *)
Definition render (environ : list string) : result () * option string :=
  let env := environ_map environ in
  match for_each (fun name => fail_if (bool_decide (TrimSpace (env_value env name) = "")) (empty_error name)) requiredVars with
  | Err e => (Err e, None)
  | Ok _ =>
      match wrap_err "parse template: %w" ParseFiles with
      | Err e => (Err e, None)
      | Ok tmpl =>
          match wrap_err "render template: %w" (Execute env tmpl) with
          | Err e => (Err e, None)
          | Ok buf => (wrap_err "write output: %w" (WriteFile buf), Some buf)
          end
      end
  end.

(** [main]: the exit status. *)
Definition main (environ : list string) : Z := if is_Ok (render environ).1 then 0%Z else 1%Z.
End render.

(** ** Specification *)

(** The text of a template with its variables filled in. *)
Definition fill (get : string -> string) (tmpl : list node) : string :=
  GoStrings.Join ((fun n => match n with Text text => text | EnvField name => get name end) <$> tmpl) "".

Definition fields (tmpl : list node) : list string :=
  omap (fun n => match n with Text _ => None | EnvField name => Some name end) tmpl.

Definition blank (env : gmap string string) (name : string) : bool := bool_decide (TrimSpace (env_value env name) = "").

(** ** Lemmas *)

Lemma fill_cons get n tmpl :
  fill get (n :: tmpl) = (match n with Text text => text | EnvField name => get name end) +:+ fill get tmpl.
Proof.
  unfold fill. rewrite fmap_cons. destruct tmpl as [|m tmpl]; [cbn; by rewrite app_nil_r_str|].
  by rewrite Join_cons.
Qed.

Lemma Execute_fields env tmpl : Forall (fun name => is_Some (env !! name)) (fields tmpl) ->
  Execute env tmpl = Ok (fill (env_value env) tmpl).
Proof.
  induction tmpl as [|[text|name] tmpl IH]; intros Hf; [done| |].
  - cbn [Execute]. rewrite IH by done. by rewrite fill_cons.
  - apply Forall_cons in Hf as [[value Hv] Hf]. cbn [Execute]. rewrite Hv, IH by done.
    rewrite fill_cons. unfold env_value at 2. by rewrite Hv.
Qed.

Lemma Execute_missing env tmpl name : name ∈ fields tmpl -> env !! name = None -> is_Ok (Execute env tmpl) = false.
Proof.
  intros Hin Hn. induction tmpl as [|[text|m] tmpl IH]; [by apply elem_of_nil in Hin| |]; cbn in *.
  - destruct (Execute env tmpl); [by apply IH|done].
  - apply elem_of_cons in Hin as [<-|Hin]; [by rewrite Hn|]. destruct (env !! m); [|done].
    destruct (Execute env tmpl); [by apply IH|done].
Qed.

Lemma for_each_first {A} (p : A -> bool) (e : A -> error) l :
  for_each (fun x => fail_if (p x) (e x)) l = match List.find p l with Some x => Err (e x) | None => Ok () end.
Proof. induction l as [|x l IH]; [done|]. cbn. by destruct (p x). Qed.

Lemma blank_present env name : blank env name = false -> is_Some (env !! name).
Proof. unfold blank, env_value. destruct (env !! name); [by eexists|]. by rewrite bool_decide_eq_false. Qed.

Lemma fill_field get tmpl before name after : tmpl = before ++ EnvField name :: after ->
  fill get tmpl = fill get before +:+ get name +:+ fill get after.
Proof.
  intros ->. induction before as [|n before IH]; cbn [app]; rewrite !fill_cons; [done|].
  by rewrite IH, app_assoc_str.
Qed.

(** ** The document is complete or not written *)

(** The environment has of a variable what its last entry says. *)
Theorem environ_last environ key value : free_of "=" key ->
  env_value (environ_map (environ ++ [key +:+ "=" +:+ value])) key = value.
Proof.
  intros Hk. unfold environ_map, env_value. rewrite foldl_app. cbn [foldl].
  change ("=" +:+ value) with (String "=" value). rewrite (Cut_byte "=" key value) by done. by rewrite lookup_insert_eq.
Qed.

(** The generator names the first help output that is blank and writes nothing; with
    none blank, the document it writes is the template with every help output in its
    place, and only writing it can fail: the template asks for no variable the
    generator has not checked, and every one it checks has its place. *)
Theorem reference_complete WriteFile environ :
  let env := environ_map environ in
  render (Ok cli_reference) WriteFile environ =
    match List.find (blank env) requiredVars with
    | Some name => (Err (empty_error name), None)
    | None => (wrap_err "write output: %w" (WriteFile (fill (env_value env) cli_reference)),
               Some (fill (env_value env) cli_reference))
    end /\
  (forall name, name ∈ requiredVars <-> name ∈ fields cli_reference) /\
  forall name, name ∈ requiredVars -> exists before after,
    fill (env_value env) cli_reference = before +:+ env_value env name +:+ after.
Proof.
  cbv zeta. set (env := environ_map environ). split; [|split].
  - unfold render. fold env. rewrite (for_each_first (blank env)).
    destruct (List.find (blank env) requiredVars) as [name|] eqn:E; [done|].
    cbn [wrap_err]. rewrite Execute_fields; [done|]. change (fields cli_reference) with requiredVars.
    apply Forall_forall. intros name Hn. apply blank_present.
    apply (find_none _ _ E). by apply list_elem_of_In.
  - intros name. by change (fields cli_reference) with requiredVars.
  - intros name Hn. change requiredVars with (fields cli_reference) in Hn.
    apply list_elem_of_omap in Hn as ([|m] & Hin & Hm); [done|]. injection Hm as ->.
    apply list_elem_of_split in Hin as (before & after & E).
    eexists _, _. by apply fill_field.
Qed.

(** A variable the template asks for and the environment lacks fails the generator
    before anything is written. *)
Theorem missing_key_fails WriteFile environ tmpl name :
  name ∈ fields tmpl -> environ_map environ !! name = None ->
  main (Ok tmpl) WriteFile environ = 1%Z /\ (render (Ok tmpl) WriteFile environ).2 = None.
Proof.
  intros Hin Hn. unfold main, render. cbn [wrap_err]. pose proof (Execute_missing _ _ _ Hin Hn) as He.
  destruct (for_each _ _) as [u|e]; [|done]. destruct (Execute _ tmpl); [done|]. done.
Qed.

Example render_blank : (render (Ok cli_reference) (fun _ => Ok ()) ["ROOT_USAGE=pv-migrate"; "BACKUP_USAGE= "]).1 =
  Err (empty_error "BACKUP_USAGE").
Proof. vm_compute. reflexivity. Qed.
