(* ===== verification/Ssh.v ===== *)
(** * internal/ssh: the key pair of a migration

    ssh.go and types.go.  Key generation, PKCS #1 and PEM are the standard
    library's; [ssh.NewPublicKey], [ssh.MarshalAuthorizedKey] and [ssh.Marshal] are
    those of golang.org/x/crypto/ssh: all are parameters.  What is modelled in full
    is the OpenSSH container that [marshalED25519PrivateKey] builds by hand around
    an ed25519 key.  Bytes are the characters of a string. *)
From S2P Require Import Prelude GoStrings.
From stdpp Require Import options.
Local Open Scope Z_scope.

Definition byte_of (z : Z) : ascii := ascii_of_N (Z.to_N (z mod 256)).

(** ** The structs handed to [ssh.Marshal], as their fields in order *)

Inductive field : Type :=
  | Uint32 (z : Z)
  | Bytes (s : string)      (* a string or a []byte *)
  | Rest (s : string).      (* a []byte tagged ssh:"rest" *)

Record ed25519message : Type := mkMessage {
  CipherName : string; KdfName : string; KdfOpts : string; NumKeys : Z; PubKey : string; PrivKeyBlock : string
}.
Definition message_fields (m : ed25519message) : list field :=
  [Bytes (CipherName m); Bytes (KdfName m); Bytes (KdfOpts m); Uint32 (NumKeys m); Bytes (PubKey m); Bytes (PrivKeyBlock m)].

Record ed25519pk1 : Type := mkPk1 {
  Check1 : Z; Check2 : Z; Keytype : string; Pub : string; Priv : string; Comment : string; Pad : string
}.
Definition pk1_fields (p : ed25519pk1) : list field :=
  [Uint32 (Check1 p); Uint32 (Check2 p); Bytes (Keytype p); Bytes (Pub p); Bytes (Priv p); Bytes (Comment p); Rest (Pad p)].

Definition KeyAlgoED25519 : string := "ssh-ed25519".
Definition zero : string := String (byte_of 0) "".

(** [pk1.Pad[i] = byte(i + 1)] for the first [n] indices. *)
Definition padding (n : Z) : string :=
  String.string_of_list_ascii ((fun i => byte_of (Z.of_nat i + 1)) <$> seq 0 (Z.to_nat n)).

(** [key.Public()]: an ed25519 private key ends in the public one. *)
Definition Public (key : string) : string := String.substring 32 32 key.

Section Marshal.
Context (Marshal : list field -> string).

Definition marshalED25519PrivateKey (rnd : result Z) (key : string) : result string :=
  let magic := "openssh-key-v1" +:+ zero in
  match rnd with
  | Err e => Err (Errorf "failed to generate random number: %w" [AWrap e])
  | Ok rnd =>
      let check := rnd mod 2 ^ 32 in
      let pubKey := Public key in
      let pk1 := mkPk1 check check KeyAlgoED25519 pubKey key "" "" in
      let bs := 8 in
      let blockLen := len (Marshal (pk1_fields pk1)) in
      let padLen := (bs - blockLen mod bs) mod bs in
      let pk1 := mkPk1 check check KeyAlgoED25519 pubKey key "" (padding padLen) in
      let pubkeyFull :=
        String.string_of_list_ascii [byte_of 0; byte_of 0; byte_of 0; byte_of 11] +:+ KeyAlgoED25519
        +:+ String.string_of_list_ascii [byte_of 0; byte_of 0; byte_of 0; byte_of 32] +:+ pubKey in
      Ok (magic +:+ Marshal (message_fields (mkMessage "none" "none" "" 1 pubkeyFull (Marshal (pk1_fields pk1)))))
  end.

(** ** [CreateSSHKeyPair] *)

Section Create.
Context {RSAKey PublicKey : Type}.
Context (GenerateRSA : Z -> result RSAKey) (GenerateEd25519 : result (string * string)).
Context (random : result Z).                             (* [rand.Int] *)
Context (MarshalPKCS1 : RSAKey -> string) (pem_Encode : string -> string -> result string).
Context (NewPublicKey : RSAKey + string -> result PublicKey) (MarshalAuthorizedKey : option PublicKey -> string).

Definition rsaKeyLengthBits : Z := 2048.

Definition createSSHRSAKeyPair : result (string * string) :=
  privateKey ← wrap_err "failed to generate rsa key pair: %w" (GenerateRSA rsaKeyLengthBits);
  privKey ← wrap_err "failed to encode private key: %w" (pem_Encode "RSA PRIVATE KEY" (MarshalPKCS1 privateKey));
  pub ← wrap_err "failed to generate public key: %w" (NewPublicKey (inl privateKey));
  Ok (MarshalAuthorizedKey (Some pub), privKey).

(** The error of [NewPublicKey] is ignored here, and the key is nil with it. *)
Definition createSSHEd25519KeyPair : result (string * string) :=
  keys ← wrap_err "failed to generate ed25519 key pair: %w" GenerateEd25519;
  let '(pubKey, privateKey) := keys in
  ed25519PrivateKey ← marshalED25519PrivateKey random privateKey;
  privKey ← wrap_err "failed to encode private key: %w" (pem_Encode "OPENSSH PRIVATE KEY" ed25519PrivateKey);
  let pub := match NewPublicKey (inr pubKey) with Ok pub => Some pub | Err _ => None end in
  Ok (MarshalAuthorizedKey pub, privKey).

Definition rsaKeyAlgorithm : string := "rsa".
Definition ed25519KeyAlgorithm : string := "ed25519".

Definition CreateSSHKeyPair (keyAlgorithm : string) : result (string * string) :=
  if decide (keyAlgorithm = rsaKeyAlgorithm) then createSSHRSAKeyPair
  else if decide (keyAlgorithm = ed25519KeyAlgorithm) then createSSHEd25519KeyPair
  else Err (Errorf "unsupported key algorithm: %s" [AStr keyAlgorithm]).
End Create.

End Marshal.

(** ** Specification: the wire format, and a reader of the container *)

(** RFC 4251, section 5, as [ssh.Marshal] documents it. *)
Definition uint32 (z : Z) : string :=
  String.string_of_list_ascii [byte_of (z / 2 ^ 24); byte_of (z / 2 ^ 16); byte_of (z / 2 ^ 8); byte_of z].
Definition wire (f : field) : string :=
  match f with Uint32 z => uint32 z | Bytes s => uint32 (len s) +:+ s | Rest s => s end.
Definition wire_format (fs : list field) : string := String.concat "" (wire <$> fs).

(** A reader takes what it read off the text. *)
Definition reader (A : Type) : Type := string -> option (A * string).

Definition read_uint32 : reader Z := fun s =>
  match s with
  | String a (String b (String c (String d s))) => Some (byte a * 2 ^ 24 + byte b * 2 ^ 16 + byte c * 2 ^ 8 + byte d, s)
  | _ => None
  end.

Fixpoint take_bytes (n : nat) (s : string) : option (string * string) :=
  match n, s with
  | O, s => Some ("", s)
  | S n, String a s => match take_bytes n s with Some (t, s) => Some (String a t, s) | None => None end
  | S _, EmptyString => None
  end.

Definition read_bytes : reader string := fun s =>
  '(n, s) ← read_uint32 s; take_bytes (Z.to_nat n) s.

(** The private half: two equal checks, the type, both keys, a comment, and the
    padding 1, 2, 3, ... that fills the block up to a multiple of eight. *)
Definition read_private (block : string) : option (string * string) :=
  '(check1, s) ← read_uint32 block;
  '(check2, s) ← read_uint32 s;
  '(keytype, s) ← read_bytes s;
  '(pub, s) ← read_bytes s;
  '(priv, s) ← read_bytes s;
  '(comment, pad) ← read_bytes s;
  if bool_decide (check1 = check2) && bool_decide (keytype = KeyAlgoED25519) && bool_decide (len block mod 8 = 0)
     && bool_decide (len pad < 8) && bool_decide (pad = padding (len pad))
  then Some (pub, priv) else None.

(** PROTOCOL.key of OpenSSH, for an unencrypted ed25519 key. *)
Definition read_key (s : string) : option (string * string) :=
  '(magic, s) ← take_bytes 15 s;
  '(cipher, s) ← read_bytes s;
  '(kdf, s) ← read_bytes s;
  '(opts, s) ← read_bytes s;
  '(keys, s) ← read_uint32 s;
  '(blob, s) ← read_bytes s;
  '(block, s) ← read_bytes s;
  '(blob_type, blob_rest) ← read_bytes blob;
  '(blob_key, blob_end) ← read_bytes blob_rest;
  '(pub, priv) ← read_private block;
  if bool_decide (magic = "openssh-key-v1" +:+ zero) && bool_decide (cipher = "none") && bool_decide (kdf = "none")
     && bool_decide (opts = "") && bool_decide (keys = 1) && bool_decide (s = "")
     && bool_decide (blob_type = KeyAlgoED25519) && bool_decide (blob_key = pub) && bool_decide (blob_end = "")
  then Some (pub, priv) else None.

(** ** Lemmas *)

Lemma byte_byte_of z : byte (byte_of z) = z mod 256.
Proof.
  unfold byte, byte_of. rewrite N_ascii_embedding; [rewrite Z2N.id; [done|]|]; pose proof (Z.mod_pos_bound z 256); lia.
Qed.

Lemma read_uint32_wire z s : 0 <= z < 2 ^ 32 -> read_uint32 (wire (Uint32 z) +:+ s) = Some (z, s).
Proof.
  intros Hz. cbn [wire uint32 String.string_of_list_ascii String.append read_uint32]. unfold uint32. cbn. do 2 f_equal.
  rewrite !byte_byte_of. change (2 ^ 24) with 16777216. change (2 ^ 16) with 65536. change (2 ^ 8) with 256.
  change (2 ^ 32) with 4294967296 in Hz. Z.to_euclidean_division_equations. lia.
Qed.

Lemma take_bytes_app s t : take_bytes (String.length s) (s +:+ t) = Some (s, t).
Proof. induction s as [|a s IH]; [done|]. cbn. by rewrite IH. Qed.

Lemma read_bytes_wire s t : len s < 2 ^ 32 -> read_bytes (wire (Bytes s) +:+ t) = Some (s, t).
Proof.
  intros Hs. unfold read_bytes. cbn [wire]. rewrite app_assoc_str. change (uint32 (len s)) with (wire (Uint32 (len s))). rewrite read_uint32_wire by (unfold len in *; lia).
  cbn. unfold len. by rewrite Nat2Z.id, take_bytes_app.
Qed.

Lemma wire_cons f fs : wire_format (f :: fs) = wire f +:+ wire_format fs.
Proof. unfold wire_format. destruct fs as [|g fs]; cbn; [by rewrite app_nil_r_str|done]. Qed.

Lemma len_uint32 z : len (uint32 z) = 4.
Proof. done. Qed.

Lemma len_padding n : 0 <= n -> len (padding n) = n.
Proof.
  intros Hn. unfold len, padding. assert (forall l, String.length (String.string_of_list_ascii l) = length l) as H
    by (induction l; cbn; congruence).
  rewrite H, length_fmap, length_seq. lia.
Qed.

Lemma pk1_length check pub key pad :
  len (wire_format (pk1_fields (mkPk1 check check KeyAlgoED25519 pub key "" pad))) = 35 + len pub + len key + len pad.
Proof.
  unfold pk1_fields. cbn [Check1 Check2 Keytype Pub Priv Comment Pad]. rewrite !wire_cons. cbn [wire].
  rewrite !len_app, !len_uint32. change (len KeyAlgoED25519) with 11. change (len "") with 0.
  change (len (wire_format [])) with 0. lia.
Qed.

Lemma read_private_wire check pub key :
  0 <= check < 2 ^ 32 -> len pub < 2 ^ 32 -> len key < 2 ^ 32 ->
  let padLen := (8 - (35 + len pub + len key) mod 8) mod 8 in
  read_private (wire_format (pk1_fields (mkPk1 check check KeyAlgoED25519 pub key "" (padding padLen)))) = Some (pub, key).
Proof.
  intros Hc Hp Hk padLen. assert (0 <= padLen < 8) as Hpad by (apply Z.mod_pos_bound; lia).
  unfold read_private. rewrite pk1_length, len_padding by lia.
  unfold pk1_fields. cbn [Check1 Check2 Keytype Pub Priv Comment Pad]. rewrite !wire_cons.
  do 2 (rewrite read_uint32_wire by done; cbn [mbind option_bind]).
  do 4 (rewrite read_bytes_wire by done; cbn [mbind option_bind]).
  change (wire (Rest (padding padLen)) +:+ wire_format []) with (padding padLen +:+ "").
  rewrite app_nil_r_str, len_padding by lia. rewrite !bool_decide_eq_true_2; [done|done|lia| |done|done].
  unfold padLen. Z.to_euclidean_division_equations. lia.
Qed.

Lemma read_key_wire magic pub key block :
  magic = "openssh-key-v1" +:+ zero -> len pub < 2 ^ 31 -> len block < 2 ^ 32 -> read_private block = Some (pub, key) ->
  read_key (magic +:+ wire_format (message_fields
    (mkMessage "none" "none" "" 1 (wire_format [Bytes KeyAlgoED25519; Bytes pub]) block))) = Some (pub, key).
Proof.
  intros -> Hp Hb Hr. assert (len (wire_format [Bytes KeyAlgoED25519; Bytes pub]) < 2 ^ 32) as Hl.
  { rewrite !wire_cons. cbn [wire]. rewrite !len_app, !len_uint32. change (len KeyAlgoED25519) with 11.
    change (len (wire_format [])) with 0. lia. }
  unfold read_key. change 15%nat with (String.length ("openssh-key-v1" +:+ zero)). rewrite take_bytes_app. cbn [mbind option_bind].
  unfold message_fields. cbn [CipherName KdfName KdfOpts NumKeys PubKey PrivKeyBlock].
  rewrite (wire_cons (Bytes "none")), (wire_cons (Bytes "none")), (wire_cons (Bytes "")), (wire_cons (Uint32 1)).
  rewrite (wire_cons (Bytes (wire_format _))), (wire_cons (Bytes block)).
  do 3 (rewrite read_bytes_wire by done; cbn [mbind option_bind]).
  rewrite read_uint32_wire by done. cbn [mbind option_bind].
  do 2 (rewrite read_bytes_wire by done; cbn [mbind option_bind]).
  rewrite !wire_cons. do 2 (rewrite read_bytes_wire by (done || lia); cbn [mbind option_bind]).
  rewrite Hr. cbn [mbind option_bind]. by rewrite !bool_decide_eq_true_2.
Qed.

Lemma length_substring n m s : (n + m <= String.length s)%nat -> String.length (String.substring n m s) = m.
Proof.
  revert n m. induction s as [|a s IH]; intros [|n] [|m] H; cbn in *; try done; try lia.
  - f_equal. apply (IH 0%nat m). lia.
  - apply (IH n 0%nat). lia.
  - apply (IH n (S m)). lia.
Qed.

Lemma len_Public key : len key = 64 -> len (Public key) = 32.
Proof. unfold len, Public. intros H. rewrite length_substring; lia. Qed.

(** * The properties *)

(** C24: the private key the mover is given can be read.  For an ed25519 key the
    container built by hand is one that a reader of OpenSSH's format for
    unencrypted keys accepts, and it reads back the public and the private key that
    went in: the lengths written as constants are those of what follows them, the
    two checks agree, and the padding fills the block up to a multiple of eight. *)
Theorem private_key_readable (Marshal : list field -> string) (rnd : Z) (key : string) :
  (forall fs, Marshal fs = wire_format fs) -> len key = 64 ->
  exists out, marshalED25519PrivateKey Marshal (Ok rnd) key = Ok out /\ read_key out = Some (Public key, key).
Proof.
  intros HM Hk. assert (len (Public key) = 32) as Hp by (by apply len_Public).
  unfold marshalED25519PrivateKey. cbv zeta. eexists. split; [done|]. rewrite !HM, pk1_length.
  change (len "") with 0. rewrite Z.add_0_r.
  match goal with |- context [mkMessage _ _ _ _ ?b _] =>
    assert (b = wire_format [Bytes KeyAlgoED25519; Bytes (Public key)]) as -> end.
  { rewrite !wire_cons. cbn [wire]. rewrite Hp. change (wire_format []) with "". by rewrite app_nil_r_str, !app_assoc_str. }
  assert (0 <= rnd mod 2 ^ 32 < 2 ^ 32) as Hc by (apply Z.mod_pos_bound; done).
  apply read_key_wire; [done|lia| |].
  - rewrite pk1_length, len_padding by (apply Z.mod_pos_bound; lia). by rewrite Hp, Hk.
  - apply read_private_wire; [done|lia|lia].
Qed.

(** A seed and a public key, the bytes of each all equal. *)
Definition sample_key : string := String.string_of_list_ascii (replicate 32 "s"%char ++ replicate 32 "p"%char).

Lemma private_key_readable_witness :
  exists out, marshalED25519PrivateKey wire_format (Ok 7) sample_key = Ok out /\
              read_key out = Some (Public sample_key, sample_key).
Proof. apply (private_key_readable wire_format 7); [intros fs; reflexivity|reflexivity]. Defined.
